(* ===== verification/_CoqProject ===== *)
-Q . S2P
Prelude.v
F64.v
GameTime.v
Common.v
TcpServer.v
TcpClient.v
Conversation.v
Udp.v
FiberServer.v
Workers.v
Handlers.v
ServerTasks.v
Tls.v
Rist.v
Lz4.v
Lzma.v
Os.v
Signals.v
Gamepad.v
Render.v
Demo.v
Tests.v
RaftConverter.v
Grpc.v
Raft.v
Build.v
Media.v
TestClock.v
TestNet.v
TestUdp.v
