(* ===== verification/Prelude.v ===== *)
(** * A verification development of the WolfEngine core crate

    WolfEngine ([wolf/], Rust) is a library of building blocks for real-time
    applications: a game clock, TCP, websocket, UDP and gRPC endpoints driven by
    callbacks, TLS set-up, RIST streams, LZ4 and LZMA compression, an FFmpeg
    wrapper, signals, virtual gamepads, a graphics device and a Raft service, with
    the script that builds it and a demo. This
    development models those parts in the Rocq kernel, as shallow embeddings
    translated from the source, and proves what each of them guarantees (and,
    where the code falls short of what it means to do, what it does instead).

    ** The parts, and the files that model them

    - [Prelude.v] (this file): what all components share. [result] is
      [Result<T, E>]; [res] is the outcome of a computation: [Ret], [Panic] (a
      Rust panic, or undefined behaviour of an unsafe block, named as such) or
      [NoFuel]. [M Env Ev] is the monad of effectful code: a step acts on an
      environment [Env] and leaves a trace of observed events [Ev]. [loop] is
      Rust's [loop], [try_] (written [x <-? m; k] with the arrow of the file) the
      [?] operator. [wp] states properties of every run and comes with one rule
      per construct. [arith_u] and [arith_s] are the machine integers, under
      both overflow profiles ([Checked]: debug, panics; [Wrapping]: release).
    - [F64.v]: IEEE binary64 ([f64]) on Rocq's specification floats, the
      exactness and rounding lemmas used below, [Duration] and [Instant] in
      nanoseconds, and the class [Clock] of monotonic clocks.
    - [GameTime.v]: [system/chrono/gametime.rs]. [GameTime] is the struct;
      [default], [reset], the setters and getters and [tick_fn] are its methods;
      [fixed_step] is one iteration of the [while] of a fixed-step tick.
    - [Common.v]: [stream/common/] (buffer, callbacks, protocols, timeouts) and
      the interfaces of the libraries below it: errors, addresses, byte streams,
      and the race of [select!], whose winner the environment decides.
    - [TcpServer.v]: [stream/tcp/tcp_server.rs]. [handle_tcp_connection] and
      [handle_ws_connection] are the two protocol handlers, each a [loop] of a
      [_round]; [accept_connection] wraps them in the callbacks;
      [connection_task] is the spawned task; [server_main_loop] and [server] the
      accept loop and the life of the server.
    - [TcpClient.v], [Udp.v], [FiberServer.v]: the same for
      [stream/tcp/tcp_client.rs], [stream/udp.rs] and
      [stream/tcp/tcp_server_fiber.rs].
    - [Conversation.v]: a client of [TcpClient.v] and a native connection of
      [TcpServer.v] over one connection, a fifo of bytes each way ([wire_step]),
      in every interleaving of their runs.
    - [Tls.v]: [stream/common/tls.rs], the acceptor a TLS server needs.
    - [Workers.v]: the workers of the fiber server as automata ([phase_step]) that
      the code of [FiberServer.worker] refines, and all of them together
      ([net_step]) over the shutdown channel and its lock, in every interleaving.
    - [Handlers.v]: a judgment on effectful code ([safe], over the events a
      component may show) and the bounds of every handler and endpoint.
    - [ServerTasks.v]: the accept loop of [TcpServer.v] and one of its connections
      as automata ([main_step], [conn_step]) that the code refines, and the loop
      with all the tasks it spawned ([sys_step]), in every interleaving.
    - [Rist.v]: [stream/rist.rs], with the C++ below it ([sys/stream/rist.cpp],
      [rist_data_block.cpp]): the contexts and data blocks live on a heap, and
      following a null or freed pointer is undefined.
    - [Lz4.v]: [system/compression/lz4.rs] and the C functions it calls
      ([sys/system/lz4.cpp]), over vectors with a length and a capacity, so that
      [set_len] and the writes of the C side are checked.
    - [Lzma.v]: [system/compression/lzma.rs], with the C++ below it
      ([system/_cxx/lzma/lzma.cpp]): the headers, the two formats ([compress_1],
      [compress_2] and their inverses), the blocks owned and the bounds of the
      reads and writes the C library is told to make.
    - [Signals.v]: [system/os/sigslot.rs] ([SigSlot], [Slot]) and
      [system/os/runtime.rs] ([thread], [green_thread], [spawn_local], the sleeps),
      with the scripted test of the demo that uses them ([test]).
    - [Gamepad.v]: [system/os/vigem_client.rs], with the C++ below it
      ([os/cxx/vigem_client/]): the class [impl] and its methods, histories of
      calls ([life]) and the bytes of a report.
    - [Render.v]: [render/graphics_device.rs], the device and the configuration of
      its surface; [Demo.v]: [wolf-demo/src/main.rs], the event loop that drives
      the device and the game clock.
    - [RaftConverter.v], [Raft.v]: [system/algorithm/raft/]: the wire messages
      and their conversions; the handlers of the service ([srv_*]), the router
      through which a node calls the others ([router_*]), and node creation.
    - [Grpc.v]: [stream/http/grpc.rs], which the router uses to connect.
    - [Media.v]: [media/ffmpeg.rs], with the C++ below it ([sys/media/ffmpeg.cpp],
      [conversion.cpp]): the contexts, frames, packets and buffers live on a heap
      with their owners, and the clean-up lists of the C++ are values that are
      walked as the code does.
    - [Build.v]: [build.rs]: [main] and the steps it calls ([cmake], [link],
      [bindgens], [build_protos]), over the host, the features and a machine.
    - [Os.v]: [lib.rs] (the version string, with [sys/wolf/version.cpp]),
      [system/os/system.rs], [system/os/screen.rs], [system/script/] and the
      timeout of [system/chrono/time.rs].

    - [Tests.v], [TestClock.v], [TestNet.v], [TestUdp.v]: the repository's own tests
      ([wolf/tests/], [lzma.rs], [udp.rs]), run over those models: LZ4, LZMA, the
      runtime, the scripts and the capture of the screen; the game clock; RIST and
      Raft over gRPC; the UDP endpoint. The test of the signals is in [Signals.v].

    The components meet at their interfaces. The demo ticks the clock and resizes
    the device and loads a scene that runs the test of the signals, whose lemmas
    its own theorem uses ([retrace] embeds the events of a component in those of
    its caller). The client and the server meet on the wire: their two session
    relations give what each sends and shows, and the wire relates the two. A
    server calls the handlers, which call the callbacks with the buffer ([Common.Buffer]) as shared state: a
    callback takes the buffer and leaves another of the same type. The router
    calls [Grpc.create_channel] and the converters; the handlers of the service
    call the converters the other way.

    ** What is a parameter

    Code outside the repository is a type class with operations on the
    environment (sockets, clocks, TLS, the websocket, LZ4, JSON, RPC and
    consensus libraries), and what is relied on is a separate class of laws
    ([ClockLaws], [StreamLaws], [WsLaws], [UdpLaws], [LZ4Laws], [EntriesLaws],
    [TransportLaws], [LibristLaws], [WinitLaws], [LzmaCaps], [LzmaLaws],
    [SignalsLaws], [RuntimesLaws], [TasksConnect]): documented behaviour such as a
    read filling no more than the buffer it is given. Libav ([Libav]), the machine
    of the build script ([Machine]), the displays, the script engines, the process
    library and the driver of the gamepads have no laws: what is proved of their
    callers holds whatever they return. The [Runs] module of each file
    instantiates them with concrete functions, evaluates the definitions on
    concrete peers, and applies the theorems there.

    ** What the theorems show

    - The game clock: a fixed-step tick terminates in binary64 arithmetic
      (rounding included) for every target from a microsecond to a minute, and
      its callbacks, counters and left-over time are characterised; on a dyadic
      grid it is exact division; the clock stays well formed; the frame rate is
      that of the closed one-second window. A target of zero never returns.
    - The handlers: each refines a relation that says what a session is
      ([native_session], [ws_connection], [client_session], [server_session],
      [fiber_session]): the order of reads, callbacks and writes, what is
      written, and every way it ends. The raw copy of a websocket message stays
      within the buffer. A native session whose peer has gone goes on for ever,
      unless the callback refuses an empty message or the timer comes first.
    - A client and a native server together: a callback is shown only what the
      other end sent, in order and from its beginning, which is what the other
      callback left as long as writes take all they are given.
    - A server with its connections: every accepted connection has its own task,
      which goes through its phases with its own peer whatever the others do, also
      after the server returned; shutdowns are received in the order they were
      asked for, and the first [true] ends the accept loop and nothing else.
    - The life cycles: which callbacks run, in which order, with which message,
      exactly when; the accept loops hand over each connection once, in order,
      and stop on a shutdown only.
    - The workers: their traces and outcomes are exactly the paths of the
      automaton; each shutdown asked for stops exactly one worker or is still
      queued; once one was asked for per worker, the shutdown can be completed
      from every reachable state (when the accept timeout is positive and nothing
      else holds the lock); an interleaving projects to runs of the code.
    - The bounds: whatever size the callbacks leave, they are shown one of at most
      1024, and no read, write or websocket message sent exceeds it; only a client
      of UDP shows the size its callback left.
    - TLS: no certificate and key give an acceptor, the guards being inverted. A
      gRPC server configured with TLS never serves without an identity.
    - RIST: a data block or context made in a scope is released exactly once;
      wrapping, cloning and connecting break the ownership the C side assumes.
    - FFmpeg: no sequence of calls frees twice, releases an object as one of
      another kind or uses what was freed; memory of [av_malloc] reaches [free] only
      where something decodes; what is left unchecked is named (null pointers and
      bounds); a context serves one frame; [ffmpeg_fini] releases all of it.
    - The build script: every way it can go, with its commands, its copies and the
      message of each panic; the library whose presence skips the build is in the
      directory that is searched; the bindings.
    - The device's surface always has the configuration of its last valid size,
      and the demo, its scene loaded, draws one frame per tick and redraw,
      stopping when asked.
    - LZ4: compression followed by decompression is the identity up to 10^9
      bytes, in both profiles, within the attempts the code makes; what bad
      sources give in each profile, and the overflow outside that range.
    - LZMA: compression followed by decompression is the identity and leaves
      nothing allocated, up to 256 MiB (4096 bytes for LZMA2, whose decoder is
      given the smallest dictionary); what any other source can do, the overruns
      included; the properties of the encoders.
    - Signals: the demo's test greets once, from the slot that stayed connected,
      and so does the test that shares the signal with threads, whenever they run.
      The tests of the two compressions give their data back; the capture of the
      screen ends with six frames or names what stopped it; the test of the clock
      ends for every clock that advances, with its 301st frame; those of RIST are
      undefined when they connect, and past that a sender releases what it makes.
      Gamepads: every controller plugged in is freed once, in any history; the one
      refused never; and a report overruns the stack.
    - Raft: the conversions are inverse, the handlers always answer, and calling
      a node through the router is calling the node.

    ** Fuel and bounds

    A [loop] takes fuel. The session and accept loops of the servers do not end
    by themselves, so their theorems speak of every fuel: a run out of fuel is a
    session that is still open, and its trace is constrained like the others.
    The [while] of a tick must end: [GameTime.enough_fuel] bounds its iterations
    from the time left over, the delta (clamped to 60000 seconds) and the
    target, and the theorem shows that with that fuel it ends. The loop of the
    clock's test is bounded by [TestClock.ticks_per_frame] ticks a frame. The loop
    of the LZMA2 decoder reads or writes a byte per round when it decodes what
    [compress] made, so its fuel is the sum of both lengths. All other recursion is
    structural. Sizes are [Z] with the conversions ([try_from], [as]) of the code;
    wire integers are the [Z] they denote.

    ** What is not modelled

    The bindgen output ([*/ffi/]); the stubs of WebRTC and of the database; the
    branches for WebAssembly, except the JavaScript engine and [RunTime::thread].
    The contents of images and packets: an FFmpeg buffer is its size. Tasks are
    modelled one at a time, except the workers of the fiber server, the TCP server
    with its connections, and the two ends of a conversation: elsewhere a spawn is
    an event, and what concurrent tasks share (the shutdown channel under its lock)
    is part of the environment, which may change between any two steps. *)
From stdpp Require Export base numbers list strings gmap.
From Stdlib Require Export Lia ZArith.

#[global] Set Default Goal Selector "!".

(** Hints of the development: inclusion of traces. *)
Create HintDb trace.

(** ** Results of fallible code *)

(** [Result<T, E>]. *)
Inductive result (T E : Type) : Type :=
| Ok (t : T)
| Err (e : E).
Arguments Ok {T E} t.
Arguments Err {T E} e.

Definition is_ok {T E} (r : result T E) : bool :=
  match r with Ok _ => true | Err _ => false end.
Definition is_err {T E} (r : result T E) : bool := negb (is_ok r).

(** [Result::map_err] and [Result::map]. *)
Definition map_err {T E F} (f : E -> F) (r : result T E) : result T F :=
  match r with Ok t => Ok t | Err e => Err (f e) end.
Definition result_map {T U E} (f : T -> U) (r : result T E) : result U E :=
  match r with Ok t => Ok (f t) | Err e => Err e end.

(** [Option::ok_or_else]. *)
Definition ok_or_else {T E} (e : E) (o : option T) : result T E :=
  match o with Some t => Ok t | None => Err e end.

(** ** Outcomes of effectful code

    A computation of the program ends with a value, panics, or is still
    running when its fuel is spent; it acts on an environment [Env] (sockets,
    clock, callbacks, foreign code) and leaves a trace of the events [Ev] an
    observer sees. *)
Inductive res (A : Type) : Type :=
| Ret (a : A)
| Panic (why : string)
| NoFuel.
Arguments Ret {A} a.
Arguments Panic {A} why.
Arguments NoFuel {A}.

Definition is_Ret {A} (r : res A) : bool := match r with Ret _ => true | _ => false end.
Definition res_bind {A B} (k : A -> res B) (m : res A) : res B :=
  match m with Ret a => k a | Panic s => Panic s | NoFuel => NoFuel end.
#[export] Instance res_mret : MRet res := @Ret.
#[export] Instance res_mbind : MBind res := @res_bind.

(** One iteration of a [loop] either continues with the state it leaves or
    breaks with the value of the loop. *)
Inductive flow (St B : Type) : Type :=
| Continue (s : St)
| Break (b : B).
Arguments Continue {St B} s.
Arguments Break {St B} b.

Definition M (Env Ev A : Type) : Type := Env -> res A * Env * list Ev.

Section monad.
Context {Env Ev : Type}.
Implicit Types e : Env.
Implicit Types t : list Ev.

Definition M_ret {A} (a : A) : M Env Ev A := fun e => (Ret a, e, []).
Definition M_bind {A B} (k : A -> M Env Ev B) (m : M Env Ev A) : M Env Ev B :=
  fun e =>
    match m e with
    | (Ret a, e1, t1) => let '(r, e2, t2) := k a e1 in (r, e2, t1 ++ t2)
    | (Panic s, e1, t1) => (Panic s, e1, t1)
    | (NoFuel, e1, t1) => (NoFuel, e1, t1)
    end.

(** A panic, a silent step of the environment, a step that is observed, and
    an observation alone. *)
Definition panic {A} (s : string) : M Env Ev A := fun e => (Panic s, e, []).
Definition lift {A} (r : res A) : M Env Ev A := fun e => (r, e, []).
Definition act {A} (f : Env -> A * Env) : M Env Ev A :=
  fun e => let '(a, e') := f e in (Ret a, e', []).
Definition emit (ev : Ev) : M Env Ev unit := fun e => (Ret tt, e, [ev]).

(** A step of the environment whose result is observed, and a call of code
    that may itself panic. *)
Definition obs {A} (f : Env -> A * Env) (ev : A -> Ev) : M Env Ev A :=
  fun e => let '(a, e') := f e in (Ret a, e', [ev a]).
Definition call {A} (f : Env -> res A * Env) (ev : A -> Ev) : M Env Ev A :=
  fun e => let '(r, e') := f e in
           (r, e', match r with Ret a => [ev a] | _ => [] end).

(** The [loop] of the source, unrolled at most [fuel] times. *)
Fixpoint loop {St B} (fuel : nat) (body : St -> M Env Ev (flow St B)) (s : St)
  : M Env Ev B :=
  match fuel with
  | O => fun e => (NoFuel, e, [])
  | S n => M_bind (fun f => match f with
                            | Continue s' => loop n body s'
                            | Break b => M_ret b
                            end) (body s)
  end.
End monad.

(** A computation seen with other events: a component run by another. *)
Definition retrace {Env Ev Ev' A} (f : Ev -> Ev') (m : M Env Ev A) : M Env Ev' A :=
  fun e => let '(r, e', t) := m e in (r, e', map f t).

#[export] Instance M_mret Env Ev : MRet (M Env Ev) := @M_ret Env Ev.
#[export] Instance M_mbind Env Ev : MBind (M Env Ev) := @M_bind Env Ev.

Declare Scope rust_scope.
Delimit Scope rust_scope with rust.

(** The [?] operator: the rest runs on the [Ok] value, an [Err] returns early
    through the conversion [f] of its error. *)
Definition try_ {Env Ev T U E F} (f : E -> F) (m : M Env Ev (result T E))
    (k : T -> M Env Ev (result U F)) : M Env Ev (result U F) :=
  r ← m; match r with Ok t => k t | Err e => mret (Err (f e)) end.
Notation "x ←? m ; k" := (try_ id m (fun x => k))
  (at level 20, m at level 100, k at level 200, only parsing) : rust_scope.
Notation "x ←?[ f ] m ; k" := (try_ f m (fun x => k))
  (at level 20, f at level 100, m at level 100, k at level 200, only parsing) : rust_scope.
Open Scope rust_scope.

(** ** Reasoning about outcomes

    [wp m Q e]: the run of [m] from [e] ends with an outcome, an environment
    and a trace that satisfy [Q], whatever the outcome is. A [Q] that also
    constrains [NoFuel] therefore speaks of every finite prefix of a run that
    does not end. *)
Definition wp {Env Ev A} (m : M Env Ev A) (Q : res A -> Env -> list Ev -> Prop)
    (e : Env) : Prop :=
  let '(r, e', t) := m e in Q r e' t.

Lemma wp_retrace {Env Ev Ev' A} (f : Ev -> Ev') (m : M Env Ev A)
    (Q : res A -> Env -> list Ev' -> Prop) e :
  wp m (fun r e' t => Q r e' (map f t)) e -> wp (retrace f m) Q e.
Proof. unfold wp, retrace. by destruct (m e) as [[r e'] t]. Qed.

(** Every run leaves a trace (with its outcome) in [T]. *)
Definition traces {Env Ev A} (m : M Env Ev A) (T : res A -> list Ev -> Prop) : Prop :=
  forall e, wp m (fun r _ t => T r t) e.

Section wp.
Context {Env Ev : Type}.
Implicit Types e : Env.

Lemma wp_run {A} (m : M Env Ev A) Q e r e' t :
  m e = (r, e', t) -> wp m Q e <-> Q r e' t.
Proof. unfold wp. by intros ->. Qed.

(** The outcome and the trace of a run. *)
Lemma wp_outcome {A} (m : M Env Ev A) (P : res A -> list Ev -> Prop) e :
  wp m (fun r _ t => P r t) e -> P (fst (fst (m e))) (snd (m e)).
Proof. unfold wp. by destruct (m e) as [[r e'] t]. Qed.

Lemma wp_mono {A} (m : M Env Ev A) (Q Q' : res A -> Env -> list Ev -> Prop) e :
  (forall r e' t, Q r e' t -> Q' r e' t) -> wp m Q e -> wp m Q' e.
Proof. unfold wp. destruct (m e) as [[r e'] t]. auto. Qed.

Lemma wp_ret {A} (a : A) Q e : Q (Ret a) e [] -> wp (mret a : M Env Ev A) Q e.
Proof. done. Qed.

Lemma wp_panic {A} s (Q : res A -> Env -> list Ev -> Prop) e :
  Q (Panic s) e [] -> wp (panic s) Q e.
Proof. done. Qed.

Lemma wp_lift {A} (r : res A) Q e : Q r e [] -> wp (lift r : M Env Ev A) Q e.
Proof. done. Qed.

Lemma wp_emit ev Q e : Q (Ret tt) e [ev] -> wp (emit ev : M Env Ev unit) Q e.
Proof. done. Qed.

Lemma wp_act {A} (f : Env -> A * Env) (Q : res A -> Env -> list Ev -> Prop) e :
  (forall a e', f e = (a, e') -> Q (Ret a) e' []) -> wp (act f) Q e.
Proof. unfold wp, act. destruct (f e) as [a e']. auto. Qed.

Lemma wp_obs {A} (f : Env -> A * Env) ev (Q : res A -> Env -> list Ev -> Prop) e :
  (forall a e', f e = (a, e') -> Q (Ret a) e' [ev a]) -> wp (obs f ev) Q e.
Proof. unfold wp, obs. destruct (f e) as [a e']. auto. Qed.

Lemma wp_call {A} (f : Env -> res A * Env) ev (Q : res A -> Env -> list Ev -> Prop) e :
  (forall r e', f e = (r, e') ->
     Q r e' (match r with Ret a => [ev a] | _ => [] end)) -> wp (call f ev) Q e.
Proof. unfold wp, call. destruct (f e) as [r e']. auto. Qed.

(** Sequencing: the continuation's trace follows the first one's. *)
Lemma wp_bind {A B} (m : M Env Ev A) (k : A -> M Env Ev B) Q e :
  wp m (fun r e1 t1 =>
          match r with
          | Ret a => wp (k a) (fun r2 e2 t2 => Q r2 e2 (t1 ++ t2)) e1
          | Panic s => Q (Panic s) e1 t1
          | NoFuel => Q NoFuel e1 t1
          end) e ->
  wp (m ≫= k) Q e.
Proof.
  unfold wp, mbind, M_mbind, M_bind.
  destruct (m e) as [[[a|s|] e1] t1]; try done.
  by destruct (k a e1) as [[r e2] t2].
Qed.

Lemma bind_Ret {A B} (m : M Env Ev A) (k : A -> M Env Ev B) e a e1 t1 :
  m e = (Ret a, e1, t1) ->
  (m ≫= k) e = let '(r, e2, t2) := k a e1 in (r, e2, t1 ++ t2).
Proof. unfold mbind, M_mbind, M_bind. by intros ->. Qed.

Lemma bind_Panic {A B} (m : M Env Ev A) (k : A -> M Env Ev B) e s e1 t1 :
  m e = (Panic s, e1, t1) -> (m ≫= k) e = (Panic s, e1, t1).
Proof. unfold mbind, M_mbind, M_bind. by intros ->. Qed.

Lemma bind_NoFuel {A B} (m : M Env Ev A) (k : A -> M Env Ev B) e e1 t1 :
  m e = (NoFuel, e1, t1) -> (m ≫= k) e = (NoFuel, e1, t1).
Proof. unfold mbind, M_mbind, M_bind. by intros ->. Qed.

Lemma bind_mret_l {A B} (a : A) (k : A -> M Env Ev B) e : (mret a ≫= k) e = k a e.
Proof.
  unfold mbind, M_mbind, M_bind, mret, M_mret, M_ret.
  by destruct (k a e) as [[r e2] t2].
Qed.

Lemma bind_assoc {A B C} (m : M Env Ev A) (k : A -> M Env Ev B) (h : B -> M Env Ev C) e :
  ((m ≫= k) ≫= h) e = (m ≫= (fun a => k a ≫= h)) e.
Proof.
  unfold mbind, M_mbind, M_bind.
  destruct (m e) as [[[a|s|] e1] t1]; try done.
  destruct (k a e1) as [[[b|s|] e2] t2]; try done.
  destruct (h b e2) as [[r e3] t3]. by rewrite (assoc_L app).
Qed.

Lemma wp_try {T U E F} (f : E -> F) (m : M Env Ev (result T E))
    (k : T -> M Env Ev (result U F)) Q e :
  wp m (fun r e1 t1 =>
          match r with
          | Ret (Ok a) => wp (k a) (fun r2 e2 t2 => Q r2 e2 (t1 ++ t2)) e1
          | Ret (Err x) => Q (Ret (Err (f x))) e1 t1
          | Panic s => Q (Panic s) e1 t1
          | NoFuel => Q NoFuel e1 t1
          end) e ->
  wp (try_ f m k) Q e.
Proof.
  intros H. unfold try_. apply wp_bind. eapply wp_mono; [|exact H].
  intros [[a|x]|s|] e1 t1; try done.
  intros ?. apply wp_ret. by rewrite app_nil_r.
Qed.

Lemma traces_wp {A} (m : M Env Ev A) T e : traces m T -> wp m (fun r _ t => T r t) e.
Proof. intros H. apply H. Qed.

Lemma traces_run {A} (m : M Env Ev A) T e r e' t :
  traces m T -> m e = (r, e', t) -> T r t.
Proof. intros H Hm. specialize (H e). unfold wp in H. by rewrite Hm in H. Qed.
End wp.

(** ** Loops *)
Section loop.
Context {Env Ev St B : Type}.
Implicit Types (body : St -> M Env Ev (flow St B)) (e : Env).

Lemma loop_S n body s :
  loop (S n) body s =
  (body s ≫= fun f => match f with
                      | Continue s' => loop n body s'
                      | Break b => mret b
                      end).
Proof. done. Qed.

(** The invariant rule: [I s e t] holds at the head of every iteration, [t]
    being the trace so far; [Q] holds when the loop is left, and of the
    prefix seen when the fuel is spent. *)
Lemma wp_loop (I : St -> Env -> list Ev -> Prop) (Q : res B -> Env -> list Ev -> Prop)
    body :
  (forall s e t, I s e t -> Q NoFuel e t) ->
  (forall s e t, I s e t ->
     wp (body s) (fun r e' t' =>
       match r with
       | Ret (Continue s') => I s' e' (t ++ t')
       | Ret (Break b) => Q (Ret b) e' (t ++ t')
       | Panic m => Q (Panic m) e' (t ++ t')
       | NoFuel => Q NoFuel e' (t ++ t')
       end) e) ->
  forall n s e t, I s e t -> wp (loop n body s) (fun r e' t' => Q r e' (t ++ t')) e.
Proof.
  intros HN HB n. induction n as [|n IH]; intros s e t HI.
  - unfold wp. simpl. rewrite app_nil_r. by eapply HN.
  - rewrite loop_S. apply wp_bind. eapply wp_mono; [|by apply HB].
    intros [[s'|b]|m|] e' t'; try done.
    + intros HI'. eapply wp_mono; [|apply IH, HI'].
      intros r e2 t2. by rewrite (assoc_L app).
    + intros HQ. apply wp_ret. by rewrite app_nil_r.
Qed.

(** The same rule for a property of the trace alone. *)
Lemma traces_loop (I : St -> list Ev -> Prop) (T : res B -> list Ev -> Prop) body n s :
  (forall s t, I s t -> T NoFuel t) ->
  (forall s t, I s t ->
     traces (body s) (fun r t' =>
       match r with
       | Ret (Continue s') => I s' (t ++ t')
       | Ret (Break b) => T (Ret b) (t ++ t')
       | Panic m => T (Panic m) (t ++ t')
       | NoFuel => T NoFuel (t ++ t')
       end)) ->
  I s [] -> traces (loop n body s) T.
Proof.
  intros HN HB HI e.
  refine (wp_loop (fun s _ t => I s t) (fun r _ t => T r t) body _ _ n s e [] HI).
  - eauto.
  - intros s' e' t' HI'. by apply HB.
Qed.

(** One iteration at a time. *)
Lemma loop_continue n body s s' e e1 t1 :
  body s e = (Ret (Continue s'), e1, t1) ->
  loop (S n) body s e = let '(r, e2, t2) := loop n body s' e1 in (r, e2, t1 ++ t2).
Proof. intros H. rewrite loop_S. by rewrite (bind_Ret _ _ _ _ _ _ H). Qed.

Lemma loop_break n body s b e e1 t1 :
  body s e = (Ret (Break b), e1, t1) -> loop (S n) body s e = (Ret b, e1, t1).
Proof.
  intros H. rewrite loop_S, (bind_Ret _ _ _ _ _ _ H).
  unfold mret, M_mret, M_ret. by rewrite app_nil_r.
Qed.

Lemma loop_panic n body s m e e1 t1 :
  body s e = (Panic m, e1, t1) -> loop (S n) body s e = (Panic m, e1, t1).
Proof. intros H. rewrite loop_S. by apply bind_Panic. Qed.

(** More fuel does not change an outcome other than [NoFuel], so a result is
    the program's result and not an artefact of the bound. *)
Lemma loop_fuel_mono n m body s e r e' t :
  (forall s e, exists f e' t, body s e = (f, e', t) /\ f <> NoFuel) ->
  n <= m -> loop n body s e = (r, e', t) -> r <> NoFuel ->
  loop m body s e = (r, e', t).
Proof.
  intros Htot. revert m s e r e' t.
  induction n as [|n IH]; intros m s e r e' t Hle Hrun Hr.
  { simpl in Hrun. congruence. }
  destruct m as [|m]; [lia|].
  destruct (Htot s e) as (f & e1 & t1 & Hb & Hf).
  destruct f as [[s'|b]|why|]; [| | |done].
  - rewrite (loop_continue n _ _ _ _ _ _ Hb) in Hrun.
    rewrite (loop_continue m _ _ _ _ _ _ Hb).
    destruct (loop n body s' e1) as [[r2 e2] t2] eqn:E2.
    assert (r2 = r) as -> by congruence.
    rewrite (IH m s' e1 r e2 t2); [done|lia|done|done].
  - rewrite (loop_break n _ _ _ _ _ _ Hb) in Hrun.
    by rewrite (loop_break m _ _ _ _ _ _ Hb).
  - rewrite (loop_panic n _ _ _ _ _ _ Hb) in Hrun.
    by rewrite (loop_panic m _ _ _ _ _ _ Hb).
Qed.

(** The loop never ends: no amount of fuel gives a result. *)
Definition diverges body s e : Prop :=
  forall n, exists e' t, loop n body s e = (NoFuel, e', t).

(** A set of loop states that the body never leaves is a proof of divergence. *)
Lemma diverges_invariant (X : St -> Env -> Prop) body :
  (forall s e, X s e -> exists s' e' t, body s e = (Ret (Continue s'), e', t) /\ X s' e') ->
  forall s e, X s e -> diverges body s e.
Proof.
  intros HX s e H n. revert s e H. induction n as [|n IH]; intros s e H.
  { by exists e, []. }
  destruct (HX s e H) as (s' & e1 & t1 & Hb & H').
  destruct (IH s' e1 H') as (e2 & t2 & Hl).
  rewrite (loop_continue _ _ _ _ _ _ _ Hb), Hl. eauto.
Qed.
End loop.

(** Runs the symbolic steps of [wp]: a goal [wp (m ≫= k) Q e] is turned into
    the obligations of its parts. *)
Ltac wp_step :=
  lazymatch goal with
  | |- wp (try_ _ _ _) _ _ => apply wp_try
  | |- wp (mbind _ _) _ _ => apply wp_bind
  | |- wp (mret _) _ _ => apply wp_ret
  | |- wp (panic _) _ _ => apply wp_panic
  | |- wp (emit _) _ _ => apply wp_emit
  | |- wp (act _) _ _ => apply wp_act; intros ???
  | |- wp (obs _ _) _ _ => apply wp_obs; intros ???
  | |- wp (call _ _) _ _ => apply wp_call; intros ???
  | |- wp (lift _) _ _ => apply wp_lift
  | |- wp (if ?b then _ else _) _ _ => destruct b eqn:?
  | |- wp (match ?x with _ => _ end) _ _ => destruct x eqn:?
  end; simpl.
Ltac wp_steps := repeat wp_step.

(** ** Machine integers

    An integer of the source is the [Z] it denotes; arithmetic that leaves the
    range panics when overflow checks are compiled in (the debug profile) and
    wraps around otherwise (the release profile). *)
Inductive overflow : Type := Checked | Wrapping.
#[export] Instance overflow_eq_dec : EqDecision overflow.
Proof. solve_decision. Defined.

Definition u32_max : Z := 2 ^ 32 - 1.
Definition i32_max : Z := 2 ^ 31 - 1.
Definition i32_min : Z := - 2 ^ 31.
Definition u64_max : Z := 2 ^ 64 - 1.

Definition wrap_u (bits z : Z) : Z := z mod 2 ^ bits.
Definition wrap_s (bits z : Z) : Z := (z + 2 ^ (bits - 1)) mod 2 ^ bits - 2 ^ (bits - 1).

(** The result [z] of an operation at an unsigned, or signed, width. *)
Definition arith_u (oc : overflow) (bits z : Z) : res Z :=
  if ((0 <=? z) && (z <? 2 ^ bits))%Z then Ret z
  else match oc with
       | Checked => Panic "attempt to perform arithmetic with overflow"
       | Wrapping => Ret (wrap_u bits z)
       end.
Definition arith_s (oc : overflow) (bits z : Z) : res Z :=
  if ((- 2 ^ (bits - 1) <=? z) && (z <? 2 ^ (bits - 1)))%Z then Ret z
  else match oc with
       | Checked => Panic "attempt to perform arithmetic with overflow"
       | Wrapping => Ret (wrap_s bits z)
       end.

Lemma arith_u_in oc bits z : (0 <= z < 2 ^ bits)%Z -> arith_u oc bits z = Ret z.
Proof.
  intros [H1 H2]. unfold arith_u.
  by rewrite (proj2 (Z.leb_le _ _) H1), (proj2 (Z.ltb_lt _ _) H2).
Qed.

Lemma arith_s_in oc bits z :
  (- 2 ^ (bits - 1) <= z < 2 ^ (bits - 1))%Z -> arith_s oc bits z = Ret z.
Proof.
  intros [H1 H2]. unfold arith_s.
  by rewrite (proj2 (Z.leb_le _ _) H1), (proj2 (Z.ltb_lt _ _) H2).
Qed.

Lemma wrap_u_range bits z : (0 <= bits)%Z -> (0 <= wrap_u bits z < 2 ^ bits)%Z.
Proof. intros H. apply Z.mod_pos_bound. lia. Qed.

Lemma wrap_u_small bits z : (0 <= z < 2 ^ bits)%Z -> wrap_u bits z = z.
Proof. apply Z.mod_small. Qed.

(** Whatever the profile, arithmetic that returns returns the wrapped result. *)
Lemma arith_u_Ret oc bits z r : arith_u oc bits z = Ret r -> r = wrap_u bits z.
Proof.
  unfold arith_u. destruct ((0 <=? z) && (z <? 2 ^ bits))%Z eqn:E.
  - intros [= <-]. symmetry. apply wrap_u_small. lia.
  - destruct oc; congruence.
Qed.

Lemma arith_u_fuel oc bits z : arith_u oc bits z <> NoFuel.
Proof. unfold arith_u. repeat case_match; done. Qed.

Lemma wrap_u_idemp bits z : wrap_u bits (wrap_u bits z) = wrap_u bits z.
Proof. apply Z.mod_mod_divide. by exists 1%Z; lia. Qed.

Lemma wrap_u_add_l bits a b : wrap_u bits (wrap_u bits a + b) = wrap_u bits (a + b).
Proof. apply Zplus_mod_idemp_l. Qed.

Lemma wrap_u_sub_l bits a b : wrap_u bits (wrap_u bits a - b) = wrap_u bits (a - b).
Proof. apply Zminus_mod_idemp_l. Qed.

Lemma wrap_u_add_r bits a b : wrap_u bits (a + wrap_u bits b) = wrap_u bits (a + b).
Proof. apply Zplus_mod_idemp_r. Qed.

(** [i32::try_from(n).unwrap_or(0)] of a [usize], and
    [usize::try_from(n).unwrap_or(0)] of an [i32]. *)
Definition i32_try_from_or_0 (n : Z) : Z := if (n <=? i32_max)%Z then n else 0%Z.
Definition usize_try_from_or_0 (n : Z) : Z := if (0 <=? n)%Z then n else 0%Z.

(** ** Bytes and text *)
Abbreviation u8 := Byte.byte.
#[export] Instance u8_eq_dec : EqDecision u8 := Byte.byte_eq_dec.

Definition bytes_of_string (s : string) : list u8 :=
  map Ascii.byte_of_ascii (String.list_ascii_of_string s).

(** [{:?}] of a [Result]: the derived [Debug] wraps the payload's. *)
Definition debug_result {T E} (dt : T -> string) (de : E -> string) (r : result T E) : string :=
  match r with
  | Ok t => "Ok(" +:+ dt t +:+ ")"
  | Err e => "Err(" +:+ de e +:+ ")"
  end.
(** [{:?}] of [()]. *)
Definition debug_unit (_ : unit) : string := "()".

(** ** Lists *)

(** [dst.copy_from_slice] and raw copies of [src] to the front of [dst]. *)
Definition overwrite {A} (src dst : list A) : list A := src ++ drop (length src) dst.

Lemma length_overwrite {A} (src dst : list A) :
  length src <= length dst -> length (overwrite src dst) = length dst.
Proof. intros H. unfold overwrite. rewrite length_app, length_drop. lia. Qed.

Lemma take_overwrite {A} (src dst : list A) : take (length src) (overwrite src dst) = src.
Proof. unfold overwrite. by rewrite take_app_length. Qed.

(** How many elements satisfy a test, when one element is updated. *)
Definition count {A} (f : A -> bool) (l : list A) : nat := length (List.filter f l).

Lemma count_app {A} (f : A -> bool) l k : count f (l ++ k) = (count f l + count f k)%nat.
Proof. unfold count. by rewrite List.filter_app, length_app. Qed.

Lemma count_insert {A} (f : A -> bool) l i (p q : A) :
  l !! i = Some p ->
  (count f (<[i := q]> l) + Nat.b2n (f p) = count f l + Nat.b2n (f q))%nat.
Proof.
  unfold count. revert i. induction l as [|x l IH]; intros [|i] Hi; simplify_eq/=.
  - destruct (f p), (f q); simpl; lia.
  - specialize (IH i Hi). destruct (f x); simpl; lia.
Qed.

Lemma count_le_length {A} (f : A -> bool) l : (count f l <= length l)%nat.
Proof. unfold count. induction l as [|x l IH]; simpl; [done|]. destruct (f x); simpl; lia. Qed.

Lemma count_lt_length {A} (f : A -> bool) l :
  (count f l < length l)%nat -> exists i x, l !! i = Some x /\ f x = false.
Proof.
  unfold count. induction l as [|x l IH]; simpl; [lia|]. destruct (f x) eqn:Hx; simpl; intros Hlt.
  - destruct IH as (i & y & Hi & Hy); [lia|]. by exists (S i), y.
  - by exists O, x.
Qed.

Lemma count_full {A} (f : A -> bool) l i x :
  (length l <= count f l)%nat -> l !! i = Some x -> f x = true.
Proof.
  unfold count. revert i. induction l as [|y l IH]; intros [|i] Hl Hi; simplify_eq/=;
    destruct (f _) eqn:Hf in Hl; simpl in Hl; pose proof (count_le_length f l); unfold count in *;
    first [done | lia | by apply (IH i); [lia|]].
Qed.

(** A trace extended on either side contains the same events. *)
Lemma sub_app_l {A} (l k : list A) : l ⊆ l ++ k.
Proof. intros x Hx. apply elem_of_app. by left. Qed.
Lemma sub_app_r {A} (l k : list A) : k ⊆ l ++ k.
Proof. intros x Hx. apply elem_of_app. by right. Qed.
Lemma sub_cons {A} (x : A) l : l ⊆ x :: l.
Proof. intros y Hy. by right. Qed.
Lemma sub_cons_app {A} (x : A) l k : l ⊆ x :: l ++ k.
Proof. intros y Hy. right. apply elem_of_app. by left. Qed.

#[export] Hint Resolve sub_app_l sub_app_r sub_cons sub_cons_app : trace.
