(* ===== verification/F64.v ===== *)
(** IEEE 754 binary64: the [f64] of the source, bit for bit, on the Standard
    Library's [spec_float]; its arithmetic, comparisons and remainder, and the
    integer reading of finite values ([val]) in which the components reason
    about rounding. *)
From Stdlib Require Import Floats.SpecFloat.
From S2P Require Import Prelude.
Local Open Scope Z_scope.

Abbreviation f64 := spec_float.
Definition prec : Z := 53.
Definition emax : Z := 1024.
(** The exponent of the least subnormal. *)
Definition e_min : Z := -1074.

Definition f64_add : f64 -> f64 -> f64 := SFadd prec emax.
Definition f64_sub : f64 -> f64 -> f64 := SFsub prec emax.
Definition f64_div : f64 -> f64 -> f64 := SFdiv prec emax.
Definition f64_abs : f64 -> f64 := SFabs.
(** [z as f64]. *)
Definition f64_of_Z (z : Z) : f64 := binary_normalize prec emax z 0 false.
(** The literal [p/q], rounded to nearest as the compiler reads a decimal. *)
Definition f64_lit (p q : Z) : f64 := f64_div (f64_of_Z p) (f64_of_Z q).

Definition f64_lt (x y : f64) : bool := SFltb x y.
Definition f64_gt (x y : f64) : bool := SFltb y x.
Definition f64_ge (x y : f64) : bool := SFleb y x.

(** [x % y]: the remainder of the division truncated to an integer, exact. *)
Definition f64_rem (x y : f64) : f64 :=
  match x, y with
  | S754_nan, _ | _, S754_nan => S754_nan
  | S754_infinity _, _ => S754_nan
  | _, S754_zero _ => S754_nan
  | S754_zero _, _ => x
  | S754_finite _ _ _, S754_infinity _ => x
  | S754_finite sx mx ex, S754_finite _ my ey =>
      let e := Z.min ex ey in
      let r := (Z.pos mx * 2 ^ (ex - e)) mod (Z.pos my * 2 ^ (ey - e)) in
      binary_normalize prec emax (cond_Zopp sx r) e sx
  end.

(** ** Digits and canonical mantissas *)

Lemma digits2_pos_bounds m :
  2 ^ (Z.pos (digits2_pos m) - 1) <= Z.pos m < 2 ^ Z.pos (digits2_pos m).
Proof.
  induction m as [m IH|m IH|]; simpl digits2_pos; [| |by vm_compute].
  all: rewrite Pos2Z.inj_succ; unfold Z.succ.
  all: replace (Z.pos (digits2_pos m) + 1 - 1) with (Z.pos (digits2_pos m) - 1 + 1) by lia.
  all: rewrite !Z.pow_add_r by lia; change (2 ^ 1) with 2; lia.
Qed.

Lemma digits2_pos_unique m d :
  2 ^ (d - 1) <= Z.pos m < 2 ^ d -> 0 < d -> Z.pos (digits2_pos m) = d.
Proof.
  intros [H1 H2] Hd. destruct (digits2_pos_bounds m) as [H3 H4].
  assert (Z.pos (digits2_pos m) - 1 < d) by (apply (Z.pow_lt_mono_r_iff 2); lia).
  assert (d - 1 < Z.pos (digits2_pos m)) by (apply (Z.pow_lt_mono_r_iff 2); lia).
  lia.
Qed.

Lemma digits2_pos_le m d : 0 <= d -> Z.pos m < 2 ^ d -> Z.pos (digits2_pos m) <= d.
Proof.
  intros Hd H. destruct (digits2_pos_bounds m) as [H3 _].
  assert (Z.pos (digits2_pos m) - 1 < d) by (apply (Z.pow_lt_mono_r_iff 2); lia). lia.
Qed.

Lemma fexp_eq e : fexp prec emax e = Z.max (e - 53) e_min.
Proof. reflexivity. Qed.

(** A mantissa and exponent the format represents. *)
Lemma bounded_spec m e :
  bounded prec emax m e = true <->
  e_min <= e <= 971 /\ Z.pos m < 2 ^ 53 /\ (e = e_min \/ 2 ^ 52 <= Z.pos m).
Proof.
  unfold bounded, canonical_mantissa.
  rewrite andb_true_iff, Z.eqb_eq, Z.leb_le, fexp_eq.
  change (emax - prec) with 971. unfold e_min.
  destruct (digits2_pos_bounds m) as [H1 H2].
  split.
  - intros [Hc He]. split; [lia|].
    assert (Z.pos (digits2_pos m) <= 53) by lia. split.
    + eapply Z.lt_le_trans; [exact H2|]. apply Z.pow_le_mono_r; lia.
    + destruct (Z.eq_dec e (-1074)) as [|Hne]; [by left|right].
      assert (Z.pos (digits2_pos m) = 53) as Hd by lia.
      by rewrite Hd in H1.
  - intros (He & Hm & Hc). split; [|lia].
    pose proof (digits2_pos_le m 53 ltac:(lia) Hm).
    destruct Hc as [->|Hn]; [lia|].
    rewrite (digits2_pos_unique m 53) by (lia || done). lia.
Qed.

(** ** Right shifts with rounding information *)

Lemma iter_pos_nat {A} (f : A -> A) p x :
  SpecFloat.iter_pos f p x = Nat.iter (Pos.to_nat p) f x.
Proof.
  revert x. induction p as [p IH|p IH|]; intros x; simpl SpecFloat.iter_pos.
  - rewrite !IH, Pos2Nat.inj_xI, Nat.iter_succ_r, <-Nat.iter_add.
    f_equal. lia.
  - rewrite !IH, Pos2Nat.inj_xO, <-Nat.iter_add. f_equal. lia.
  - done.
Qed.

(** What the round and sticky bits say of the remainder [R] modulo [2 ^ n]. *)
Definition loc_ok (r s : bool) (R P : Z) : Prop :=
  match r, s with
  | false, false => R = 0
  | false, true => 0 < R /\ 2 * R < P
  | true, false => 2 * R = P
  | true, true => P < 2 * R
  end.

Lemma shr_1_spec m r s R P :
  0 <= m -> 0 <= R < P -> loc_ok r s R P ->
  exists r' s',
    shr_1 {| shr_m := m; shr_r := r; shr_s := s |} =
      {| shr_m := m / 2; shr_r := r'; shr_s := s' |} /\
    loc_ok r' s' (R + P * (m mod 2)) (2 * P).
Proof.
  intros Hm HR Hl.
  pose proof (Z.div_mod m 2 ltac:(lia)) as Hdm.
  pose proof (Z.mod_pos_bound m 2 ltac:(lia)) as Hmb.
  destruct m as [|[m|m|]|m]; [| | | |lia]; simpl shr_1.
  - exists false, (r || s). split; [done|].
    change (0 mod 2) with 0. unfold loc_ok in *. destruct r, s; simpl; lia.
  - replace (Z.pos m~1 / 2) with (Z.pos m) by (Z.div_mod_to_equations; lia).
    replace (Z.pos m~1 mod 2) with 1 by (Z.div_mod_to_equations; lia).
    exists true, (r || s). split; [done|].
    unfold loc_ok in *. destruct r, s; simpl; lia.
  - replace (Z.pos m~0 / 2) with (Z.pos m) by (Z.div_mod_to_equations; lia).
    replace (Z.pos m~0 mod 2) with 0 by (Z.div_mod_to_equations; lia).
    exists false, (r || s). split; [done|].
    unfold loc_ok in *. destruct r, s; simpl; lia.
  - exists true, (r || s). split; [done|].
    change (1 mod 2) with 1. unfold loc_ok in *. destruct r, s; simpl; lia.
Qed.

Lemma shr_iter_spec m n :
  0 <= m ->
  exists r s,
    Nat.iter n shr_1 {| shr_m := m; shr_r := false; shr_s := false |} =
      {| shr_m := m / 2 ^ Z.of_nat n; shr_r := r; shr_s := s |} /\
    loc_ok r s (m mod 2 ^ Z.of_nat n) (2 ^ Z.of_nat n).
Proof.
  intros Hm. induction n as [|n (r & s & IH & Hl)].
  { exists false, false. simpl. rewrite Z.div_1_r, Z.mod_1_r. done. }
  assert (0 < 2 ^ Z.of_nat n) as HP by lia.
  destruct (shr_1_spec (m / 2 ^ Z.of_nat n) r s (m mod 2 ^ Z.of_nat n) (2 ^ Z.of_nat n))
    as (r' & s' & Hs & Hl'); [by apply Z.div_pos|by apply Z.mod_pos_bound|done|].
  exists r', s'. rewrite Nat.iter_succ, IH, Hs.
  rewrite Nat2Z.inj_succ, Z.pow_succ_r by lia. split.
  - f_equal. rewrite (Z.mul_comm 2). by rewrite Z.div_div by lia.
  - by rewrite (Z.mul_comm 2), Z.rem_mul_r, (Z.mul_comm _ 2) by lia.
Qed.

(** ** Rounding to nearest, ties to even *)

Lemma round_nearest_even_err m r s R P :
  0 <= R < P -> loc_ok r s R P ->
  let m' := round_nearest_even m (loc_of_shr_record {| shr_m := m; shr_r := r; shr_s := s |}) in
  m <= m' <= m + 1 /\ 2 * Z.abs (m' * P - (m * P + R)) <= P.
Proof.
  intros HR Hl. unfold loc_ok in Hl.
  destruct r, s; simpl; [| |lia|lia].
  - split; [lia|]. replace ((m + 1) * P) with (m * P + P) by ring. lia.
  - destruct (Z.even m); [lia|].
    split; [lia|]. replace ((m + 1) * P) with (m * P + P) by ring. lia.
Qed.

Lemma Zdigits2_pos m : Zdigits2 (Z.pos m) = Z.pos (digits2_pos m).
Proof. done. Qed.

Lemma shr_fexp_canonical m e :
  fexp prec emax (Z.pos (digits2_pos m) + e) = e ->
  shr_fexp prec emax (Z.pos m) e loc_Exact =
  ({| shr_m := Z.pos m; shr_r := false; shr_s := false |}, e).
Proof. intros H. unfold shr_fexp. by rewrite Zdigits2_pos, H, Z.sub_diag. Qed.

Lemma pos_iter_xO m k : Z.pos (Pos.iter xO m k) = Z.pos m * 2 ^ Z.pos k.
Proof.
  revert m. induction k as [|k IH] using Pos.peano_ind; intros m.
  - simpl. lia.
  - rewrite Pos.iter_succ, Pos2Z.inj_xO, IH, Pos2Z.inj_succ, Z.pow_succ_r by lia. ring.
Qed.

(** The canonical form of a mantissa that fits: nothing is rounded. *)
Lemma binary_round_exact sx m e :
  e_min <= e -> Z.pos (digits2_pos m) <= 53 -> Z.pos (digits2_pos m) + e <= 1024 ->
  exists m' e',
    binary_round prec emax sx m e = S754_finite sx m' e' /\
    bounded prec emax m' e' = true /\ e' <= e /\
    Z.pos m' * 2 ^ (e' - e_min) = Z.pos m * 2 ^ (e - e_min).
Proof.
  intros He Hd Hov. unfold e_min in *.
  set (d := Z.pos (digits2_pos m)) in *. assert (0 < d) by (unfold d; lia).
  set (ez := fexp prec emax (d + e)).
  assert (ez = Z.max (d + e - 53) (-1074)) as Hez by apply fexp_eq.
  destruct (digits2_pos_bounds m) as [Hm1 Hm2]. fold d in Hm1, Hm2.
  assert (exists mz, shl_align m e ez = (mz, ez) /\ Z.pos mz = Z.pos m * 2 ^ (e - ez)) as (mz & Hsh & Hmz).
  { unfold shl_align. destruct (ez - e) as [|p|p] eqn:E; [|lia|].
    - exists m. replace ez with e by lia. rewrite Z.sub_diag. split; [done|lia].
    - eexists. split; [done|]. rewrite pos_iter_xO. do 2 f_equal. lia. }
  assert (Z.pos (digits2_pos mz) = d + e - ez) as Hdz.
  { apply digits2_pos_unique; [|lia]. rewrite Hmz.
    replace (d + e - ez - 1) with ((d - 1) + (e - ez)) by lia.
    replace (d + e - ez) with (d + (e - ez)) by lia.
    rewrite !Z.pow_add_r by lia.
    pose proof (Z.pow_pos_nonneg 2 (e - ez)). nia. }
  assert (fexp prec emax (Z.pos (digits2_pos mz) + ez) = ez) as Hcan.
  { rewrite Hdz. replace (d + e - ez + ez) with (d + e) by lia. done. }
  exists mz, ez. split_and!.
  - unfold binary_round. fold d. fold ez. rewrite Hsh.
    unfold binary_round_aux. rewrite (shr_fexp_canonical _ _ Hcan). simpl.
    rewrite (shr_fexp_canonical _ _ Hcan). simpl.
    replace (ez <=? emax - prec) with true; [done|].
    symmetry. apply Z.leb_le. change (emax - prec) with 971. lia.
  - unfold bounded, canonical_mantissa. rewrite Hcan, Z.eqb_refl. simpl.
    apply Z.leb_le. change (emax - prec) with 971. lia.
  - lia.
  - rewrite Hmz. replace (e - -1074) with ((e - ez) + (ez - -1074)) by lia.
    rewrite (Z.pow_add_r 2 (e - ez)) by lia. ring.
Qed.

(** A mantissa of [53] or [54] binary digits, [2 ^ 53] being the only one of
    [54], renormalizes without loss. *)
Lemma shr_fexp_normal m e :
  e_min <= e -> 2 ^ 52 <= m <= 2 ^ 53 ->
  exists m' e',
    shr_fexp prec emax m e loc_Exact =
      ({| shr_m := Z.pos m'; shr_r := false; shr_s := false |}, e') /\
    2 ^ 52 <= Z.pos m' < 2 ^ 53 /\ e <= e' <= e + 1 /\
    Z.pos m' * 2 ^ (e' - e) = m.
Proof.
  intros He Hm. unfold e_min in He. destruct m as [|m|m]; [lia| |lia].
  destruct (Z.eq_dec (Z.pos m) (2 ^ 53)) as [Heq|Hne].
  - assert (m = 9007199254740992%positive) as -> by (change (2 ^ 53) with 9007199254740992 in Heq; lia).
    exists 4503599627370496%positive, (e + 1).
    unfold shr_fexp. rewrite Zdigits2_pos, fexp_eq.
    change (Z.pos (digits2_pos 9007199254740992)) with 54.
    replace (Z.max (54 + e - 53) e_min - e) with 1 by (unfold e_min; lia).
    replace (e + 1 - e) with 1 by lia. split_and!; done || lia.
  - exists m, e. replace (e - e) with 0 by lia.
    split; [|split_and!; lia]. apply shr_fexp_canonical. rewrite fexp_eq.
    rewrite (digits2_pos_unique m 53); unfold e_min; lia.
Qed.

(** Too many digits: the result is within half a unit in the last place. *)
Lemma binary_round_inexact sx m e :
  e_min <= e -> 53 < Z.pos (digits2_pos m) -> Z.pos (digits2_pos m) + e <= 1023 ->
  exists m' e',
    binary_round prec emax sx m e = S754_finite sx m' e' /\
    bounded prec emax m' e' = true /\
    2 * Z.abs (Z.pos m' * 2 ^ (e' - e_min) - Z.pos m * 2 ^ (e - e_min))
      <= 2 ^ (Z.pos (digits2_pos m) - 53 + e - e_min) /\
    e + (Z.pos (digits2_pos m) - 53) <= e'.
Proof.
  intros He Hd Hov. set (d := Z.pos (digits2_pos m)) in *. unfold e_min in *.
  destruct (digits2_pos_bounds m) as [Hm1 Hm2]. fold d in Hm1, Hm2.
  set (n := Z.to_nat (d - 53)).
  assert (Z.of_nat n = d - 53) as Hn by lia.
  set (P := 2 ^ (d - 53)). assert (0 < P) as HP by (apply Z.pow_pos_nonneg; lia).
  destruct (shr_iter_spec (Z.pos m) n ltac:(lia)) as (r & s & Hit & Hl).
  rewrite Hn in Hit, Hl. fold P in Hit, Hl.
  assert (2 ^ 52 <= Z.pos m / P < 2 ^ 53) as Hq.
  { split.
    - apply Z.div_le_lower_bound; [lia|]. unfold P. rewrite <-Z.pow_add_r by lia.
      by replace (d - 53 + 52) with (d - 1) by lia.
    - apply Z.div_lt_upper_bound; [lia|]. unfold P. rewrite <-Z.pow_add_r by lia.
      by replace (d - 53 + 53) with d by lia. }
  destruct (round_nearest_even_err (Z.pos m / P) r s (Z.pos m mod P) P) as [Hr1 Hr2];
    [by apply Z.mod_pos_bound|done|].
  set (m1 := round_nearest_even _ _) in *.
  destruct (shr_fexp_normal m1 (e + (d - 53))) as (m' & e' & Hsh & Hm' & He' & Hv);
    [unfold e_min; lia|lia|].
  assert (shl_align m e (fexp prec emax (d + e)) = (m, e)) as Hal.
  { unfold shl_align. rewrite fexp_eq. unfold e_min.
    destruct (Z.max (d + e - 53) (-1074) - e) eqn:E; [done|done|lia]. }
  assert (shr_fexp prec emax (Z.pos m) e loc_Exact =
          ({| shr_m := Z.pos m / P; shr_r := r; shr_s := s |}, e + (d - 53))) as Hs1.
  { unfold shr_fexp. rewrite Zdigits2_pos, fexp_eq. fold d. unfold e_min.
    replace (Z.max (d + e - 53) (-1074) - e) with (d - 53) by lia.
    unfold shr. destruct (d - 53) as [|p|p] eqn:E; [lia| |lia].
    rewrite iter_pos_nat. replace (Pos.to_nat p) with n by lia. simpl. by rewrite Hit. }
  exists m', e'. split_and!.
  - unfold binary_round. fold d. rewrite Hal. unfold binary_round_aux.
    rewrite Hs1. cbn [shr_m]. fold m1. rewrite Hsh. cbn [shr_m].
    replace (e' <=? emax - prec) with true; [done|].
    symmetry. apply Z.leb_le. change (emax - prec) with 971. lia.
  - apply bounded_spec. unfold e_min. lia.
  - replace (e' - -1074) with ((e' - (e + (d - 53))) + ((d - 53) + (e + 1074))) by lia.
    replace (d - 53 + e - -1074) with ((d - 53) + (e + 1074)) by lia.
    replace (e - -1074) with (e + 1074) by lia.
    rewrite (Z.pow_add_r 2 (e' - _)), !(Z.pow_add_r 2 (d - 53)) by lia.
    rewrite Z.mul_assoc, Hv. fold P.
    pose proof (Z.div_mod (Z.pos m) P ltac:(lia)) as Hdm.
    assert (0 < 2 ^ (e + 1074)) by (apply Z.pow_pos_nonneg; lia).
    replace (m1 * (P * 2 ^ (e + 1074)) - Z.pos m * 2 ^ (e + 1074))
      with ((m1 * P - Z.pos m) * 2 ^ (e + 1074)) by ring.
    rewrite Z.abs_mul, (Z.abs_eq (2 ^ (e + 1074))) by lia.
    rewrite Hdm at 1. rewrite (Z.mul_comm P (Z.pos m / P)). nia.
  - lia.
Qed.

(** ** The integer reading of finite values

    Every finite [f64] is an integer multiple of the least subnormal
    [2 ^ e_min]; [fval] is that integer. *)
Definition fval (x : f64) : Z :=
  match x with
  | S754_finite s m e => cond_Zopp s (Z.pos m * 2 ^ (e - e_min))
  | _ => 0
  end.

(** Finite, well formed and not negative. *)
Definition nonneg (x : f64) : Prop :=
  match x with
  | S754_zero _ => True
  | S754_finite false m e => bounded prec emax m e = true
  | _ => False
  end.

(** The values below [2 ^ 1023] units: sums and differences of these do not
    overflow. *)
Definition f_top : Z := 2 ^ (1023 - e_min).

(** One unit of the value 1. *)
Definition f_unit : Z := 2 ^ (- e_min).

Lemma fval_nonneg x : nonneg x -> 0 <= fval x.
Proof.
  destruct x as [s|s| |s m e]; simpl; try lia. destruct s; [done|]. intros _.
  simpl. pose proof (Z.pow_nonneg 2 (e - e_min)). lia.
Qed.

Lemma fval_zero x : nonneg x -> fval x = 0 -> exists s, x = S754_zero s.
Proof.
  destruct x as [s|s| |[] m e]; try done; [by exists s|].
  intros (? & _)%bounded_spec Hz. cbn [fval cond_Zopp] in Hz.
  pose proof (Z.pow_pos_nonneg 2 (e - e_min)). lia.
Qed.

Lemma pow2_lt_inv a b c : 0 <= b -> 0 < a -> a * 2 ^ b < 2 ^ c -> 0 <= c -> 2 ^ b < 2 ^ c.
Proof. intros. assert (0 < 2 ^ b) by (apply Z.pow_pos_nonneg; lia). nia. Qed.

(** Rounding: the relative error is at most [2 ^ -53], and integers below
    [2 ^ 53] units of their exponent are exact. *)
Lemma binary_normalize_nonneg z e s :
  0 <= z -> e_min <= e -> z * 2 ^ (e - e_min) < f_top ->
  let r := binary_normalize prec emax z e s in
  nonneg r /\
  2 ^ 53 * Z.abs (fval r - z * 2 ^ (e - e_min)) <= z * 2 ^ (e - e_min) /\
  (z < 2 ^ 53 -> fval r = z * 2 ^ (e - e_min)).
Proof.
  intros Hz He Hov. destruct z as [|m|m]; [done| |lia]. simpl.
  destruct (digits2_pos_bounds m) as [Hm1 Hm2].
  set (d := Z.pos (digits2_pos m)) in *. unfold f_top in Hov.
  assert (d + e <= 1023) as Hde.
  { assert (2 ^ (d - 1 + (e - e_min)) < 2 ^ (1023 - e_min)) as Hlt.
    { rewrite Z.pow_add_r by lia. eapply Z.le_lt_trans; [|exact Hov].
      apply Z.mul_le_mono_nonneg_r; lia. }
    apply Z.pow_lt_mono_r_iff in Hlt; unfold e_min in *; lia. }
  destruct (Z.le_gt_cases d 53) as [Hd|Hd].
  - destruct (binary_round_exact false m e He Hd ltac:(lia)) as (m' & e' & -> & Hb & _ & Hv).
    cbn [fval cond_Zopp nonneg]. rewrite Hv, Z.sub_diag. split_and!; [done| |done].
    pose proof (Z.pow_nonneg 2 (e - e_min)). lia.
  - destruct (binary_round_inexact false m e He Hd Hde) as (m' & e' & -> & Hb & Hv & _).
    cbn [fval cond_Zopp nonneg]. split_and!; [done| |].
    + fold d in Hv. replace (2 ^ 53) with (2 * 2 ^ 52) by done.
      set (D := Z.abs _) in *.
      assert (2 ^ 52 * 2 ^ (d - 53 + e - e_min) <= Z.pos m * 2 ^ (e - e_min)); [|lia].
      rewrite <-Z.pow_add_r by lia.
      replace (52 + (d - 53 + e - e_min)) with ((d - 1) + (e - e_min)) by lia.
      rewrite Z.pow_add_r by lia. apply Z.mul_le_mono_nonneg_r; lia.
    + intros Hlt. pose proof (digits2_pos_le m 53 ltac:(lia) Hlt). fold d in H. lia.
Qed.

(** ** Exact arithmetic on a grid

    Multiples of a power of two [2 ^ g] below [2 ^ (g + 53)] are computed
    without rounding. *)
Definition on_grid (g : Z) (z : Z) : Prop := (2 ^ g | z) /\ z < 2 ^ (g + 53).

Lemma normalize_grid z e s g :
  0 <= z -> e_min <= e -> z * 2 ^ (e - e_min) < f_top -> 0 <= g ->
  on_grid g (z * 2 ^ (e - e_min)) ->
  fval (binary_normalize prec emax z e s) = z * 2 ^ (e - e_min).
Proof.
  intros Hz He Hov Hg [Hdiv Hlt]. destruct z as [|m|m]; [done| |lia]. simpl binary_normalize.
  destruct (digits2_pos_bounds m) as [Hm1 Hm2].
  set (d := Z.pos (digits2_pos m)) in *. unfold f_top in Hov.
  assert (2 ^ (d - 1 + (e - e_min)) <= Z.pos m * 2 ^ (e - e_min)) as HV.
  { rewrite Z.pow_add_r by lia. apply Z.mul_le_mono_nonneg_r; lia. }
  assert (d - 1 + (e - e_min) < 1023 - e_min) as Hde
    by (apply (Z.pow_lt_mono_r_iff 2); unfold e_min in *; lia).
  assert (d - 1 + (e - e_min) < g + 53) as Hdg
    by (apply (Z.pow_lt_mono_r_iff 2); unfold e_min in *; lia).
  destruct (Z.le_gt_cases d 53) as [Hd|Hd].
  - destruct (binary_round_exact false m e He Hd ltac:(lia)) as (m' & e' & -> & _ & _ & Hv). done.
  - destruct (binary_round_inexact false m e He Hd ltac:(fold d; lia)) as (m' & e' & -> & Hb & Hv & He').
    cbn [fval cond_Zopp]. fold d in Hv, He'.
    set (u := 2 ^ (d - 53 + e - e_min)) in *.
    assert (0 < u) by (apply Z.pow_pos_nonneg; lia).
    assert (u | Z.pos m' * 2 ^ (e' - e_min)) as [a Ha].
    { apply Z.divide_mul_r. exists (2 ^ (e' - e - (d - 53))). unfold u.
      rewrite <-Z.pow_add_r by lia. f_equal. lia. }
    assert (u | Z.pos m * 2 ^ (e - e_min)) as [b Hb'].
    { eapply Z.divide_trans; [|exact Hdiv]. exists (2 ^ (g - (d - 53 + e - e_min))). unfold u.
      rewrite <-Z.pow_add_r by lia. f_equal. lia. }
    rewrite Ha, Hb' in *. rewrite <-Z.mul_sub_distr_r, Z.abs_mul, (Z.abs_eq u) in Hv by lia.
    assert (Z.abs (a - b) = 0) by nia. f_equal. lia.
Qed.

Lemma shl_align_val m e ez :
  ez <= e -> Z.pos (fst (shl_align m e ez)) = Z.pos m * 2 ^ (e - ez).
Proof.
  intros H. unfold shl_align. destruct (ez - e) as [|p|p] eqn:E; [|lia|]; cbn [fst].
  - replace (e - ez) with 0 by lia. lia.
  - rewrite pos_iter_xO. do 2 f_equal. lia.
Qed.

(** The order of the values is the order of [f64_lt], [f64_ge], ... *)
Lemma SFcompare_fval x y :
  nonneg x -> nonneg y -> SFcompare x y = Some (fval x ?= fval y).
Proof.
  destruct x as [sx|sx| |[] mx ex], y as [sy|sy| |[] my ey];
    cbn [nonneg SFcompare fval cond_Zopp]; try done.
  - intros _ H%bounded_spec. f_equal. symmetry. apply Z.compare_lt_iff.
    pose proof (Z.pow_pos_nonneg 2 (ey - e_min)). lia.
  - intros H%bounded_spec _. f_equal. symmetry. apply Z.compare_gt_iff.
    pose proof (Z.pow_pos_nonneg 2 (ex - e_min)). lia.
  - intros (Hx1 & Hx2 & Hx3)%bounded_spec (Hy1 & Hy2 & Hy3)%bounded_spec. f_equal.
    assert (forall m1 e1 m2 e2, e_min <= e1 -> e1 < e2 -> Z.pos m1 < 2 ^ 53 -> 2 ^ 52 <= Z.pos m2 ->
              Z.pos m1 * 2 ^ (e1 - e_min) < Z.pos m2 * 2 ^ (e2 - e_min)) as Hlt.
    { intros m1 e1 m2 e2 H1 H2 H3 H4.
      replace (e2 - e_min) with ((e2 - e1 - 1) + 1 + (e1 - e_min)) by lia.
      rewrite !(Z.pow_add_r 2) by lia. change (2 ^ 1) with 2.
      assert (0 < 2 ^ (e1 - e_min)) by (apply Z.pow_pos_nonneg; lia).
      assert (0 < 2 ^ (e2 - e1 - 1)) by (apply Z.pow_pos_nonneg; lia).
      assert (Z.pos m1 < Z.pos m2 * 2 * 2 ^ (e2 - e1 - 1)) by (change (2 ^ 53) with (2 * 2 ^ 52) in H3; nia).
      nia. }
    symmetry. destruct (Z.compare_spec ex ey) as [->|Hc|Hc].
    + change (Pos.compare_cont Eq mx my) with (Z.pos mx ?= Z.pos my).
      assert (0 < 2 ^ (ey - e_min)) by (apply Z.pow_pos_nonneg; lia).
      symmetry. apply Zmult_compare_compat_r. lia.
    + apply Z.compare_lt_iff, Hlt; lia.
    + apply Z.compare_gt_iff, Hlt; lia.
Qed.

Lemma f64_ge_fval x y : nonneg x -> nonneg y -> f64_ge x y = (fval y <=? fval x).
Proof.
  intros Hx Hy. unfold f64_ge, SFleb. rewrite SFcompare_fval by done.
  unfold Z.leb. by destruct (fval y ?= fval x).
Qed.

Lemma f64_lt_fval x y : nonneg x -> nonneg y -> f64_lt x y = (fval x <? fval y).
Proof.
  intros Hx Hy. unfold f64_lt, SFltb. rewrite SFcompare_fval by done.
  unfold Z.ltb. by destruct (fval x ?= fval y).
Qed.

Lemma f64_gt_fval x y : nonneg x -> nonneg y -> f64_gt x y = (fval y <? fval x).
Proof. intros. by apply f64_lt_fval. Qed.

(** Addition and subtraction of non-negative values. *)
Lemma f64_add_nonneg x y :
  nonneg x -> nonneg y -> fval x + fval y < f_top ->
  nonneg (f64_add x y) /\
  2 ^ 53 * Z.abs (fval (f64_add x y) - (fval x + fval y)) <= fval x + fval y.
Proof.
  unfold f64_add.
  destruct x as [sx|sx| |[] mx ex], y as [sy|sy| |[] my ey];
    cbn [nonneg SFadd fval cond_Zopp]; try done.
  - intros _ _ _. by destruct sx, sy.
  - intros _ Hy _. rewrite Z.sub_diag. split; [done|].
    pose proof (Z.pow_nonneg 2 (ey - e_min)). lia.
  - intros Hx _ _. rewrite Z.add_0_r, Z.sub_diag. split; [done|].
    pose proof (Z.pow_nonneg 2 (ex - e_min)). lia.
  - intros (Hx & _)%bounded_spec (Hy & _)%bounded_spec Hov.
    set (ez := Z.min ex ey).
    rewrite !shl_align_val by lia.
    destruct (binary_normalize_nonneg
      (Z.pos mx * 2 ^ (ex - ez) + Z.pos my * 2 ^ (ey - ez)) ez false) as (H1 & H2 & _);
      [lia|lia| |].
    all: assert ((Z.pos mx * 2 ^ (ex - ez) + Z.pos my * 2 ^ (ey - ez)) * 2 ^ (ez - e_min) =
                 Z.pos mx * 2 ^ (ex - e_min) + Z.pos my * 2 ^ (ey - e_min)) as Heq
      by (replace (ex - e_min) with ((ex - ez) + (ez - e_min)) by lia;
          replace (ey - e_min) with ((ey - ez) + (ez - e_min)) by lia;
          rewrite !(Z.pow_add_r 2 _ (ez - e_min)) by lia; ring).
    + by rewrite Heq.
    + rewrite Heq in H2. done.
Qed.

Lemma f64_sub_nonneg x y :
  nonneg x -> nonneg y -> fval y <= fval x < f_top ->
  nonneg (f64_sub x y) /\
  2 ^ 53 * Z.abs (fval (f64_sub x y) - (fval x - fval y)) <= fval x - fval y.
Proof.
  unfold f64_sub.
  destruct x as [sx|sx| |[] mx ex], y as [sy|sy| |[] my ey];
    cbn [nonneg SFsub fval cond_Zopp]; try done.
  - intros _ _ _. by destruct sx, sy.
  - intros _ (Hy & _)%bounded_spec Hle.
    pose proof (Z.pow_pos_nonneg 2 (ey - e_min)). lia.
  - intros Hx _ _. rewrite Z.sub_0_r, Z.sub_diag. split; [done|].
    pose proof (Z.pow_nonneg 2 (ex - e_min)). lia.
  - intros (Hx & _)%bounded_spec (Hy & _)%bounded_spec [Hle Hov].
    set (ez := Z.min ex ey).
    rewrite !shl_align_val by lia.
    assert ((Z.pos mx * 2 ^ (ex - ez) - Z.pos my * 2 ^ (ey - ez)) * 2 ^ (ez - e_min) =
            Z.pos mx * 2 ^ (ex - e_min) - Z.pos my * 2 ^ (ey - e_min)) as Heq.
    { replace (ex - e_min) with ((ex - ez) + (ez - e_min)) by lia.
      replace (ey - e_min) with ((ey - ez) + (ez - e_min)) by lia.
      rewrite !(Z.pow_add_r 2 _ (ez - e_min)) by lia. ring. }
    assert (0 < 2 ^ (ez - e_min)) by (apply Z.pow_pos_nonneg; lia).
    assert (0 < 2 ^ (ey - e_min)) by (apply Z.pow_pos_nonneg; lia).
    destruct (binary_normalize_nonneg
      (Z.pos mx * 2 ^ (ex - ez) - Z.pos my * 2 ^ (ey - ez)) ez false) as (H1 & H2 & _);
      [nia|lia| |].
    + rewrite Heq. lia.
    + rewrite Heq in H2. done.
Qed.

(** On a grid, sums and differences are exact. *)
Lemma f64_add_grid g x y :
  nonneg x -> nonneg y -> fval x + fval y < f_top -> 0 <= g -> on_grid g (fval x + fval y) ->
  fval (f64_add x y) = fval x + fval y.
Proof.
  unfold f64_add.
  destruct x as [sx|sx| |[] mx ex], y as [sy|sy| |[] my ey];
    cbn [nonneg SFadd fval cond_Zopp]; try done; try lia.
  - intros _ _ _ _ _. by destruct sx, sy.
  - intros (Hx & _)%bounded_spec (Hy & _)%bounded_spec Hov Hg Hgrid.
    set (ez := Z.min ex ey) in *. rewrite !shl_align_val by lia.
    assert ((Z.pos mx * 2 ^ (ex - ez) + Z.pos my * 2 ^ (ey - ez)) * 2 ^ (ez - e_min) =
                 Z.pos mx * 2 ^ (ex - e_min) + Z.pos my * 2 ^ (ey - e_min)) as Heq
      by (replace (ex - e_min) with ((ex - ez) + (ez - e_min)) by lia;
          replace (ey - e_min) with ((ey - ez) + (ez - e_min)) by lia;
          rewrite !(Z.pow_add_r 2 _ (ez - e_min)) by lia; ring).
    rewrite <-Heq in Hov, Hgrid |- *.
    apply (normalize_grid _ _ _ g); [lia|lia|done|done|done].
Qed.

Lemma f64_sub_grid g x y :
  nonneg x -> nonneg y -> fval y <= fval x < f_top -> 0 <= g -> on_grid g (fval x - fval y) ->
  fval (f64_sub x y) = fval x - fval y.
Proof.
  unfold f64_sub.
  destruct x as [sx|sx| |[] mx ex], y as [sy|sy| |[] my ey];
    cbn [nonneg SFsub fval cond_Zopp]; try done; try lia.
  - intros _ _ _ _ _. by destruct sx, sy.
  - intros (Hx & _)%bounded_spec (Hy & _)%bounded_spec [Hle Hov] Hg Hgrid.
    set (ez := Z.min ex ey) in *.
    assert (ez <= ex /\ ez <= ey) as [? ?] by (unfold ez; lia).
    rewrite !shl_align_val by done.
    assert ((Z.pos mx * 2 ^ (ex - ez) - Z.pos my * 2 ^ (ey - ez)) * 2 ^ (ez - e_min) =
                 Z.pos mx * 2 ^ (ex - e_min) - Z.pos my * 2 ^ (ey - e_min)) as Heq
      by (replace (ex - e_min) with ((ex - ez) + (ez - e_min)) by lia;
          replace (ey - e_min) with ((ey - ez) + (ez - e_min)) by lia;
          rewrite !(Z.pow_add_r 2 _ (ez - e_min)) by lia; ring).
    assert (0 < 2 ^ (ez - e_min)) by (apply Z.pow_pos_nonneg; lia).
    assert (0 < 2 ^ (ey - e_min)) by (apply Z.pow_pos_nonneg; lia).
    assert ((Z.pos mx * 2 ^ (ex - ez) - Z.pos my * 2 ^ (ey - ez)) * 2 ^ (ez - e_min) < f_top)
      by (rewrite Heq; lia).
    assert (0 <= Z.pos mx * 2 ^ (ex - ez) - Z.pos my * 2 ^ (ey - ez)) by nia.
    rewrite <-Heq in Hgrid |- *.
    by apply (normalize_grid _ _ _ g); [|lia| | |].
Qed.

(** The remainder is exact, below the divisor. *)
Lemma f64_rem_nonneg x y :
  nonneg x -> nonneg y -> 0 < fval y -> fval y < f_top ->
  nonneg (f64_rem x y) /\ fval (f64_rem x y) = fval x mod fval y.
Proof.
  destruct x as [sx|sx| |[] mx ex], y as [sy|sy| |[] my ey];
    cbn [nonneg f64_rem fval cond_Zopp]; try done; try lia.
  intros (Hx & Hmx & _)%bounded_spec (Hy & Hmy & _)%bounded_spec _ Htop.
  set (ez := Z.min ex ey).
  assert (0 < 2 ^ (ez - e_min)) by (apply Z.pow_pos_nonneg; lia).
  assert (0 < 2 ^ (ex - ez)) by (apply Z.pow_pos_nonneg; lia).
  assert (0 < 2 ^ (ey - ez)) by (apply Z.pow_pos_nonneg; lia).
  set (X := Z.pos mx * 2 ^ (ex - ez)). set (Y := Z.pos my * 2 ^ (ey - ez)).
  assert (0 <= X mod Y < Y) as Hr by (apply Z.mod_pos_bound; lia).
  assert (X mod Y <= X) as Hle by (apply Z.mod_le; lia).
  assert (Z.pos mx * 2 ^ (ex - e_min) = X * 2 ^ (ez - e_min)) as ->.
  { unfold X. replace (ex - e_min) with ((ex - ez) + (ez - e_min)) by lia.
    rewrite Z.pow_add_r by lia. ring. }
  assert (Z.pos my * 2 ^ (ey - e_min) = Y * 2 ^ (ez - e_min)) as HY.
  { unfold Y. replace (ey - e_min) with ((ey - ez) + (ez - e_min)) by lia.
    rewrite Z.pow_add_r by lia. ring. }
  rewrite HY in Htop |- *. rewrite Z.mul_mod_distr_r by lia.
  destruct (binary_normalize_nonneg (X mod Y) ez false) as (Hn & _ & Hv); [lia|lia|nia|].
  split; [done|]. apply Hv. unfold X, Y, ez in *.
  destruct (Z.min_spec ex ey) as [[Hc Hm]|[Hc Hm]]; rewrite Hm in *; rewrite Z.sub_diag in *; lia.
Qed.

(** ** Division of normal values *)

Lemma shr_record_of_loc_ok q l R P :
  0 <= R < P ->
  (match l with
   | loc_Exact => R = 0
   | loc_Inexact Lt => 0 < R /\ 2 * R < P
   | loc_Inexact Eq => 2 * R = P
   | loc_Inexact Gt => P < 2 * R
   end) ->
  exists r s, shr_record_of_loc q l = {| shr_m := q; shr_r := r; shr_s := s |} /\
    loc_ok r s R P.
Proof. destruct l as [|[]]; intros ??; repeat eexists; done || lia. Qed.

Lemma new_location_ok n k :
  0 < n -> 0 <= k < n ->
  match new_location n k with
  | loc_Exact => k = 0
  | loc_Inexact Lt => 0 < k /\ 2 * k < n
  | loc_Inexact Eq => 2 * k = n
  | loc_Inexact Gt => n < 2 * k
  end.
Proof.
  intros Hn Hk. unfold new_location, new_location_even, new_location_odd.
  destruct (Z.even n) eqn:E; destruct (Z.eqb_spec k 0) as [|Hk0]; try done.
  - destruct (Z.compare_spec (2 * k) n); lia.
  - assert (Z.odd n = true) as Ho by (by rewrite <-Z.negb_even, E).
    apply Z.odd_spec in Ho as [w ->].
    destruct (Z.compare_spec (2 * k + 1) (2 * w + 1)); lia.
Qed.

(** Rounding a quotient of 53 or 54 digits. *)
Lemma binary_round_aux_normal q e l R P :
  2 ^ 52 <= q < 2 ^ 54 -> e_min <= e <= 900 -> 0 <= R < P ->
  (match l with
   | loc_Exact => R = 0
   | loc_Inexact Lt => 0 < R /\ 2 * R < P
   | loc_Inexact Eq => 2 * R = P
   | loc_Inexact Gt => P < 2 * R
   end) ->
  exists m' e', binary_round_aux prec emax false q e l = S754_finite false m' e' /\
    bounded prec emax m' e' = true /\ e <= e' <= e + 2.
Proof.
  intros Hq He HR Hl. unfold e_min in He.
  destruct (shr_record_of_loc_ok q l R P HR Hl) as (r & s & Hrec & Hrs).
  assert (exists q1 r1 s1 e1 R1 P1,
    shr_fexp prec emax q e l = ({| shr_m := q1; shr_r := r1; shr_s := s1 |}, e1) /\
    2 ^ 52 <= q1 < 2 ^ 53 /\ e <= e1 <= e + 1 /\ 0 <= R1 < P1 /\ loc_ok r1 s1 R1 P1)
    as (q1 & r1 & s1 & e1 & R1 & P1 & Hs1 & Hq1 & He1 & HR1 & Hl1).
  { destruct q as [|q|q]; [lia| |lia]. unfold shr_fexp.
    rewrite Zdigits2_pos, fexp_eq, Hrec.
    destruct (Z.lt_ge_cases (Z.pos q) (2 ^ 53)) as [Hlt|Hge].
    - rewrite (digits2_pos_unique q 53) by (simpl; lia).
      replace (Z.max (53 + e - 53) e_min - e) with 0 by (unfold e_min; lia).
      exists (Z.pos q), r, s, e, R, P. split_and!; try done; lia.
    - rewrite (digits2_pos_unique q 54) by (simpl; lia).
      replace (Z.max (54 + e - 53) e_min - e) with 1 by (unfold e_min; lia).
      destruct (shr_1_spec (Z.pos q) r s R P ltac:(lia) HR Hrs) as (r1 & s1 & Hsh & Hl1).
      exists (Z.pos q / 2), r1, s1, (e + 1), (R + P * (Z.pos q mod 2)), (2 * P).
      pose proof (Z.mod_pos_bound (Z.pos q) 2 ltac:(lia)).
      pose proof (Z.div_mod (Z.pos q) 2 ltac:(lia)).
      split; [|split_and!; try done; nia].
      unfold shr. cbn [SpecFloat.iter_pos]. by rewrite Hsh. }
  destruct (round_nearest_even_err q1 r1 s1 R1 P1 HR1 Hl1) as [Hr1 _].
  set (q2 := round_nearest_even _ _) in *.
  destruct (shr_fexp_normal q2 e1) as (m' & e' & Hsh & Hm' & He' & _);
    [unfold e_min; lia|lia|].
  exists m', e'. split_and!; [| |lia|lia].
  - unfold binary_round_aux. rewrite Hs1. cbn [shr_m]. fold q2. rewrite Hsh. cbn [shr_m].
    replace (e' <=? emax - prec) with true; [done|].
    symmetry. apply Z.leb_le. change (emax - prec) with 971. lia.
  - apply bounded_spec. unfold e_min. lia.
Qed.

Lemma f64_div_normal m1 e1 m2 e2 :
  2 ^ 52 <= Z.pos m1 < 2 ^ 53 -> 2 ^ 52 <= Z.pos m2 < 2 ^ 53 -> -900 <= e1 - e2 <= 900 ->
  exists m' e', f64_div (S754_finite false m1 e1) (S754_finite false m2 e2) =
      S754_finite false m' e' /\
    bounded prec emax m' e' = true /\ e' <= e1 - e2 - 51.
Proof.
  intros H1 H2 He. unfold f64_div, SFdiv. cbn [xorb].
  unfold SFdiv_core_binary. rewrite !Zdigits2_pos, fexp_eq.
  rewrite (digits2_pos_unique m1 53), (digits2_pos_unique m2 53) by (simpl; lia).
  replace (Z.min (Z.max (53 + e1 - (53 + e2) - 53) e_min) (e1 - e2)) with (e1 - e2 - 53)
    by (unfold e_min; lia).
  replace (e1 - e2 - (e1 - e2 - 53)) with 53 by lia. cbv zeta iota.
  destruct (Z.div_eucl (Z.shiftl (Z.pos m1) 53) (Z.pos m2)) as [q r] eqn:E.
  rewrite Z.shiftl_mul_pow2 in E by lia.
  pose proof (Z_div_mod (Z.pos m1 * 2 ^ 53) (Z.pos m2) ltac:(lia)) as Hdm.
  rewrite E in Hdm. destruct Hdm as [Hdm Hr].
  destruct (binary_round_aux_normal q (e1 - e2 - 53) (new_location (Z.pos m2) r) r (Z.pos m2))
    as (m' & e' & Hr' & Hb & He'); [nia|unfold e_min; lia|done|by apply new_location_ok|].
  exists m', e'. split_and!; [done|done|lia].
Qed.

(** A positive integer below [2 ^ 53] converts exactly, to a normal value. *)
Lemma f64_of_Z_normal z :
  0 < z < 2 ^ 53 ->
  exists m e, f64_of_Z z = S754_finite false m e /\ 2 ^ 52 <= Z.pos m < 2 ^ 53 /\
    Z.pos m * 2 ^ (e - e_min) = z * f_unit /\ -52 <= e <= 0.
Proof.
  intros Hz. destruct z as [|p|p]; [lia| |lia]. unfold f64_of_Z. simpl binary_normalize.
  pose proof (digits2_pos_le p 53 ltac:(lia) ltac:(lia)).
  destruct (binary_round_exact false p 0) as (m & e & -> & Hb & He & Hv);
    [unfold e_min; lia|done|lia|].
  apply bounded_spec in Hb as (He' & Hm & Hn).
  rewrite Z.sub_0_l in Hv. fold f_unit in Hv.
  assert (e = e_min \/ -52 <= e) as Hcase.
  { destruct Hn as [|Hn]; [by left|right].
    assert (Z.pos p * 2 ^ (- e_min) < 2 ^ (53 - e_min)) as Hlt.
    { replace (53 - e_min) with (53 + - e_min) by lia. rewrite Z.pow_add_r by (unfold e_min; lia).
      apply Z.mul_lt_mono_pos_r; [by apply Z.pow_pos_nonneg; unfold e_min; lia|lia]. }
    destruct (Z.le_gt_cases (-52) e) as [|Hgt]; [done|exfalso].
    assert (2 ^ (- e_min) <= Z.pos p * 2 ^ (- e_min)) by (unfold e_min in *; nia).
    assert (Z.pos m * 2 ^ (e - e_min) < 2 ^ (- e_min)).
    { replace (- e_min) with (53 + (e - e_min) + (- 53 - e)) by lia.
      rewrite !Z.pow_add_r by lia.
      assert (0 < 2 ^ (e - e_min)) by (apply Z.pow_pos_nonneg; lia).
      assert (1 <= 2 ^ (-53 - e)) by (pose proof (Z.pow_pos_nonneg 2 (-53 - e)); lia). nia. }
    unfold f_unit in Hv. lia. }
  exists m, e. split_and!; try done; try lia.
  - destruct Hn as [->|]; [|done].
    rewrite Z.sub_diag, Z.mul_1_r in Hv. unfold f_unit, e_min in Hv. lia.
  - destruct Hcase as [->|]; [|done].
    rewrite Z.sub_diag, Z.mul_1_r in Hv. unfold f_unit, e_min in Hv. lia.
Qed.

Lemma f64_of_Z_nonneg z :
  0 <= z < 2 ^ 1000 ->
  nonneg (f64_of_Z z) /\ fval (f64_of_Z z) <= 2 * (z * f_unit) /\
  (z < 2 ^ 53 -> fval (f64_of_Z z) = z * f_unit).
Proof.
  intros Hz. unfold f64_of_Z.
  destruct (binary_normalize_nonneg z 0 false) as (H1 & H2 & H3); [lia|unfold e_min; lia| |].
  { unfold f_top. replace (1023 - e_min) with (1023 + (0 - e_min)) by lia.
    rewrite Z.pow_add_r by (unfold e_min; lia).
    apply Z.mul_lt_mono_pos_r; [by apply Z.pow_pos_nonneg; unfold e_min; lia|].
    eapply Z.lt_trans; [apply Hz|]. apply Z.pow_lt_mono_r; lia. }
  rewrite Z.sub_0_l in H2, H3. fold f_unit in H2, H3.
  split_and!; [done|lia|done].
Qed.

(** ** Durations and instants

    A [Duration] is a number of nanoseconds; an [Instant] is read off a
    monotonic clock, in nanoseconds, and a difference of instants saturates at
    zero, as [Instant::sub] does. *)
Definition Duration : Type := Z.
Definition Instant : Type := Z.
Definition nanos_per_sec : Z := 1000000000.

Definition instant_sub (a b : Instant) : Duration := Z.max 0 (a - b).

(** A source of instants, whose readings a 64-bit count of seconds holds. *)
Class Clock (Env : Type) := { now : Env -> Instant * Env }.
Class ClockLaws (Env : Type) `{!Clock Env} : Prop := {
  now_range e : 0 <= fst (now e) < 2 ^ 94;
}.

(** [Duration::as_secs_f64]: seconds and nanoseconds converted separately. *)
Definition as_secs_f64 (d : Duration) : f64 :=
  f64_add (f64_of_Z (d / nanos_per_sec))
          (f64_div (f64_of_Z (d mod nanos_per_sec)) (f64_of_Z nanos_per_sec)).

(** [Duration::from_secs_f64]: panics on a negative, infinite or NaN argument
    and from [2 ^ 64] seconds on; otherwise truncates to a nanosecond. *)
Definition from_secs_f64 (x : f64) : res Duration :=
  match x with
  | S754_zero _ => Ret 0
  | S754_finite false m e =>
      if f64_lt x (f64_of_Z (2 ^ 64))
      then Ret (if 0 <=? e then Z.pos m * 2 ^ e * nanos_per_sec
                else Z.pos m * nanos_per_sec / 2 ^ (- e))
      else Panic "can not convert float seconds to Duration: value is either too big or NaN"
  | S754_infinity false | S754_nan =>
      Panic "can not convert float seconds to Duration: value is either too big or NaN"
  | S754_finite true _ _ | S754_infinity true =>
      Panic "can not convert float seconds to Duration: value is negative"
  end.

Lemma f64_gt_zero_cases x :
  f64_gt x (f64_of_Z 0) = true ->
  x = S754_infinity false \/ exists m e, x = S754_finite false m e.
Proof.
  destruct x as [s|s| |s m e]; try done; unfold f64_gt, SFltb; simpl;
    destruct s; try done; eauto.
Qed.

(** A duration in seconds is a well-formed non-negative value. *)
Lemma as_secs_f64_nonneg d :
  0 <= d < 2 ^ 95 -> nonneg (as_secs_f64 d) /\ fval (as_secs_f64 d) <= 2 ^ 98 * f_unit.
Proof.
  intros Hd. unfold as_secs_f64.
  assert (nanos_per_sec = 1000000000) as Hn by done.
  destruct (f64_of_Z_nonneg (d / nanos_per_sec)) as (Hs1 & Hs2 & _).
  { split; [apply Z.div_pos; lia|]. apply Z.div_lt_upper_bound; [lia|].
    assert (2 ^ 95 < 2 ^ 1000) by (apply Z.pow_lt_mono_r; lia). lia. }
  assert (exists f, f64_div (f64_of_Z (d mod nanos_per_sec)) (f64_of_Z nanos_per_sec) = f /\
            nonneg f /\ fval f <= 2 ^ (60 - e_min)) as (f & -> & Hf1 & Hf2).
  { eexists; split; [done|].
    pose proof (Z.mod_pos_bound d nanos_per_sec ltac:(lia)) as Hb.
    destruct (f64_of_Z_normal nanos_per_sec) as (m2 & e2 & -> & Hm2 & _ & He2); [lia|].
    destruct (Z.eq_dec (d mod nanos_per_sec) 0) as [->|Hne].
    { split; [done|]. simpl. by apply Z.pow_nonneg. }
    destruct (f64_of_Z_normal (d mod nanos_per_sec)) as (m1 & e1 & -> & Hm1 & _ & He1); [lia|].
    destruct (f64_div_normal m1 e1 m2 e2) as (m' & e' & -> & Hb' & He'); [done|done|lia|].
    split; [done|]. cbn [fval cond_Zopp]. apply bounded_spec in Hb' as (? & ? & _).
    replace (60 - e_min) with (53 + (7 - e_min)) by lia.
    rewrite Z.pow_add_r by (unfold e_min; lia).
    assert (2 ^ (e' - e_min) <= 2 ^ (7 - e_min)) by (apply Z.pow_le_mono_r; lia).
    assert (0 < 2 ^ (e' - e_min)) by (apply Z.pow_pos_nonneg; lia). nia. }
  assert (fval (f64_of_Z (d / nanos_per_sec)) <= 2 ^ (96 - e_min)) as Hs3.
  { etrans; [exact Hs2|]. unfold f_unit.
    replace (96 - e_min) with (1 + 95 + - e_min) by lia.
    rewrite !Z.pow_add_r by (unfold e_min; lia).
    assert (d / nanos_per_sec <= d) by (apply Z.div_le_upper_bound; lia).
    assert (0 < 2 ^ (- e_min)) by (apply Z.pow_pos_nonneg; unfold e_min; lia). nia. }
  assert (2 ^ (96 - e_min) + 2 ^ (60 - e_min) <= 2 ^ (97 - e_min)) as Hp.
  { replace (97 - e_min) with (1 + (96 - e_min)) by lia. rewrite (Z.pow_add_r 2 1) by (unfold e_min; lia).
    assert (2 ^ (60 - e_min) <= 2 ^ (96 - e_min)) by (apply Z.pow_le_mono_r; lia). lia. }
  assert (2 * 2 ^ (97 - e_min) <= f_top) as Ht.
  { unfold f_top. rewrite <-Z.pow_succ_r by (unfold e_min; lia). apply Z.pow_le_mono_r; lia. }
  assert (0 < 2 ^ (97 - e_min)) by (apply Z.pow_pos_nonneg; unfold e_min; lia).
  destruct (f64_add_nonneg _ f Hs1 Hf1) as [Ha1 Ha2]; [lia|].
  split; [done|]. pose proof (fval_nonneg _ Hs1). pose proof (fval_nonneg _ Hf1).
  assert (2 ^ 98 * f_unit = 2 * 2 ^ (97 - e_min)) as ->; [|lia].
  unfold f_unit. rewrite <-Z.pow_add_r, <-Z.pow_succ_r by (unfold e_min; lia). done.
Qed.

Lemma f_unit_pos : 0 < f_unit.
Proof. by apply Z.pow_pos_nonneg; unfold e_min; lia. Qed.

Lemma f_top_unit : f_top = 2 ^ 1023 * f_unit.
Proof. unfold f_top, f_unit. rewrite <-Z.pow_add_r by (unfold e_min; lia). done. Qed.

(** Values below [2 ^ 200] add without overflow. *)
Lemma f_top_large z : z <= 2 ^ 200 * f_unit -> z < f_top.
Proof.
  intros H. rewrite f_top_unit. pose proof f_unit_pos.
  assert (2 ^ 200 < 2 ^ 1023) by (apply Z.pow_lt_mono_r; lia). nia.
Qed.

(** [x - x] is zero. *)
Lemma f64_sub_self x : nonneg x -> fval (f64_sub x x) = 0 /\ nonneg (f64_sub x x).
Proof.
  destruct x as [s|s| |[] m e]; try done.
  - intros _. unfold f64_sub. simpl. by destruct s.
  - intros _. unfold f64_sub. cbn [SFsub]. by rewrite Z.sub_diag.
Qed.
