(* ===== verification/GameTime.v ===== *)
(** The game clock ([wolf/src/system/chrono/gametime.rs]): one [tick] of a
    fixed-step or variable-step game loop, in the [f64] arithmetic of the
    source. *)
From S2P Require Import Prelude F64.
Local Open Scope Z_scope.
#[local] Set Default Goal Selector "!".

Definition MAX_DELTA_IN_MILLIS : f64 := f64_of_Z 60000.

Record GameTime := mkGameTime {
  last_time : Instant;
  elapsed_secs : f64;
  total_secs : f64;
  left_over_ticks : f64;
  frame_count : Z;
  fps : Z;
  frames_this_sec : Z;
  seconds_counter : f64;
  fixed_time_step : bool;
  target_elapsed_secs : f64;
}.

(** The callback of a tick is observed. *)
Inductive event := OnTick.

Section gametime.
Context {Env : Type} `{!Clock Env}.

(** [Default::default]. *)
Definition default : M Env event GameTime :=
  t ← act now;
  mret {| last_time := t; elapsed_secs := f64_of_Z 0; total_secs := f64_of_Z 0;
          left_over_ticks := f64_of_Z 0; frame_count := 0; fps := 0;
          frames_this_sec := 0; seconds_counter := f64_of_Z 0;
          fixed_time_step := false;
          target_elapsed_secs := f64_div (f64_of_Z 1) (f64_of_Z 60) |}.

Definition new : M Env event GameTime := default.

Definition reset (self : GameTime) : M Env event GameTime :=
  t ← act now;
  mret {| last_time := t; elapsed_secs := elapsed_secs self;
          total_secs := total_secs self; left_over_ticks := f64_of_Z 0;
          frame_count := frame_count self; fps := 0; frames_this_sec := 0;
          seconds_counter := f64_of_Z 0; fixed_time_step := fixed_time_step self;
          target_elapsed_secs := target_elapsed_secs self |}.
End gametime.

Definition set_fixed_time_step (p_value : bool) (self : GameTime) : GameTime :=
  {| last_time := last_time self; elapsed_secs := elapsed_secs self;
     total_secs := total_secs self; left_over_ticks := left_over_ticks self;
     frame_count := frame_count self; fps := fps self;
     frames_this_sec := frames_this_sec self; seconds_counter := seconds_counter self;
     fixed_time_step := p_value; target_elapsed_secs := target_elapsed_secs self |}.

Definition get_fixed_time_step (self : GameTime) : bool := fixed_time_step self.
Definition get_elapsed_seconds (self : GameTime) : f64 := elapsed_secs self.
Definition get_total_elapsed_seconds (self : GameTime) : f64 := total_secs self.

Definition set_target_elapsed_seconds (p_value : f64) (self : GameTime) : GameTime :=
  {| last_time := last_time self; elapsed_secs := elapsed_secs self;
     total_secs := total_secs self; left_over_ticks := left_over_ticks self;
     frame_count := frame_count self; fps := fps self;
     frames_this_sec := frames_this_sec self; seconds_counter := seconds_counter self;
     fixed_time_step := fixed_time_step self; target_elapsed_secs := p_value |}.

(** The four assignments that count one frame of [elapsed] seconds, with
    [left] left over and the frame counter [fc]. *)
Definition count_frame (elapsed left : f64) (fc : Z) (self : GameTime) : GameTime :=
  {| last_time := last_time self; elapsed_secs := elapsed;
     total_secs := f64_add (total_secs self) elapsed; left_over_ticks := left;
     frame_count := fc; fps := fps self;
     frames_this_sec := frames_this_sec self; seconds_counter := seconds_counter self;
     fixed_time_step := fixed_time_step self;
     target_elapsed_secs := target_elapsed_secs self |}.

(** The clock's reading is stored and the wall time accumulated. *)
Definition set_clock (t : Instant) (secs : f64) (self : GameTime) : GameTime :=
  {| last_time := t; elapsed_secs := elapsed_secs self;
     total_secs := total_secs self; left_over_ticks := left_over_ticks self;
     frame_count := frame_count self; fps := fps self;
     frames_this_sec := frames_this_sec self; seconds_counter := secs;
     fixed_time_step := fixed_time_step self;
     target_elapsed_secs := target_elapsed_secs self |}.

Definition set_left_over_ticks (left : f64) (self : GameTime) : GameTime :=
  {| last_time := last_time self; elapsed_secs := elapsed_secs self;
     total_secs := total_secs self; left_over_ticks := left;
     frame_count := frame_count self; fps := fps self;
     frames_this_sec := frames_this_sec self; seconds_counter := seconds_counter self;
     fixed_time_step := fixed_time_step self;
     target_elapsed_secs := target_elapsed_secs self |}.

Definition set_rate (f n : Z) (secs : f64) (self : GameTime) : GameTime :=
  {| last_time := last_time self; elapsed_secs := elapsed_secs self;
     total_secs := total_secs self; left_over_ticks := left_over_ticks self;
     frame_count := frame_count self; fps := f; frames_this_sec := n;
     seconds_counter := secs; fixed_time_step := fixed_time_step self;
     target_elapsed_secs := target_elapsed_secs self |}.

(** "Clamp excessively large time deltas". *)
Definition clamp_delta (d : f64) : f64 :=
  if f64_gt d MAX_DELTA_IN_MILLIS then MAX_DELTA_IN_MILLIS else d.

(** The snap of a delta that is close to the target. *)
Definition snap_delta (target d : f64) : f64 :=
  if f64_lt (f64_abs (f64_sub d target)) (f64_lit 4 10000) then target else d.

Section tick.
Context {Env : Type} `{!Clock Env} (oc : overflow).
(** [p_on_tick_fn]: acts on the environment; it cannot reach the clock it is
    called from, which is borrowed mutably. *)
Context (p_on_tick_fn : Env -> res unit * Env).

Definition call_on_tick : M Env event unit :=
  fun e => let '(r, e') := p_on_tick_fn e in (r, e', [OnTick]).

(** One test of the [while] of the fixed step and, when it holds, its body. *)
Definition fixed_step (self : GameTime) : M Env event (flow GameTime GameTime) :=
  if f64_ge (left_over_ticks self) (target_elapsed_secs self) then
    fc ← lift (arith_u oc 32 (frame_count self + 1));
    let self := count_frame (target_elapsed_secs self)
                  (f64_sub (left_over_ticks self) (target_elapsed_secs self)) fc self in
    _ ← call_on_tick;
    mret (Continue self)
  else mret (Break self).

(** "Track the current framerate". *)
Definition track_rate (last_frame_count : Z) (self : GameTime) : res GameTime :=
  d ← arith_u oc 32 (frame_count self - last_frame_count);
  n ← arith_u oc 32 (frames_this_sec self + d);
  mret (if f64_ge (seconds_counter self) (f64_of_Z 1)
        then set_rate n 0 (f64_rem (seconds_counter self) (f64_of_Z 1)) self
        else set_rate (fps self) n (seconds_counter self) self).

Definition tick_fn (fuel : nat) (self : GameTime) : M Env event GameTime :=
  current_time ← act now;
  let time_delta := as_secs_f64 (instant_sub current_time (last_time self)) in
  let self := set_clock current_time (f64_add (seconds_counter self) time_delta) self in
  let time_delta := clamp_delta time_delta in
  let last_frame_count := frame_count self in
  self ← (if fixed_time_step self then
            let time_delta := snap_delta (target_elapsed_secs self) time_delta in
            loop fuel fixed_step
              (set_left_over_ticks (f64_add (left_over_ticks self) time_delta) self)
          else
            fc ← lift (arith_u oc 32 (frame_count self + 1));
            let self := count_frame time_delta (f64_of_Z 0) fc self in
            _ ← call_on_tick;
            mret self);
  lift (track_rate last_frame_count self).
End tick.

(** [tick]: a tick whose callback does nothing. *)
Definition tick {Env} `{!Clock Env} (oc : overflow) (fuel : nat) (self : GameTime)
    : M Env event GameTime :=
  tick_fn oc (fun e => (Ret tt, e)) fuel self.

(** ** Reference definitions *)

(** One frame of the fixed step, with the counter modulo [2 ^ 32]. *)
Definition frame (g : GameTime) : GameTime :=
  count_frame (target_elapsed_secs g)
    (f64_sub (left_over_ticks g) (target_elapsed_secs g))
    (wrap_u 32 (frame_count g + 1)) g.

(** The rate after [n] callbacks. *)
Definition track (n : nat) (g : GameTime) : GameTime :=
  let k := wrap_u 32 (frames_this_sec g + Z.of_nat n) in
  if f64_ge (seconds_counter g) (f64_of_Z 1)
  then set_rate k 0 (f64_rem (seconds_counter g) (f64_of_Z 1)) g
  else set_rate (fps g) k (seconds_counter g) g.

(** The clamped delta a tick at [t] sees. *)
Definition delta (t : Instant) (g : GameTime) : f64 :=
  clamp_delta (as_secs_f64 (instant_sub t (last_time g))).

(** The state in which the frames of a fixed-step tick at [t] start. *)
Definition start (t : Instant) (g : GameTime) : GameTime :=
  set_left_over_ticks
    (f64_add (left_over_ticks g) (snap_delta (target_elapsed_secs g) (delta t g)))
    (set_clock t (f64_add (seconds_counter g)
                    (as_secs_f64 (instant_sub t (last_time g)))) g).

(** The invariant of the game clock: targets from a microsecond to a minute. *)
Record wf (g : GameTime) : Prop := {
  wf_last : 0 <= last_time g;
  wf_left : nonneg (left_over_ticks g) /\ fval (left_over_ticks g) <= 60000 * f_unit;
  wf_target : nonneg (target_elapsed_secs g) /\
    f_unit <= 2 ^ 20 * fval (target_elapsed_secs g) /\
    fval (target_elapsed_secs g) <= 60000 * f_unit;
  wf_secs : nonneg (seconds_counter g) /\ fval (seconds_counter g) < f_unit;
  wf_frames : 0 <= frame_count g < 2 ^ 32;
  wf_rate : 0 <= fps g < 2 ^ 32 /\ 0 <= frames_this_sec g < 2 ^ 32;
}.

(** ** The frames of a fixed-step tick *)

Lemma iter_frame n g :
  let g' := Nat.iter n frame g in
  last_time g' = last_time g /\ fps g' = fps g /\
  frames_this_sec g' = frames_this_sec g /\ seconds_counter g' = seconds_counter g /\
  fixed_time_step g' = fixed_time_step g /\
  target_elapsed_secs g' = target_elapsed_secs g /\
  left_over_ticks g' =
    Nat.iter n (fun l => f64_sub l (target_elapsed_secs g)) (left_over_ticks g) /\
  total_secs g' = Nat.iter n (fun s => f64_add s (target_elapsed_secs g)) (total_secs g) /\
  wrap_u 32 (frame_count g') = wrap_u 32 (frame_count g + Z.of_nat n) /\
  elapsed_secs g' = (if (n =? 0)%nat then elapsed_secs g else target_elapsed_secs g).
Proof.
  induction n as [|n IH]; simpl.
  - split_and!; try done. by rewrite Z.add_0_r.
  - set (gn := Nat.iter n frame g) in *. clearbody gn.
    destruct IH as (? & ? & ? & ? & ? & Ht & Hl & Hs & Hf & ?). unfold frame; simpl.
    rewrite Ht, Hl, Hs. split_and!; try done.
    rewrite wrap_u_idemp, <-wrap_u_add_l, Hf, wrap_u_add_l. f_equal. lia.
Qed.

Lemma iter_frame_range n g :
  0 <= frame_count g < 2 ^ 32 -> 0 <= frame_count (Nat.iter n frame g) < 2 ^ 32.
Proof. destruct n; [done|]. intros _. simpl. by apply wrap_u_range. Qed.

(** While the step is not below [2 ^ -52] of what is left over, a frame takes
    at least half of it away, rounding included. *)
Lemma left_over_decreases l t :
  nonneg l -> nonneg t -> 0 < fval t <= fval l -> fval l <= 2 ^ 52 * fval t -> fval l < f_top ->
  nonneg (f64_sub l t) /\ 2 * fval (f64_sub l t) <= 2 * fval l - fval t.
Proof.
  intros Hl Ht Hle Hbig Htop.
  destruct (f64_sub_nonneg l t Hl Ht) as [Hn He]; [lia|].
  split; [done|]. change (2 ^ 53) with (2 * 2 ^ 52) in He. lia.
Qed.

(** What the frames of a fixed-step tick do: as many as it takes to bring the
    left-over time under the target, and no more. *)
Definition frames_done (n : nat) (g g' : GameTime) : Prop :=
  g' = Nat.iter n frame g /\
  nonneg (left_over_ticks g') /\
  fval (left_over_ticks g') < fval (target_elapsed_secs g) /\
  (forall k, (k < n)%nat ->
     nonneg (left_over_ticks (Nat.iter k frame g)) /\
     fval (target_elapsed_secs g) <= fval (left_over_ticks (Nat.iter k frame g))).

Lemma frames_done_S n g g' :
  nonneg (left_over_ticks g) ->
  fval (target_elapsed_secs g) <= fval (left_over_ticks g) ->
  frames_done n (frame g) g' -> frames_done (S n) g g'.
Proof.
  intros Hnn Hge (-> & Hn & Hlt & Hk). split_and!; try done.
  - by rewrite Nat.iter_succ_r.
  - intros [|k] Hk'; [done|]. rewrite Nat.iter_succ_r. apply (Hk k). lia.
Qed.

Lemma frames_done_tail n g g' : frames_done (S n) g g' -> frames_done n (frame g) g'.
Proof.
  intros (-> & Hn & Hlt & Hk). rewrite Nat.iter_succ_r in *. split_and!; try done.
  intros k Hkn. specialize (Hk (S k) ltac:(lia)). by rewrite Nat.iter_succ_r in Hk.
Qed.

(** ** Bounds on the quantities of a tick *)

Lemma max_delta_val : nonneg MAX_DELTA_IN_MILLIS /\ fval MAX_DELTA_IN_MILLIS = 60000 * f_unit.
Proof.
  destruct (f64_of_Z_nonneg 60000) as (H1 & _ & H3).
  { split; [lia|]. apply (Z.lt_trans _ (2 ^ 16)); [lia|]. by apply Z.pow_lt_mono_r. }
  split; [done|]. by apply H3.
Qed.

Lemma one_val : nonneg (f64_of_Z 1) /\ fval (f64_of_Z 1) = f_unit.
Proof. split; [done|]. by vm_compute. Qed.

Lemma instant_sub_range t l : 0 <= t < 2 ^ 94 -> 0 <= l -> 0 <= instant_sub t l < 2 ^ 95.
Proof.
  intros Ht Hl. unfold instant_sub. assert (2 ^ 94 < 2 ^ 95) by done. lia.
Qed.

Lemma delta_bounds t g :
  0 <= last_time g -> 0 <= t < 2 ^ 94 -> nonneg (delta t g) /\ fval (delta t g) <= 60000 * f_unit.
Proof.
  intros Hg Ht. destruct (as_secs_f64_nonneg (instant_sub t (last_time g))) as [H1 _].
  { by apply instant_sub_range. }
  destruct max_delta_val as [H2 H3].
  unfold delta, clamp_delta. rewrite f64_gt_fval by done.
  destruct (Z.ltb_spec (fval MAX_DELTA_IN_MILLIS) (fval (as_secs_f64 (instant_sub t (last_time g)))));
    split; done || lia.
Qed.

Lemma snap_bounds t g :
  wf g -> 0 <= t < 2 ^ 94 ->
  let d := snap_delta (target_elapsed_secs g) (delta t g) in
  nonneg d /\ fval d <= 60000 * f_unit.
Proof.
  intros Hg Ht. unfold snap_delta. case_match; [|apply delta_bounds; [apply Hg|done]].
  destruct (wf_target g Hg) as (? & ? & ?). done.
Qed.

Lemma start_left_bounds t g :
  wf g -> 0 <= t < 2 ^ 94 ->
  nonneg (left_over_ticks (start t g)) /\ fval (left_over_ticks (start t g)) <= 120001 * f_unit.
Proof.
  intros Hg Ht. destruct (wf_left g Hg) as [Hl1 Hl2].
  destruct (snap_bounds t g Hg Ht) as [Hd1 Hd2].
  pose proof f_unit_pos. simpl.
  destruct (f64_add_nonneg (left_over_ticks g) (snap_delta (target_elapsed_secs g) (delta t g)))
    as [Ha1 Ha2]; [done|done|apply f_top_large|].
  { assert (120000 < 2 ^ 200) by done. nia. }
  split; [done|]. assert (120000 < 2 ^ 53) by done. nia.
Qed.

Lemma start_secs_bounds t g :
  wf g -> 0 <= t < 2 ^ 94 ->
  nonneg (seconds_counter (start t g)) /\ fval (seconds_counter (start t g)) < f_top.
Proof.
  intros Hg Ht. destruct (wf_secs g Hg) as [Hs1 Hs2]. pose proof f_unit_pos.
  destruct (as_secs_f64_nonneg (instant_sub t (last_time g))) as [Hd1 Hd2].
  { apply instant_sub_range; [done|apply Hg]. }
  pose proof (fval_nonneg _ Hs1). pose proof (fval_nonneg _ Hd1). simpl.
  destruct (f64_add_nonneg (seconds_counter g) (as_secs_f64 (instant_sub t (last_time g))))
    as [Ha1 Ha2]; [done|done|apply f_top_large|].
  { assert (1 + 2 ^ 98 < 2 ^ 200) by done. nia. }
  split; [done|]. apply f_top_large.
  assert (2 * (1 + 2 ^ 98) < 2 ^ 200) by done. nia.
Qed.

Lemma track_rate_Ret oc n c g g' :
  wrap_u 32 (frame_count g) = wrap_u 32 (c + Z.of_nat n) ->
  track_rate oc c g = Ret g' -> g' = track n g.
Proof.
  intros Hc. unfold track_rate, mbind, res_mbind, res_bind.
  destruct (arith_u oc 32 (frame_count g - c)) as [d| |] eqn:Ed; try done.
  destruct (arith_u oc 32 (frames_this_sec g + d)) as [k| |] eqn:Ek; try done.
  apply arith_u_Ret in Ed, Ek. intros [= <-]. unfold track.
  assert (k = wrap_u 32 (frames_this_sec g + Z.of_nat n)) as ->; [|done].
  subst k d. rewrite wrap_u_add_r, <-(wrap_u_add_r _ _ (_ - _)), <-wrap_u_sub_l, Hc, wrap_u_sub_l, wrap_u_add_r.
  f_equal. lia.
Qed.

Lemma track_rate_fuel oc c g : track_rate oc c g <> NoFuel.
Proof.
  unfold track_rate, mbind, res_mbind, res_bind. pose proof arith_u_fuel as Ha.
  destruct (arith_u oc 32 (frame_count g - c)) as [d| |] eqn:Ed; [|done|by apply Ha in Ed].
  destruct (arith_u oc 32 (frames_this_sec g + d)) as [k| |] eqn:Ek; [done|done|by apply Ha in Ek].
Qed.

Section tick_proofs.
Context {Env : Type} `{!Clock Env} (oc : overflow) (f : Env -> res unit * Env).
(** The callback returns (or panics). *)
Context (f_returns : forall e, fst (f e) <> NoFuel).

Lemma wp_call_on_tick (Q : res unit -> Env -> list event -> Prop) e :
  (forall e', Q (Ret tt) e' [OnTick]) -> (forall s e', Q (Panic s) e' [OnTick]) ->
  wp (call_on_tick f) Q e.
Proof.
  intros H1 H2. unfold wp, call_on_tick. specialize (f_returns e).
  destruct (f e) as [[[]|s|] e']; done.
Qed.

Lemma fixed_loop_wp fuel g e :
  nonneg (left_over_ticks g) -> nonneg (target_elapsed_secs g) ->
  0 < fval (target_elapsed_secs g) ->
  fval (left_over_ticks g) <= 2 ^ 52 * fval (target_elapsed_secs g) ->
  fval (left_over_ticks g) < f_top ->
  2 * fval (left_over_ticks g) < Z.of_nat fuel * fval (target_elapsed_secs g) ->
  wp (loop fuel (fixed_step oc f) g)
     (fun r _ t => r <> NoFuel /\ exists n, t = replicate n OnTick /\
        forall g', r = Ret g' -> frames_done n g g') e.
Proof.
  revert g e. induction fuel as [|fuel IH]; intros g e Hl Ht Hpos Hbig Htop Hfuel.
  { pose proof (fval_nonneg _ Hl). lia. }
  rewrite loop_S. apply wp_bind. unfold fixed_step at 1.
  rewrite f64_ge_fval by done.
  destruct (Z.leb_spec (fval (target_elapsed_secs g)) (fval (left_over_ticks g))) as [Hle|Hlt];
    cycle 1.
  { do 2 apply wp_ret. split; [done|]. exists O. split; [done|].
    intros ? [= <-]. split_and!; try done. intros k ?. lia. }
  apply wp_bind, wp_lift.
  destruct (arith_u oc 32 (frame_count g + 1)) as [fc|s|] eqn:Efc;
    [|by split; [|exists O]|by apply arith_u_fuel in Efc].
  apply arith_u_Ret in Efc as ->. apply wp_bind.
  destruct (left_over_decreases (left_over_ticks g) (target_elapsed_secs g)) as [Hl' Hd];
    [done || lia..|].
  pose proof (fval_nonneg _ Hl').
  apply wp_call_on_tick; [|by split; [|exists 1%nat]].
  intros e'. apply wp_ret.
  eapply wp_mono; [|apply (IH (frame g) e'); simpl; done || lia].
  intros r e2 t [Hr (n & -> & Hdone)]. split; [done|]. exists (S n). split; [done|].
  intros g' Hg'. by apply frames_done_S; [| |apply Hdone].
Qed.

(** Fuel for the longest tick: both the left-over time and the delta are at
    most a minute of thousands of seconds. *)
Definition enough_fuel (fuel : nat) (g : GameTime) : Prop :=
  240002 * f_unit < Z.of_nat fuel * fval (target_elapsed_secs g).

Lemma tick_fixed_wp `{!ClockLaws Env} fuel g e :
  wf g -> fixed_time_step g = true -> enough_fuel fuel g ->
  wp (tick_fn oc f fuel g)
     (fun r _ t => r <> NoFuel /\ exists n, t = replicate n OnTick /\
        forall g', r = Ret g' -> exists g1,
          frames_done n (start (fst (now e)) g) g1 /\ g' = track n g1) e.
Proof.
  intros Hg Hfixed Hfuel. unfold enough_fuel in Hfuel. unfold tick_fn.
  apply wp_bind, wp_act. intros t e1 Et.
  assert (t = fst (now e)) as -> by (by rewrite Et).
  pose proof (now_range e) as Ht. set (t := fst (now e)) in *. clearbody t.
  cbv zeta. apply wp_bind. cbn [fixed_time_step set_clock].
  rewrite Hfixed. cbn [target_elapsed_secs left_over_ticks frame_count set_clock].
  fold (delta t g). fold (start t g). pose proof f_unit_pos.
  destruct (start_left_bounds t g Hg Ht) as [Hl1 Hl2].
  destruct (wf_target g Hg) as (Ht1 & Ht2 & Ht3).
  eapply wp_mono; [|apply (fixed_loop_wp fuel (start t g)); try done].
  - intros r e2 tr [Hr (n & -> & Hdone)].
    destruct r as [g1|s|]; [|by split; [|exists n]|done].
    destruct (Hdone g1) as (Hg1 & Hrest); [done|].
    apply wp_lift. rewrite app_nil_r. split; [apply track_rate_fuel|].
    exists n. split; [done|]. intros g' Hg'. exists g1. split; [by split|].
    eapply track_rate_Ret; [|exact Hg']. subst g1.
    by destruct (iter_frame n (start t g)) as (_ & _ & _ & _ & _ & _ & _ & _ & -> & _).
  - change (target_elapsed_secs (start t g)) with (target_elapsed_secs g). nia.
  - change (target_elapsed_secs (start t g)) with (target_elapsed_secs g).
    assert (120001 * 2 ^ 20 <= 2 ^ 52) by done. nia.
  - apply f_top_large. assert (120001 <= 2 ^ 200) by done. nia.
  - change (target_elapsed_secs (start t g)) with (target_elapsed_secs g). lia.
Qed.
End tick_proofs.

(** ** The rate window and the invariant *)

(** What a tick leaves of the rate counters: a second is closed when its wall
    time is complete. *)
Lemma track_window n g :
  nonneg (seconds_counter g) ->
  fval (seconds_counter (track n g)) = fval (seconds_counter g) mod f_unit /\
  nonneg (seconds_counter (track n g)) /\
  (if f_unit <=? fval (seconds_counter g)
   then fps (track n g) = wrap_u 32 (frames_this_sec g + Z.of_nat n) /\
        frames_this_sec (track n g) = 0
   else fps (track n g) = fps g /\
        frames_this_sec (track n g) = wrap_u 32 (frames_this_sec g + Z.of_nat n)).
Proof.
  intros Hs. destruct one_val as [H1 H2]. pose proof f_unit_pos. unfold track.
  rewrite f64_ge_fval, H2 by done.
  destruct (Z.leb_spec f_unit (fval (seconds_counter g))); simpl.
  - destruct (f64_rem_nonneg (seconds_counter g) (f64_of_Z 1)) as [Hn Hv]; [done..|rewrite H2; lia| |].
    { rewrite H2. apply f_top_large. assert (1 < 2 ^ 200) by done. nia. }
    rewrite H2 in Hv. done.
  - split_and!; try done. rewrite Z.mod_small; [done|]. split; [by apply fval_nonneg|done].
Qed.

Lemma track_fields n g :
  last_time (track n g) = last_time g /\ elapsed_secs (track n g) = elapsed_secs g /\
  total_secs (track n g) = total_secs g /\ left_over_ticks (track n g) = left_over_ticks g /\
  frame_count (track n g) = frame_count g /\
  target_elapsed_secs (track n g) = target_elapsed_secs g /\
  fixed_time_step (track n g) = fixed_time_step g.
Proof. unfold track. case_match; done. Qed.

Lemma wf_track n g :
  0 <= last_time g -> nonneg (left_over_ticks g) ->
  fval (left_over_ticks g) <= 60000 * f_unit ->
  (nonneg (target_elapsed_secs g) /\
   f_unit <= 2 ^ 20 * fval (target_elapsed_secs g) /\
   fval (target_elapsed_secs g) <= 60000 * f_unit) ->
  nonneg (seconds_counter g) -> 0 <= frame_count g < 2 ^ 32 -> 0 <= fps g < 2 ^ 32 ->
  wf (track n g).
Proof.
  intros H1 H2 H3 H4 H5 H6 H7.
  destruct (track_fields n g) as (El & _ & _ & Eo & Ef & Et & _).
  destruct (track_window n g H5) as (Hw1 & Hw2 & Hw3).
  pose proof f_unit_pos. pose proof (wrap_u_range 32 (frames_this_sec g + Z.of_nat n) ltac:(lia)).
  split; rewrite ?El, ?Eo, ?Ef, ?Et; try done.
  - split; [done|]. rewrite Hw1. by apply Z.mod_pos_bound.
  - case_match; destruct Hw3 as [-> ->]; done.
Qed.

(** The state after the frames of a fixed-step tick is well formed once the
    rate is tracked. *)
Lemma wf_frames_done n k t g g1 :
  wf g -> 0 <= t < 2 ^ 94 -> frames_done n (start t g) g1 -> wf (track k g1).
Proof.
  intros Hg Ht (-> & Hn & Hlt & _).
  destruct (iter_frame n (start t g)) as (El & Efps & _ & Es & _ & Et & _).
  destruct (wf_target g Hg) as (T1 & T2 & T3). simpl in *.
  apply wf_track; rewrite ?El, ?Efps, ?Es, ?Et; try done.
  - simpl. lia.
  - change (target_elapsed_secs (start t g)) with (target_elapsed_secs g) in Hlt. lia.
  - by apply start_secs_bounds.
  - apply iter_frame_range. apply Hg.
  - apply Hg.
Qed.

Section variable.
Context {Env : Type} `{!Clock Env} (oc : overflow) (f : Env -> res unit * Env).

(** A variable-step tick, whatever its callback does. *)
Lemma tick_variable_wp fuel g e :
  fixed_time_step g = false ->
  (forall e, fst (f e) <> NoFuel) ->
  wp (tick_fn oc f fuel g)
     (fun r _ t => r <> NoFuel /\ forall g', r = Ret g' ->
        t = [OnTick] /\
        let g0 := set_clock (fst (now e))
                    (f64_add (seconds_counter g)
                       (as_secs_f64 (instant_sub (fst (now e)) (last_time g)))) g in
        g' = track 1 (count_frame (delta (fst (now e)) g) (f64_of_Z 0)
                        (wrap_u 32 (frame_count g + 1)) g0)) e.
Proof.
  intros Hvar Hf. unfold tick_fn. apply wp_bind, wp_act. intros t e1 Et.
  assert (t = fst (now e)) as -> by (by rewrite Et). set (t := fst (now e)).
  cbv zeta. apply wp_bind. cbn [fixed_time_step set_clock]. rewrite Hvar.
  cbn [frame_count set_clock]. apply wp_bind, wp_lift.
  destruct (arith_u oc 32 (frame_count g + 1)) as [fc|s|] eqn:Efc;
    [|done|by apply arith_u_fuel in Efc].
  apply arith_u_Ret in Efc as ->. apply wp_bind, wp_call_on_tick; [done| |done].
  intros e'. apply wp_ret, wp_lift. split; [apply track_rate_fuel|].
  intros g' Hg'. split; [done|]. fold (delta t g) in Hg'.
  eapply track_rate_Ret; [|exact Hg']. simpl. by rewrite wrap_u_idemp.
Qed.
End variable.

(** ** The properties of a tick *)

(** C1: a fixed-step tick always ends: whatever time has passed, for every
    target from a microsecond to a minute, [enough_fuel] iterations reach the
    exit of the [while] (so the loop terminates in the [f64] arithmetic that
    computes it, rounding included). When it returns, the callbacks it made are
    exactly the [n] frames the counter advanced by, each of the target's length,
    the time left over is below one target, and no callback was made before a
    whole target had accumulated. *)
Theorem tick_fixed_callbacks {Env} `{!Clock Env} `{!ClockLaws Env} oc
    (f : Env -> res unit * Env) fuel g e :
  (forall e, fst (f e) <> NoFuel) ->
  wf g -> fixed_time_step g = true -> enough_fuel fuel g ->
  wp (tick_fn oc f fuel g)
     (fun r _ t => r <> NoFuel /\ exists n, t = replicate n OnTick /\
        forall g', r = Ret g' ->
          frame_count g' = wrap_u 32 (frame_count g + Z.of_nat n) /\
          elapsed_secs g' = (if (n =? 0)%nat then elapsed_secs g else target_elapsed_secs g) /\
          total_secs g' = Nat.iter n (fun s => f64_add s (target_elapsed_secs g)) (total_secs g) /\
          f64_lt (left_over_ticks g') (target_elapsed_secs g) = true /\
          (forall k, (k < n)%nat ->
             f64_ge (Nat.iter k (fun l => f64_sub l (target_elapsed_secs g))
                       (left_over_ticks (start (fst (now e)) g)))
                    (target_elapsed_secs g) = true)) e.
Proof.
  intros Hf Hg Hfixed Hfuel.
  eapply wp_mono; [|by apply tick_fixed_wp]. intros r _ t [Hr (n & -> & H)].
  split; [done|]. exists n. split; [done|]. intros g' Hg'.
  destruct (H g' Hg') as (g1 & (-> & Hn & Hlt & Hk) & ->).
  set (s := start (fst (now e)) g) in *.
  destruct (iter_frame n s) as (_ & _ & _ & _ & _ & Et & El & Es & Ec & Ee).
  destruct (track_fields n (Nat.iter n frame s)) as (_ & -> & -> & -> & -> & _).
  pose proof (wf_target g Hg) as (T1 & _).
  split_and!; [|done|done| |].
  - rewrite <-(wrap_u_small 32 (frame_count _)); [done|]. apply iter_frame_range, Hg.
  - rewrite f64_lt_fval by done. by apply Z.ltb_lt.
  - intros k Hkn. destruct (Hk k Hkn) as [Hkl Hkt].
    destruct (iter_frame k s) as (_ & _ & _ & _ & _ & _ & El' & _). rewrite El' in Hkl, Hkt.
    change (target_elapsed_secs s) with (target_elapsed_secs g) in *.
    rewrite f64_ge_fval by done. by apply Z.leb_le.
Qed.

(** A clock whose reading is the environment itself, and a well-formed state
    that ticks four times a second. *)
#[local] Instance wall_clock : Clock Z := {| now e := (e mod 2 ^ 94, e) |}.
#[local] Instance wall_clock_laws : ClockLaws Z.
Proof. split. intros e. by apply Z.mod_pos_bound. Qed.

Definition quarter : GameTime :=
  {| last_time := 0; elapsed_secs := f64_of_Z 0; total_secs := f64_of_Z 0;
     left_over_ticks := f64_of_Z 0; frame_count := 0; fps := 0; frames_this_sec := 0;
     seconds_counter := f64_of_Z 0; fixed_time_step := true;
     target_elapsed_secs := f64_lit 1 4 |}.
Definition count_up : Z -> res unit * Z := fun e => (Ret tt, e + 1).

Lemma quarter_wf : wf quarter.
Proof. split; split_and?; by vm_compute. Qed.

Lemma quarter_fuel : enough_fuel (Z.to_nat 1000000) quarter.
Proof. unfold enough_fuel. rewrite Z2Nat.id by lia. by vm_compute. Qed.

Lemma count_up_returns e : fst (count_up e) <> NoFuel.
Proof. done. Qed.

(** A second and a tenth: four callbacks, a tenth left over. *)
Example quarter_tick :
  let '(r, e, t) := tick_fn Checked count_up 8 quarter 1100000000 in
  t = [OnTick; OnTick; OnTick; OnTick] /\ e = 1100000004 /\
  match r with
  | Ret g => fps g = 4 /\ frames_this_sec g = 0 /\ frame_count g = 4 /\
             total_secs g = f64_of_Z 1
  | _ => False
  end.
Proof. by vm_compute. Qed.

Lemma tick_fixed_callbacks_witness :
  wf quarter /\
  wp (tick_fn Checked count_up (Z.to_nat 1000000) quarter)
     (fun r _ _ => r <> NoFuel) 1100000000.
Proof.
  split; [exact quarter_wf|].
  eapply wp_mono; [|exact (tick_fixed_callbacks Checked count_up _ quarter 1100000000
    count_up_returns quarter_wf eq_refl quarter_fuel)].
  by intros r e t [Hr _].
Defined.

(** C27: a tick of either mode keeps the clock well formed, when it returns: the
    wall-time window of the rate counter stays below one second, the left-over
    time in range, and the counters within [u32]. *)
Theorem tick_preserves_wf {Env} `{!Clock Env} `{!ClockLaws Env} oc
    (f : Env -> res unit * Env) fuel g e g' e' t :
  (forall e, fst (f e) <> NoFuel) ->
  wf g -> enough_fuel fuel g ->
  tick_fn oc f fuel g e = (Ret g', e', t) ->
  wf g' /\ last_time g' = fst (now e) /\
  fixed_time_step g' = fixed_time_step g /\
  target_elapsed_secs g' = target_elapsed_secs g.
Proof.
  intros Hf Hg Hfuel Hrun. pose proof (now_range e) as Ht.
  destruct (fixed_time_step g) eqn:Hmode.
  - pose proof (tick_fixed_wp oc f Hf fuel g e Hg Hmode Hfuel) as H.
    apply (wp_run _ _ _ _ _ _ Hrun) in H as [_ (n & _ & H)].
    destruct (H g' eq_refl) as (g1 & Hd & ->).
    split; [by eapply wf_frames_done|]. destruct Hd as [-> _].
    destruct (track_fields n (Nat.iter n frame (start (fst (now e)) g)))
      as (-> & _ & _ & _ & _ & -> & ->).
    destruct (iter_frame n (start (fst (now e)) g)) as (-> & _ & _ & _ & -> & -> & _).
    done.
  - pose proof (tick_variable_wp oc f fuel g e Hmode Hf) as H.
    apply (wp_run _ _ _ _ _ _ Hrun) in H as [_ H].
    destruct (H g' eq_refl) as [_ ->]. pose proof f_unit_pos.
    split; [|by rewrite !(fun n g => proj1 (track_fields n g)); 
             destruct (track_fields 1 (count_frame (delta (fst (now e)) g) (f64_of_Z 0)
               (wrap_u 32 (frame_count g + 1)) (set_clock (fst (now e))
                 (f64_add (seconds_counter g) (as_secs_f64 (instant_sub (fst (now e)) (last_time g)))) g)))
               as (_ & _ & _ & _ & _ & -> & ->)].
    apply wf_track; simpl; try done; try lia.
    + apply Hg.
    + by apply (start_secs_bounds _ g Hg).
    + by apply wrap_u_range.
    + apply Hg.
Qed.

Lemma tick_preserves_wf_witness :
  exists g' e' t, tick_fn Checked count_up (Z.to_nat 1000000)
      (set_fixed_time_step false quarter) 1100000000 = (Ret g', e', t) /\ wf g'.
Proof.
  destruct (tick_fn Checked count_up (Z.to_nat 1000000)
      (set_fixed_time_step false quarter) 1100000000) as [[r e'] t] eqn:E.
  assert (exists g', r = Ret g') as [g' ->].
  { vm_compute in E. eexists. by injection E. }
  exists g', e', t. split; [done|].
  refine (proj1 (tick_preserves_wf Checked count_up _ _ _ _ _ _ count_up_returns _ _ E)).
  - split; split_and?; by vm_compute.
  - exact quarter_fuel.
Defined.

(** C26: the frame rate: in either mode a tick that returns closes the current
    one-second window exactly when the wall time it accumulated reaches 1.0,
    reporting in [fps] the frames counted since the window opened (this tick's
    included) and carrying the wall time over modulo one second; otherwise it
    only adds its frames to the count. *)
Theorem tick_rate_window {Env} `{!Clock Env} `{!ClockLaws Env} oc
    (f : Env -> res unit * Env) fuel g e g' e' t :
  (forall e, fst (f e) <> NoFuel) ->
  wf g -> enough_fuel fuel g ->
  tick_fn oc f fuel g e = (Ret g', e', t) ->
  let secs := f64_add (seconds_counter g)
                (as_secs_f64 (instant_sub (fst (now e)) (last_time g))) in
  let counted := wrap_u 32 (frames_this_sec g + Z.of_nat (length t)) in
  fval (seconds_counter g') = fval secs mod f_unit /\
  if f64_ge secs (f64_of_Z 1)
  then fps g' = counted /\ frames_this_sec g' = 0
  else fps g' = fps g /\ frames_this_sec g' = counted.
Proof.
  intros Hf Hg Hfuel Hrun secs counted. pose proof (now_range e) as Ht.
  destruct (start_secs_bounds _ g Hg Ht) as [Hs1 Hs2].
  assert (exists n g1, length t = n /\ g' = track n g1 /\ seconds_counter g1 = secs /\
            fps g1 = fps g /\ frames_this_sec g1 = frames_this_sec g)
    as (n & g1 & Hn & -> & E1 & E2 & E3).
  { destruct (fixed_time_step g) eqn:Hmode.
    - pose proof (tick_fixed_wp oc f Hf fuel g e Hg Hmode Hfuel) as H.
      apply (wp_run _ _ _ _ _ _ Hrun) in H as [_ (n & -> & H)].
      destruct (H g' eq_refl) as (g1 & [-> _] & ->). exists n. eexists.
      rewrite length_replicate. split_and!; [done..| | |].
      all: by destruct (iter_frame n (start (fst (now e)) g)) as (_ & ? & ? & ? & _).
    - pose proof (tick_variable_wp oc f fuel g e Hmode Hf) as H.
      apply (wp_run _ _ _ _ _ _ Hrun) in H as [_ H].
      destruct (H g' eq_refl) as [-> ->]. by repeat eexists. }
  change (seconds_counter (start (fst (now e)) g)) with secs in Hs1.
  destruct (track_window n g1) as (-> & _ & Hw); [by rewrite E1|].
  rewrite E1, E2, E3 in *. split; [done|].
  rewrite f64_ge_fval by done. destruct one_val as [_ ->].
  unfold counted. by rewrite Hn.
Qed.

Lemma tick_rate_window_witness :
  exists g' e' t, tick_fn Checked count_up (Z.to_nat 1000000)
      (set_fixed_time_step false quarter) 1100000000 = (Ret g', e', t) /\
    fps g' = 1 /\ frames_this_sec g' = 0.
Proof.
  destruct (tick_fn Checked count_up (Z.to_nat 1000000)
      (set_fixed_time_step false quarter) 1100000000) as [[r e'] t] eqn:E.
  assert (t = [OnTick] /\ exists g', r = Ret g') as [-> [g' ->]].
  { vm_compute in E. injection E as <- <- <-. by eauto. }
  exists g', e', [OnTick]. split; [done|].
  assert (wf (set_fixed_time_step false quarter)) as Hwf by (split; split_and?; by vm_compute).
  pose proof (tick_rate_window Checked count_up _ _ _ _ _ _ count_up_returns Hwf quarter_fuel E)
    as [_ H].
  by vm_compute in H.
Defined.

(** A variable-step tick: exactly one callback, over a delta clamped to
    [MAX_DELTA_IN_MILLIS], with nothing left over. *)
Theorem tick_variable_callback {Env} `{!Clock Env} `{!ClockLaws Env} oc
    (f : Env -> res unit * Env) fuel g e g' e' t :
  (forall e, fst (f e) <> NoFuel) ->
  wf g -> fixed_time_step g = false ->
  tick_fn oc f fuel g e = (Ret g', e', t) ->
  let d := as_secs_f64 (instant_sub (fst (now e)) (last_time g)) in
  t = [OnTick] /\
  frame_count g' = wrap_u 32 (frame_count g + 1) /\
  fval (elapsed_secs g') = Z.min (fval d) (60000 * f_unit) /\
  total_secs g' = f64_add (total_secs g) (elapsed_secs g') /\
  fval (left_over_ticks g') = 0.
Proof.
  intros Hf Hg Hmode Hrun d. pose proof (now_range e) as Ht.
  pose proof (tick_variable_wp oc f fuel g e Hmode Hf) as H.
  apply (wp_run _ _ _ _ _ _ Hrun) in H as [_ H].
  destruct (H g' eq_refl) as [-> ->]. set (g1 := count_frame _ _ _ _).
  destruct (track_fields 1 g1) as (_ & -> & -> & -> & -> & _). simpl.
  split_and!; try done. unfold delta, clamp_delta. fold d.
  destruct (as_secs_f64_nonneg (instant_sub (fst (now e)) (last_time g))) as [Hd _];
    [apply instant_sub_range; [done|apply Hg]|]. fold d in Hd.
  destruct max_delta_val as [Hm1 Hm2]. rewrite f64_gt_fval, Hm2 by done.
  destruct (Z.ltb_spec (60000 * f_unit) (fval d)); lia.
Qed.

Lemma tick_variable_callback_witness :
  exists g' e', tick_fn Wrapping count_up 1
      (set_fixed_time_step false quarter) (61000 * nanos_per_sec) = (Ret g', e', [OnTick]) /\
    fval (elapsed_secs g') = 60000 * f_unit.
Proof.
  destruct (tick_fn Wrapping count_up 1
      (set_fixed_time_step false quarter) (61000 * nanos_per_sec)) as [[r e'] t] eqn:E.
  assert (t = [OnTick] /\ exists g', r = Ret g') as [-> [g' ->]].
  { vm_compute in E. injection E as <- <- <-. by eauto. }
  exists g', e'. split; [done|].
  assert (wf (set_fixed_time_step false quarter)) as Hwf by (split; split_and?; by vm_compute).
  destruct (tick_variable_callback Wrapping count_up _ _ _ _ _ _ count_up_returns Hwf eq_refl E)
    as (_ & _ & -> & _).
  by vm_compute.
Defined.

(** ** Refinement of the fixed step by exact division *)

(** The frames on a grid [2 ^ k] that holds the target, the left-over time and
    the total: no operation rounds. *)
Lemma frames_exact k n g g' :
  0 <= k -> nonneg (total_secs g) -> nonneg (target_elapsed_secs g) ->
  (2 ^ k | fval (target_elapsed_secs g)) -> (2 ^ k | fval (left_over_ticks g)) ->
  (2 ^ k | fval (total_secs g)) ->
  fval (total_secs g) + fval (left_over_ticks g) < 2 ^ (k + 53) ->
  fval (total_secs g) + fval (left_over_ticks g) < f_top ->
  frames_done n g g' ->
  fval (left_over_ticks g') = fval (left_over_ticks g) - Z.of_nat n * fval (target_elapsed_secs g) /\
  fval (total_secs g') = fval (total_secs g) + Z.of_nat n * fval (target_elapsed_secs g).
Proof.
  intros Hk. revert g. induction n as [|n IH]; intros g Hs Ht Dt Dl Ds Hlim Htop Hd.
  { destruct Hd as [-> _]. simpl. lia. }
  apply frames_done_tail in Hd as Htail. destruct Hd as (_ & _ & _ & Hj).
  destruct (Hj O ltac:(lia)) as [Hl Hle]. simpl in Hl, Hle.
  pose proof (fval_nonneg _ Hs). pose proof (fval_nonneg _ Ht).
  assert (fval (f64_sub (left_over_ticks g) (target_elapsed_secs g)) =
          fval (left_over_ticks g) - fval (target_elapsed_secs g)) as Esub.
  { apply (f64_sub_grid k); [done|done|lia|done|]. split; [by apply Z.divide_sub_r|lia]. }
  assert (fval (f64_add (total_secs g) (target_elapsed_secs g)) =
          fval (total_secs g) + fval (target_elapsed_secs g)) as Eadd.
  { apply (f64_add_grid k); [done|done|lia|done|]. split; [by apply Z.divide_add_r|lia]. }
  destruct (f64_add_nonneg (total_secs g) (target_elapsed_secs g)) as [Hs' _]; [done|done|lia|].
  apply IH in Htail as [IH1 IH2]; simpl in *; rewrite ?Esub, ?Eadd in *; try done;
    try (by apply Z.divide_sub_r); try (by apply Z.divide_add_r); lia.
Qed.

(** C5: the fixed step refines exact division: when the target, the time left
    over, the total and the delta of the tick are multiples of a common power of
    two within 53 bits of each other (as quarters or sixty-fourths of a second
    are), a tick that returns makes exactly [(left + delta) / target] callbacks,
    leaves the remainder, and no time is created or lost:
    [total' + left' = total + left + delta]. *)
Theorem tick_fixed_exact {Env} `{!Clock Env} `{!ClockLaws Env} oc
    (f : Env -> res unit * Env) fuel k g e g' e' t :
  (forall e, fst (f e) <> NoFuel) ->
  wf g -> fixed_time_step g = true -> enough_fuel fuel g ->
  let T := fval (target_elapsed_secs g) in
  let D := fval (snap_delta (target_elapsed_secs g) (delta (fst (now e)) g)) in
  0 <= k -> nonneg (total_secs g) ->
  (2 ^ k | T) -> (2 ^ k | D) -> (2 ^ k | fval (left_over_ticks g)) -> (2 ^ k | fval (total_secs g)) ->
  fval (total_secs g) + fval (left_over_ticks g) + D < Z.min (2 ^ (k + 53)) f_top ->
  tick_fn oc f fuel g e = (Ret g', e', t) ->
  let n := (fval (left_over_ticks g) + D) / T in
  t = replicate (Z.to_nat n) OnTick /\
  fval (left_over_ticks g') = (fval (left_over_ticks g) + D) mod T /\
  fval (total_secs g') = fval (total_secs g) + n * T /\
  fval (total_secs g') + fval (left_over_ticks g') =
    fval (total_secs g) + fval (left_over_ticks g) + D.
Proof.
  intros Hf Hg Hmode Hfuel T D Hk Hs HT HD Hl HS Hlim Hrun n.
  pose proof (now_range e) as Ht.
  pose proof (tick_fixed_wp oc f Hf fuel g e Hg Hmode Hfuel) as H.
  apply (wp_run _ _ _ _ _ _ Hrun) in H as [_ (m & -> & H)].
  destruct (H g' eq_refl) as (g1 & Hd & ->).
  destruct (snap_bounds _ g Hg Ht) as [Hd1 _]. destruct (wf_left g Hg) as [Hl1 _].
  destruct (wf_target g Hg) as (Ht1 & Ht2 & _). pose proof f_unit_pos.
  pose proof (fval_nonneg _ Hs). pose proof (fval_nonneg _ Hl1).
  assert (fval (left_over_ticks (start (fst (now e)) g)) = fval (left_over_ticks g) + D) as E0.
  { apply (f64_add_grid k); [done|done|fold D; lia|done|].
    split; [by apply Z.divide_add_r|fold D; lia]. }
  destruct (frames_exact k m (start (fst (now e)) g) g1) as [E1 E2]; try done;
    try (rewrite E0; simpl; try lia; by apply Z.divide_add_r).
  rewrite E0 in E1. simpl in E1, E2. fold T in E1, E2.
  destruct Hd as (_ & Hn & Hlt & _). change (target_elapsed_secs _) with (target_elapsed_secs g) in Hlt.
  fold T in Hlt. pose proof (fval_nonneg _ Hn).
  assert (n = Z.of_nat m) as En.
  { symmetry. apply (Z.div_unique _ _ _ (fval (left_over_ticks g1))); lia. }
  destruct (track_fields m g1) as (_ & _ & -> & -> & _).
  rewrite Z.mod_eq by (unfold T; lia). fold n.
  rewrite En, Nat2Z.id, E1, E2. split_and!; [done|lia..].
Qed.

Lemma tick_fixed_exact_witness :
  exists g' e' t, tick_fn Checked count_up (Z.to_nat 1000000) quarter 1125000000 = (Ret g', e', t) /\
    t = replicate 4 OnTick /\ 8 * fval (left_over_ticks g') = f_unit.
Proof.
  destruct (tick_fn Checked count_up (Z.to_nat 1000000) quarter 1125000000)
    as [[r e'] t] eqn:E.
  assert (exists g', r = Ret g') as [g' ->].
  { vm_compute in E. injection E as <- _ _. by eexists. }
  exists g', e', t. split; [done|].
  assert (forall z, (z mod 2 ^ 1071 =? 0) = true -> (2 ^ 1071 | z)) as Hdiv.
  { intros z Hz. by apply Z.mod_divide, Z.eqb_eq. }
  apply (tick_fixed_exact Checked count_up _ 1071 quarter _ _ _ _
           count_up_returns quarter_wf eq_refl quarter_fuel) in E as (Ht & Hl & _);
    [|lia|done|apply Hdiv; by vm_compute..|by vm_compute].
  split; [rewrite Ht; by vm_compute|rewrite Hl; by vm_compute].
Defined.

(** The jitter clamp: with nothing left over, a delta within 0.4 ms of the
    target makes exactly one callback of exactly the target's length and leaves
    exactly nothing, so the deviation is dropped and cannot accumulate. *)
Theorem tick_fixed_jitter {Env} `{!Clock Env} `{!ClockLaws Env} oc
    (f : Env -> res unit * Env) fuel g e g' e' t :
  (forall e, fst (f e) <> NoFuel) ->
  wf g -> fixed_time_step g = true -> enough_fuel fuel g ->
  fval (left_over_ticks g) = 0 ->
  f64_lt (f64_abs (f64_sub (delta (fst (now e)) g) (target_elapsed_secs g))) (f64_lit 4 10000) = true ->
  tick_fn oc f fuel g e = (Ret g', e', t) ->
  t = [OnTick] /\ elapsed_secs g' = target_elapsed_secs g /\
  fval (left_over_ticks g') = 0 /\
  total_secs g' = f64_add (total_secs g) (target_elapsed_secs g).
Proof.
  intros Hf Hg Hmode Hfuel Hleft Hjit Hrun. pose proof (now_range e) as Ht.
  pose proof (tick_fixed_wp oc f Hf fuel g e Hg Hmode Hfuel) as H.
  apply (wp_run _ _ _ _ _ _ Hrun) in H as [_ (n & -> & H)].
  destruct (H g' eq_refl) as (g1 & Hd & ->).
  destruct (wf_left g Hg) as [Hl1 _]. destruct (wf_target g Hg) as (Ht1 & Ht2 & _).
  pose proof f_unit_pos. set (s := start (fst (now e)) g) in *.
  assert (left_over_ticks s = target_elapsed_secs g) as El.
  { unfold s, start. simpl. unfold snap_delta. rewrite Hjit.
    destruct (fval_zero _ Hl1 Hleft) as [b ->].
    by destruct (target_elapsed_secs g) as [b'|b'| |[] m' x']. }
  destruct (f64_sub_self (target_elapsed_secs g) Ht1) as [Hz _].
  assert (target_elapsed_secs s = target_elapsed_secs g) as Etgt by done.
  assert (total_secs s = total_secs g) as Etot by done. clearbody s.
  destruct Hd as (-> & Hn & Hlt & Hk). rewrite Etgt in *.
  assert (n = 1%nat) as ->.
  { destruct n as [|[|n]]; [|done|].
    - simpl in Hlt. rewrite El in Hlt. lia.
    - destruct (Hk 1%nat ltac:(lia)) as [_ Hk1]. simpl in Hk1. rewrite El, Etgt in Hk1. lia. }
  destruct (track_fields 1 (Nat.iter 1 frame s)) as (_ & -> & -> & -> & _). simpl.
  by rewrite El, Etgt, Etot.
Qed.

Lemma tick_fixed_jitter_witness :
  exists g' e', tick_fn Checked count_up (Z.to_nat 1000000) quarter 250300000 =
      (Ret g', e', [OnTick]) /\ fval (left_over_ticks g') = 0.
Proof.
  destruct (tick_fn Checked count_up (Z.to_nat 1000000) quarter 250300000)
    as [[r e'] t] eqn:E.
  assert (exists g', r = Ret g') as [g' ->].
  { vm_compute in E. injection E as <- _ _. by eexists. }
  apply (tick_fixed_jitter Checked count_up _ quarter _ _ _ _
           count_up_returns quarter_wf eq_refl quarter_fuel) in E as (-> & _ & Hl & _);
    [|by vm_compute..].
  by exists g', e'.
Defined.

(** With a zero target the left-over time never changes, so the loop stays. *)
Lemma zero_target_loop {Env} `{!Clock Env} oc (f : Env -> res unit * Env) fuel g e g' :
  target_elapsed_secs g = f64_of_Z 0 -> nonneg (left_over_ticks g) ->
  fst (fst (loop fuel (fixed_step oc f) g e)) <> Ret g'.
Proof.
  revert g e. induction fuel as [|fuel IH]; intros g e Ht Hl; [done|].
  rewrite loop_S. unfold fixed_step at 2.
  assert (f64_ge (left_over_ticks g) (target_elapsed_secs g) = true) as ->.
  { rewrite Ht, f64_ge_fval by done. apply Z.leb_le. by apply fval_nonneg in Hl. }
  unfold mbind, M_mbind, M_bind, lift, call_on_tick.
  destruct (arith_u oc 32 (frame_count g + 1)) as [fc|s|]; [|done|done].
  destruct (f e) as [[[]|s|] e1]; [|done|done]. simpl.
  set (g1 := count_frame _ _ _ _). specialize (IH g1 e1).
  destruct (loop fuel (fixed_step oc f) g1 e1) as [[r e2] t2]. apply IH; [done|].
  simpl. rewrite Ht. by destruct (left_over_ticks g) as [[]|[]| |[] m x].
Qed.

(** A target of 0.0 seconds is a hang: no amount of fuel makes a fixed-step
    tick return, because the [while] is entered for ever (an overflow of the
    frame counter, where it is checked, or a panic of the callback ends it). *)
Theorem tick_zero_target_never_returns {Env} `{!Clock Env} `{!ClockLaws Env} oc
    (f : Env -> res unit * Env) fuel g e g' :
  fixed_time_step g = true -> target_elapsed_secs g = f64_of_Z 0 ->
  0 <= last_time g -> nonneg (left_over_ticks g) ->
  fval (left_over_ticks g) <= 60000 * f_unit ->
  fst (fst (tick_fn oc f fuel g e)) <> Ret g'.
Proof.
  intros Hmode Htarget Hlast Hl Hl2. pose proof (now_range e) as Ht.
  unfold tick_fn, mbind, M_mbind, M_bind, act.
  destruct (now e) as [t e1]. simpl in Ht. cbn [fixed_time_step set_clock]. rewrite Hmode.
  cbn [target_elapsed_secs left_over_ticks frame_count set_clock].
  fold (delta t g). fold (start t g).
  destruct (delta_bounds t g Hlast Ht) as [Hd1 Hd2]. pose proof f_unit_pos.
  assert (nonneg (snap_delta (target_elapsed_secs g) (delta t g)) /\
          fval (snap_delta (target_elapsed_secs g) (delta t g)) <= 60000 * f_unit) as [Hs1 Hs2].
  { unfold snap_delta. case_match; [|done]. rewrite Htarget. simpl. split; [done|lia]. }
  destruct (f64_add_nonneg (left_over_ticks g) (snap_delta (target_elapsed_secs g) (delta t g)))
    as [Ha _]; [done|done|apply f_top_large; assert (120000 < 2 ^ 200) by done; nia|].
  assert (forall g1, fst (fst (loop fuel (fixed_step oc f) (start t g) e1)) <> Ret g1) as Hloop
    by (intros g1; by apply zero_target_loop).
  destruct (loop fuel (fixed_step oc f) (start t g) e1) as [[[g1|s|] e2] t2]; [|done|done].
  by destruct (Hloop g1).
Qed.

Lemma tick_zero_target_never_returns_witness :
  ~ exists g', fst (fst (tick_fn Wrapping count_up 1000
      (set_target_elapsed_seconds (f64_of_Z 0) quarter) 5)) = Ret g'.
Proof. intros [g' H]. revert H. by apply tick_zero_target_never_returns. Defined.
