(* ===== verification/Common.v ===== *)
(** What the stream components share ([wolf/src/stream/common/]): the message
    buffer, the callbacks, the timeouts and the race between a timer and an
    operation; the error types of the libraries they use. *)
From S2P Require Import Prelude F64.
Local Open Scope Z_scope.
#[local] Set Default Goal Selector "!".

(** ** Errors

    [std::io::Error] and [anyhow::Error], with the texts their [Debug] and
    [Display] print. *)
Inductive ErrorKind := TimedOut | OtherKind.

Class Errors := {
  io_error : Type;
  io_error_new : ErrorKind -> string -> io_error;
  io_debug : io_error -> string;
  anyhow : Type;
  anyhow_msg : string -> anyhow;
  anyhow_context : string -> anyhow -> anyhow;
  anyhow_debug : anyhow -> string;
  anyhow_display : anyhow -> string;
  anyhow_of_io : io_error -> anyhow;
}.

(** Addresses: their textual form is parsed by the standard library. *)
Class Net `{!Errors} := {
  SocketAddr : Type;
  AddrParseError : Type;
  addr_from_str : string -> result SocketAddr AddrParseError;
  anyhow_of_addr : AddrParseError -> anyhow;
}.

(** ** [buffer.rs] *)

Definition MAX_MSG_SIZE : Z := 1024.

Inductive BufferType := BINARY | TEXT.

Record Buffer := mkBuffer { type_ : BufferType; size : Z; buf : list u8 }.

Definition zeros : list u8 := replicate (Z.to_nat MAX_MSG_SIZE) Byte.x00.

Definition Buffer_new (p_type : BufferType) : Buffer :=
  {| type_ := p_type; size := 0; buf := zeros |}.

Definition Buffer_reset (self : Buffer) : Buffer :=
  {| type_ := type_ self; size := 0; buf := replicate (length (buf self)) Byte.x00 |}.

(** What the type of the struct guarantees: an array of [MAX_MSG_SIZE] bytes
    and a [usize]. *)
Definition buffer_wf (b : Buffer) : Prop :=
  Z.of_nat (length (buf b)) = MAX_MSG_SIZE /\ 0 <= size b <= u64_max.

Lemma Buffer_new_wf t : buffer_wf (Buffer_new t).
Proof. split; [by vm_compute|]. by split. Qed.

Lemma Buffer_reset_eq b :
  buffer_wf b -> Buffer_reset b = {| type_ := type_ b; size := 0; buf := zeros |}.
Proof.
  intros [H _]. unfold Buffer_reset, zeros. do 2 f_equal. lia.
Qed.

Definition set_type (t : BufferType) (b : Buffer) : Buffer :=
  {| type_ := t; size := size b; buf := buf b |}.
Definition set_size (n : Z) (b : Buffer) : Buffer :=
  {| type_ := type_ b; size := n; buf := buf b |}.
Definition set_buf (l : list u8) (b : Buffer) : Buffer :=
  {| type_ := type_ b; size := size b; buf := l |}.

(** [&buf[0..n]]: a slice, which panics past the end of the array. *)
Definition slice_to (n : Z) (l : list u8) : res (list u8) :=
  if n <=? Z.of_nat (length l) then Ret (take (Z.to_nat n) l)
  else Panic "range end index out of range for slice".

(** [std::ptr::copy_nonoverlapping(src, buf.as_mut_ptr(), src.len())]: writing
    past the end of the array is undefined behaviour, modelled as a panic of
    its own, which the servers never reach. *)
Definition UB_OVERWRITE : string := "undefined behaviour: write out of bounds".
Definition copy_nonoverlapping (src dst : list u8) : res (list u8) :=
  if Z.of_nat (length src) <=? Z.of_nat (length dst) then Ret (overwrite src dst)
  else Panic UB_OVERWRITE.

(** [gsl::at]: an index out of range ends the program. *)
Definition TERMINATE : string := "gsl: contract violation".
Definition gsl_at {A} (l : list A) (i : Z) : res A :=
  match l !! Z.to_nat i with Some a => Ret a | None => Panic TERMINATE end.

Lemma slice_to_Ret n l :
  n <= Z.of_nat (length l) -> slice_to n l = Ret (take (Z.to_nat n) l).
Proof. intros H. unfold slice_to. by rewrite (proj2 (Z.leb_le _ _) H). Qed.

(** A read of [d] into the front of the buffer, and the reply it may hold. *)
Lemma received_wf b d :
  buffer_wf b -> Z.of_nat (length d) <= MAX_MSG_SIZE ->
  buffer_wf (mkBuffer (type_ b) (Z.of_nat (length d)) (overwrite d (buf b))).
Proof.
  intros [Hb _] Hd. split; simpl.
  - rewrite length_overwrite; unfold MAX_MSG_SIZE in *; lia.
  - unfold MAX_MSG_SIZE, u64_max in *. lia.
Qed.

Lemma reply_length b :
  buffer_wf b -> 0 < size b <= MAX_MSG_SIZE ->
  1 <= Z.of_nat (length (take (Z.to_nat (size b)) (buf b))) <= MAX_MSG_SIZE.
Proof. intros [Hl _] Hs. rewrite length_take. lia. Qed.

(** ** [protocols.rs] *)
Inductive TcpProtocol := Native | Websocket.

(** ** [callback.rs]

    A callback acts on the environment and may panic. The message callback
    holds the buffer by mutable reference, so it leaves a buffer of the type. *)
Section callbacks.
Context `{!Errors} `{!Net} (Env : Type).

Record OnMessageCallback := {
  on_message : f64 -> SocketAddr -> Buffer -> Env -> res (Buffer * result unit anyhow) * Env;
  on_message_wf s a b e b' r e' :
    buffer_wf b -> on_message s a b e = (Ret (b', r), e') -> buffer_wf b';
}.

Record OnSocketCallback := {
  on_socket : SocketAddr -> Env -> res (result unit anyhow) * Env;
}.

Record OnCloseSocketCallback := {
  on_close_socket : SocketAddr -> string -> Env -> res (result unit anyhow) * Env;
}.
End callbacks.
Arguments on_message {_ _ _} _ _ _ _ _.
Arguments on_message_wf {_ _ _} _ {_ _ _ _ _ _ _} _ _.
Arguments on_socket {_ _ _} _ _ _.
Arguments on_close_socket {_ _ _} _ _ _ _.

(** A callback that does not panic. *)
Definition no_panic `{!Errors} `{!Net} {Env} (cb : OnMessageCallback Env) : Prop :=
  forall s a b e why, fst (on_message cb s a b e) <> Panic why.

(** [{:?}] of the [Result<()>] a callback returns. *)
Definition debug_callback `{!Errors} : result unit anyhow -> string :=
  debug_result debug_unit anyhow_debug.

(** ** [timeouts.rs] *)
Section timeouts.
Context `{!Errors} {Env Ev : Type}.

(** The futures of the timeouts: they sleep, then fail (or end the stream). *)
Definition timeout_for_read {T} (p_timeout_in_secs : f64) : M Env Ev (result T io_error) :=
  _ ← lift (from_secs_f64 p_timeout_in_secs);
  mret (Err (io_error_new TimedOut "timeout for read from tcp socket reached")).

Definition timeout_for_read_ws {T} (p_timeout_in_secs : f64) : M Env Ev (option T) :=
  _ ← lift (from_secs_f64 p_timeout_in_secs);
  mret None.

Definition timeout_for_accept {T} (p_timeout_in_secs : f64) : M Env Ev (result T io_error) :=
  _ ← lift (from_secs_f64 p_timeout_in_secs);
  mret (Err (io_error_new TimedOut "timeout for accept tcp connection reached")).
End timeouts.

(** [tokio::select!] between a timer and an operation polls them in a random
    order until one is ready: the timer may win, or the operation, either
    before the timer was ever polled or after. *)
Inductive race_result := TimerFires | ReadyFirst | ReadyAfterTimer.
Class Race (Env : Type) := { race : Env -> race_result * Env }.

Section select.
Context `{!Errors} {Env Ev : Type} `{!Race Env}.

Definition select {A} (p_timeout_in_secs : f64) (timer : M Env Ev A) (op : M Env Ev A) : M Env Ev A :=
  w ← act race;
  match w with
  | TimerFires => timer
  | ReadyFirst => op
  | ReadyAfterTimer => _ ← lift (from_secs_f64 p_timeout_in_secs); op
  end.

(** An operation under an optional timeout. *)
Definition with_timeout {A} (p_timeout_in_secs : f64) (timer : M Env Ev A) (op : M Env Ev A)
    : M Env Ev A :=
  if f64_gt p_timeout_in_secs (f64_of_Z 0) then select p_timeout_in_secs timer op
  else op.
End select.

(** Whether a timeout can be slept for: the condition under which arming the
    timer does not panic. *)
Definition timeout_ok (secs : f64) : Prop :=
  f64_gt secs (f64_of_Z 0) = true -> f64_lt secs (f64_of_Z (2 ^ 64)) = true.

Lemma from_secs_f64_ok secs :
  f64_gt secs (f64_of_Z 0) = true -> timeout_ok secs -> exists d, from_secs_f64 secs = Ret d.
Proof.
  intros H Hok. specialize (Hok H).
  destruct (f64_gt_zero_cases secs H) as [->|(m & e & ->)]; [done|].
  unfold from_secs_f64. rewrite Hok. by eexists.
Qed.

(** A rule for operations under a timeout: besides what the operation does,
    the timer's failure, without a trace, has to be accounted for. *)
Lemma wp_with_timeout {Env Ev A} `{!Race Env} secs (timer op : M Env Ev A) Q e :
  timeout_ok secs ->
  (forall d e, from_secs_f64 secs = Ret d -> wp timer Q e) -> (forall e, wp op Q e) ->
  wp (with_timeout secs timer op) Q e.
Proof.
  intros Hok Ht Hop. unfold with_timeout.
  destruct (f64_gt secs (f64_of_Z 0)) eqn:Hgt; [|done].
  destruct (from_secs_f64_ok secs Hgt Hok) as [d Hd].
  unfold select. apply wp_bind, wp_act. intros w e1 _. simpl.
  destruct w.
  - eapply wp_mono; [|by eapply Ht]. by intros [] e2 t.
  - eapply wp_mono; [|apply Hop]. by intros [] e2 t.
  - eapply wp_mono; [|apply wp_bind, wp_lift; rewrite Hd; apply Hop]. done.
Qed.

(** The same where the environments of [X] never let the timer win. *)
Lemma wp_with_timeout_ready {Env Ev A} `{!Race Env} secs (timer op : M Env Ev A)
    (X : Env -> Prop) Q e :
  timeout_ok secs -> (forall e, X e -> fst (race e) <> TimerFires /\ X (snd (race e))) ->
  (forall e, X e -> wp op Q e) -> X e -> wp (with_timeout secs timer op) Q e.
Proof.
  intros Hok Hrace Hop He. unfold with_timeout.
  destruct (f64_gt secs (f64_of_Z 0)) eqn:Hgt; [|by apply Hop].
  destruct (from_secs_f64_ok secs Hgt Hok) as [d Hd].
  unfold select. apply wp_bind, wp_act. intros w e1 Hw.
  destruct (Hrace e He) as [Hne He1]. rewrite Hw in Hne, He1. simpl in Hne, He1.
  destruct w; [done|..].
  - eapply wp_mono; [|by apply Hop]. by intros [] e2 t.
  - eapply wp_mono; [|apply wp_bind, wp_lift; rewrite Hd; by apply Hop].
    by intros [] e2 t.
Qed.

(** ** [std::str::from_utf8] *)
Definition byte_z (b : u8) : Z := Z.of_N (Byte.to_N b).
Definition byte_of_Z (z : Z) : u8 := default Byte.x00 (Byte.of_N (Z.to_N (z mod 256))).

Lemma byte_z_of_Z z : byte_z (byte_of_Z z) = z mod 256.
Proof.
  pose proof (Z.mod_pos_bound z 256 ltac:(lia)) as Hz. unfold byte_of_Z, byte_z.
  destruct (Byte.of_N (Z.to_N (z mod 256))) as [b|] eqn:Hb.
  - apply Byte.to_of_N in Hb. simpl. rewrite Hb. lia.
  - apply Byte.of_N_None_iff in Hb. lia.
Qed.

Lemma byte_z_range b : 0 <= byte_z b < 256.
Proof. unfold byte_z. pose proof (Byte.to_N_bounded b). lia. Qed.

Definition in_range (lo hi : Z) (b : u8) : bool := (lo <=? byte_z b) && (byte_z b <=? hi).
Definition is_cont : u8 -> bool := in_range 0x80 0xBF.

(** Well-formed UTF-8: no overlong form, no surrogate, nothing past U+10FFFF. *)
Fixpoint utf8_valid (fuel : nat) (l : list u8) : bool :=
  match fuel with
  | O => false
  | S n =>
    match l with
    | [] => true
    | a :: l1 =>
      if in_range 0x00 0x7F a then utf8_valid n l1
      else match l1 with
      | [] => false
      | b :: l2 =>
        if in_range 0xC2 0xDF a then is_cont b && utf8_valid n l2
        else match l2 with
        | [] => false
        | c :: l3 =>
          if in_range 0xE0 0xEF a then
            (if in_range 0xE0 0xE0 a then in_range 0xA0 0xBF b
             else if in_range 0xED 0xED a then in_range 0x80 0x9F b
             else is_cont b) && is_cont c && utf8_valid n l3
          else match l3 with
          | [] => false
          | d :: l4 =>
            in_range 0xF0 0xF4 a &&
            (if in_range 0xF0 0xF0 a then in_range 0x90 0xBF b
             else if in_range 0xF4 0xF4 a then in_range 0x80 0x8F b
             else is_cont b) && is_cont c && is_cont d && utf8_valid n l4
          end
        end
      end
    end
  end.
Definition from_utf8 (l : list u8) : option (list u8) :=
  if utf8_valid (S (length l)) l then Some l else None.

Lemma from_utf8_zeros : from_utf8 zeros = Some zeros.
Proof. by vm_compute. Qed.

(** ** Streams *)

(** A connected stream: an asynchronous read into a buffer of a given size, one
    write, a flush. *)
Class Stream `{!Errors} (Env : Type) := {
  stream_read : Z -> Env -> result (list u8) io_error * Env;
  stream_write : list u8 -> Env -> result Z io_error * Env;
  stream_flush : Env -> result unit io_error * Env;
}.
Class StreamLaws `{!Errors} (Env : Type) `{!Stream Env} : Prop := {
  stream_read_cap n e d e' : 0 <= n -> stream_read n e = (Ok d, e') -> Z.of_nat (length d) <= n;
}.

(** ** A concrete reading of the libraries, for the examples *)
Module Concrete.

(** Errors that are their own text, and addresses that are theirs. *)
#[export] Instance text_errors : Errors := {|
  io_error := string;
  io_error_new := fun _ s => s;
  io_debug := id;
  anyhow := string;
  anyhow_msg := id;
  anyhow_context := fun c e => c +:+ ": " +:+ e;
  anyhow_debug := id;
  anyhow_display := id;
  anyhow_of_io := id;
|}.
#[export] Instance text_net : Net := {|
  SocketAddr := string;
  AddrParseError := string;
  addr_from_str := fun s => if bool_decide (s = EmptyString) then Err "AddrParseError(Socket)" else Ok s;
  anyhow_of_addr := id;
|}.

(** A peer: what it will have sent, piece by piece (then the end of the
    stream), the bytes it was sent, and its clock. *)
Record peer := mkPeer { inbox : list (list u8); outbox : list u8; clock : Z }.

#[export] Instance peer_clock : Clock peer :=
  {| now := fun p => (clock p, mkPeer (inbox p) (outbox p) (clock p + 1)) |}.
#[export] Instance peer_race : Race peer := {| race := fun p => (ReadyAfterTimer, p) |}.

Definition peer_read (n : Z) (p : peer) : result (list u8) string * peer :=
  match inbox p with
  | [] => (Ok [], p)
  | d :: ds => (Ok (take (Z.to_nat n) d), mkPeer ds (outbox p) (clock p))
  end.
Definition peer_write (d : list u8) (p : peer) : result Z string * peer :=
  (Ok (Z.of_nat (length d)), mkPeer (inbox p) (outbox p ++ d) (clock p)).

#[export] Instance peer_stream : Stream peer :=
  {| stream_read := peer_read; stream_write := peer_write; stream_flush := fun p => (Ok tt, p) |}.
#[export] Instance peer_stream_laws : StreamLaws peer.
Proof.
  split. intros n [[|d ds] o c] l e' Hn; unfold stream_read; simpl; intros [= <- <-]; [done|].
  rewrite length_take. lia.
Qed.

Definition five_seconds : f64 := f64_of_Z 5.
Lemma five_seconds_ok : timeout_ok five_seconds.
Proof. intros _. by vm_compute. Qed.

(** Callbacks: an echo (the buffer is left as it is), and one that refuses. *)
Definition echo {Env} : OnMessageCallback Env.
Proof.
  refine {| on_message := fun _ _ b e => (Ret (b, Ok tt), e) |}.
  intros s a b e b' r e' Hb [= <- <- <-]. exact Hb.
Defined.
Definition refuse {Env} : OnMessageCallback Env.
Proof.
  refine {| on_message := fun _ _ b e => (Ret (b, Err "refused"), e) |}.
  intros s a b e b' r e' Hb [= <- <- <-]. exact Hb.
Defined.
Lemma echo_no_panic {Env} : no_panic (Env := Env) echo.
Proof. by intros s a b e why. Qed.

(** A callback that asks for more than the buffer holds. *)
Definition overlong {Env} : OnMessageCallback Env.
Proof.
  refine {| on_message := fun _ _ b e => (Ret (set_size 1025 b, Ok tt), e) |}.
  intros s a b e b' r e' [Hb _] [= <- <- <-]. split; [exact Hb|]. by split.
Defined.
Definition welcome {Env} : OnSocketCallback Env :=
  {| on_socket := fun _ e => (Ret (Ok tt), e) |}.
Definition bye {Env} : OnCloseSocketCallback Env :=
  {| on_close_socket := fun _ _ e => (Ret (Ok tt), e) |}.
End Concrete.
