(* ===== verification/TcpServer.v ===== *)
(** The TCP server ([wolf/src/stream/tcp/tcp_server.rs]): the native and the
    websocket connection handlers, the accept loop and the server's life
    cycle. *)
From stdpp Require Import pretty.
From S2P Require Import Prelude F64 Common.
Local Open Scope Z_scope.
#[local] Set Default Goal Selector "!".

(** ** What the server relies on *)

(** The websocket library ([tungstenite]): its messages and close codes. *)
Class WsLib `{!Errors} := {
  Message : Type;
  CloseCode : Type;
  code_Normal : CloseCode;
  code_Unsupported : CloseCode;
  code_Abnormal : CloseCode;
  code_Invalid : CloseCode;
  code_Size : CloseCode;
  ws_error : Type;
  ws_debug : ws_error -> string;
  anyhow_of_ws : ws_error -> anyhow;
  msg_text : list u8 -> Message;
  msg_binary : list u8 -> Message;
  msg_close : option (CloseCode * string) -> Message;
  is_close : Message -> bool;
  is_text : Message -> bool;
  is_binary : Message -> bool;
  msg_len : Message -> Z;
  into_text : Message -> result (list u8) ws_error;
  into_data : Message -> list u8;
}.
(** [Message::is_empty] is [len() == 0]. *)
Definition is_empty `{!Errors} `{!WsLib} (m : Message) : bool := msg_len m =? 0.

(** The documented behaviour of the messages: the length of a text or binary
    message is that of its payload, and the kinds are disjoint. *)
Class WsLaws `{!Errors} `{!WsLib} : Prop := {
  msg_len_nonneg m : 0 <= msg_len m;
  into_text_len m s : is_text m = true -> into_text m = Ok s -> Z.of_nat (length s) = msg_len m;
  into_data_len m : is_binary m = true -> Z.of_nat (length (into_data m)) = msg_len m;
  text_not_binary m : is_text m = true -> is_binary m = false;
  close_not_data m : is_close m = true -> is_text m = false /\ is_binary m = false;
  msg_text_kind s : is_text (msg_text s) = true;
  msg_binary_kind d : is_binary (msg_binary d) = true;
  msg_close_kind c : is_close (msg_close c) = true;
}.

(** A websocket over a stream: the opening handshake, the next message (a
    stream of results), the sending of a message. *)
Class WsStream `{!Errors} `{!WsLib} (Env : Type) := {
  ws_accept : Env -> result unit ws_error * Env;
  ws_next : Env -> option (result Message ws_error) * Env;
  ws_send : Message -> Env -> result unit ws_error * Env;
}.

(** Accepted connections, and the TLS library's acceptor. *)
Class TlsLib := {
  Conn : Type;
  TlsAcceptor : Type;
  tls_error : Type;
  tls_debug : tls_error -> string;
}.

(** The listening socket, the TLS handshake and the channel that asks for a
    shutdown, under its lock. *)
Class Listener `{!Errors} `{!Net} `{!TlsLib} (Env : Type) := {
  bind : SocketAddr -> Env -> result unit io_error * Env;
  set_ttl : Z -> Env -> result unit io_error * Env;
  accept : Env -> result (Conn * SocketAddr) io_error * Env;
  tls_accept : TlsAcceptor -> Conn -> Env -> result Conn tls_error * Env;
  try_lock : Env -> bool * Env;
  try_recv : Env -> option bool * Env;
}.

Record TcpServerConfig `{!TlsLib} := mkTcpServerConfig {
  protocol : TcpProtocol;
  address : string;
  port : Z;
  ttl : Z;
  accept_timeout_in_secs : f64;
  io_timeout_in_secs : f64;
  tls : option TlsAcceptor;
}.

(** ** Observations *)
Inductive event `{!Errors} `{!Net} `{!WsLib} `{!TlsLib} : Type :=
| Read (r : result (list u8) io_error)
| OnMessage (secs : f64) (peer : SocketAddr) (given after : Buffer) (r : result unit anyhow)
| Write (data : list u8) (r : result Z io_error)
| Flush (r : result unit io_error)
| Handshake (r : result unit ws_error)
| Recv (m : option (result Message ws_error))
| Send (m : Message) (r : result unit ws_error)
| OnAccept (peer : SocketAddr) (r : result unit anyhow)
| OnClose (peer : SocketAddr) (msg : string) (r : result unit anyhow)
| TlsAccept (r : result Conn tls_error)
| LogError (msg : string).

(** The observations of the accept loop. *)
Inductive server_event `{!Errors} `{!Net} `{!TlsLib} : Type :=
| Bind (a : SocketAddr) (r : result unit io_error)
| SetTtl (n : Z) (r : result unit io_error)
| OnBind (a : SocketAddr) (r : result unit anyhow)
| TryLock (locked : bool)
| TryRecv (signal : option bool)
| Accept (r : result (Conn * SocketAddr) io_error)
| Spawn (conn : Conn) (peer : SocketAddr)
| OnCloseSocket (a : SocketAddr) (r : result unit anyhow).

Section connection.
Context `{!Errors} `{!Net} `{!WsLib} `{!TlsLib} {Env : Type}.
Context `{!Clock Env} `{!Race Env} `{!Stream Env} `{!WsStream Env}.
Abbreviation IO := (M Env event).

(** The call of the message callback. *)
Definition run_on_message (cb : OnMessageCallback Env) (secs : f64) (peer : SocketAddr) (msg : Buffer)
    : IO (Buffer * result unit anyhow) :=
  call (on_message cb secs peer msg) (fun '(after, r) => OnMessage secs peer msg after r).

(** [conn_live_time.elapsed().as_secs_f64()]. *)
Definition elapsed_secs (conn_live_time : Instant) : IO f64 :=
  t ← act now; mret (as_secs_f64 (instant_sub t conn_live_time)).

(** One iteration of the native handler's loop. *)
Definition tcp_round (p_peer_address : SocketAddr) (p_io_timeout_in_secs : f64)
    (p_on_msg_callback : OnMessageCallback Env) (conn_live_time : Instant) (msg : Buffer)
    : IO (flow Buffer string) :=
  r ← with_timeout p_io_timeout_in_secs (timeout_for_read p_io_timeout_in_secs)
        (obs (stream_read MAX_MSG_SIZE) Read);
  match r with
  | Err e => mret (Break ("Err(" +:+ io_debug e +:+ ")"))
  | Ok d =>
    let msg := set_size (Z.of_nat (length d)) (set_buf (overwrite d (buf msg)) msg) in
    secs ← elapsed_secs conn_live_time;
    '(msg, want_to_close_conn) ← run_on_message p_on_msg_callback secs p_peer_address msg;
    if is_err want_to_close_conn then
      mret (Break ("tcp connection will be closed because of the p_on_msg_callback request. Reason: "
                   +:+ debug_callback want_to_close_conn))
    else if size msg >? 0 then
      v ← lift (slice_to (size msg) (buf msg));
      w_ret ← obs (stream_write v) (Write v);
      match w_ret with
      | Ok _ => _ ← obs stream_flush Flush; mret (Continue msg)
      | Err e => mret (Break ("Err(" +:+ io_debug e +:+ ")"))
      end
    else mret (Continue msg)
  end.

Definition handle_tcp_connection (fuel : nat) (p_peer_address : SocketAddr)
    (p_io_timeout_in_secs : f64) (p_on_msg_callback : OnMessageCallback Env)
    : IO (result string anyhow) :=
  conn_live_time ← act now;
  close_msg ← loop fuel
    (tcp_round p_peer_address p_io_timeout_in_secs p_on_msg_callback conn_live_time)
    (Buffer_new BINARY);
  mret (Ok close_msg).

(** The state of a websocket connection: the buffer, and the code and reason
    its closing frame will carry. *)
Record ws_state := mkWs { msg_buffer : Buffer; close_code : CloseCode; close_msg : string }.

(** Whether the connection goes on, and the state left. *)
Definition handle_ws_text_msg (p_ws_msg : result (list u8) ws_error)
    (p_on_msg_callback : OnMessageCallback Env) (p_peer_address : SocketAddr)
    (p_elapsed_secs : f64) (st : ws_state) : IO (bool * ws_state) :=
  let b := set_type TEXT (msg_buffer st) in
  match p_ws_msg with
  | Ok str =>
    l ← lift (copy_nonoverlapping str (buf b));
    '(b, close) ← run_on_message p_on_msg_callback p_elapsed_secs p_peer_address (set_buf l b);
    if is_err close then
      mret (false, mkWs b code_Normal
        ("websocket connection is going to close because of the p_on_msg_callback request. Reason: "
         +:+ debug_callback close))
    else
      let b := Buffer_reset b in
      match from_utf8 (buf b) with
      | Some str_res =>
        r ← obs (ws_send (msg_text str_res)) (Send (msg_text str_res));
        if is_err r then
          mret (false, mkWs b code_Abnormal
            ("websocket connection is going to close, because the TEXT message could not send. Reason: "
             +:+ debug_result debug_unit ws_debug r))
        else mret (true, mkWs b (close_code st) (close_msg st))
      | None =>
        mret (false, mkWs b code_Invalid
          "websocket connection is going to close. Reason: for MessageType::TEXT, the data which was provided by p_on_msg_callback is not UTF8")
      end
  | Err e =>
    mret (false, mkWs b code_Unsupported
      ("websocket connection is going to close. Reason: Unsupported text message. " +:+ ws_debug e))
  end.

(** The binary branch of the loop: [<&[u8; 1024]>::try_from] accepts payloads
    of exactly [MAX_MSG_SIZE] bytes. *)
Definition handle_ws_binary_msg (data : list u8) (p_on_msg_callback : OnMessageCallback Env)
    (p_peer_address : SocketAddr) (elapsed : f64) (st : ws_state) : IO (flow ws_state ws_state) :=
  let b := set_type BINARY (msg_buffer st) in
  if Z.of_nat (length data) =? MAX_MSG_SIZE then
    '(b, want_to_close_conn) ←
      run_on_message p_on_msg_callback elapsed p_peer_address (set_buf (overwrite data (buf b)) b);
    if is_err want_to_close_conn then
      mret (Break (mkWs b code_Normal
        ("websocket connection is going to close because of the p_on_msg_callback request. Reason: "
         +:+ debug_callback want_to_close_conn)))
    else
      r ← obs (ws_send (msg_binary (buf b))) (Send (msg_binary (buf b)));
      if is_err r then
        mret (Break (mkWs b code_Abnormal
          ("websocket connection is going to close, because the BINARY message could not send. Reason: "
           +:+ debug_result debug_unit ws_debug r)))
      else mret (Continue (mkWs b (close_code st) (close_msg st)))
  else
    mret (Break (mkWs b code_Unsupported
      ("websocket connection is going to close. Reason: Unsupported binary message. "
       +:+ "TryFromSliceError(())"))).

(** One iteration of the websocket handler's loop. *)
Definition ws_round (p_peer_address : SocketAddr) (p_io_timeout_in_secs : f64)
    (p_on_msg_callback : OnMessageCallback Env) (conn_live_time : Instant) (st : ws_state)
    : IO (flow ws_state ws_state) :=
  r ← with_timeout p_io_timeout_in_secs (timeout_for_read_ws p_io_timeout_in_secs)
        (obs ws_next Recv);
  match r with
  | Some (Ok msg) =>
    if is_close msg then mret (Break st)
    else if negb (is_empty msg) && (is_text msg || is_binary msg) then
      let b := set_size (msg_len msg) (msg_buffer st) in
      let st := mkWs b (close_code st) (close_msg st) in
      if size b >? MAX_MSG_SIZE then
        mret (Break (mkWs b code_Size
          ("websocket connection is going to close. Reason: Received message size is greater than "
           +:+ pretty MAX_MSG_SIZE)))
      else
        elapsed ← elapsed_secs conn_live_time;
        if is_text msg then
          '(go_on, st) ← handle_ws_text_msg (into_text msg) p_on_msg_callback p_peer_address elapsed st;
          mret (if go_on : bool then Continue st else Break st)
        else if is_binary msg then
          handle_ws_binary_msg (into_data msg) p_on_msg_callback p_peer_address elapsed st
        else
          mret (Break (mkWs b code_Unsupported
            "websocket connection is going to close. Reason: Unsupported message type"))
    else
      mret (Break (mkWs (msg_buffer st) code_Invalid
        "websocket connection is going to close. Reason: Received an empty or invalid message"))
  | Some (Err _) | None => mret (Continue st)
  end.

Definition handle_ws_connection (fuel : nat) (p_peer_address : SocketAddr)
    (p_io_timeout_in_secs : f64) (p_on_msg_callback : OnMessageCallback Env)
    : IO (result string anyhow) :=
  conn_live_time ← act now;
  _ ←?[anyhow_of_ws] obs ws_accept Handshake;
  st ← loop fuel
    (ws_round p_peer_address p_io_timeout_in_secs p_on_msg_callback conn_live_time)
    (mkWs (Buffer_new TEXT) code_Unsupported EmptyString);
  let close_frame := msg_close (Some (close_code st, close_msg st)) in
  _ ←?[anyhow_of_ws] obs (ws_send close_frame) (Send close_frame);
  mret (Ok (close_msg st)).

Definition accept_connection (fuel : nat) (p_protocol : TcpProtocol) (p_peer_address : SocketAddr)
    (p_io_timeout_in_secs : f64) (p_on_accept_connection : OnSocketCallback Env)
    (p_on_msg_callback : OnMessageCallback Env)
    (p_on_close_connection : OnCloseSocketCallback Env) : IO (result unit anyhow) :=
  _ ←? call (on_socket p_on_accept_connection p_peer_address) (OnAccept p_peer_address);
  close_msg ←?
    (match p_protocol with
     | Native => handle_tcp_connection
     | Websocket => handle_ws_connection
     end) fuel p_peer_address p_io_timeout_in_secs p_on_msg_callback;
  call (on_close_socket p_on_close_connection p_peer_address close_msg)
       (OnClose p_peer_address close_msg).

(** The task spawned for a connection, under TLS or not. *)
Definition connection_task `{!Listener Env} (fuel : nat) (p_config : TcpServerConfig)
    (stream : Conn) (peer_addr : SocketAddr) (on_accept_connection : OnSocketCallback Env)
    (on_message_callback : OnMessageCallback Env)
    (on_close_connection_callback : OnCloseSocketCallback Env) : IO (result unit anyhow) :=
  let accept_connection :=
    accept_connection fuel (protocol p_config) peer_addr (io_timeout_in_secs p_config)
      on_accept_connection on_message_callback on_close_connection_callback in
  match tls p_config with
  | Some acceptor =>
    r ← obs (tls_accept acceptor stream) TlsAccept;
    match r with
    | Ok _ =>
      ret_accept ← accept_connection;
      _ ← (if is_err ret_accept then
             emit (LogError ("tls accept_connection failed because " +:+ debug_callback ret_accept))
           else mret tt);
      mret ret_accept
    | Err e => mret (Err (anyhow_msg ("could not accept tls connection. because " +:+ tls_debug e)))
    end
  | None =>
    r ← accept_connection;
    _ ← (match r with
         | Err e => emit (LogError ("accept_connection failed because " +:+ anyhow_display e))
         | Ok _ => mret tt
         end);
    mret (Ok tt)
  end.
End connection.

Section server.
Context `{!Errors} `{!Net} `{!TlsLib} {Env : Type} `{!Race Env} `{!Listener Env}.

(** Whether the shutdown channel holds a [true]: a lock that is taken, an empty
    channel and a [false] all mean no. *)
Definition shutdown_requested : M Env server_event bool :=
  locked ← obs try_lock TryLock;
  if locked : bool then
    r ← obs try_recv TryRecv;
    mret (match r with Some b => b | None => false end)
  else mret false.

Definition main_round (p_config : TcpServerConfig) (_ : unit) : M Env server_event (flow unit unit) :=
  close ← shutdown_requested;
  if close : bool then mret (Break tt)
  else
    r ← with_timeout (accept_timeout_in_secs p_config)
          (timeout_for_accept (accept_timeout_in_secs p_config)) (obs accept Accept);
    match r with
    | Err _ => mret (Continue tt)
    | Ok (stream, peer_addr) => _ ← emit (Spawn stream peer_addr); mret (Continue tt)
    end.

Definition server_main_loop (fuel : nat) (p_config : TcpServerConfig) : M Env server_event unit :=
  loop fuel (main_round p_config) tt.

Definition server (fuel : nat) (p_config : TcpServerConfig)
    (p_on_bind_socket p_on_close_socket : OnSocketCallback Env)
    : M Env server_event (result unit anyhow) :=
  let addr := address p_config +:+ ":" +:+ pretty (port p_config) in
  match addr_from_str addr with
  | Err e => mret (Err (anyhow_of_addr e))
  | Ok socket_addr =>
    _ ←?[anyhow_of_io] obs (bind socket_addr) (Bind socket_addr);
    _ ←?[anyhow_of_io] obs (set_ttl (ttl p_config)) (SetTtl (ttl p_config));
    _ ←? call (on_socket p_on_bind_socket socket_addr) (OnBind socket_addr);
    _ ← server_main_loop fuel p_config;
    call (on_socket p_on_close_socket socket_addr) (OnCloseSocket socket_addr)
  end.
End server.

(** ** The native handler: what a session is *)

Section native.
Context `{!Errors} `{!Net} `{!WsLib} `{!TlsLib} {Env : Type}.
Context `{!Clock Env} `{!Race Env} `{!Stream Env} `{!StreamLaws Env}.

(** A session with one peer, as a relation between the buffer it starts with,
    the events seen and how it ended. Each round reads, shows the callback the
    buffer with the new data at its front, then writes the part of the buffer
    the callback left, once. [NoFuel] ends the events of a session that is still
    open. *)
Inductive native_session (peer : SocketAddr) : Buffer -> list event -> res string -> Prop :=
| native_open b : native_session peer b [] NoFuel
| native_timeout b :
    native_session peer b []
      (Ret ("Err(" +:+ io_debug (io_error_new TimedOut "timeout for read from tcp socket reached")
            +:+ ")"))
| native_read_error b e :
    native_session peer b [Read (Err e)] (Ret ("Err(" +:+ io_debug e +:+ ")"))
| native_callback_panic b d why :
    native_session peer b [Read (Ok d)] (Panic why)
| native_callback_open b d :
    native_session peer b [Read (Ok d)] NoFuel
| native_refused b d secs after x :
    native_session peer b
      [Read (Ok d); OnMessage secs peer (mkBuffer (type_ b) (Z.of_nat (length d)) (overwrite d (buf b)))
                      after (Err x)]
      (Ret ("tcp connection will be closed because of the p_on_msg_callback request. Reason: "
            +:+ debug_callback (Err x)))
| native_silent b d secs after t o :
    size after = 0 -> buffer_wf after ->
    native_session peer after t o ->
    native_session peer b
      (Read (Ok d) ::
       OnMessage secs peer (mkBuffer (type_ b) (Z.of_nat (length d)) (overwrite d (buf b)))
         after (Ok tt) :: t) o
| native_overrun b d secs after :
    MAX_MSG_SIZE < size after ->
    native_session peer b
      [Read (Ok d); OnMessage secs peer (mkBuffer (type_ b) (Z.of_nat (length d)) (overwrite d (buf b)))
                      after (Ok tt)]
      (Panic "range end index out of range for slice")
| native_reply b d secs after n r t o :
    0 < size after <= MAX_MSG_SIZE -> buffer_wf after ->
    native_session peer after t o ->
    native_session peer b
      (Read (Ok d) ::
       OnMessage secs peer (mkBuffer (type_ b) (Z.of_nat (length d)) (overwrite d (buf b)))
         after (Ok tt) ::
       Write (take (Z.to_nat (size after)) (buf after)) (Ok n) :: Flush r :: t) o
| native_write_error b d secs after e :
    0 < size after <= MAX_MSG_SIZE -> buffer_wf after ->
    native_session peer b
      [Read (Ok d);
       OnMessage secs peer (mkBuffer (type_ b) (Z.of_nat (length d)) (overwrite d (buf b)))
         after (Ok tt);
       Write (take (Z.to_nat (size after)) (buf after)) (Err e)]
      (Ret ("Err(" +:+ io_debug e +:+ ")")).

Lemma native_loop_session peer secs cb start fuel b e :
  timeout_ok secs -> buffer_wf b ->
  wp (loop fuel (tcp_round peer secs cb start) b) (fun r _ t => native_session peer b t r) e.
Proof.
  intros Hok. revert b e. induction fuel as [|fuel IH]; intros b e Hb; [by constructor|].
  rewrite loop_S. apply wp_bind. unfold tcp_round at 1. apply wp_bind.
  apply wp_with_timeout; [done| |].
  { intros d e' Hd. apply wp_bind, wp_lift. rewrite Hd. do 3 apply wp_ret. by constructor. }
  clear e. intros e. apply wp_obs. intros [d|x] e1 Hread.
  2:{ do 2 apply wp_ret. by constructor. }
  apply stream_read_cap in Hread; [|done]. cbn zeta.
  pose proof (received_wf b d Hb Hread) as Hb1.
  apply wp_bind, wp_bind, wp_act. intros t1 e2 _. apply wp_ret.
  apply wp_bind, wp_call. unfold set_size, set_buf. cbn [type_ size buf].
  set (given := mkBuffer _ _ _) in *. intros [[after [[]|x]]|why|] e3 Hcb.
  2:{ cbn [is_err is_ok negb]. do 2 apply wp_ret. by apply native_refused. }
  2:{ apply native_callback_panic. }
  2:{ apply native_callback_open. }
  apply (on_message_wf cb Hb1) in Hcb as Hafter. pose proof Hafter as [Hlen Hsz].
  cbn [is_err is_ok negb].
  destruct (Z.gtb_spec (size after) 0) as [Hpos|Hzero].
  2:{ apply wp_ret. eapply wp_mono; [|by apply IH]. intros r e4 t Hs.
      apply native_silent; [lia|done|done]. }
  apply wp_bind, wp_lift. destruct (Z.le_gt_cases (size after) MAX_MSG_SIZE) as [Hle|Hgt].
  2:{ unfold slice_to. rewrite (proj2 (Z.leb_gt _ _)) by lia. by apply native_overrun. }
  rewrite slice_to_Ret by lia. apply wp_bind, wp_obs. intros [n|x] e4 _.
  2:{ do 2 apply wp_ret. by apply native_write_error. }
  apply wp_bind, wp_obs. intros r e5 _. apply wp_ret.
  eapply wp_mono; [|by apply IH]. intros o e6 t Hs. by apply native_reply.
Qed.
End native.

(** The pieces of a trace the properties compare. *)
Section trace.
Context `{!Errors} `{!Net} `{!WsLib} `{!TlsLib}.

Definition reads (t : list event) : list (list u8) :=
  omap (fun ev => match ev with Read (Ok d) => Some d | _ => None end) t.
Definition shown (t : list event) : list (list u8) :=
  omap (fun ev => match ev with
                  | OnMessage _ _ given _ _ => Some (take (Z.to_nat (size given)) (buf given))
                  | _ => None
                  end) t.
Definition writes (t : list event) : list (list u8) :=
  omap (fun ev => match ev with Write d _ => Some d | _ => None end) t.
(** What the accepting callbacks asked to be sent. *)
Definition replies (t : list event) : list (list u8) :=
  omap (fun ev => match ev with
                  | OnMessage _ _ _ after (Ok _) =>
                      if (0 <? size after) && (size after <=? MAX_MSG_SIZE)
                      then Some (take (Z.to_nat (size after)) (buf after)) else None
                  | _ => None
                  end) t.


Lemma shown_given b d secs peer after r t :
  shown (OnMessage secs peer (mkBuffer (type_ b) (Z.of_nat (length d)) (overwrite d (buf b))) after r :: t)
  = d :: shown t.
Proof. unfold shown. cbn [omap list_omap size buf]. by rewrite Nat2Z.id, take_overwrite. Qed.

Lemma replies_sent secs peer given after t :
  0 < size after <= MAX_MSG_SIZE ->
  replies (OnMessage secs peer given after (Ok tt) :: t) =
    take (Z.to_nat (size after)) (buf after) :: replies t.
Proof.
  intros Hsz. unfold replies. cbn [omap list_omap].
  by rewrite (proj2 (Z.ltb_lt _ _)), (proj2 (Z.leb_le _ _)) by lia.
Qed.

Lemma replies_silent secs peer given after t :
  size after = 0 \/ MAX_MSG_SIZE < size after ->
  replies (OnMessage secs peer given after (Ok tt) :: t) = replies t.
Proof.
  intros Hsz. unfold replies, MAX_MSG_SIZE in *. cbn [omap list_omap].
  destruct (Z.ltb_spec 0 (size after)), (Z.leb_spec (size after) 1024); done || lia.
Qed.
End trace.

(** Drops the events a projection ignores. *)
Ltac simpl_trace :=
  repeat (change (reads (Read (Ok ?d) :: ?t)) with (d :: reads t) ||
          change (reads (Read (Err ?d) :: ?t)) with (reads t) ||
          change (reads (OnMessage ?a ?b ?c ?d ?e :: ?t)) with (reads t) ||
          change (reads (Write ?d ?r :: ?t)) with (reads t) ||
          change (reads (Flush ?r :: ?t)) with (reads t) ||
          change (shown (Read ?d :: ?t)) with (shown t) ||
          change (shown (Write ?d ?r :: ?t)) with (shown t) ||
          change (shown (Flush ?r :: ?t)) with (shown t) ||
          change (writes (Read ?d :: ?t)) with (writes t) ||
          change (writes (OnMessage ?a ?b ?c ?d ?e :: ?t)) with (writes t) ||
          change (writes (Write ?d ?r :: ?t)) with (d :: writes t) ||
          change (writes (Flush ?r :: ?t)) with (writes t) ||
          change (replies (Read ?d :: ?t)) with (replies t) ||
          change (replies (Write ?d ?r :: ?t)) with (replies t) ||
          change (replies (Flush ?r :: ?t)) with (replies t)).

Section native_properties.
Context `{!Errors} `{!Net} `{!WsLib} `{!TlsLib} {Env : Type}.
Context `{!Clock Env} `{!Race Env} `{!Stream Env} `{!StreamLaws Env}.

Lemma handle_tcp_connection_session fuel peer secs cb e :
  timeout_ok secs ->
  wp (handle_tcp_connection fuel peer secs cb)
     (fun r _ t => exists o, native_session peer (Buffer_new BINARY) t o /\
        match r with
        | Ret (Ok msg) => o = Ret msg
        | Ret (Err _) => False
        | Panic why => o = Panic why
        | NoFuel => o = NoFuel
        end) e.
Proof.
  intros Hok. unfold handle_tcp_connection. apply wp_bind, wp_act. intros t0 e1 _.
  apply wp_bind. eapply wp_mono; [|by apply native_loop_session, Buffer_new_wf].
  intros [msg|why|] e2 t Hs; cbn [app]; [apply wp_ret; rewrite app_nil_r|..]; by eexists.
Qed.

Lemma native_session_relay peer b t o :
  native_session peer b t o ->
  writes t = replies t /\
  match o with Ret _ => reads t = shown t | _ => exists l, reads t = shown t ++ l end.
Proof.
  induction 1; simpl_trace; rewrite ?shown_given, ?replies_sent, ?replies_silent by auto;
    try (split; [done|]); try done; try (by eexists).
  all: simpl_trace; destruct IHnative_session as [-> IH]; split; [done|].
  all: destruct o as [m|w|]; [by rewrite IH| |]; destruct IH as [l ->]; by exists l.
Qed.

(** C3: a native session refines its specification [native_session]: whatever
    the network, the clock and the callbacks do, each round is one read into the
    buffer, one call of the callback on it and at most one write of what the
    callback left, in this order; the session ends on a read or write error, a
    timeout or the callback's refusal, with the matching close message, and the
    handler itself never fails. *)
Theorem tcp_session_refines fuel peer secs cb e :
  timeout_ok secs ->
  wp (handle_tcp_connection fuel peer secs cb)
     (fun r _ t =>
        match r with
        | Ret (Ok msg) => native_session peer (Buffer_new BINARY) t (Ret msg)
        | Ret (Err _) => False
        | Panic why => native_session peer (Buffer_new BINARY) t (Panic why)
        | NoFuel => native_session peer (Buffer_new BINARY) t NoFuel
        end) e.
Proof.
  intros Hok. eapply wp_mono; [|by apply handle_tcp_connection_session].
  by intros [[msg|x]|why|] e' t (o & Hs & Ho); subst.
Qed.

(** The relay: at any point of a session the data written to the peer is
    exactly what the accepting callbacks left in the buffer, in order, and the
    data shown to the callbacks is what was read, in order and unchanged (a
    finished session has shown all of it). *)
Theorem tcp_relay fuel peer secs cb e :
  timeout_ok secs ->
  wp (handle_tcp_connection fuel peer secs cb)
     (fun r _ t => writes t = replies t /\
        (exists l, reads t = shown t ++ l) /\
        (is_Ret r = true -> reads t = shown t)) e.
Proof.
  intros Hok. eapply wp_mono; [|by apply handle_tcp_connection_session].
  intros r e' t (o & [Hw Hr]%native_session_relay & Ho). split; [done|].
  destruct r as [[msg|x]|why|]; [| done| |]; subst o; [|done..].
  split; [exists []; by rewrite app_nil_r|done].
Qed.

(** Bounds: every write is between one byte and [MAX_MSG_SIZE], and when the
    handler panics, a callback did, or it left a size past the end of the
    buffer in the last event of the session. *)
Theorem tcp_write_bounds fuel peer secs cb e :
  timeout_ok secs ->
  wp (handle_tcp_connection fuel peer secs cb)
     (fun r _ t =>
        Forall (fun d => 1 <= Z.of_nat (length d) <= MAX_MSG_SIZE) (writes t) /\
        (forall why, r = Panic why ->
           (exists d, last t = Some (Read (Ok d))) \/
           (exists s given after, last t = Some (OnMessage s peer given after (Ok tt)) /\
              MAX_MSG_SIZE < size after))) e.
Proof.
  intros Hok. eapply wp_mono; [|by apply handle_tcp_connection_session].
  intros r e' t (o & Hs & Ho). split.
  - clear Ho. induction Hs; simpl_trace; try done; apply Forall_cons; (split; [|done]).
    all: by apply reply_length.
  - intros why ->. subst o. remember (Panic why) as o eqn:Eo.
    induction Hs; simplify_eq.
    + left. by eexists.
    + destruct (IHHs eq_refl) as [(x & Hl)|(x & g & a & Hl & ?)]; [left; exists x|right; exists x, g, a];
        by rewrite 2!last_cons, Hl.
    + right. by do 3 eexists.
    + destruct (IHHs eq_refl) as [(x & Hl)|(x & g & a & Hl & ?)]; [left; exists x|right; exists x, g, a];
        by rewrite 4!last_cons, Hl.
Qed.

(** The peer has closed its side: every read is at the end of the stream, the
    read is ready before the timer, and the callback has nothing to say. *)
Record at_eof (peer : SocketAddr) (cb : OnMessageCallback Env) (X : Env -> Prop) : Prop := {
  eof_race e : X e -> fst (race e) <> TimerFires /\ X (snd (race e));
  eof_read e : X e -> fst (stream_read MAX_MSG_SIZE e) = Ok [] /\ X (snd (stream_read MAX_MSG_SIZE e));
  eof_now e : X e -> X (snd (now e));
  eof_callback s b e : X e -> size b = 0 -> exists b' e',
    on_message cb s peer b e = (Ret (b', Ok tt), e') /\ size b' = 0 /\ X e';
}.

Lemma native_eof_loop peer secs cb start X fuel b e :
  timeout_ok secs -> at_eof peer cb X -> X e ->
  wp (loop fuel (tcp_round peer secs cb start) b)
     (fun r _ t => r = NoFuel /\ length (shown t) = fuel /\ writes t = []) e.
Proof.
  intros Hok HX. revert b e. induction fuel as [|fuel IH]; intros b e He; [done|].
  rewrite loop_S. apply wp_bind. unfold tcp_round at 1. apply wp_bind.
  apply (wp_with_timeout_ready _ _ _ X); [done|apply HX| |done].
  clear e He. intros e He. apply wp_obs. intros r e1 Hread.
  destruct (eof_read _ _ _ HX e He) as [Hr He1]. rewrite Hread in Hr, He1. simpl in Hr, He1.
  subst r. cbn zeta. apply wp_bind, wp_bind, wp_act. intros t1 e2 Hnow. apply wp_ret.
  pose proof (eof_now _ _ _ HX e1 He1) as He2. rewrite Hnow in He2. simpl in He2.
  apply wp_bind, wp_call. intros r e3 Hcb.
  edestruct (eof_callback _ _ _ HX) as (b' & e' & Hcb' & Hsz & He3);
    [exact He2| |rewrite Hcb' in Hcb; simplify_eq].
  { done. }
  cbn [is_err is_ok negb]. rewrite Hsz. apply wp_ret.
  eapply wp_mono; [|by apply IH]. intros r e4 t (-> & Hlen & Hw). simpl_trace.
  split_and!; [done| |done]. change (shown (?a :: t)) with (take 0 (buf (mkBuffer BINARY 0 [])) :: shown t).
  simpl. by rewrite Hlen.
Qed.

(** C31: a peer that closes its side is not noticed by the handler: as long as the
    reads at the end of the stream give their zero bytes before the timer, and the
    callback accepts every empty message it is shown and leaves nothing to send
    ([at_eof]), the handler goes round at full speed for ever: with any fuel it has
    spent all of it, one callback per iteration, and written nothing. *)
Theorem tcp_eof_never_closes fuel peer secs cb X e :
  timeout_ok secs -> at_eof peer cb X -> X e ->
  wp (handle_tcp_connection fuel peer secs cb)
     (fun r _ t => r = NoFuel /\ length (shown t) = fuel /\ writes t = []) e.
Proof.
  intros Hok HX He. unfold handle_tcp_connection. apply wp_bind, wp_act. intros t0 e1 Hnow.
  pose proof (eof_now _ _ _ HX e He) as He1. rewrite Hnow in He1. simpl in He1.
  apply wp_bind. eapply wp_mono; [|by apply (native_eof_loop _ _ _ _ X)].
  by intros r e2 t (-> & ?).
Qed.
End native_properties.

(** ** The websocket handler *)

Section websocket.
Context `{!Errors} `{!Net} `{!WsLib} `{!WsLaws} `{!TlsLib} {Env : Type}.
Context `{!Clock Env} `{!Race Env} `{!WsStream Env}.

(** A message the loop passes on. *)
Definition is_data (m : Message) : bool := is_text m || is_binary m.
Definition fits (m : Message) : Prop :=
  is_close m = false /\ is_data m = true /\ 0 < msg_len m <= MAX_MSG_SIZE.

(** One round of a session: the buffer before, the events, and either the
    buffer the next round starts with or the code and reason of the closing
    frame. *)
Inductive ws_step (peer : SocketAddr) :
    Buffer -> list event -> Buffer + (CloseCode * string) -> Prop :=
| step_timeout b : ws_step peer b [] (inl b)
| step_ended b : ws_step peer b [Recv None] (inl b)
| step_failed b x : ws_step peer b [Recv (Some (Err x))] (inl b)
| step_peer_closed b m :
    is_close m = true ->
    ws_step peer b [Recv (Some (Ok m))] (inr (code_Unsupported, EmptyString))
| step_invalid b m :
    is_close m = false -> msg_len m = 0 \/ is_data m = false ->
    ws_step peer b [Recv (Some (Ok m))]
      (inr (code_Invalid,
        "websocket connection is going to close. Reason: Received an empty or invalid message"%string))
| step_too_large b m :
    is_close m = false -> is_data m = true -> MAX_MSG_SIZE < msg_len m ->
    ws_step peer b [Recv (Some (Ok m))]
      (inr (code_Size,
        "websocket connection is going to close. Reason: Received message size is greater than 1024"%string))
| step_not_text b m x :
    fits m -> is_text m = true -> into_text m = Err x ->
    ws_step peer b [Recv (Some (Ok m))]
      (inr (code_Unsupported,
        "websocket connection is going to close. Reason: Unsupported text message. " +:+ ws_debug x))
| step_text_refused b m s secs after x :
    fits m -> is_text m = true -> into_text m = Ok s ->
    ws_step peer b
      [Recv (Some (Ok m)); OnMessage secs peer (mkBuffer TEXT (msg_len m) (overwrite s (buf b))) after (Err x)]
      (inr (code_Normal,
        "websocket connection is going to close because of the p_on_msg_callback request. Reason: "
        +:+ debug_callback (Err x)))
| step_text_replied b m s secs after :
    fits m -> is_text m = true -> into_text m = Ok s ->
    ws_step peer b
      [Recv (Some (Ok m)); OnMessage secs peer (mkBuffer TEXT (msg_len m) (overwrite s (buf b))) after (Ok tt);
       Send (msg_text zeros) (Ok tt)]
      (inl (mkBuffer (type_ after) 0 zeros))
| step_text_unsent b m s secs after x :
    fits m -> is_text m = true -> into_text m = Ok s ->
    ws_step peer b
      [Recv (Some (Ok m)); OnMessage secs peer (mkBuffer TEXT (msg_len m) (overwrite s (buf b))) after (Ok tt);
       Send (msg_text zeros) (Err x)]
      (inr (code_Abnormal,
        "websocket connection is going to close, because the TEXT message could not send. Reason: "
        +:+ debug_result debug_unit ws_debug (Err x)))
| step_not_full b m :
    fits m -> is_text m = false -> msg_len m <> MAX_MSG_SIZE ->
    ws_step peer b [Recv (Some (Ok m))]
      (inr (code_Unsupported,
        "websocket connection is going to close. Reason: Unsupported binary message. TryFromSliceError(())"%string))
| step_binary_refused b m secs after x :
    fits m -> is_text m = false -> msg_len m = MAX_MSG_SIZE ->
    ws_step peer b
      [Recv (Some (Ok m)); OnMessage secs peer (mkBuffer BINARY MAX_MSG_SIZE (into_data m)) after (Err x)]
      (inr (code_Normal,
        "websocket connection is going to close because of the p_on_msg_callback request. Reason: "
        +:+ debug_callback (Err x)))
| step_binary_replied b m secs after :
    fits m -> is_text m = false -> msg_len m = MAX_MSG_SIZE -> buffer_wf after ->
    ws_step peer b
      [Recv (Some (Ok m)); OnMessage secs peer (mkBuffer BINARY MAX_MSG_SIZE (into_data m)) after (Ok tt);
       Send (msg_binary (buf after)) (Ok tt)]
      (inl after)
| step_binary_unsent b m secs after x :
    fits m -> is_text m = false -> msg_len m = MAX_MSG_SIZE ->
    ws_step peer b
      [Recv (Some (Ok m)); OnMessage secs peer (mkBuffer BINARY MAX_MSG_SIZE (into_data m)) after (Ok tt);
       Send (msg_binary (buf after)) (Err x)]
      (inr (code_Abnormal,
        "websocket connection is going to close, because the BINARY message could not send. Reason: "
        +:+ debug_result debug_unit ws_debug (Err x))).

(** The rounds of a session, up to the closing verdict ([Some]) or still open. *)
Inductive ws_rounds (peer : SocketAddr) : Buffer -> list event -> option (CloseCode * string) -> Prop :=
| rounds_open b : ws_rounds peer b [] None
| rounds_calling b m : ws_rounds peer b [Recv (Some (Ok m))] None
| rounds_stop b t v : ws_step peer b t (inr v) -> ws_rounds peer b t (Some v)
| rounds_next b t b' t' v :
    ws_step peer b t (inl b') -> ws_rounds peer b' t' v -> ws_rounds peer b (t ++ t') v.

(** What a round of the loop may end with. *)
Definition round_post (peer : SocketAddr) (st : ws_state) (r : res (flow ws_state ws_state))
    (t : list event) : Prop :=
  match r with
  | Ret (Continue st') =>
      ws_step peer (msg_buffer st) t (inl (msg_buffer st')) /\ buffer_wf (msg_buffer st') /\
      close_code st' = close_code st /\ close_msg st' = close_msg st
  | Ret (Break st') => ws_step peer (msg_buffer st) t (inr (close_code st', close_msg st'))
  | Panic _ => False
  | NoFuel => exists m, t = [Recv (Some (Ok m))]
  end.

Lemma wp_run_on_message (cb : OnMessageCallback Env) secs peer b Q e :
  no_panic cb -> buffer_wf b ->
  (forall after r e', buffer_wf after -> Q (Ret (after, r)) e' [OnMessage secs peer b after r]) ->
  (forall e', Q NoFuel e' []) ->
  wp (run_on_message cb secs peer b) Q e.
Proof.
  intros Hnp Hb HQ HN. apply wp_call. intros [[after r]|why|] e' Hcb; [|exfalso|apply HN].
  - apply HQ. by eapply on_message_wf.
  - specialize (Hnp secs peer b e why). by rewrite Hcb in Hnp.
Qed.

Lemma text_round peer (cb : OnMessageCallback Env) secs m st e :
  no_panic cb -> buffer_wf (msg_buffer st) -> fits m -> is_text m = true ->
  wp (handle_ws_text_msg (into_text m) cb peer secs
        (mkWs (set_size (msg_len m) (msg_buffer st)) (close_code st) (close_msg st)))
     (fun r _ t => round_post peer st
        (match r with
         | Ret (b, st') => Ret (if b then Continue st' else Break st')
         | Panic w => Panic w | NoFuel => NoFuel
         end) (Recv (Some (Ok m)) :: t)) e.
Proof.
  intros Hnp Hb Hm Htext. pose proof Hb as [Hlen Hsz]. pose proof Hm as (_ & _ & Hml).
  unfold handle_ws_text_msg. destruct (into_text m) as [s|x] eqn:Es.
  2:{ apply wp_ret. by apply step_not_text. }
  pose proof (into_text_len m s Htext Es) as Hs.
  apply wp_bind, wp_lift. unfold copy_nonoverlapping. cbn [msg_buffer set_type set_size buf].
  rewrite (proj2 (Z.leb_le _ _)) by lia. unfold set_buf. cbn [type_ size set_type set_size msg_buffer].
  apply wp_bind, wp_run_on_message; [done| | |by eexists].
  { split; cbn [buf size]; [rewrite length_overwrite; lia|unfold u64_max, MAX_MSG_SIZE in *; lia]. }
  intros after [[]|x] e1 Hafter; cbn [is_err is_ok negb].
  2:{ apply wp_ret. by apply step_text_refused. }
  rewrite Buffer_reset_eq by done. cbn [buf]. rewrite from_utf8_zeros.
  apply wp_bind, wp_obs. intros [[]|x] e2 _; cbn [is_err is_ok negb]; apply wp_ret.
  - split; [by apply step_text_replied|]. by split; [apply (Buffer_new_wf TEXT)|].
  - by apply step_text_unsent.
Qed.

Lemma binary_round peer (cb : OnMessageCallback Env) secs m st e :
  no_panic cb -> buffer_wf (msg_buffer st) -> fits m -> is_text m = false ->
  wp (handle_ws_binary_msg (into_data m) cb peer secs
        (mkWs (set_size (msg_len m) (msg_buffer st)) (close_code st) (close_msg st)))
     (fun r _ t => round_post peer st r (Recv (Some (Ok m)) :: t)) e.
Proof.
  intros Hnp Hb Hm Htext. pose proof Hb as [Hlen Hsz]. pose proof Hm as (_ & Hdata & Hml).
  assert (is_binary m = true) as Hbin by (unfold is_data in Hdata; by rewrite Htext in Hdata).
  pose proof (into_data_len m Hbin) as Hd.
  unfold handle_ws_binary_msg. destruct (Z.eqb_spec (Z.of_nat (length (into_data m))) MAX_MSG_SIZE)
    as [Heq|Hne].
  2:{ apply wp_ret. apply step_not_full; [done|done|lia]. }
  unfold set_buf. cbn [msg_buffer set_type set_size buf type_ size].
  assert (overwrite (into_data m) (buf (msg_buffer st)) = into_data m) as ->.
  { unfold overwrite. rewrite drop_ge by lia. apply app_nil_r. }
  assert (msg_len m = MAX_MSG_SIZE) as Hfull by lia. rewrite Hfull.
  apply wp_bind, wp_run_on_message; [done| | |by eexists].
  { split; [done|]. by split. }
  intros after [[]|x] e1 Hafter; cbn [is_err is_ok negb].
  2:{ apply wp_ret. by apply step_binary_refused. }
  apply wp_bind, wp_obs. intros [[]|x] e2 _; cbn [is_err is_ok negb]; apply wp_ret.
  - by split; [apply step_binary_replied|].
  - by apply step_binary_unsent.
Qed.

Lemma ws_round_step peer secs (cb : OnMessageCallback Env) start st e :
  timeout_ok secs -> no_panic cb -> buffer_wf (msg_buffer st) ->
  close_code st = code_Unsupported -> close_msg st = EmptyString ->
  wp (ws_round peer secs cb start st) (fun r _ t => round_post peer st r t) e.
Proof.
  intros Hok Hnp Hb Hcode Hmsg. unfold ws_round. apply wp_bind, wp_with_timeout; [done| |].
  { intros d e' Hd. apply wp_bind, wp_lift. rewrite Hd. do 2 apply wp_ret.
    by split; [apply step_timeout|]. }
  clear e. intros e. apply wp_obs. intros [[m|x]|] e1 _.
  2:{ apply wp_ret. by split; [apply step_failed|]. }
  2:{ apply wp_ret. by split; [apply step_ended|]. }
  destruct (is_close m) eqn:Hclose.
  { apply wp_ret. cbn [round_post]. rewrite Hcode, Hmsg. by apply step_peer_closed. }
  fold (is_data m). unfold is_empty.
  destruct (Z.eqb_spec (msg_len m) 0) as [Hz|Hnz]; cbn [negb andb].
  { apply wp_ret. apply step_invalid; auto. }
  destruct (is_data m) eqn:Hdata.
  2:{ apply wp_ret. apply step_invalid; auto. }
  cbn zeta. cbn [size set_size].
  destruct (Z.gtb_spec (msg_len m) MAX_MSG_SIZE) as [Hbig|Hsmall].
  { apply wp_ret. by apply step_too_large. }
  assert (fits m) as Hm by (pose proof (msg_len_nonneg m); unfold fits; auto with lia).
  apply wp_bind, wp_bind, wp_act. intros t1 e2 _. apply wp_ret.
  destruct (is_text m) eqn:Htext.
  - apply wp_bind. eapply wp_mono; [|by apply text_round].
    intros [[go st']|why|] e3 t Hpost; [|done|done].
    apply wp_ret. cbn [app]. by rewrite app_nil_r.
  - unfold is_data in Hdata. rewrite Htext in Hdata. cbn [orb] in Hdata. rewrite Hdata.
    eapply wp_mono; [|by apply binary_round]. done.
Qed.

Lemma ws_loop_rounds peer secs (cb : OnMessageCallback Env) start fuel st e :
  timeout_ok secs -> no_panic cb -> buffer_wf (msg_buffer st) ->
  close_code st = code_Unsupported -> close_msg st = EmptyString ->
  wp (loop fuel (ws_round peer secs cb start) st)
     (fun r _ t =>
        match r with
        | Ret st' => ws_rounds peer (msg_buffer st) t (Some (close_code st', close_msg st'))
        | Panic _ => False
        | NoFuel => ws_rounds peer (msg_buffer st) t None
        end) e.
Proof.
  intros Hok Hnp. revert st e. induction fuel as [|fuel IH]; intros st e Hb Hcode Hmsg;
    [by constructor|].
  rewrite loop_S. apply wp_bind. eapply wp_mono; [|by apply ws_round_step].
  intros [[st'|st']|why|] e1 t Hpost; cbn [round_post] in Hpost.
  - destruct Hpost as (Hstep & Hb' & Hc' & Hm'). eapply wp_mono; [|apply IH; congruence || done].
    intros [st2|why|] e2 t2 Hr; [|done|]; by eapply rounds_next.
  - apply wp_ret. rewrite app_nil_r. by apply rounds_stop.
  - done.
  - destruct Hpost as [m ->]. apply rounds_calling.
Qed.

(** A whole connection. *)
Inductive ws_connection (peer : SocketAddr) : list event -> res (result string anyhow) -> Prop :=
| ws_refused x : ws_connection peer [Handshake (Err x)] (Ret (Err (anyhow_of_ws x)))
| ws_open t :
    ws_rounds peer (Buffer_new TEXT) t None ->
    ws_connection peer (Handshake (Ok tt) :: t) NoFuel
| ws_closed t code reason r :
    ws_rounds peer (Buffer_new TEXT) t (Some (code, reason)) ->
    ws_connection peer (Handshake (Ok tt) :: t ++ [Send (msg_close (Some (code, reason))) r])
      (Ret (match r with Ok _ => Ok reason | Err x => Err (anyhow_of_ws x) end)).

Lemma ws_connection_wp fuel peer secs (cb : OnMessageCallback Env) e :
  timeout_ok secs -> no_panic cb ->
  wp (handle_ws_connection fuel peer secs cb) (fun r _ t => ws_connection peer t r) e.
Proof.
  intros Hok Hnp. unfold handle_ws_connection. apply wp_bind, wp_act. intros start e1 _.
  apply wp_try, wp_obs. intros [[]|x] e2 _; [|by constructor].
  apply wp_bind. eapply wp_mono; [|apply ws_loop_rounds; try done; apply Buffer_new_wf].
  intros [st|why|] e3 t Hr; [|done|by apply ws_open].
  apply wp_try, wp_obs. intros [[]|x] e4 _; [apply wp_ret; rewrite app_nil_r|];
    by apply (ws_closed peer _ _ _ (Ok tt)) || by apply (ws_closed peer _ _ _ (Err x)).
Qed.

(** What a session sends before its closing frame. *)
Definition reply_of (peer : SocketAddr) (t : list event) (m : Message) : Prop :=
  m = msg_text zeros \/
  exists secs given after, OnMessage secs peer given after (Ok tt) ∈ t /\ m = msg_binary (buf after).

Lemma ws_step_sends peer b t o m r :
  ws_step peer b t o -> Send m r ∈ t -> reply_of peer t m.
Proof.
  intros Hs Hin. destruct Hs; rewrite ?elem_of_cons, ?elem_of_nil in Hin;
    repeat destruct Hin as [Hin|Hin]; simplify_eq; try done; try (by left).
  all: right; do 3 eexists; split; [by right; left|done].
Qed.

Lemma reply_of_mono peer t t' m : t ⊆ t' -> reply_of peer t m -> reply_of peer t' m.
Proof.
  intros Ht [->|(s & g & a & Hin & ->)]; [by left|right].
  exists s, g, a. split; [by apply Ht|done].
Qed.

Lemma ws_rounds_sends peer b t v m r :
  ws_rounds peer b t v -> Send m r ∈ t -> reply_of peer t m.
Proof.
  induction 1 as [|b m'|b t v Hs|b t b' t' v Hs _ IH]; intros Hin.
  - by apply elem_of_nil in Hin.
  - by apply list_elem_of_singleton in Hin.
  - by eapply ws_step_sends.
  - apply elem_of_app in Hin as [Hin|Hin].
    + eapply reply_of_mono; [|by eapply ws_step_sends]. auto with trace.
    + eapply reply_of_mono; [|by apply IH]. auto with trace.
Qed.

Lemma ws_connection_sends peer t o m r :
  ws_connection peer t o -> Send m r ∈ t ->
  reply_of peer t m \/ exists code reason, m = msg_close (Some (code, reason)) /\ last t = Some (Send m r).
Proof.
  intros Hc Hin. destruct Hc as [x|t Hr|t code reason r' Hr].
  - by apply list_elem_of_singleton in Hin.
  - left. apply elem_of_cons in Hin as [|Hin]; [done|].
    eapply reply_of_mono; [|by eapply ws_rounds_sends]. auto with trace.
  - apply elem_of_cons in Hin as [|Hin]; [done|].
    apply elem_of_app in Hin as [Hin|Hin].
    + left. eapply reply_of_mono; [|by eapply ws_rounds_sends]. auto with trace.
    + apply list_elem_of_singleton in Hin as [= -> ->]. right. exists code, reason.
      by rewrite app_comm_cons, last_snoc.
Qed.

(** C2: a websocket session refines its specification: a failed handshake ends
    it with that error; otherwise rounds follow in which every kind of message
    is answered as [ws_step] says, and when one closes the session exactly one
    closing frame is sent, last, with the code and reason of that round, the
    reason being the close message returned. With a callback that does not
    panic the handler never does: in particular the raw copy of a text message
    into the 1024-byte array never writes out of bounds, whatever was received. *)
Theorem ws_session_refines fuel peer secs (cb : OnMessageCallback Env) e :
  timeout_ok secs -> no_panic cb ->
  wp (handle_ws_connection fuel peer secs cb)
     (fun r _ t => (forall why, r <> Panic why) /\ ws_connection peer t r) e.
Proof.
  intros Hok Hnp. eapply wp_mono; [|by apply ws_connection_wp].
  intros r e' t Hc. split; [|done]. by destruct Hc.
Qed.

(** What a websocket peer is sent: a text reply is always [MAX_MSG_SIZE] NUL
    characters, whatever the callback left in the buffer (the buffer is reset
    before it is sent), while a binary reply is the buffer a callback left. *)
Theorem ws_text_reply_is_blank fuel peer secs (cb : OnMessageCallback Env) e :
  timeout_ok secs -> no_panic cb ->
  wp (handle_ws_connection fuel peer secs cb)
     (fun _ _ t => forall m r, Send m r ∈ t ->
        (is_text m = true -> m = msg_text zeros) /\
        (is_close m = false -> is_binary m = true ->
           exists s given after, OnMessage s peer given after (Ok tt) ∈ t /\
             m = msg_binary (buf after))) e.
Proof.
  intros Hok Hnp. eapply wp_mono; [|by apply ws_connection_wp].
  intros o e' t Hc m r Hin.
  destruct (ws_connection_sends peer t o m r Hc Hin) as [[->|(s & g & a & Ha & ->)]|(c & x & -> & _)].
  - split; [done|]. intros _ Hb. by rewrite text_not_binary in Hb by apply msg_text_kind.
  - split; [|by eauto]. intros Ht. pose proof (text_not_binary _ Ht) as Hb.
    by rewrite msg_binary_kind in Hb.
  - split; [|by rewrite msg_close_kind].
    intros Ht. destruct (close_not_data _ (msg_close_kind (Some (c, x)))). congruence.
Qed.

(** What a callback may be shown. *)
Definition shown_ok (t : list event) (given : Buffer) : Prop :=
  0 < size given <= MAX_MSG_SIZE /\
  exists m, Recv (Some (Ok m)) ∈ t /\ size given = msg_len m /\
    match type_ given with
    | TEXT => exists l, into_text m = Ok l /\ take (Z.to_nat (size given)) (buf given) = l
    | BINARY => size given = MAX_MSG_SIZE /\ buf given = into_data m
    end.

Lemma shown_ok_mono t t' given : t ⊆ t' -> shown_ok t given -> shown_ok t' given.
Proof. intros Ht (Hs & m & Hm & Hrest). split; [done|]. exists m. split; [by apply Ht|done]. Qed.

Lemma ws_step_shown peer b t o s a given after r :
  ws_step peer b t o -> OnMessage s a given after r ∈ t -> a = peer /\ shown_ok t given.
Proof.
  intros Hs Hin. destruct Hs; rewrite ?elem_of_cons, ?elem_of_nil in Hin;
    repeat destruct Hin as [Hin|Hin]; simplify_eq; try done;
    (split; [done|]); match goal with Hf : fits ?m |- _ =>
      destruct Hf as (_ & _ & Hlen); split; [cbn [size]; unfold MAX_MSG_SIZE in *; lia|exists m] end.
  all: split; [by left|split; [done|cbn [type_ size buf]]]; try done.
  all: match goal with Ht : into_text ?m = Ok ?x |- _ => exists x; split; [done|];
         rewrite <-(into_text_len m x) by done end.
  all: by rewrite Nat2Z.id, take_overwrite.
Qed.

Lemma ws_rounds_shown peer b t v s a given after r :
  ws_rounds peer b t v -> OnMessage s a given after r ∈ t -> a = peer /\ shown_ok t given.
Proof.
  induction 1 as [|b m'|b t v Hs|b t b' t' v Hs _ IH]; intros Hin.
  - by apply elem_of_nil in Hin.
  - by apply list_elem_of_singleton in Hin.
  - by eapply ws_step_shown.
  - apply elem_of_app in Hin as [Hin|Hin].
    + destruct (ws_step_shown _ _ _ _ _ _ _ _ _ Hs Hin) as [-> Hok].
      split; [done|]. eapply shown_ok_mono; [|exact Hok]. auto with trace.
    + destruct (IH Hin) as [-> Hok]. split; [done|]. eapply shown_ok_mono; [|exact Hok]. auto with trace.
Qed.

Lemma ws_connection_shown peer t o s a given after r :
  ws_connection peer t o -> OnMessage s a given after r ∈ t -> a = peer /\ shown_ok t given.
Proof.
  intros Hc Hin. destruct Hc as [x|t Hr|t code reason r' Hr].
  - by apply list_elem_of_singleton in Hin.
  - apply elem_of_cons in Hin as [|Hin]; [done|].
    destruct (ws_rounds_shown _ _ _ _ _ _ _ _ _ Hr Hin) as [-> Hok]. split; [done|].
    eapply shown_ok_mono; [|exact Hok]. auto with trace.
  - apply elem_of_cons in Hin as [|Hin]; [done|].
    apply elem_of_app in Hin as [Hin|Hin]; [|by apply list_elem_of_singleton in Hin].
    destruct (ws_rounds_shown _ _ _ _ _ _ _ _ _ Hr Hin) as [-> Hok]. split; [done|].
    eapply shown_ok_mono; [|exact Hok]. auto with trace.
Qed.

(** The sizes of a websocket session: the callback is shown text messages of
    1 to [MAX_MSG_SIZE] bytes, at the front of the buffer, and binary messages
    of exactly [MAX_MSG_SIZE] bytes; larger, empty and partial binary messages
    never reach it. *)
Theorem ws_callback_sizes fuel peer secs (cb : OnMessageCallback Env) e :
  timeout_ok secs -> no_panic cb ->
  wp (handle_ws_connection fuel peer secs cb)
     (fun _ _ t => forall s a given after r, OnMessage s a given after r ∈ t ->
        a = peer /\ shown_ok t given) e.
Proof.
  intros Hok Hnp. eapply wp_mono; [|by apply ws_connection_wp].
  intros o e' t Hc s a given after r Hin. exact (ws_connection_shown _ _ _ _ _ _ _ _ Hc Hin).
Qed.

(** The peer is gone without a closing frame: the stream of messages has ended
    (or only fails), as it does for ever once the library has closed it. *)
Record peer_gone (X : Env -> Prop) : Prop := {
  gone_race e : X e -> X (snd (race e));
  gone_next e : X e -> (forall m, fst (ws_next e) <> Some (Ok m)) /\ X (snd (ws_next e));
}.

(** Such a peer is never noticed either: a read timeout, the end of the
    stream and a failed read all look the same to the handler, which goes round
    for ever: with any fuel it has spent all of it, and it neither called back
    nor sent anything after the handshake. *)
Theorem ws_dead_peer_never_closes fuel peer secs (cb : OnMessageCallback Env) X e :
  timeout_ok secs -> peer_gone X ->
  (forall e, X e -> X (snd (now e))) ->
  (forall e, X e -> exists e', ws_accept e = (Ok tt, e') /\ X e') -> X e ->
  wp (handle_ws_connection fuel peer secs cb)
     (fun r _ t => r = NoFuel /\ exists l, t = Handshake (Ok tt) :: map Recv l) e.
Proof.
  intros Hok HX Hnow Hacc He. unfold handle_ws_connection.
  apply wp_bind, wp_act. intros start e1 E1. specialize (Hnow e He). rewrite E1 in Hnow.
  apply wp_try, wp_obs. intros r e2 E2. destruct (Hacc e1 Hnow) as (e2' & E2' & He2).
  rewrite E2' in E2. simplify_eq. apply wp_bind.
  eapply (wp_mono _ (fun r _ t => r = NoFuel /\ exists l, t = map Recv l)).
  { intros r e3 t [-> [l ->]]. split; [done|]. by exists l. }
  clear e e1 E1 He Hnow E2'. generalize (mkWs (Buffer_new TEXT) code_Unsupported EmptyString) as st.
  revert e2 He2. induction fuel as [|fuel IH]; intros e He st; [by split; [|exists []]|].
  rewrite loop_S. apply wp_bind.
  eapply (wp_mono _ (fun r e' t => (exists l, t = map Recv l) /\ r = Ret (Continue st) /\ X e')).
  { intros r e' t ([l ->] & -> & He'). eapply wp_mono; [|by apply IH].
    intros r e2 t [-> [l' ->]]. split; [done|]. exists (l ++ l'). by rewrite map_app. }
  unfold ws_round. apply wp_bind. unfold with_timeout.
  assert (forall e, X e -> wp (obs ws_next Recv) (fun r e' t =>
            (exists l, t = map Recv l) /\ X e' /\ exists o, r = Ret o /\ forall m, o <> Some (Ok m)) e)
    as Hnext.
  { intros e1 He1. apply wp_obs. intros o e2 E2. destruct (gone_next X HX e1 He1) as [Hm He2].
    rewrite E2 in Hm, He2. split_and!; [by exists [o]|done|by exists o]. }
  eapply (wp_mono _ (fun r e' t =>
            (exists l, t = map Recv l) /\ X e' /\ exists o, r = Ret o /\ forall m, o <> Some (Ok m))).
  { intros r e' t ([l ->] & He' & (o & -> & Ho)).
    destruct o as [[m|x]|]; [by destruct (Ho m)|..]; apply wp_ret; rewrite app_nil_r; eauto. }
  destruct (f64_gt secs (f64_of_Z 0)) eqn:Hgt; [|by apply Hnext].
  destruct (from_secs_f64_ok secs Hgt Hok) as [d Hd].
  unfold select. apply wp_bind, wp_act. intros w e1 Ew.
  pose proof (gone_race X HX e He) as He1. rewrite Ew in He1. simpl in He1.
  destruct w.
  - apply wp_bind, wp_lift. rewrite Hd. apply wp_ret. cbn [app].
    split_and!; [by exists []|done|by exists None].
  - by apply Hnext.
  - apply wp_bind, wp_lift. rewrite Hd. by apply Hnext.
Qed.
End websocket.

(** ** The life of a connection *)

Section life.
Context `{!Errors} `{!Net} `{!WsLib} `{!WsLaws} `{!TlsLib} {Env : Type}.
Context `{!Clock Env} `{!Race Env} `{!Stream Env} `{!StreamLaws Env} `{!WsStream Env}.

(** The events inside a session, between its opening and its closing. *)
Definition inner (ev : event) : Prop :=
  match ev with
  | OnAccept _ _ | OnClose _ _ _ | TlsAccept _ | LogError _ => False
  | _ => True
  end.

Lemma native_session_inner peer b t o : native_session peer b t o -> Forall inner t.
Proof. induction 1; repeat constructor; done. Qed.

Lemma ws_step_inner peer b t o : ws_step peer b t o -> Forall inner t.
Proof. destruct 1; repeat constructor. Qed.

Lemma ws_rounds_inner peer b t v : ws_rounds peer b t v -> Forall inner t.
Proof.
  induction 1; repeat constructor; [by eapply ws_step_inner|].
  apply Forall_app. split; [by eapply ws_step_inner|done].
Qed.

Lemma ws_connection_inner peer t o : ws_connection peer t o -> Forall inner t.
Proof.
  destruct 1; repeat constructor; [by eapply ws_rounds_inner|].
  apply Forall_app. split; [by eapply ws_rounds_inner|by repeat constructor].
Qed.

(** A session under either protocol, and what it returned. *)
Definition session (proto : TcpProtocol) (peer : SocketAddr) (t : list event)
    (r : result string anyhow) : Prop :=
  match proto with
  | Native => exists msg, r = Ok msg /\ native_session peer (Buffer_new BINARY) t (Ret msg)
  | Websocket => ws_connection peer t (Ret r)
  end.

(** The life of a connection: the accept callback decides whether there is a
    session; the close callback runs after a session that returned a close
    message, with that message, and its result is the connection's; a session
    that failed ends the connection without it. *)
Inductive connection_life (proto : TcpProtocol) (peer : SocketAddr) :
    list event -> result unit anyhow -> Prop :=
| life_refused x : connection_life proto peer [OnAccept peer (Err x)] (Err x)
| life_failed t x :
    session proto peer t (Err x) -> Forall inner t ->
    connection_life proto peer (OnAccept peer (Ok tt) :: t) (Err x)
| life_closed t msg r :
    session proto peer t (Ok msg) -> Forall inner t ->
    connection_life proto peer (OnAccept peer (Ok tt) :: t ++ [OnClose peer msg r]) r.

Lemma accept_connection_wp fuel proto peer secs on_accept (on_msg : OnMessageCallback Env) on_close e :
  timeout_ok secs -> no_panic on_msg ->
  wp (accept_connection fuel proto peer secs on_accept on_msg on_close)
     (fun r _ t => forall x, r = Ret x -> connection_life proto peer t x) e.
Proof.
  intros Hok Hnp. unfold accept_connection. apply wp_try, wp_call.
  intros [[[]|x]|why|] e1 _; [|intros ? [= <-]; constructor|done|done].
  apply wp_try.
  assert (wp (match proto with
              | Native => handle_tcp_connection
              | Websocket => handle_ws_connection
              end fuel peer secs on_msg)
            (fun r _ t => forall x, r = Ret x -> session proto peer t x /\ Forall inner t) e1) as Hs.
  { destruct proto; eapply wp_mono.
    2:{ by apply handle_tcp_connection_session. }
    3:{ by apply ws_connection_wp. }
    - intros r e2 t (o & Hs & Ho) x ->. split; [|by eapply native_session_inner].
      destruct x as [msg|]; [|done]. subst o. by exists msg.
    - intros r e2 t Hc x ->. split; [done|]. by eapply ws_connection_inner. }
  eapply wp_mono; [|exact Hs]. intros [[msg|x]|why|] e2 t Hsess; [| |done|done].
  - destruct (Hsess _ eq_refl) as [Hs1 Hs2]. apply wp_call.
    intros [r|why|] e3 _; [|done|done]. intros x [= <-]. by apply life_closed.
  - destruct (Hsess _ eq_refl) as [Hs1 Hs2]. intros y [= <-]. by apply life_failed.
Qed.

(** C6: the life of a connection, under either protocol: nothing happens before
    the accept callback, and nothing but it when it refuses; the close callback
    runs at most once, last, exactly when the session returned a close message,
    and is given that message; its verdict is the connection's. *)
Theorem connection_life_cycle fuel proto peer secs on_accept (on_msg : OnMessageCallback Env) on_close e :
  timeout_ok secs -> no_panic on_msg ->
  wp (accept_connection fuel proto peer secs on_accept on_msg on_close)
     (fun r _ t => forall x, r = Ret x -> connection_life proto peer t x /\
        (proto = Native -> forall a, OnAccept a (Ok tt) ∈ t -> exists msg v, OnClose peer msg v ∈ t)) e.
Proof.
  intros Hok Hnp. eapply wp_mono; [|by apply accept_connection_wp].
  intros r e' t Hlife x Hx. specialize (Hlife x Hx). split; [done|].
  intros -> a Hin. destruct Hlife as [y|t y Hs|t msg v].
  - apply list_elem_of_singleton in Hin. simplify_eq.
  - destruct Hs as (msg & ? & _). done.
  - exists msg, v. right. apply elem_of_app. right. by left.
Qed.
End life.

(** ** The accept loop and the server *)

Section server_proofs.
Context `{!Errors} `{!Net} `{!TlsLib} {Env : Type} `{!Race Env} `{!Listener Env}.

Definition accepted (t : list server_event) : list (Conn * SocketAddr) :=
  omap (fun ev => match ev with Accept (Ok p) => Some p | _ => None end) t.
Definition spawned (t : list server_event) : list (Conn * SocketAddr) :=
  omap (fun ev => match ev with Spawn c a => Some (c, a) | _ => None end) t.

(** The polls of the shutdown channel before the loop was left. *)
Definition running (ev : server_event) : Prop :=
  match ev with
  | TryRecv (Some true) | Bind _ _ | SetTtl _ _ | OnBind _ _ | OnCloseSocket _ _ => False
  | _ => True
  end.

(** What the accept loop has done: every connection accepted was handed to a
    task, once and in order; it was left by a shutdown request, the first one. *)
Definition served (r : res unit) (t : list server_event) : Prop :=
  spawned t = accepted t /\
  match r with
  | Ret _ => exists t', t = t' ++ [TryRecv (Some true)] /\ Forall running t'
  | _ => Forall running t
  end.

Lemma main_round_wp config e :
  timeout_ok (accept_timeout_in_secs config) ->
  wp (main_round config tt)
     (fun r _ t =>
        match r with
        | Ret (Continue _) => spawned t = accepted t /\ Forall running t
        | Ret (Break _) => t = [TryLock true; TryRecv (Some true)]
        | _ => False
        end) e.
Proof.
  intros Hok. unfold main_round, shutdown_requested. apply wp_bind, wp_bind, wp_obs.
  assert (forall t0 e, spawned t0 = accepted t0 -> Forall running t0 ->
    wp (r ← with_timeout (accept_timeout_in_secs config)
              (timeout_for_accept (accept_timeout_in_secs config)) (obs accept Accept);
        match r with
        | Err _ => mret (@Continue unit unit tt)
        | Ok (stream, peer_addr) => _ ← emit (Spawn stream peer_addr); mret (@Continue unit unit tt)
        end)
      (fun r _ t => match r with
        | Ret (Continue _) => spawned (t0 ++ t) = accepted (t0 ++ t) /\ Forall running (t0 ++ t)
        | _ => False
        end) e) as Hacc.
  { intros t0 e0 Ht0 Hr0. apply wp_bind, wp_with_timeout; [done| |].
    - intros d e1 Hd. apply wp_bind, wp_lift. rewrite Hd. do 2 apply wp_ret.
      cbn [app]. by rewrite app_nil_r.
    - intros e1. apply wp_obs. intros [[c a]|x] e2 _.
      + apply wp_bind, wp_emit, wp_ret. unfold spawned, accepted in *. rewrite !omap_app, Ht0.
        split; [done|]. apply Forall_app. split; [done|]. by repeat constructor.
      + apply wp_ret. unfold spawned, accepted in *. rewrite !omap_app, Ht0.
        split; [done|]. apply Forall_app. split; [done|]. by repeat constructor. }
  intros locked e1 _. destruct locked.
  2:{ apply wp_ret. eapply wp_mono; [|by apply (Hacc [TryLock false]); [|repeat constructor]].
      by intros [[]|why|] e2 t. }
  apply wp_bind, wp_obs. intros [[]|] e2 _; apply wp_ret.
  - by apply wp_ret.
  - eapply wp_mono;
      [|by apply (Hacc [TryLock true; TryRecv (Some false)]); [|repeat constructor]].
    by intros [[]|why|] e3 t.
  - eapply wp_mono;
      [|by apply (Hacc [TryLock true; TryRecv None]); [|repeat constructor]].
    by intros [[]|why|] e3 t.
Qed.

Lemma server_main_loop_wp fuel config e :
  timeout_ok (accept_timeout_in_secs config) ->
  wp (server_main_loop fuel config)
     (fun r _ t => served r t /\ forall why, r <> Panic why) e.
Proof.
  intros Hok. unfold server_main_loop.
  refine (wp_loop (fun _ _ t => spawned t = accepted t /\ Forall running t)
            (fun r _ t => served r t /\ forall why, r <> Panic why) _ _ _ fuel tt e [] _).
  - intros _ e0 t [Hs Hr]. by split.
  - intros [] e0 t [Hs Hr]. eapply wp_mono; [|by apply main_round_wp].
    intros [[[]|[]]|why|] e1 t1; [| |done|done].
    + intros [Hs1 Hr1]. unfold spawned, accepted in *. rewrite !omap_app, Hs, Hs1.
      split; [done|]. by apply Forall_app.
    + intros ->. split; [|done]. split.
      * unfold spawned, accepted in *. by rewrite !omap_app, Hs.
      * exists (t ++ [TryLock true]). rewrite <-(assoc_L app). split; [done|].
        apply Forall_app. split; [done|]. by repeat constructor.
  - split; [done|constructor].
Qed.

(** The life of a server, from its configuration to the result it returns. *)
Inductive server_life (config : TcpServerConfig) : list server_event -> result unit anyhow -> Prop :=
| server_bad_address x :
    addr_from_str (address config +:+ ":" +:+ pretty (port config)) = Err x ->
    server_life config [] (Err (anyhow_of_addr x))
| server_not_bound a x :
    addr_from_str (address config +:+ ":" +:+ pretty (port config)) = Ok a ->
    server_life config [Bind a (Err x)] (Err (anyhow_of_io x))
| server_no_ttl a x :
    addr_from_str (address config +:+ ":" +:+ pretty (port config)) = Ok a ->
    server_life config [Bind a (Ok tt); SetTtl (ttl config) (Err x)] (Err (anyhow_of_io x))
| server_refused a x :
    addr_from_str (address config +:+ ":" +:+ pretty (port config)) = Ok a ->
    server_life config [Bind a (Ok tt); SetTtl (ttl config) (Ok tt); OnBind a (Err x)] (Err x)
| server_closed a t r :
    addr_from_str (address config +:+ ":" +:+ pretty (port config)) = Ok a ->
    served (Ret tt) t ->
    server_life config
      (Bind a (Ok tt) :: SetTtl (ttl config) (Ok tt) :: OnBind a (Ok tt) :: t ++ [OnCloseSocket a r]) r.

(** C12: the accept loop: every accepted connection is handed to a task of its
    own, exactly once and in the order of acceptance; failed accepts and
    timeouts are skipped; the loop never panics and is left only by a [true]
    received from the shutdown channel, after which nothing is accepted. *)
Theorem main_loop_serves fuel config e :
  timeout_ok (accept_timeout_in_secs config) ->
  wp (server_main_loop fuel config)
     (fun r _ t => served r t /\ forall why, r <> Panic why) e.
Proof. intros Hok. by apply server_main_loop_wp. Qed.

(** A shutdown is prompt: when the lock is free and the channel holds [true],
    the next iteration leaves the loop without accepting; while the lock is held
    by another thread the channel is not read, and a loop whose lock is never
    free does not end, whatever was sent. *)
Theorem shutdown_prompt_unless_locked fuel config e :
  timeout_ok (accept_timeout_in_secs config) ->
  (forall e1 e2, try_lock e = (true, e1) -> try_recv e1 = (Some true, e2) ->
     server_main_loop (S fuel) config e = (Ret tt, e2, [TryLock true; TryRecv (Some true)])) /\
  (forall X : Env -> Prop,
     (forall e, X e -> fst (try_lock e) = false /\ X (snd (try_lock e))) ->
     (forall e, X e -> X (snd (race e)) /\ X (snd (accept e))) -> X e ->
     wp (server_main_loop fuel config) (fun r _ _ => r = NoFuel) e).
Proof.
  intros Hok. split.
  - intros e1 e2 E1 E2. unfold server_main_loop.
    apply loop_break. unfold main_round, shutdown_requested, mbind, M_mbind, M_bind, obs.
    by rewrite E1, E2.
  - intros X Hlock Hacc He. unfold server_main_loop. revert e He.
    induction fuel as [|fuel IH]; intros e He; [done|].
    rewrite loop_S. apply wp_bind.
    eapply (wp_mono _ (fun r e' _ => r = Ret (Continue tt) /\ X e')).
    { intros r e' t [-> He']. eapply wp_mono; [|by apply IH]. by intros. }
    unfold main_round, shutdown_requested. apply wp_bind, wp_bind, wp_obs.
    intros locked e1 E1. destruct (Hlock e He) as [Hl He1]. rewrite E1 in Hl, He1.
    simpl in Hl, He1. subst locked. apply wp_ret, wp_bind.
    assert (forall e, X e -> wp (obs accept Accept) (fun r e' _ => X e' /\ exists o, r = Ret o) e) as Hop.
    { intros e2 He2. apply wp_obs. intros o e3 E3. destruct (Hacc e2 He2) as [_ H3].
      rewrite E3 in H3. by split; [|exists o]. }
    eapply (wp_mono _ (fun r e' _ => X e' /\ exists o, r = Ret o)).
    { intros r e2 t (He2 & o & ->). destruct o as [[c a]|x]; [apply wp_bind, wp_emit|]; by apply wp_ret. }
    unfold with_timeout. destruct (f64_gt _ _) eqn:Hgt; [|by apply Hop].
    destruct (from_secs_f64_ok _ Hgt Hok) as [d Hd].
    unfold select. apply wp_bind, wp_act. intros w e2 E2.
    destruct (Hacc e1 He1) as [He2 _]. rewrite E2 in He2. simpl in He2. destruct w.
    + apply wp_bind, wp_lift. rewrite Hd. apply wp_ret. by split; [|eexists].
    + by apply Hop.
    + apply wp_bind, wp_lift. rewrite Hd. by apply Hop.
Qed.

(** C22: the life of a server: the address is parsed, the socket bound and its TTL
    set, and the bind callback asked, in this order, the first failure being the
    result; only a server whose bind callback agreed serves, and only one that
    was shut down calls the close callback, last, whose verdict it returns. *)
Theorem server_life_cycle fuel config on_bind on_close e :
  timeout_ok (accept_timeout_in_secs config) ->
  wp (server fuel config on_bind on_close)
     (fun r _ t => forall x, r = Ret x -> server_life config t x) e.
Proof.
  intros Hok. unfold server. destruct (addr_from_str _) as [a|x] eqn:Ea.
  2:{ apply wp_ret. intros y [= <-]. by apply server_bad_address. }
  apply wp_try, wp_obs. intros [[]|x] e1 _; [|intros y [= <-]; by apply server_not_bound].
  apply wp_try, wp_obs. intros [[]|x] e2 _; [|intros y [= <-]; by apply server_no_ttl].
  apply wp_try, wp_call. intros [[[]|x]|why|] e3 _;
    [|intros y [= <-]; by apply server_refused|done|done].
  apply wp_bind. eapply wp_mono; [|by apply server_main_loop_wp].
  intros [[]|why|] e4 t [Hs _]; [|done|done]. apply wp_call.
  intros [r|why|] e5 _; [|done|done]. intros y [= <-]. by apply server_closed.
Qed.
End server_proofs.

(** ** Concrete runs *)
Module Runs.
Import Concrete.

(** A message library: the frames themselves. *)
Inductive frame := FText (s : list u8) | FBinary (d : list u8) | FClose (c : option (Z * string)) | FPing.

#[export] Instance frames : WsLib := {|
  Message := frame; CloseCode := Z;
  code_Normal := 1000; code_Unsupported := 1003; code_Abnormal := 1006;
  code_Invalid := 1007; code_Size := 1009;
  ws_error := string; ws_debug := id; anyhow_of_ws := id;
  msg_text := FText; msg_binary := FBinary; msg_close := FClose;
  is_close := fun m => match m with FClose _ => true | _ => false end;
  is_text := fun m => match m with FText _ => true | _ => false end;
  is_binary := fun m => match m with FBinary _ => true | _ => false end;
  msg_len := fun m => match m with FText l | FBinary l => Z.of_nat (length l) | _ => 0 end;
  into_text := fun m => match m with FText l => Ok l | _ => Err "not text" end;
  into_data := fun m => match m with FText l | FBinary l => l | _ => [] end;
|}.
#[export] Instance frames_laws : WsLaws.
Proof. split; try done; intros []; simpl; try done; try lia. by intros ? _ [= <-]. Qed.

#[export] Instance plain_conns : TlsLib :=
  {| Conn := Z; TlsAcceptor := unit; tls_error := string; tls_debug := id |}.

(** A websocket: the frames still to come, and those sent. *)
Record ws_peer := mkWsPeer { coming : list frame; sent : list frame }.
#[export] Instance ws_peer_clock : Clock ws_peer := {| now := fun p => (0, p) |}.
#[export] Instance ws_peer_race : Race ws_peer := {| race := fun p => (ReadyFirst, p) |}.
#[export] Instance ws_peer_stream : WsStream ws_peer := {|
  ws_accept := fun p => (Ok tt, p);
  ws_next := fun p => match coming p with
                      | [] => (None, p)
                      | m :: ms => (Some (Ok m), mkWsPeer ms (sent p))
                      end;
  ws_send := fun m p => (Ok tt, mkWsPeer (coming p) (sent p ++ [m]));
|}.
#[export] Instance ws_peer_bytes : Stream ws_peer := {|
  stream_read := fun _ p => (Ok [], p); stream_write := fun d p => (Ok (Z.of_nat (length d)), p);
  stream_flush := fun p => (Ok tt, p);
|}.
#[export] Instance ws_peer_bytes_laws : StreamLaws ws_peer.
Proof. split. by intros n p d p' Hn [= <- <-]. Qed.

(** A listener: the connections to come (then errors), whether the lock is
    free, and the values in the shutdown channel. *)
Record door := mkDoor { queue : list (Z * string); unlocked : bool; signals : list bool }.
#[export] Instance door_race : Race door := {| race := fun p => (ReadyFirst, p) |}.
#[export] Instance door_listener : Listener door := {|
  bind := fun _ p => (Ok tt, p); set_ttl := fun _ p => (Ok tt, p);
  accept := fun p => match queue p with
                     | [] => (Err "nobody", p)
                     | c :: cs => (Ok c, mkDoor cs (unlocked p) (signals p))
                     end;
  tls_accept := fun _ c p => (Ok c, p);
  try_lock := fun p => (unlocked p, p);
  try_recv := fun p => match signals p with
                       | [] => (None, p)
                       | b :: bs => (Some b, mkDoor (queue p) (unlocked p) bs)
                       end;
|}.

Definition local_config : TcpServerConfig := {|
  protocol := Native; address := "127.0.0.1"; port := 8000; ttl := 64;
  accept_timeout_in_secs := five_seconds; io_timeout_in_secs := five_seconds; tls := None |}.

(** An echo of three bytes, in two pieces; the peer then closes its side and
    the handler spends the rest of its fuel. *)
Example echo_run :
  let '(r, p, t) := handle_tcp_connection (Env := peer) 4 "peer" five_seconds echo
                      (mkPeer [[Byte.x41]; [Byte.x42; Byte.x43]] [] 0) in
  r = NoFuel /\ outbox p = [Byte.x41; Byte.x42; Byte.x43] /\
  reads t = [[Byte.x41]; [Byte.x42; Byte.x43]; []; []].
Proof. by vm_compute. Qed.

(** A text of one letter over a websocket: the reply is blank. *)
Example ws_text_run :
  let '(r, p, t) := handle_ws_connection (Env := ws_peer) 2 "peer" five_seconds echo
                      (mkWsPeer [FText [Byte.x41]; FClose None] []) in
  r = Ret (Ok EmptyString) /\ sent p = [FText zeros; FClose (Some (1003, EmptyString))].
Proof. by vm_compute. Qed.

(** A connection is accepted, then the shutdown is requested. *)
Example server_run :
  let '(r, p, t) := server (Env := door) 3 local_config welcome welcome
                      (mkDoor [(7, "peer"%string)] true [false; true]) in
  r = Ret (Ok tt) /\ spawned t = [(7, "peer"%string)] /\ signals p = [].
Proof. by vm_compute. Qed.

(** The runs the witnesses below are about. *)
Definition echo_session := handle_tcp_connection (Env := peer) 4 "peer" five_seconds echo
                             (mkPeer [[Byte.x41]; [Byte.x42; Byte.x43]] [] 0).
Definition ws_echo_session := handle_ws_connection (Env := ws_peer) 3 "peer" five_seconds echo
                                (mkWsPeer [FText [Byte.x41]; FBinary zeros; FClose None] []).

Lemma tcp_session_refines_witness :
  timeout_ok five_seconds /\
  native_session "peer"%string (Buffer_new BINARY) (snd echo_session) NoFuel.
Proof.
  split; [exact five_seconds_ok|].
  exact (wp_outcome _ _ _ (tcp_session_refines (Env := peer) 4 "peer"%string five_seconds echo
           (mkPeer [[Byte.x41]; [Byte.x42; Byte.x43]] [] 0) five_seconds_ok)).
Defined.

Lemma tcp_relay_witness :
  timeout_ok five_seconds /\ writes (snd echo_session) = replies (snd echo_session).
Proof.
  split; [exact five_seconds_ok|].
  exact (proj1 (wp_outcome _ _ _ (tcp_relay (Env := peer) 4 "peer"%string five_seconds echo
           (mkPeer [[Byte.x41]; [Byte.x42; Byte.x43]] [] 0) five_seconds_ok))).
Defined.

Lemma tcp_write_bounds_witness :
  let s := handle_tcp_connection (Env := peer) 4 "peer" five_seconds overlong (mkPeer [[Byte.x41]] [] 0) in
  timeout_ok five_seconds /\
  fst (fst s) = Panic "range end index out of range for slice" /\
  ((exists d, last (snd s) = Some (Read (Ok d))) \/
   (exists x given after, last (snd s) = Some (OnMessage x "peer"%string given after (Ok tt)) /\
      MAX_MSG_SIZE < size after)).
Proof.
  intros s. split; [exact five_seconds_ok|].
  assert (fst (fst s) = Panic "range end index out of range for slice") as Hp by (by vm_compute).
  split; [exact Hp|].
  exact (proj2 (wp_outcome _ _ _ (tcp_write_bounds (Env := peer) 4 "peer"%string five_seconds overlong
           (mkPeer [[Byte.x41]] [] 0) five_seconds_ok)) _ Hp).
Defined.

Lemma hung_up : at_eof (Env := peer) "peer"%string echo (fun p => inbox p = []).
Proof.
  split.
  - by intros e He.
  - intros [i o c]. simpl. by intros ->.
  - by intros e He.
  - intros s b e He Hs. by exists b, e.
Qed.

Lemma tcp_eof_never_closes_witness :
  inbox (mkPeer [] [] 0) = [] /\
  fst (fst (handle_tcp_connection (Env := peer) 100 "peer" five_seconds echo (mkPeer [] [] 0))) = NoFuel.
Proof.
  split; [reflexivity|].
  exact (proj1 (wp_outcome _ _ _ (tcp_eof_never_closes (Env := peer) 100 "peer"%string five_seconds echo
           _ (mkPeer [] [] 0) five_seconds_ok hung_up eq_refl))).
Defined.

Lemma ws_session_refines_witness :
  no_panic (Env := ws_peer) echo /\
  ws_connection "peer"%string (snd ws_echo_session) (fst (fst ws_echo_session)).
Proof.
  split; [exact echo_no_panic|].
  exact (proj2 (wp_outcome _ _ _ (ws_session_refines (Env := ws_peer) 3 "peer"%string five_seconds echo
           (mkWsPeer [FText [Byte.x41]; FBinary zeros; FClose None] []) five_seconds_ok echo_no_panic))).
Defined.

Lemma ws_text_reply_is_blank_witness :
  no_panic (Env := ws_peer) echo /\
  forall m r, Send m r ∈ snd ws_echo_session -> is_text m = true -> m = FText zeros.
Proof.
  split; [exact echo_no_panic|]. intros m r Hin.
  exact (proj1 (wp_outcome _ (fun _ t => forall m r, Send m r ∈ t -> _) _
           (ws_text_reply_is_blank (Env := ws_peer) 3 "peer"%string five_seconds echo
             (mkWsPeer [FText [Byte.x41]; FBinary zeros; FClose None] []) five_seconds_ok echo_no_panic)
           m r Hin)).
Defined.

Lemma ws_callback_sizes_witness :
  no_panic (Env := ws_peer) echo /\
  forall s a given after r, OnMessage s a given after r ∈ snd ws_echo_session ->
    a = "peer"%string /\ shown_ok (snd ws_echo_session) given.
Proof.
  split; [exact echo_no_panic|].
  exact (wp_outcome _ _ _ (ws_callback_sizes (Env := ws_peer) 3 "peer"%string five_seconds echo
             (mkWsPeer [FText [Byte.x41]; FBinary zeros; FClose None] []) five_seconds_ok echo_no_panic)).
Defined.

Lemma silent_peer_gone : peer_gone (fun p : ws_peer => coming p = []).
Proof. split; [by intros e He|]. intros [c s]. simpl. by intros ->. Qed.

Lemma ws_dead_peer_never_closes_witness :
  peer_gone (fun p : ws_peer => coming p = []) /\
  fst (fst (handle_ws_connection (Env := ws_peer) 100 "peer" five_seconds echo (mkWsPeer [] []))) = NoFuel.
Proof.
  split; [exact silent_peer_gone|].
  refine (proj1 (wp_outcome _ _ _ (ws_dead_peer_never_closes (Env := ws_peer) 100 "peer"%string
    five_seconds echo _ (mkWsPeer [] []) five_seconds_ok silent_peer_gone _ _ eq_refl))).
  - by intros e He.
  - intros e He. by exists e.
Defined.

Lemma connection_life_cycle_witness :
  let s := accept_connection (Env := ws_peer) 3 Websocket "peer" five_seconds welcome echo bye
             (mkWsPeer [FBinary zeros; FClose None] []) in
  fst (fst s) = Ret (Ok tt) /\ connection_life Websocket "peer"%string (snd s) (Ok tt).
Proof.
  intros s. assert (fst (fst s) = Ret (Ok tt)) as Hr by (by vm_compute). split; [exact Hr|].
  exact (proj1 (wp_outcome _ _ _ (connection_life_cycle (Env := ws_peer) 3 Websocket "peer"%string
    five_seconds welcome echo bye (mkWsPeer [FBinary zeros; FClose None] [])
    five_seconds_ok echo_no_panic) _ Hr)).
Defined.

Lemma main_loop_serves_witness :
  timeout_ok (accept_timeout_in_secs local_config) /\
  let s := server_main_loop (Env := door) 3 local_config (mkDoor [(7, "peer"%string)] true [false; true]) in
  served (fst (fst s)) (snd s).
Proof.
  split; [exact five_seconds_ok|]. intros s.
  exact (proj1 (wp_outcome _ _ _ (main_loop_serves (Env := door) 3 local_config
    (mkDoor [(7, "peer"%string)] true [false; true]) five_seconds_ok))).
Defined.

Lemma shutdown_prompt_unless_locked_witness :
  server_main_loop (Env := door) 1 local_config (mkDoor [(7, "peer"%string)] true [true]) =
    (Ret tt, mkDoor [(7, "peer"%string)] true [], [TryLock true; TryRecv (Some true)]).
Proof.
  exact (proj1 (shutdown_prompt_unless_locked (Env := door) 0 local_config
    (mkDoor [(7, "peer"%string)] true [true]) five_seconds_ok) _ _ eq_refl eq_refl).
Defined.

Lemma server_life_cycle_witness :
  let s := server (Env := door) 3 local_config welcome welcome
             (mkDoor [(7, "peer"%string)] true [false; true]) in
  fst (fst s) = Ret (Ok tt) /\ server_life local_config (snd s) (Ok tt).
Proof.
  intros s. assert (fst (fst s) = Ret (Ok tt)) as Hr by (by vm_compute). split; [exact Hr|].
  exact (wp_outcome _ (fun r t => forall x, r = Ret x -> server_life local_config t x) _
    (server_life_cycle (Env := door) 3 local_config welcome welcome
      (mkDoor [(7, "peer"%string)] true [false; true]) five_seconds_ok) _ Hr).
Defined.
End Runs.
