(* ===== verification/TcpClient.v ===== *)
(** The TCP client ([wolf/src/stream/tcp/tcp_client.rs]): connecting, the TLS
    trust anchors, and the loop that asks the callback what to send before it
    reads the answer. *)
From stdpp Require Import pretty.
From S2P Require Import Prelude F64 Common.
Local Open Scope Z_scope.
#[local] Set Default Goal Selector "!".

(** What the client relies on: certificates, trust anchors and names; then files of
    certificates, connecting, the address of the peer, and the TLS handshake with
    the anchors for a name. *)
Class Pki `{!Errors} `{!Net} := {
  Cert : Type;
  Anchor : Type;
  ServerName : Type;
  DnsError : Type;
  addr_error_debug : AddrParseError -> string;
  dns_debug : DnsError -> string;
  server_name : string -> result ServerName DnsError;
  webpki_roots : list Anchor;
  trust_anchor : Cert -> option Anchor;
}.
Class Connector `{!Errors} `{!Net} `{!Pki} (Env : Type) := {
  file_open : string -> Env -> result unit io_error * Env;
  pem_certs : Env -> result (list Cert) io_error * Env;
  tcp_connect : SocketAddr -> Env -> result unit io_error * Env;
  peer_addr : Env -> result SocketAddr io_error * Env;
  tls_connect : list Anchor -> ServerName -> Env -> result unit io_error * Env;
}.

Record TcpClientConfig := mkTcpClientConfig {
  endpoint_address : string;
  port : Z;
  io_timeout_in_secs : f64;
  tls : bool;
  tls_ca_path : option string;
}.

Inductive event `{!Errors} `{!Net} `{!Pki} : Type :=
| OnAccept (a : SocketAddr) (r : result unit anyhow)
| OpenRoots (path : string) (r : result unit io_error)
| ReadRoots (r : result (list Cert) io_error)
| Connect (a : SocketAddr) (r : result unit io_error)
| PeerAddr (r : result SocketAddr io_error)
| TlsConnect (anchors : list Anchor) (name : ServerName) (r : result unit io_error)
| OnMessage (secs : f64) (peer : SocketAddr) (given after : Buffer) (r : result unit anyhow)
| Write (data : list u8) (r : result Z io_error)
| Flush (r : result unit io_error)
| Read (r : result (list u8) io_error)
| OnClose (a : SocketAddr) (r : result unit anyhow).

(** [anyhow!("{:?}. trace info:{}", e, TRACE)]. *)
Definition traced `{!Errors} (trace : string) (debug : string) : anyhow :=
  anyhow_msg (debug +:+ ". trace info:" +:+ trace).
Definition traced_io `{!Errors} (trace : string) (e : io_error) : anyhow := traced trace (io_debug e).

Section client.
Context `{!Errors} `{!Net} `{!Pki} {Env : Type}.
Context `{!Clock Env} `{!Race Env} `{!Stream Env}.
Abbreviation IO := (M Env event).

Definition HANDLE_TRACE : string := "tcp_client::handle_client_stream".

Definition client_round (p_peer_address : SocketAddr) (p_io_timeout_in_secs : f64)
    (p_on_message : OnMessageCallback Env) (socket_live_time : Instant) (msg_buffer : Buffer)
    : IO (flow Buffer (result unit anyhow)) :=
  t ← act now;
  let elapsed_secs := as_secs_f64 (instant_sub t socket_live_time) in
  '(msg_buffer, r) ← call (on_message p_on_message elapsed_secs p_peer_address msg_buffer)
                       (fun '(after, r) => OnMessage elapsed_secs p_peer_address msg_buffer after r);
  if is_err r then mret (Break (Ok tt))
  else
    sent ← (if size msg_buffer >? 0 then
              v ← lift (slice_to (size msg_buffer) (buf msg_buffer));
              s ← obs (stream_write v) (Write v);
              match s with
              | Err e => mret (Err e)
              | Ok n => if n >? 0 then obs stream_flush Flush else mret (Ok tt)
              end
            else mret (Ok tt));
    match sent with
    | Err e => mret (Break (Err (traced_io HANDLE_TRACE e)))
    | Ok _ =>
      res ← with_timeout p_io_timeout_in_secs (timeout_for_read p_io_timeout_in_secs)
              (obs (stream_read MAX_MSG_SIZE) Read);
      match res with
      | Err e => mret (Break (Err (traced_io HANDLE_TRACE e)))
      | Ok d => mret (Continue (set_size (Z.of_nat (length d))
                                  (set_buf (overwrite d (buf msg_buffer)) msg_buffer)))
      end
    end.

Definition handle_client_stream (fuel : nat) (p_peer_address : SocketAddr)
    (p_io_timeout_in_secs : f64) (p_on_message : OnMessageCallback Env) : IO (result unit anyhow) :=
  socket_live_time ← act now;
  loop fuel (client_round p_peer_address p_io_timeout_in_secs p_on_message socket_live_time)
    (Buffer_new BINARY).

Context `{!Connector Env}.
Definition ROOT_TRACE : string := "tcp_client::load_root_ca".
Definition CLIENT_TRACE : string := "tcp_client::client".

(** The anchors of a list of certificates; one that is not valid panics. *)
Fixpoint trust_anchors (certs : list Cert) : res (list Anchor) :=
  match certs with
  | [] => Ret []
  | c :: cs =>
    match trust_anchor c with
    | Some a => l ← trust_anchors cs; mret (a :: l)
    | None => Panic "called `Result::unwrap()` on an `Err` value"
    end
  end.

Definition load_root_ca (p_root_ca_path : option string) : IO (result (list Anchor) anyhow) :=
  match p_root_ca_path with
  | Some ca_path =>
    _ ←?[traced_io ROOT_TRACE] obs (file_open ca_path) (OpenRoots ca_path);
    certs ←?[traced_io ROOT_TRACE] obs pem_certs ReadRoots;
    anchors ← lift (trust_anchors certs);
    mret (Ok anchors)
  | None => mret (Ok webpki_roots)
  end.

Definition client (fuel : nat) (p_config : TcpClientConfig) (p_on_accept_connection : OnSocketCallback Env)
    (p_on_message : OnMessageCallback Env) (p_on_close_connection : OnSocketCallback Env)
    : IO (result unit anyhow) :=
  let addr := endpoint_address p_config +:+ ":" +:+ pretty (port p_config) in
  socket_addr ←?[fun e => traced CLIENT_TRACE (addr_error_debug e)] mret (addr_from_str addr);
  _ ←? call (on_socket p_on_accept_connection socket_addr) (OnAccept socket_addr);
  _ ←? (if tls p_config then
          root_cert_store ←? load_root_ca (tls_ca_path p_config);
          _ ←?[traced_io CLIENT_TRACE] obs (tcp_connect socket_addr) (Connect socket_addr);
          domain ←?[fun e => anyhow_context "tcp::client"
                               (anyhow_msg ("invalid DNS name " +:+ dns_debug e))]
            mret (server_name (endpoint_address p_config));
          peer_address ←?[traced_io CLIENT_TRACE] obs peer_addr PeerAddr;
          _ ←?[traced_io CLIENT_TRACE] obs (tls_connect root_cert_store domain) (TlsConnect root_cert_store domain);
          handle_client_stream fuel peer_address (io_timeout_in_secs p_config) p_on_message
        else
          _ ←?[traced_io CLIENT_TRACE] obs (tcp_connect socket_addr) (Connect socket_addr);
          peer_address ←?[traced_io CLIENT_TRACE] obs peer_addr PeerAddr;
          handle_client_stream fuel peer_address (io_timeout_in_secs p_config) p_on_message);
  call (on_socket p_on_close_connection socket_addr) (OnClose socket_addr).
End client.

(** ** What a client session is *)

Section session.
Context `{!Errors} `{!Net} `{!Pki} {Env : Type}.
Context `{!Clock Env} `{!Race Env} `{!Stream Env} `{!StreamLaws Env}.

(** The part of a round that sends what the callback left: nothing, or one
    write, flushed when it took anything. *)
Inductive sends : Buffer -> list event -> result unit io_error -> Prop :=
| sends_nothing b : size b = 0 -> sends b [] (Ok tt)
| sends_failed b e :
    0 < size b <= MAX_MSG_SIZE ->
    sends b [Write (take (Z.to_nat (size b)) (buf b)) (Err e)] (Err e)
| sends_none b n :
    0 < size b <= MAX_MSG_SIZE -> n <= 0 ->
    sends b [Write (take (Z.to_nat (size b)) (buf b)) (Ok n)] (Ok tt)
| sends_flushed b n r :
    0 < size b <= MAX_MSG_SIZE -> 0 < n ->
    sends b [Write (take (Z.to_nat (size b)) (buf b)) (Ok n); Flush r] r.

(** A session: the callback speaks first; its refusal is the only good end. *)
Inductive client_session (peer : SocketAddr) : Buffer -> list event -> res (result unit anyhow) -> Prop :=
| client_open b : client_session peer b [] NoFuel
| client_callback_panic b why : client_session peer b [] (Panic why)
| client_refused b secs after x :
    client_session peer b [OnMessage secs peer b after (Err x)] (Ret (Ok tt))
| client_overrun b secs after :
    MAX_MSG_SIZE < size after ->
    client_session peer b [OnMessage secs peer b after (Ok tt)]
      (Panic "range end index out of range for slice")
| client_not_sent b secs after t e :
    sends after t (Err e) ->
    client_session peer b (OnMessage secs peer b after (Ok tt) :: t)
      (Ret (Err (traced_io HANDLE_TRACE e)))
| client_not_read b secs after t e t' :
    sends after t (Ok tt) ->
    t' = [Read (Err e)] \/
      t' = [] /\ e = io_error_new TimedOut "timeout for read from tcp socket reached"%string ->
    client_session peer b (OnMessage secs peer b after (Ok tt) :: t ++ t')
      (Ret (Err (traced_io HANDLE_TRACE e)))
| client_round_trip b secs after t d t' o :
    sends after t (Ok tt) -> Z.of_nat (length d) <= MAX_MSG_SIZE ->
    client_session peer (mkBuffer (type_ after) (Z.of_nat (length d)) (overwrite d (buf after))) t' o ->
    client_session peer b (OnMessage secs peer b after (Ok tt) :: t ++ Read (Ok d) :: t') o.

Lemma client_loop_session peer secs (cb : OnMessageCallback Env) start fuel b e :
  timeout_ok secs -> buffer_wf b ->
  wp (loop fuel (client_round peer secs cb start) b) (fun r _ t => client_session peer b t r) e.
Proof.
  intros Hok. revert b e. induction fuel as [|fuel IH]; intros b e Hb; [by constructor|].
  rewrite loop_S. apply wp_bind. unfold client_round at 1.
  apply wp_bind, wp_act. intros t1 e1 _. cbn zeta. apply wp_bind, wp_call.
  intros [[after [[]|x]]|why|] e2 Hcb; [|do 2 apply wp_ret; by constructor|by constructor..].
  apply (on_message_wf cb Hb) in Hcb. cbn [is_err is_ok negb]. apply wp_bind.
  destruct (Z.le_gt_cases (size after) MAX_MSG_SIZE) as [Hle|Hgt].
  2:{ destruct (Z.gtb_spec (size after) 0); [|unfold MAX_MSG_SIZE in *; lia].
      apply wp_bind, wp_lift. unfold slice_to. destruct Hcb as [Hl _].
      rewrite (proj2 (Z.leb_gt _ _)) by lia. by apply client_overrun. }
  eapply (wp_mono _ (fun r _ t => exists x, r = Ret x /\ sends after t x)).
  - intros r e3 t (x & -> & Hsends). destruct x as [[]|x].
    2:{ do 2 apply wp_ret. rewrite !app_nil_r. cbn [app]. by apply client_not_sent. }
    apply wp_bind, wp_with_timeout; [done| |].
    { intros d e4 Hd. apply wp_bind, wp_lift. rewrite Hd. do 3 apply wp_ret.
      cbn [app]. rewrite !app_nil_r. rewrite <-(app_nil_r t). eapply client_not_read; [done|by right]. }
    intros e4. apply wp_obs. intros [d|x] e5 Hread.
    2:{ do 2 apply wp_ret. cbn [app]. rewrite !app_nil_r. eapply client_not_read; [done|by left]. }
    apply stream_read_cap in Hread; [|done]. apply wp_ret.
    eapply wp_mono; [|apply IH; by apply received_wf]. intros r e6 t' Hs.
    cbn [app]. rewrite <-!(assoc_L app). cbn [app]. by apply client_round_trip.
  - destruct (Z.gtb_spec (size after) 0).
    2:{ apply wp_ret. exists (Ok tt). split; [done|]. apply sends_nothing. destruct Hcb. lia. }
    destruct Hcb as [Hl _]. apply wp_bind, wp_lift. rewrite slice_to_Ret by lia.
    apply wp_bind, wp_obs. intros [n|x] e3 _.
    2:{ apply wp_ret. exists (Err x). split; [done|]. by apply sends_failed. }
    destruct (Z.gtb_spec n 0).
    + apply wp_obs. intros r e4 _. exists r. split; [done|]. by apply sends_flushed.
    + apply wp_ret. exists (Ok tt). split; [done|]. by apply sends_none.
Qed.

Lemma handle_client_stream_session fuel peer secs (cb : OnMessageCallback Env) e :
  timeout_ok secs ->
  wp (handle_client_stream fuel peer secs cb)
     (fun r _ t => client_session peer (Buffer_new BINARY) t r) e.
Proof.
  intros Hok. unfold handle_client_stream. apply wp_bind, wp_act. intros t e1 _.
  eapply wp_mono; [|by apply client_loop_session, Buffer_new_wf]. done.
Qed.
End session.

(** ** The life of a client *)

Section life.
Context `{!Errors} `{!Net} `{!Pki} {Env : Type}.
Context `{!Clock Env} `{!Race Env} `{!Stream Env} `{!StreamLaws Env} `{!Connector Env}.

(** How a session that returned ended: at the callback's refusal, with [Ok],
    or at a failed write, flush or read (a timeout is one), with its error. *)
Lemma client_session_end peer b t r :
  client_session peer b t (Ret r) ->
  match r with
  | Ok _ => exists secs given after x, last t = Some (OnMessage secs peer given after (Err x))
  | Err x => exists e, x = traced_io HANDLE_TRACE e
  end.
Proof.
  intros Hs. remember (Ret r) as o eqn:Eo. revert Eo.
  induction Hs as [| |b secs after x| |b secs after t e _|b secs after t e t' _ _|
                    b secs after t d t' o _ _ _ IH]; intros Eo; simplify_eq.
  - by do 4 eexists.
  - by exists e.
  - by exists e.
  - specialize (IH eq_refl). destruct r; [|done].
    destruct IH as (s & g & a & x & Hl). exists s, g, a, x.
    rewrite last_cons, last_app, last_cons, Hl. done.
Qed.

(** The trust anchors: the built-in ones, or those of a file; every way the file
    can fail. *)
Inductive roots : option string -> list event -> res (result (list Anchor) anyhow) -> Prop :=
| roots_built_in : roots None [] (Ret (Ok webpki_roots))
| roots_not_opened p e : roots (Some p) [OpenRoots p (Err e)] (Ret (Err (traced_io ROOT_TRACE e)))
| roots_not_read p e :
    roots (Some p) [OpenRoots p (Ok tt); ReadRoots (Err e)] (Ret (Err (traced_io ROOT_TRACE e)))
| roots_not_valid p certs c :
    c ∈ certs -> trust_anchor c = None ->
    roots (Some p) [OpenRoots p (Ok tt); ReadRoots (Ok certs)]
      (Panic "called `Result::unwrap()` on an `Err` value")
| roots_read p certs anchors :
    map trust_anchor certs = map Some anchors ->
    roots (Some p) [OpenRoots p (Ok tt); ReadRoots (Ok certs)] (Ret (Ok anchors)).

(** A connection to [a] and the address of its peer, without TLS. *)
Inductive plain_setup (a : SocketAddr) : list event -> result SocketAddr anyhow -> Prop :=
| plain_not_connected e : plain_setup a [Connect a (Err e)] (Err (traced_io CLIENT_TRACE e))
| plain_no_peer e : plain_setup a [Connect a (Ok tt); PeerAddr (Err e)] (Err (traced_io CLIENT_TRACE e))
| plain_connected peer : plain_setup a [Connect a (Ok tt); PeerAddr (Ok peer)] (Ok peer).

(** The same with TLS, for the name of the configuration, with the anchors. *)
Inductive tls_setup (host : string) (anchors : list Anchor) (a : SocketAddr) :
    list event -> result SocketAddr anyhow -> Prop :=
| tls_not_connected e :
    tls_setup host anchors a [Connect a (Err e)] (Err (traced_io CLIENT_TRACE e))
| tls_bad_name x :
    server_name host = Err x ->
    tls_setup host anchors a [Connect a (Ok tt)]
      (Err (anyhow_context "tcp::client" (anyhow_msg ("invalid DNS name " +:+ dns_debug x))))
| tls_no_peer name e :
    server_name host = Ok name ->
    tls_setup host anchors a [Connect a (Ok tt); PeerAddr (Err e)] (Err (traced_io CLIENT_TRACE e))
| tls_refused name peer e :
    server_name host = Ok name ->
    tls_setup host anchors a
      [Connect a (Ok tt); PeerAddr (Ok peer); TlsConnect anchors name (Err e)]
      (Err (traced_io CLIENT_TRACE e))
| tls_connected name peer :
    server_name host = Ok name ->
    tls_setup host anchors a
      [Connect a (Ok tt); PeerAddr (Ok peer); TlsConnect anchors name (Ok tt)] (Ok peer).

(** What comes before the session, as the configuration asks: its events, and the
    address of the peer or what ended it. *)
Inductive setup (config : TcpClientConfig) (a : SocketAddr) :
    list event -> res (result SocketAddr anyhow) -> Prop :=
| setup_plain t r : tls config = false -> plain_setup a t r -> setup config a t (Ret r)
| setup_no_roots t x :
    tls config = true -> roots (tls_ca_path config) t (Ret (Err x)) -> setup config a t (Ret (Err x))
| setup_bad_roots t why :
    tls config = true -> roots (tls_ca_path config) t (Panic why) -> setup config a t (Panic why)
| setup_tls t anchors c r :
    tls config = true -> roots (tls_ca_path config) t (Ret (Ok anchors)) ->
    tls_setup (endpoint_address config) anchors a c r -> setup config a (t ++ c) (Ret r).

(** What a callback does that does not return. *)
Definition stops (cb : OnSocketCallback Env) (a : SocketAddr) (o : res (result unit anyhow)) : Prop :=
  (forall x, o <> Ret x) /\ exists e e', on_socket cb a e = (o, e').

Definition the_address (config : TcpClientConfig) : result SocketAddr AddrParseError :=
  addr_from_str (endpoint_address config +:+ ":" +:+ pretty (port config)).

(** Every way a client can go: one for each cause, with its result. *)
Inductive client_life (config : TcpClientConfig) (on_accept on_close : OnSocketCallback Env) :
    list event -> res (result unit anyhow) -> Prop :=
| client_bad_address x :
    the_address config = Err x ->
    client_life config on_accept on_close [] (Ret (Err (traced CLIENT_TRACE (addr_error_debug x))))
| client_accept_stops a o :
    the_address config = Ok a -> stops on_accept a o -> client_life config on_accept on_close [] o
| client_unwanted a x :
    the_address config = Ok a ->
    client_life config on_accept on_close [OnAccept a (Err x)] (Ret (Err x))
| client_not_set_up a t x :
    the_address config = Ok a -> setup config a t (Ret (Err x)) ->
    client_life config on_accept on_close (OnAccept a (Ok tt) :: t) (Ret (Err x))
| client_setup_panic a t why :
    the_address config = Ok a -> setup config a t (Panic why) ->
    client_life config on_accept on_close (OnAccept a (Ok tt) :: t) (Panic why)
| client_session_over a peer t t' o :
    the_address config = Ok a -> setup config a t (Ret (Ok peer)) ->
    client_session peer (Buffer_new BINARY) t' o -> o <> Ret (Ok tt) ->
    client_life config on_accept on_close (OnAccept a (Ok tt) :: t ++ t') o
| client_close_stops a peer t t' o :
    the_address config = Ok a -> setup config a t (Ret (Ok peer)) ->
    client_session peer (Buffer_new BINARY) t' (Ret (Ok tt)) -> stops on_close a o ->
    client_life config on_accept on_close (OnAccept a (Ok tt) :: t ++ t') o
| client_closed a peer t t' r :
    the_address config = Ok a -> setup config a t (Ret (Ok peer)) ->
    client_session peer (Buffer_new BINARY) t' (Ret (Ok tt)) ->
    client_life config on_accept on_close (OnAccept a (Ok tt) :: t ++ t' ++ [OnClose a r]) (Ret r).

Lemma trust_anchors_spec certs :
  match trust_anchors certs with
  | Ret anchors => map trust_anchor certs = map Some anchors
  | Panic why => why = "called `Result::unwrap()` on an `Err` value"%string /\
                 exists c, c ∈ certs /\ trust_anchor c = None
  | NoFuel => False
  end.
Proof.
  induction certs as [|c cs IH]; [done|]. cbn [trust_anchors map].
  destruct (trust_anchor c) as [x|] eqn:Hc; [|split; [done|]; exists c; by split; [left|]].
  unfold mbind, res_mbind, res_bind. destruct (trust_anchors cs) as [l|why|]; [|..|done].
  - cbn. by rewrite IH.
  - destruct IH as (-> & c' & ? & ?). split; [done|]. exists c'. by split; [right|].
Qed.

Lemma load_root_ca_roots path (e : Env) : wp (load_root_ca path) (fun r _ t => roots path t r) e.
Proof.
  unfold load_root_ca. destruct path as [p|]; [|apply wp_ret; constructor].
  apply wp_try, wp_obs. intros [[]|x] e1 _; [|constructor].
  apply wp_try, wp_obs. intros [certs|x] e2 _; [|constructor].
  pose proof (trust_anchors_spec certs) as Hs. apply wp_bind, wp_lift.
  destruct (trust_anchors certs) as [anchors|why|]; [apply wp_ret; by constructor| |done].
  destruct Hs as (-> & c & ? & ?). by apply (roots_not_valid p certs c).
Qed.

(** The connection and the session, after the accept callback. *)
Definition connected (config : TcpClientConfig) (a : SocketAddr) (t : list event)
    (o : res (result unit anyhow)) : Prop :=
  (exists x, setup config a t (Ret (Err x)) /\ o = Ret (Err x)) \/
  (exists why, setup config a t (Panic why) /\ o = Panic why) \/
  exists peer t0 t', t = t0 ++ t' /\ setup config a t0 (Ret (Ok peer)) /\
    client_session peer (Buffer_new BINARY) t' o.

(** C19: the life of a client, with the cause of every end. The accept callback runs
    before anything is connected, and its refusal is the result. The connection is
    plain or TLS as configured, with the anchors of the file or the built-in ones,
    for the name of the configuration; an address, a file, a certificate, a
    connection, a name or a handshake that fails ends it with the error of that
    step and its trace, with no message. The close callback runs exactly when a
    session ended by the message callback's refusal, last, and its verdict is the
    result: a session that fails (at a read timeout, for one) skips it. *)
Theorem client_life_cycle fuel config on_accept on_msg on_close e :
  timeout_ok (io_timeout_in_secs config) ->
  wp (client fuel config on_accept on_msg on_close)
     (fun r _ t => client_life config on_accept on_close t r) e.
Proof.
  intros Hok. unfold client. fold (the_address config). apply wp_try, wp_ret.
  destruct (the_address config) as [a|x] eqn:Ea; [|by apply client_bad_address].
  apply wp_try, wp_call. intros [[[]|x]|why|] e1 Hcb; [|by apply (client_unwanted _ _ _ a)|..].
  2,3: apply (client_accept_stops _ _ _ a); [done|]; split; [done|]; by do 2 eexists.
  apply wp_try.
  match goal with |- wp ?m _ _ => assert (wp m (fun r _ t => connected config a t r) e1) as Hc end.
  2:{ eapply wp_mono; [|exact Hc]. intros o e2 t [(x & Hx & ->)|[(why & Hx & ->)|(peer & t0 & t' & -> & Hset & Hs)]].
      - by apply client_not_set_up.
      - by apply client_setup_panic.
      - destruct o as [[[]|x]|why|]; [|by apply (client_session_over _ _ _ a peer t0 t')..].
        apply wp_call. intros [r|why|] e3 Hcl.
        + rewrite <-!(assoc_L app). by apply (client_closed config _ _ a peer t0 t' r).
        + rewrite app_nil_r. apply (client_close_stops _ _ _ a peer t0 t'); [done..|]. split; [done|]. by do 2 eexists.
        + rewrite app_nil_r. apply (client_close_stops _ _ _ a peer t0 t'); [done..|]. split; [done|]. by do 2 eexists. }
  assert (forall peer t0 e2, setup config a t0 (Ret (Ok peer)) ->
    wp (handle_client_stream fuel peer (io_timeout_in_secs config) on_msg)
       (fun r _ t => connected config a (t0 ++ t) r) e2) as Hsess.
  { intros peer t0 e2 Hset. eapply wp_mono; [|by apply handle_client_stream_session].
    intros r e3 t Hs. right; right. by exists peer, t0, t. }
  destruct (tls config) eqn:Htls.
  - apply wp_try. eapply wp_mono; [|apply load_root_ca_roots].
    intros [[anchors|x]|why|] e2 t Hr; [| | |by inversion Hr].
    2:{ left. exists x. by split; [apply setup_no_roots|]. }
    2:{ right; left. exists why. by split; [apply setup_bad_roots|]. }
    assert (forall c r, tls_setup (endpoint_address config) anchors a c (Err r) ->
       connected config a (t ++ c) (Ret (Err r))) as Hfail.
    { intros c r Hc. left. exists r. split; [|done]. by eapply setup_tls. }
    apply wp_try, wp_obs. intros [[]|x] e3 _; [|apply Hfail; constructor].
    apply wp_try, wp_ret. destruct (server_name _) as [name|x] eqn:Hname;
      [|apply Hfail; rewrite ?app_nil_r; by constructor].
    apply wp_try, wp_obs. intros [peer|x] e4 _; [|apply Hfail; by econstructor].
    apply wp_try, wp_obs. intros [[]|x] e5 _; [|apply Hfail; by econstructor].
    pose proof (Hsess peer (t ++ [Connect a (Ok tt); PeerAddr (Ok peer); TlsConnect anchors name (Ok tt)]) e5) as Hw.
    eapply wp_mono; [|apply Hw; eapply setup_tls; [done..|by econstructor]].
    intros r e6 u Hu. cbn beta in Hu. rewrite <-app_assoc in Hu. exact Hu.
  - assert (forall c r, plain_setup a c (Err r) -> connected config a c (Ret (Err r))) as Hfail.
    { intros c r Hc. left. exists r. split; [|done]. by apply setup_plain. }
    apply wp_try, wp_obs. intros [[]|x] e3 _; [|apply Hfail; constructor].
    apply wp_try, wp_obs. intros [peer|x] e4 _; [|apply Hfail; constructor].
    apply (Hsess peer [Connect a (Ok tt); PeerAddr (Ok peer)]), setup_plain; [done|constructor].
Qed.

(** C24: a client session refines its specification [client_session]: the callback
    speaks first and is asked again after every answer; each round sends what it
    left in the buffer, in one write of 1 to [MAX_MSG_SIZE] bytes flushed when it
    took any, then reads; the refusal of the callback is the only end without an
    error, and the text it refused with is dropped. *)
Theorem client_session_refines fuel peer secs (cb : OnMessageCallback Env) e :
  timeout_ok secs ->
  wp (handle_client_stream fuel peer secs cb)
     (fun r _ t => client_session peer (Buffer_new BINARY) t r /\
        forall x, r = Ret x ->
          if is_ok x then exists s given after y, last t = Some (OnMessage s peer given after (Err y))
          else exists e, x = Err (traced_io HANDLE_TRACE e)) e.
Proof.
  intros Hok. eapply wp_mono; [|by apply handle_client_stream_session].
  intros r e' t Hs. split; [done|]. intros x ->. apply client_session_end in Hs.
  destruct x as [|x]; [done|]. destruct Hs as [z ->]. by exists z.
Qed.
End life.

(** ** Concrete runs *)
Module Runs.
Import Concrete.

#[export] Instance peer_pki : Pki := {|
  Cert := bool; Anchor := unit; ServerName := string; DnsError := string;
  addr_error_debug := id; dns_debug := id;
  server_name := Ok; webpki_roots := [tt];
  trust_anchor := fun b => if b : bool then Some tt else None;
|}.
#[export] Instance peer_connector : Connector peer := {|
  file_open := fun _ p => (Ok tt, p); pem_certs := fun p => (Ok [true], p);
  tcp_connect := fun _ p => (Ok tt, p); peer_addr := fun p => (Ok "peer"%string, p);
  tls_connect := fun _ _ p => (Ok tt, p);
|}.

(** Says one byte, and refuses once an answer has come. *)
Definition ask_once {Env} : OnMessageCallback Env.
Proof.
  refine {| on_message := fun _ _ b e =>
    (Ret (if size b =? 0 then (mkBuffer (type_ b) 1 (overwrite [Byte.x41] (buf b)), Ok tt)
          else (b, Err "done")), e) |}.
  intros s a b e b' r e' [Hl Hs]. destruct (size b =? 0); intros [= <- <- <-]; [|done].
  split; simpl; [|done]. rewrite length_drop. unfold MAX_MSG_SIZE in *. lia.
Defined.

Definition tls_config : TcpClientConfig := {|
  endpoint_address := "127.0.0.1"; port := 443; io_timeout_in_secs := five_seconds;
  tls := true; tls_ca_path := Some "ca.pem" |}.

Definition question := client (Env := peer) 3 tls_config welcome ask_once welcome
                         (mkPeer [[Byte.x42]] [] 0).

Example question_run : fst (fst question) = Ret (Ok tt) /\ outbox (snd (fst question)) = [Byte.x41].
Proof. by vm_compute. Qed.

Lemma client_life_cycle_witness :
  fst (fst question) = Ret (Ok tt) /\ client_life (Env := peer) tls_config welcome welcome (snd question) (Ret (Ok tt)).
Proof.
  assert (fst (fst question) = Ret (Ok tt)) as Hr by (by vm_compute). split; [exact Hr|].
  rewrite <-Hr.
  exact (wp_outcome _ (fun r t => client_life (Env := peer) tls_config welcome welcome t r) _
    (client_life_cycle (Env := peer) 3 tls_config welcome ask_once welcome
      (mkPeer [[Byte.x42]] [] 0) five_seconds_ok)).
Defined.

Definition answered := handle_client_stream (Env := peer) 3 "peer" five_seconds ask_once
                         (mkPeer [[Byte.x42]] [] 0).
Lemma client_session_refines_witness :
  timeout_ok five_seconds /\
  client_session "peer"%string (Buffer_new BINARY) (snd answered) (fst (fst answered)).
Proof.
  split; [exact five_seconds_ok|].
  exact (proj1 (wp_outcome _ (fun r t => client_session _ _ t r /\ _) _
    (client_session_refines (Env := peer) 3 "peer"%string five_seconds ask_once
      (mkPeer [[Byte.x42]] [] 0) five_seconds_ok))).
Defined.
End Runs.
