(* ===== verification/Conversation.v ===== *)
(** A client and a server together: the sessions of [TcpClient] and of the native
    handler of [TcpServer] at the two ends of one connection, interleaved in any
    order, and what their callbacks show each other. *)
From S2P Require Import Prelude F64 Common TcpServer TcpClient.
Local Open Scope Z_scope.
#[local] Set Default Goal Selector "!".

(** ** What an end does to the connection

    The events of either end, as far as bytes go: a write of [data] that took [n]
    of them, a read, a call of the callback with what it was shown and what it
    left to send (nothing when it refused). *)
Inductive io :=
| Sent (data : list u8) (n : Z)
| Received (data : list u8)
| Called (shown reply : list u8)
| Other.

Definition content (b : Buffer) : list u8 := take (Z.to_nat (size b)) (buf b).
Definition reply_of {A E} (after : Buffer) (r : result A E) : list u8 :=
  match r with Ok _ => content after | Err _ => [] end.

Definition client_io `{!Errors} `{!Net} `{!Pki} (ev : TcpClient.event) : io :=
  match ev with
  | TcpClient.Write d (Ok n) => Sent d n
  | TcpClient.Read (Ok d) => Received d
  | TcpClient.OnMessage _ _ given after r => Called (content given) (reply_of after r)
  | _ => Other
  end.
Definition server_io `{!Errors} `{!Net} `{!WsLib} `{!TlsLib} (ev : TcpServer.event) : io :=
  match ev with
  | TcpServer.Write d (Ok n) => Sent d n
  | TcpServer.Read (Ok d) => Received d
  | TcpServer.OnMessage _ _ given after r => Called (content given) (reply_of after r)
  | _ => Other
  end.

(** The bytes an end put on the wire, took from it, showed to its callback and
    was left by it. *)
Definition sent_by (x : io) : list u8 := match x with Sent d n => take (Z.to_nat n) d | _ => [] end.
Definition received_by (x : io) : list u8 := match x with Received d => d | _ => [] end.
Definition shown_by (x : io) : list u8 := match x with Called d _ => d | _ => [] end.
Definition offered_by (x : io) : list u8 := match x with Called _ d => d | _ => [] end.
Definition transmitted (t : list io) : list u8 := concat (map sent_by t).
Definition received (t : list io) : list u8 := concat (map received_by t).
Definition shown (t : list io) : list u8 := concat (map shown_by t).
Definition offered (t : list io) : list u8 := concat (map offered_by t).

(** Every write took all it was given. *)
Definition whole (t : list io) : Prop :=
  Forall (fun x => match x with Sent d n => n = Z.of_nat (length d) | _ => True end) t.

(** An end that passes bytes on, from a state where it has received [inn] and not
    shown it yet, and been left [out] and not sent it yet: what it receives is what
    it shows, up to the last read; what it sends is among what its callback left,
    in order, and is all of it, up to the last write, when its writes are whole. *)
Record relays (inn out : list u8) (t : list io) : Prop := {
  shows : exists l, inn ++ received t = shown t ++ l;
  sends_some : transmitted t `sublist_of` out ++ offered t;
  sends_all : whole t -> exists l, out ++ offered t = transmitted t ++ l;
}.

Lemma relays_nil inn out : relays inn out [].
Proof. split; [by exists (inn ++ [])|apply sublist_nil_l|by exists (out ++ [])]. Qed.

Lemma relays_other inn out t : relays inn out t -> relays inn out (Other :: t).
Proof. intros [Hs Hsome Hall]. split; [done|done|]. intros [_ Hw]%Forall_cons_1. by apply Hall. Qed.

Lemma relays_received out d t : relays d out t -> relays [] out (Received d :: t).
Proof. intros [Hs Hsome Hall]. split; [done|done|]. intros [_ Hw]%Forall_cons_1. by apply Hall. Qed.

Lemma relays_called d reply t : relays [] reply t -> relays d [] (Called d reply :: t).
Proof.
  intros [[l Hl] Hsome Hall]. split; [|done|].
  - exists l. change (d ++ received t = (d ++ shown t) ++ l). rewrite <-(assoc_L app). by rewrite <-Hl.
  - intros [_ Hw]%Forall_cons_1. by apply Hall.
Qed.

Lemma relays_sent inn d n t : relays inn [] t -> relays inn d (Sent d n :: t).
Proof.
  intros [Hs Hsome Hall]. split; [done| |].
  - change (take (Z.to_nat n) d ++ transmitted t `sublist_of` d ++ offered t).
    apply sublist_app; [apply sublist_take|done].
  - intros [-> Hw]%Forall_cons_1. destruct (Hall Hw) as [l Hl]. exists l.
    change (d ++ offered t = (take (Z.to_nat (Z.of_nat (length d))) d ++ transmitted t) ++ l).
    rewrite Nat2Z.id, firstn_all, <-(assoc_L app). by rewrite <-Hl.
Qed.

Create HintDb relay.
#[export] Hint Resolve relays_nil relays_other relays_received relays_called relays_sent : relay.

(** The data read into the front of a buffer is its content. *)
Lemma content_received t d b :
  content (mkBuffer t (Z.of_nat (length d)) (overwrite d b)) = d.
Proof. unfold content. cbn [size buf]. rewrite Nat2Z.id. apply take_overwrite. Qed.

Lemma content_empty b : size b = 0 -> content b = [].
Proof. unfold content. by intros ->. Qed.

(** ** Both ends relay *)
Section ends.
Context `{!Errors} `{!Net} `{!Pki} `{!WsLib} `{!TlsLib}.

Lemma server_relays peer b t o :
  native_session peer b t o -> relays [] [] (map server_io t).
Proof.
  induction 1; cbn [map server_io]; rewrite ?content_received; eauto with relay.
  - cbn [reply_of]. rewrite content_empty by done. auto with relay.
Qed.

(** The part of a client's round that sends, before the rest of its session, and
    at its end. *)
Lemma sends_relay after t rest :
  sends after t (Ok tt) -> relays [] [] rest -> relays [] (content after) (map client_io t ++ rest).
Proof.
  intros Hs Hrest. inversion Hs; subst; cbn [map client_io app]; auto with relay.
  by rewrite content_empty.
Qed.
Lemma sends_stop after t r : sends after t r -> relays [] (content after) (map client_io t).
Proof. destruct 1; cbn [map client_io]; auto with relay. Qed.
#[local] Hint Resolve sends_relay sends_stop : relay.

Lemma client_relays peer b t o : client_session peer b t o -> relays (content b) [] (map client_io t).
Proof.
  induction 1 as [| | | |b secs after t e Hs|b secs after t e t' Hs Ht|b secs after t d t' o Hs Hd _ IH];
    cbn [map client_io reply_of]; rewrite ?map_app; auto with relay.
  - apply relays_called. by eapply sends_stop.
  - apply relays_called, sends_relay; [done|]. destruct Ht as [-> |[-> _]]; cbn; auto with relay.
  - rewrite content_received in IH. cbn [map client_io]. auto with relay.
Qed.
End ends.

(** ** The connection

    The bytes under way in each direction. A write adds what it took, a read takes
    the first bytes, in order; each end acts when it likes. *)
Record wire := mkWire { up : list u8; down : list u8 }.
Inductive side := AtClient | AtServer.
#[export] Instance side_eq_dec : EqDecision side.
Proof. solve_decision. Defined.

(** A read of [d] from a queue. *)
Definition take_from (q d : list u8) : option (list u8) :=
  if bool_decide (take (length d) q = d) then Some (drop (length d) q) else None.

Definition wire_step (w : wire) (l : side * io) : option wire :=
  match l with
  | (AtClient, Sent d n) =>
    if (0 <=? n) && (n <=? Z.of_nat (length d)) then Some (mkWire (up w ++ take (Z.to_nat n) d) (down w)) else None
  | (AtServer, Sent d n) =>
    if (0 <=? n) && (n <=? Z.of_nat (length d)) then Some (mkWire (up w) (down w ++ take (Z.to_nat n) d)) else None
  | (AtClient, Received d) => q ← take_from (down w) d; Some (mkWire (up w) q)
  | (AtServer, Received d) => q ← take_from (up w) d; Some (mkWire q (down w))
  | _ => Some w
  end.
Fixpoint wire_run (w : wire) (tr : list (side * io)) : option wire :=
  match tr with
  | [] => Some w
  | l :: tr => w' ← wire_step w l; wire_run w' tr
  end.

(** The part of an interleaving that is at one end. *)
Definition part (s : side) (tr : list (side * io)) : list io :=
  omap (fun '(s', x) => if decide (s' = s) then Some x else None) tr.

Lemma concat_part (f : io -> list u8) s s' x tr :
  concat (map f (part s ((s', x) :: tr))) =
  (if decide (s' = s) then f x else []) ++ concat (map f (part s tr)).
Proof. unfold part. cbn [omap list_omap]. by destruct (decide _). Qed.

Lemma take_from_Some q d q' : take_from q d = Some q' -> q = d ++ q'.
Proof.
  unfold take_from. case_bool_decide as Hd; [|done]. intros [= <-]. rewrite <-(take_drop (length d) q) at 1. by rewrite Hd.
Qed.

(** One step keeps the account of each direction: what was under way and what is
    sent is what is received and what is under way. *)
Lemma wire_step_account w s x w' :
  wire_step w (s, x) = Some w' ->
  up w ++ (if decide (s = AtClient) then sent_by x else []) =
    (if decide (s = AtServer) then received_by x else []) ++ up w' /\
  down w ++ (if decide (s = AtServer) then sent_by x else []) =
    (if decide (s = AtClient) then received_by x else []) ++ down w'.
Proof.
  destruct s; cbn; destruct x as [d n|d|? ?|]; cbn; try (intros [= <-]; by rewrite !app_nil_r).
  - destruct (_ && _); [|done]. intros [= <-]. by rewrite app_nil_r.
  - destruct (take_from _ _) as [q|] eqn:Hq; [|done]. intros [= <-]. apply take_from_Some in Hq.
    by rewrite !app_nil_r.
  - destruct (_ && _); [|done]. intros [= <-]. by rewrite app_nil_r.
  - destruct (take_from _ _) as [q|] eqn:Hq; [|done]. intros [= <-]. apply take_from_Some in Hq.
    by rewrite !app_nil_r.
Qed.

Lemma wire_account tr w w' :
  wire_run w tr = Some w' ->
  up w ++ transmitted (part AtClient tr) = received (part AtServer tr) ++ up w' /\
  down w ++ transmitted (part AtServer tr) = received (part AtClient tr) ++ down w'.
Proof.
  revert w. induction tr as [|[s x] tr IH]; intros w; cbn [wire_run].
  { intros [= <-]. by rewrite !app_nil_r. }
  destruct (wire_step w (s, x)) as [w1|] eqn:Hstep; [|done]. cbn [mbind option_bind]. intros Hrun.
  destruct (IH _ Hrun) as [Hu Hd]. destruct (wire_step_account _ _ _ _ Hstep) as [Hu1 Hd1].
  unfold transmitted, received in *. rewrite !concat_part, !(assoc_L app), Hu1, Hd1, <-!(assoc_L app), Hu, Hd.
  by rewrite !(assoc_L app).
Qed.

(** ** The conversation *)
Section conversation.
Context `{!Errors} `{!Net} `{!Pki} `{!WsLib} `{!TlsLib} {C S : Type}.
Context `{!Clock C} `{!Race C} `{!Stream C} `{!StreamLaws C}.
Context `{!Clock S} `{!Race S} `{!Stream S} `{!StreamLaws S}.

(** An end whose callback leaves every message as it was shown it. *)
Definition echoes (t : list io) : Prop :=
  Forall (fun x => match x with Called d reply => reply = d | _ => True end) t.

Lemma echoes_offered t : echoes t -> offered t = shown t.
Proof.
  unfold offered, shown. induction 1 as [|x t Hx _ IH]; [done|]. cbn. rewrite IH.
  destruct x; simpl in *; by subst.
Qed.

(** C4: a client and a native server talking over one connection, at any point of
    any interleaving of their runs: the server's callback is shown nothing but what
    the client sent, in order, from its beginning, and the client's callback nothing
    but what the server sent. What an end sends is among what its callback left, in
    order, and may lack some of it; when its writes take all they are given, the
    other end's callback is shown exactly what its own left, from the beginning.
    An echo server then gives a client its own bytes back. *)
Theorem conversation fuel_c peer_c secs_c (cb_c : OnMessageCallback C) e_c
    fuel_s peer_s secs_s (cb_s : OnMessageCallback S) e_s tr w :
  timeout_ok secs_c -> timeout_ok secs_s ->
  let c := map client_io (snd (handle_client_stream fuel_c peer_c secs_c cb_c e_c)) in
  let s := map server_io (snd (handle_tcp_connection fuel_s peer_s secs_s cb_s e_s)) in
  part AtClient tr = c -> part AtServer tr = s -> wire_run (mkWire [] []) tr = Some w ->
  shown s `prefix_of` transmitted c /\ transmitted c `sublist_of` offered c /\
  shown c `prefix_of` transmitted s /\ transmitted s `sublist_of` offered s /\
  (whole c -> shown s `prefix_of` offered c) /\
  (whole s -> shown c `prefix_of` offered s) /\
  (whole c -> whole s -> echoes s -> shown c `prefix_of` offered c).
Proof.
  intros Hokc Hoks c s Hc Hs Hrun.
  assert (relays [] [] c) as [[lc Hlc] Hsc Hac].
  { pose proof (wp_outcome _ (fun r t => client_session _ _ t r) _
      (handle_client_stream_session fuel_c peer_c secs_c cb_c e_c Hokc)) as Hses.
    apply client_relays in Hses. by rewrite content_empty in Hses. }
  assert (relays [] [] s) as [[ls Hls] Hss Has].
  { pose proof (wp_outcome _ (fun r t => exists o, native_session _ _ t o /\ _) _
      (handle_tcp_connection_session fuel_s peer_s secs_s cb_s e_s Hoks)) as (o & Hses & _).
    by apply server_relays in Hses. }
  destruct (wire_account _ _ _ Hrun) as [Hu Hd]. rewrite Hc, Hs in Hu, Hd. cbn [up down app] in *.
  assert (shown s `prefix_of` transmitted c) as Hup by (exists (ls ++ up w); by rewrite Hu, Hls, (assoc_L app)).
  assert (shown c `prefix_of` transmitted s) as Hdown by (exists (lc ++ down w); by rewrite Hd, Hlc, (assoc_L app)).
  assert (whole c -> shown s `prefix_of` offered c) as Hupw.
  { intros Hw. destruct (Hac Hw) as [l ->]. by apply prefix_app_r. }
  assert (whole s -> shown c `prefix_of` offered s) as Hdownw.
  { intros Hw. destruct (Has Hw) as [l ->]. by apply prefix_app_r. }
  split_and!; try done. intros Hwc Hws Hecho. etrans; [by apply Hdownw|].
  rewrite echoes_offered by done. by apply Hupw.
Qed.
End conversation.

(** ** A conversation with an echo *)
Module Runs.
Import Concrete TcpServer.Runs TcpClient.Runs.

(** The client says one byte and leaves once it is answered; the server echoes. *)
Definition client_end := handle_client_stream (Env := peer) 3 "server" five_seconds ask_once
                           (mkPeer [[Byte.x41]] [] 0).
Definition server_end := handle_tcp_connection (Env := peer) 1 "client" five_seconds echo
                           (mkPeer [[Byte.x41]] [] 0).
Definition client_part : list io := map client_io (snd client_end).
Definition server_part : list io := map server_io (snd server_end).
Definition interleaving : list (side * io) :=
  map (pair AtClient) (take 2 client_part) ++ map (pair AtServer) server_part ++
  map (pair AtClient) (drop 2 client_part).

Example conversation_run :
  wire_run (mkWire [] []) interleaving = Some (mkWire [] []) /\
  shown server_part = [Byte.x41] /\ shown client_part = [Byte.x41].
Proof. by vm_compute. Qed.

Lemma conversation_witness :
  wire_run (mkWire [] []) interleaving = Some (mkWire [] []) /\
  shown server_part `prefix_of` transmitted client_part /\
  shown client_part `prefix_of` offered client_part.
Proof.
  assert (wire_run (mkWire [] []) interleaving = Some (mkWire [] [])) as Hrun by (by vm_compute).
  split; [exact Hrun|].
  assert (part AtClient interleaving = client_part) as Hc by (by vm_compute).
  assert (part AtServer interleaving = server_part) as Hs by (by vm_compute).
  pose proof (conversation (C := peer) (S := peer) 3 "server"%string five_seconds ask_once
    (mkPeer [[Byte.x41]] [] 0) 1 "client"%string five_seconds echo (mkPeer [[Byte.x41]] [] 0)
    interleaving (mkWire [] []) five_seconds_ok five_seconds_ok Hc Hs Hrun) as (H1 & _ & _ & _ & _ & _ & H7).
  split; [exact H1|]. apply H7; vm_compute; by repeat constructor.
Defined.

(** A stream that takes one byte of every write: the rest of each message is
    lost, as no end writes it again. *)
Record slow := mkSlow { wire_bytes : list u8 }.
#[local] Instance slow_clock : Clock slow := {| now := fun p => (0, p) |}.
#[local] Instance slow_race : Race slow := {| race := fun p => (ReadyFirst, p) |}.
#[local] Instance slow_stream : Stream slow := {|
  stream_read := fun _ p => (Ok [Byte.x41; Byte.x42], p);
  stream_write := fun d p => (Ok 1, mkSlow (wire_bytes p ++ take 1 d));
  stream_flush := fun p => (Ok tt, p);
|}.
Definition slow_part : list io :=
  map server_io (snd (handle_tcp_connection (Env := slow) 2 "client" five_seconds echo (mkSlow []))).
Example slow_run :
  offered slow_part = [Byte.x41; Byte.x42; Byte.x41; Byte.x42] /\ transmitted slow_part = [Byte.x41; Byte.x41].
Proof. by vm_compute. Qed.
End Runs.
