(* ===== verification/Udp.v ===== *)
(** UDP endpoints ([wolf/src/stream/udp.rs]): a server that reads then writes,
    and a client that writes then reads, over one bound socket. *)
From stdpp Require Import pretty.
From S2P Require Import Prelude F64 Common.
Local Open Scope Z_scope.
#[local] Set Default Goal Selector "!".

(** A UDP socket: binding, its own address, one datagram received into a
    buffer of a given size, one datagram sent. *)
Class UdpSocket `{!Errors} `{!Net} (Env : Type) := {
  udp_bind : SocketAddr -> Env -> result unit io_error * Env;
  local_addr : Env -> result SocketAddr io_error * Env;
  recv_from : Z -> Env -> result (list u8 * SocketAddr) io_error * Env;
  send_to : list u8 -> SocketAddr -> Env -> result Z io_error * Env;
  parse_debug : AddrParseError -> string;
}.
Class UdpLaws `{!Errors} `{!Net} (Env : Type) `{!UdpSocket Env} : Prop := {
  recv_from_cap n e d a e' :
    0 <= n -> recv_from n e = (Ok (d, a), e') -> Z.of_nat (length d) <= n;
}.

Inductive UdpConnectionType := UDPServer | UDPClient.

Inductive event `{!Errors} `{!Net} : Type :=
| Bind (a : SocketAddr) (r : result unit io_error)
| OnBind (a : SocketAddr) (r : result unit anyhow)
| Recv (r : result (list u8 * SocketAddr) io_error)
| OnMessage (secs : f64) (peer : SocketAddr) (given after : Buffer) (r : result unit anyhow)
| Send (data : list u8) (peer : SocketAddr) (r : result Z io_error)
| LocalAddr (r : result SocketAddr io_error)
| OnClose (a : SocketAddr) (msg : string) (r : result unit anyhow).

Section udp.
Context `{!Errors} `{!Net} {Env : Type} `{!Clock Env} `{!Race Env} `{!UdpSocket Env}.
Abbreviation IO := (M Env event).

Definition timeout_for_read {T} (p_timeout_in_secs : f64) : IO (result T io_error) :=
  _ ← lift (from_secs_f64 p_timeout_in_secs);
  mret (Err (io_error_new TimedOut "timeout reached for udp read data from socket")).
Definition timeout_for_send {T} (p_timeout_in_secs : f64) : IO (result T io_error) :=
  _ ← lift (from_secs_f64 p_timeout_in_secs);
  mret (Err (io_error_new TimedOut "timeout reached for udp send data to socket")).

(** The buffer of a read is the whole array. *)
Definition read (p_read_write_timeout_in_secs : f64) : IO (result (list u8 * SocketAddr) io_error) :=
  with_timeout p_read_write_timeout_in_secs (timeout_for_read p_read_write_timeout_in_secs)
    (obs (recv_from MAX_MSG_SIZE) Recv).
Definition send (peer_addr : SocketAddr) (p_buffer : list u8) (p_read_write_timeout_in_secs : f64)
    : IO (result Z io_error) :=
  with_timeout p_read_write_timeout_in_secs (timeout_for_send p_read_write_timeout_in_secs)
    (obs (send_to p_buffer peer_addr) (Send p_buffer peer_addr)).

Definition TRACE : string := "udp::connect".
Definition traced (debug : string) : anyhow := anyhow_msg (debug +:+ ". trace info:" +:+ TRACE).
Definition debug_err (e : io_error) : string := "Err(" +:+ io_debug e +:+ ")".

Definition run_on_message (cb : OnMessageCallback Env) (secs : f64) (peer : SocketAddr) (msg : Buffer)
    : IO (Buffer * result unit anyhow) :=
  call (on_message cb secs peer msg) (fun '(after, r) => OnMessage secs peer msg after r).

(** One iteration of the server's loop: read, call back, answer. *)
Definition server_round (secs : f64) (p_on_message : OnMessageCallback Env)
    (socket_live_time : Instant) (msg : Buffer) : IO (flow Buffer string) :=
  t ← act now;
  let elpased_secs := as_secs_f64 (instant_sub t socket_live_time) in
  r_res ← read secs;
  match r_res with
  | Err e => mret (Break (debug_err e))
  | Ok (d, peer_addr) =>
    let msg_size := Z.of_nat (length d) in
    let msg := set_size msg_size (set_buf (overwrite d (buf msg)) msg) in
    '(msg, want_to_close_conn) ← run_on_message p_on_message elpased_secs peer_addr msg;
    if is_err want_to_close_conn then
      mret (Break ("udp connection will be closed because of the p_on_msg_callback request. Reason: "
                   +:+ debug_callback want_to_close_conn))
    else if msg_size >? 0 then
      s_res ← send peer_addr (buf msg) secs;
      match s_res with
      | Err e => mret (Break (debug_err e))
      | Ok _ => mret (Continue msg)
      end
    else mret (Continue msg)
  end.

(** One iteration of the client's loop: call back, send, read the answer. *)
Definition client_round (secs : f64) (p_on_message : OnMessageCallback Env)
    (socket_live_time : Instant) (peer_addr : SocketAddr) (msg : Buffer) : IO (flow Buffer string) :=
  t ← act now;
  let elpased_secs := as_secs_f64 (instant_sub t socket_live_time) in
  '(msg, want_to_close_conn) ← run_on_message p_on_message elpased_secs peer_addr msg;
  if is_err want_to_close_conn then
    mret (Break ("udp client will be closed because of the p_on_msg_callback request. Reason: "
                 +:+ debug_callback want_to_close_conn))
  else
    let msg_size := size msg in
    if msg_size >? 0 then
      s_res ← send peer_addr (buf msg) secs;
      match s_res with
      | Err e => mret (Break (debug_err e))
      | Ok _ =>
        r_res ← read secs;
        match r_res with
        | Err e => mret (Break (debug_err e))
        | Ok (d, _) => mret (Continue (set_buf (overwrite d (buf msg)) msg))
        end
      end
    else mret (Continue msg).

Definition connect (fuel : nat) (p_address : string) (p_port : Z)
    (p_connection_type : UdpConnectionType) (p_read_write_timeout_in_secs : f64)
    (p_on_bind_socket : OnSocketCallback Env) (p_on_message : OnMessageCallback Env)
    (p_on_close_socket : OnCloseSocketCallback Env) : IO (result unit anyhow) :=
  let address := p_address +:+ ":" +:+ pretty p_port in
  socket_addr ←?[fun e => traced (parse_debug e)] mret (addr_from_str address);
  _ ←?[fun e => traced (io_debug e)] obs (udp_bind socket_addr) (Bind socket_addr);
  _ ←? call (on_socket p_on_bind_socket socket_addr) (OnBind socket_addr);
  socket_live_time ← act now;
  close_msg ←?
    (match p_connection_type with
     | UDPServer =>
       m ← loop fuel (server_round p_read_write_timeout_in_secs p_on_message socket_live_time)
             (Buffer_new BINARY);
       mret (Ok m)
     | UDPClient =>
       peer_addr ←?[fun e => traced (io_debug e)] obs local_addr LocalAddr;
       m ← loop fuel (client_round p_read_write_timeout_in_secs p_on_message socket_live_time peer_addr)
             (Buffer_new BINARY);
       mret (Ok m)
     end);
  call (on_close_socket p_on_close_socket socket_addr close_msg) (OnClose socket_addr close_msg).
End udp.

(** ** What the loops do on the wire *)

Section wire.
Context `{!Errors} `{!Net} {Env : Type} `{!Clock Env} `{!Race Env} `{!UdpSocket Env} `{!UdpLaws Env}.

(** A received datagram lands at the front of the buffer, with its length; an
    answer is the whole array the callback left, to the datagram's sender, and
    it is the received length, not the one the callback set, that decides
    whether there is one. *)
Inductive server_session : Buffer -> list event -> res string -> Prop :=
| server_open b : server_session b [] NoFuel
| server_timeout b :
    server_session b []
      (Ret (debug_err (io_error_new TimedOut "timeout reached for udp read data from socket")))
| server_read_error b e : server_session b [Recv (Err e)] (Ret (debug_err e))
| server_calling b d a o : is_Ret o = false -> server_session b [Recv (Ok (d, a))] o
| server_refused b d a secs after x :
    server_session b
      [Recv (Ok (d, a));
       OnMessage secs a (mkBuffer (type_ b) (Z.of_nat (length d)) (overwrite d (buf b))) after (Err x)]
      (Ret ("udp connection will be closed because of the p_on_msg_callback request. Reason: "
            +:+ debug_callback (Err x)))
| server_unanswered b a secs after t o :
    buffer_wf after -> server_session after t o ->
    server_session b
      (Recv (Ok ([], a)) :: OnMessage secs a (mkBuffer (type_ b) 0 (buf b)) after (Ok tt) :: t) o
| server_send_timeout b d a secs after :
    d <> [] ->
    server_session b
      [Recv (Ok (d, a));
       OnMessage secs a (mkBuffer (type_ b) (Z.of_nat (length d)) (overwrite d (buf b))) after (Ok tt)]
      (Ret (debug_err (io_error_new TimedOut "timeout reached for udp send data to socket")))
| server_send_error b d a secs after e :
    d <> [] -> buffer_wf after ->
    server_session b
      [Recv (Ok (d, a));
       OnMessage secs a (mkBuffer (type_ b) (Z.of_nat (length d)) (overwrite d (buf b))) after (Ok tt);
       Send (buf after) a (Err e)]
      (Ret (debug_err e))
| server_answered b d a secs after n t o :
    d <> [] -> buffer_wf after -> server_session after t o ->
    server_session b
      (Recv (Ok (d, a)) ::
       OnMessage secs a (mkBuffer (type_ b) (Z.of_nat (length d)) (overwrite d (buf b))) after (Ok tt) ::
       Send (buf after) a (Ok n) :: t) o.

Lemma overwrite_nil {A} (l : list A) : overwrite [] l = l.
Proof. done. Qed.

Lemma udp_server_loop_session secs (cb : OnMessageCallback Env) start fuel b e :
  timeout_ok secs -> buffer_wf b ->
  wp (loop fuel (server_round secs cb start) b) (fun r _ t => server_session b t r) e.
Proof.
  intros Hok. revert b e. induction fuel as [|fuel IH]; intros b e Hb; [by constructor|].
  rewrite loop_S. apply wp_bind. unfold server_round at 1.
  apply wp_bind, wp_act. intros t1 e1 _. cbn zeta. unfold read.
  apply wp_bind, wp_with_timeout; [done| |].
  { intros d e2 Hd. apply wp_bind, wp_lift. rewrite Hd. do 3 apply wp_ret. by constructor. }
  clear e1. intros e1. apply wp_obs. intros [[d a]|x] e2 Hread.
  2:{ do 2 apply wp_ret. by constructor. }
  apply recv_from_cap in Hread; [|done]. pose proof (received_wf b d Hb Hread) as Hb1.
  unfold set_size, set_buf. cbn [type_ size buf].
  apply wp_bind, wp_call. intros [[after [[]|x]]|why|] e3 Hcb.
  2:{ cbn [is_err is_ok negb]. do 2 apply wp_ret. by apply server_refused. }
  2-3: by apply server_calling.
  apply (on_message_wf cb Hb1) in Hcb. cbn [is_err is_ok negb].
  destruct d as [|x d].
  { apply wp_ret. eapply wp_mono; [|by apply IH]. intros r e4 t Hs. by apply server_unanswered. }
  rewrite (proj2 (Z.gtb_lt _ _)) by (simpl; lia). unfold send.
  apply wp_bind, wp_with_timeout; [done| |].
  { intros y e4 Hy. apply wp_bind, wp_lift. rewrite Hy. do 3 apply wp_ret. by apply server_send_timeout. }
  intros e4. apply wp_obs. intros [n|y] e5 _.
  2:{ do 2 apply wp_ret. by apply server_send_error. }
  apply wp_ret. eapply wp_mono; [|by apply IH]. intros r e6 t Hs. by apply server_answered.
Qed.
End wire.

Section client_wire.
Context `{!Errors} `{!Net} {Env : Type} `{!Clock Env} `{!Race Env} `{!UdpSocket Env} `{!UdpLaws Env}.

(** The client: the callback speaks, the whole array is sent when it left a
    size, and the answer overwrites the front of the array (its length and its
    sender are dropped). *)
Inductive client_session (peer : SocketAddr) : Buffer -> list event -> res string -> Prop :=
| client_open b : client_session peer b [] NoFuel
| client_calling b o : is_Ret o = false -> client_session peer b [] o
| client_refused b secs after x :
    client_session peer b [OnMessage secs peer b after (Err x)]
      (Ret ("udp client will be closed because of the p_on_msg_callback request. Reason: "
            +:+ debug_callback (Err x)))
| client_silent b secs after t o :
    size after = 0 -> buffer_wf after -> client_session peer after t o ->
    client_session peer b (OnMessage secs peer b after (Ok tt) :: t) o
| client_send_failed b secs after t e :
    0 < size after -> buffer_wf after ->
    t = [Send (buf after) peer (Err e)] \/
      t = [] /\ e = io_error_new TimedOut "timeout reached for udp send data to socket"%string ->
    client_session peer b (OnMessage secs peer b after (Ok tt) :: t) (Ret (debug_err e))
| client_read_failed b secs after n t e :
    0 < size after -> buffer_wf after ->
    t = [Recv (Err e)] \/
      t = [] /\ e = io_error_new TimedOut "timeout reached for udp read data from socket"%string ->
    client_session peer b
      (OnMessage secs peer b after (Ok tt) :: Send (buf after) peer (Ok n) :: t) (Ret (debug_err e))
| client_answered b secs after n d a t o :
    0 < size after -> buffer_wf after ->
    client_session peer (mkBuffer (type_ after) (size after) (overwrite d (buf after))) t o ->
    client_session peer b
      (OnMessage secs peer b after (Ok tt) :: Send (buf after) peer (Ok n) :: Recv (Ok (d, a)) :: t) o.

Lemma udp_client_loop_session secs (cb : OnMessageCallback Env) start peer fuel b e :
  timeout_ok secs -> buffer_wf b ->
  wp (loop fuel (client_round secs cb start peer) b) (fun r _ t => client_session peer b t r) e.
Proof.
  intros Hok. revert b e. induction fuel as [|fuel IH]; intros b e Hb; [by constructor|].
  rewrite loop_S. apply wp_bind. unfold client_round at 1.
  apply wp_bind, wp_act. intros t1 e1 _. cbn zeta.
  apply wp_bind, wp_call. intros [[after [[]|x]]|why|] e2 Hcb; [| |by apply client_calling..].
  2:{ cbn [is_err is_ok negb]. do 2 apply wp_ret. by apply client_refused. }
  apply (on_message_wf cb Hb) in Hcb. cbn [is_err is_ok negb].
  destruct (Z.gtb_spec (size after) 0) as [Hpos|Hz].
  2:{ apply wp_ret. eapply wp_mono; [|by apply IH]. intros r e3 t Hs.
      apply client_silent; [|done|done]. destruct Hcb. lia. }
  unfold send. apply wp_bind, wp_with_timeout; [done| |].
  { intros d e3 Hd. apply wp_bind, wp_lift. rewrite Hd. do 3 apply wp_ret.
    apply client_send_failed; [done|done|by right]. }
  intros e3. apply wp_obs. intros [n|x] e4 _.
  2:{ do 2 apply wp_ret. apply client_send_failed; [done|done|by left]. }
  unfold read. apply wp_bind, wp_with_timeout; [done| |].
  { intros d e5 Hd. apply wp_bind, wp_lift. rewrite Hd. do 3 apply wp_ret.
    apply client_read_failed; [done|done|by right]. }
  intros e5. apply wp_obs. intros [[d a]|x] e6 Hread.
  2:{ do 2 apply wp_ret. apply client_read_failed; [done|done|by left]. }
  apply recv_from_cap in Hread; [|done]. apply wp_ret.
  assert (buffer_wf (set_buf (overwrite d (buf after)) after)) as Hwf.
  { destruct Hcb as [Hl Hs]. split; [|done]. simpl. rewrite length_overwrite; lia. }
  eapply wp_mono; [|by apply IH]. intros r e7 t Hs. by apply client_answered.
Qed.

(** What is true of every datagram sent. *)
Definition sent_ok (t : list event) (P : list u8 -> SocketAddr -> Prop) : Prop :=
  Forall (fun ev => match ev with Send d a _ => P d a | _ => True end) t.

Ltac sent_tac := repeat (apply Forall_cons; split; [done|]); try first [done | by constructor].

Lemma server_session_sent b t o :
  server_session b t o -> sent_ok t (fun d _ => Z.of_nat (length d) = MAX_MSG_SIZE).
Proof.
  induction 1 as [| | | | |b a secs after t o _ _ IH| |b d a secs after e _ [Hl _]
                  |b d a secs after n t o _ [Hl _] _ IH]; sent_tac.
Qed.

Lemma client_session_sent peer b t o :
  client_session peer b t o ->
  sent_ok t (fun d a => Z.of_nat (length d) = MAX_MSG_SIZE /\ a = peer).
Proof.
  induction 1 as [| | |b secs after t o _ _ _ IH|b secs after t e _ [Hl _] [->|[-> _]]
                  |b secs after n t e _ [Hl _] [->|[-> _]]|b secs after n d a t o _ [Hl _] _ IH];
    sent_tac.
Qed.

(** The life of an endpoint. *)
Definition endpoint_session (k : UdpConnectionType) (peer : option SocketAddr) (t : list event) (o : res string)
    : Prop :=
  match k, peer with
  | UDPServer, None => server_session (Buffer_new BINARY) t o
  | UDPClient, Some a => client_session a (Buffer_new BINARY) t o
  | _, _ => False
  end.

(** The client asks for the socket's own address. *)
Definition local_of (peer : option SocketAddr) : list event :=
  match peer with Some p => [LocalAddr (Ok p)] | None => [] end.

Inductive endpoint_life (k : UdpConnectionType) (p_address : string) (p_port : Z) :
    list event -> result unit anyhow -> Prop :=
| endpoint_bad_address x :
    addr_from_str (p_address +:+ ":" +:+ pretty p_port) = Err x ->
    endpoint_life k p_address p_port [] (Err (traced (parse_debug x)))
| endpoint_not_bound a x :
    addr_from_str (p_address +:+ ":" +:+ pretty p_port) = Ok a ->
    endpoint_life k p_address p_port [Bind a (Err x)] (Err (traced (io_debug x)))
| endpoint_unwanted a x :
    addr_from_str (p_address +:+ ":" +:+ pretty p_port) = Ok a ->
    endpoint_life k p_address p_port [Bind a (Ok tt); OnBind a (Err x)] (Err x)
| endpoint_no_local a x :
    addr_from_str (p_address +:+ ":" +:+ pretty p_port) = Ok a -> k = UDPClient ->
    endpoint_life k p_address p_port [Bind a (Ok tt); OnBind a (Ok tt); LocalAddr (Err x)]
      (Err (traced (io_debug x)))
| endpoint_closed a peer t msg r :
    addr_from_str (p_address +:+ ":" +:+ pretty p_port) = Ok a ->
    endpoint_session k peer t (Ret msg) ->
    endpoint_life k p_address p_port
      (Bind a (Ok tt) :: OnBind a (Ok tt) :: local_of peer ++ t ++ [OnClose a msg r]) r.

Lemma connect_wp fuel address port k secs on_bind (on_msg : OnMessageCallback Env) on_close e :
  timeout_ok secs ->
  wp (connect fuel address port k secs on_bind on_msg on_close)
     (fun r _ t =>
        (forall x, r = Ret x -> endpoint_life k address port t x) /\
        sent_ok t (fun d a => Z.of_nat (length d) = MAX_MSG_SIZE /\
                              (k = UDPClient -> LocalAddr (Ok a) ∈ t))) e.
Proof.
  intros Hok. unfold connect. apply wp_try, wp_ret.
  destruct (addr_from_str _) as [a|x] eqn:Ea;
    [|split; [intros y [= <-]; by apply endpoint_bad_address|constructor]].
  apply wp_try, wp_obs. intros [[]|x] e1 _;
    [|split; [intros y [= <-]; by apply endpoint_not_bound|by repeat constructor]].
  apply wp_try, wp_call. intros [[[]|x]|why|] e2 _;
    [|split; [intros y [= <-]; by apply endpoint_unwanted|by repeat constructor]|
      split; [done|by repeat constructor]..].
  apply wp_bind, wp_act. intros start e3 _. cbn [app]. apply wp_try. destruct k.
  - apply wp_bind. eapply wp_mono; [|by apply udp_server_loop_session, Buffer_new_wf].
    intros r e4 t Hs.
    assert (forall l : list event, sent_ok t (fun d a => Z.of_nat (length d) = MAX_MSG_SIZE /\
                        (UDPServer = UDPClient -> LocalAddr (Ok a) ∈ l))) as Hsent.
    { intros l. eapply Forall_impl; [exact (server_session_sent _ _ _ Hs)|].
      intros ev Hev. by destruct ev. }
    destruct r as [msg|why|]; [apply wp_ret, wp_call; intros r e5 _; rewrite app_nil_r|
      split; [done|]; sent_tac; apply Hsent..].
    split.
    + intros x ->. by apply (endpoint_closed _ _ _ a None).
    + sent_tac. apply Forall_app. split; [apply Hsent|by destruct r; repeat constructor].
  - apply wp_try, wp_obs. intros [peer|x] e4 _;
      [|split; [intros y [= <-]; by apply endpoint_no_local|by repeat constructor]].
    apply wp_bind. eapply wp_mono; [|by apply udp_client_loop_session, Buffer_new_wf].
    intros r e5 t Hs. pose proof (client_session_sent _ _ _ _ Hs) as Hsent.
    assert (forall t', sent_ok t (fun d a0 => Z.of_nat (length d) = MAX_MSG_SIZE /\
              (UDPClient = UDPClient ->
               LocalAddr (Ok a0) ∈ Bind a (Ok tt) :: OnBind a (Ok tt) :: LocalAddr (Ok peer) :: t'))) as Hs'.
    { intros t'. eapply Forall_impl; [exact Hsent|]. intros ev Hev. destruct ev; try done.
      destruct Hev as [? ->]. split; [done|]. intros _. do 2 right. by left. }
    destruct r as [msg|why|]; [apply wp_ret, wp_call; intros r e6 _; rewrite app_nil_r|
      split; [done|]; sent_tac; apply Hs'..].
    split.
    + intros x ->. by apply (endpoint_closed _ _ _ a (Some peer)).
    + sent_tac. apply Forall_app. split; [apply Hs'|by destruct r; repeat constructor].
Qed.
End client_wire.

(** ** The properties of an endpoint *)

Section properties.
Context `{!Errors} `{!Net} {Env : Type} `{!Clock Env} `{!Race Env} `{!UdpSocket Env} `{!UdpLaws Env}.

(** C20: the life of a UDP endpoint: parse, bind, ask the bind callback, then a
    session of the requested kind that refines [server_session] or
    [client_session]; the close callback runs last, exactly when a session ended,
    with the reason it ended for, and its verdict is the result. *)
Theorem endpoint_life_cycle fuel address port k secs on_bind (on_msg : OnMessageCallback Env) on_close e :
  timeout_ok secs ->
  wp (connect fuel address port k secs on_bind on_msg on_close)
     (fun r _ t => forall x, r = Ret x -> endpoint_life k address port t x) e.
Proof.
  intros Hok. eapply wp_mono; [|by apply connect_wp]. by intros r e' t [Hlife _].
Qed.

(** C25: what is on the wire: whatever size the callback left, every datagram sent
    is the whole array of [MAX_MSG_SIZE] bytes; and a client sends all of them to
    the address of its own socket, the only peer it knows. *)
Theorem datagrams_full_and_own fuel address port k secs on_bind (on_msg : OnMessageCallback Env)
    on_close e :
  timeout_ok secs ->
  wp (connect fuel address port k secs on_bind on_msg on_close)
     (fun _ _ t => forall d a r, Send d a r ∈ t ->
        Z.of_nat (length d) = MAX_MSG_SIZE /\ (k = UDPClient -> LocalAddr (Ok a) ∈ t)) e.
Proof.
  intros Hok. eapply wp_mono; [|by apply connect_wp].
  intros r e' t [_ Hs] d a x Hin. unfold sent_ok in Hs. rewrite Forall_forall in Hs.
  exact (Hs (Send d a x) Hin).
Qed.

(** A client whose callback has nothing to send never waits: as long as the
    callback leaves a size of zero the loop calls it again at once, without
    reading or sending anything, for ever. *)
Theorem silent_client_spins fuel secs (cb : OnMessageCallback Env) start peer X b e :
  (forall e, X e -> X (snd (now e))) ->
  (forall s b e, X e -> exists b' e',
     on_message cb s peer b e = (Ret (b', Ok tt), e') /\ size b' = 0 /\ X e') -> X e ->
  wp (loop fuel (client_round secs cb start peer) b)
     (fun r _ t => r = NoFuel /\ length t = fuel /\
        Forall (fun ev => match ev with OnMessage _ _ _ _ _ => True | _ => False end) t) e.
Proof.
  intros Hnow Hcb. revert b e. induction fuel as [|fuel IH]; intros b e He; [by repeat constructor|].
  rewrite loop_S. apply wp_bind. unfold client_round at 1. apply wp_bind, wp_act.
  intros t e1 E1. specialize (Hnow e He) as He1. rewrite E1 in He1. cbn zeta.
  apply wp_bind, wp_call. intros r e2 E2. destruct (Hcb (as_secs_f64 (instant_sub t start)) b e1 He1)
    as (b' & e' & E2' & Hz & He2). rewrite E2' in E2. simplify_eq.
  cbn [is_err is_ok negb]. rewrite Hz. apply wp_ret.
  eapply wp_mono; [|by apply IH]. intros r e4 t' (-> & <- & Hall).
  split; [done|]. split; [done|]. by constructor.
Qed.
End properties.

(** ** Concrete runs *)
Module Runs.
Import Concrete.

#[export] Instance peer_udp : UdpSocket peer := {|
  udp_bind := fun _ p => (Ok tt, p);
  local_addr := fun p => (Ok "me"%string, p);
  recv_from := fun n p =>
    match inbox p with
    | [] => (Err "empty"%string, p)
    | d :: ds => (Ok (take (Z.to_nat n) d, "peer"%string), mkPeer ds (outbox p) (clock p))
    end;
  send_to := fun d _ p => peer_write d p;
  parse_debug := id;
|}.
#[export] Instance peer_udp_laws : UdpLaws peer.
Proof.
  split. intros n [[|d ds] o c] l a e' Hn; unfold recv_from; simpl; intros [= <- _ _].
  rewrite length_take. lia.
Qed.

(** One datagram of two bytes, answered by one of [MAX_MSG_SIZE]. *)
Definition answering := connect (Env := peer) 3 "127.0.0.1" 8000 UDPServer five_seconds
                          welcome echo bye (mkPeer [[Byte.x41; Byte.x42]] [] 0).

Example answering_run :
  fst (fst answering) = Ret (Ok tt) /\ length (outbox (snd (fst answering))) = 1024%nat.
Proof. by vm_compute. Qed.

Lemma endpoint_life_cycle_witness :
  fst (fst answering) = Ret (Ok tt) /\
  endpoint_life UDPServer "127.0.0.1" 8000 (snd answering) (Ok tt).
Proof.
  assert (fst (fst answering) = Ret (Ok tt)) as Hr by (by vm_compute). split; [exact Hr|].
  exact (wp_outcome _ (fun r t => forall x, r = Ret x -> endpoint_life _ _ _ t x) _
    (endpoint_life_cycle (Env := peer) 3 "127.0.0.1" 8000 UDPServer five_seconds welcome echo bye
      (mkPeer [[Byte.x41; Byte.x42]] [] 0) five_seconds_ok) _ Hr).
Defined.

(** A callback that always has a byte to send. *)
Definition chatty {Env} : OnMessageCallback Env.
Proof.
  refine {| on_message := fun _ _ b e => (Ret (set_size 1 b, Ok tt), e) |}.
  intros s a b e b' r e' [Hl Hs] [= <- <- <-]. by split.
Defined.
Definition chatting := connect (Env := peer) 3 "127.0.0.1" 8000 UDPClient five_seconds
                          welcome chatty bye (mkPeer [[Byte.x41; Byte.x42]] [] 0).

Lemma datagrams_full_and_own_witness :
  timeout_ok five_seconds /\
  forall d a r, Send d a r ∈ snd chatting ->
    Z.of_nat (length d) = MAX_MSG_SIZE /\ (UDPClient = UDPClient -> LocalAddr (Ok a) ∈ snd chatting).
Proof.
  split; [exact five_seconds_ok|].
  exact (wp_outcome _ (fun _ t => forall d a r, Send d a r ∈ t -> _ /\ (_ -> LocalAddr (Ok a) ∈ t)) _
    (datagrams_full_and_own (Env := peer) 3 "127.0.0.1" 8000 UDPClient five_seconds welcome chatty bye
      (mkPeer [[Byte.x41; Byte.x42]] [] 0) five_seconds_ok)).
Defined.

(** A callback with nothing to say. *)
Definition mute {Env} : OnMessageCallback Env.
Proof.
  refine {| on_message := fun _ _ b e => (Ret (set_size 0 b, Ok tt), e) |}.
  intros s a b e b' r e' [Hl Hs] [= <- <- <-]. by split.
Defined.

Lemma silent_client_spins_witness :
  fst (fst (loop 50 (client_round (Env := peer) five_seconds mute 0 "me") (Buffer_new BINARY)
              (mkPeer [] [] 0))) = NoFuel.
Proof.
  refine (proj1 (wp_outcome _ (fun r t => r = NoFuel /\ _) _
    (silent_client_spins (Env := peer) 50 five_seconds mute 0 "me"%string (fun _ => True)
      (Buffer_new BINARY) (mkPeer [] [] 0) _ _ I))).
  - done.
  - intros s b e _. by eexists _, _.
Defined.
End Runs.
