(* ===== verification/FiberServer.v ===== *)
(** The fiber TCP server ([wolf/src/stream/tcp/tcp_server_fiber.rs]): blocking
    handlers run by coroutines, one accept loop per worker. *)
From stdpp Require Import pretty.
From S2P Require Import Prelude F64 Common.
Local Open Scope Z_scope.
#[local] Set Default Goal Selector "!".

(** What the server relies on: the timeouts of a stream, a listener, the
    shutdown channel under its lock, and the text of a float. *)
Class FiberNet `{!Errors} `{!Net} (Env : Type) := {
  Conn : Type;
  set_read_timeout : Duration -> Env -> result unit io_error * Env;
  set_write_timeout : Duration -> Env -> result unit io_error * Env;
  listen : SocketAddr -> Env -> result unit io_error * Env;
  accept : Env -> result (Conn * SocketAddr) io_error * Env;
  try_lock : Env -> bool * Env;
  try_recv : Env -> option bool * Env;
  f64_display : f64 -> string;
}.

Record TcpFiberServerConfig := mkFiberConfig {
  protocol : TcpProtocol;
  address : string;
  port : Z;
  fiber_num_of_workers : Z;
  accept_timeout_in_secs : f64;
  io_timeout_in_secs : f64;
}.

Inductive event `{!Errors} `{!Net} : Type :=
| OnAccept (peer : SocketAddr) (r : result unit anyhow)
| SetTimeout (r : result unit io_error)
| Read (r : result (list u8) io_error)
| OnMessage (secs : f64) (peer : SocketAddr) (given after : Buffer) (r : result unit anyhow)
| Write (data : list u8) (r : result Z io_error)
| Flush (r : result unit io_error)
| OnClose (peer : SocketAddr) (msg : string) (r : result unit anyhow).

Definition REASON : string :=
  "tcp connection will be closed because of the p_on_msg_callback request. Reason: ".

Section connection.
Context `{!Errors} `{!Net} {Env : Type} `{!Clock Env} `{!Stream Env} `{!FiberNet Env}.
Abbreviation IO := (M Env event).

(** The reply: the whole array, whatever size the callback left. *)
Definition send_reply (msg : Buffer) (close_msg : string) : IO string :=
  if size msg >? 0 then
    r ← obs (stream_write (buf msg)) (Write (buf msg));
    match r with
    | Ok sent =>
      if sent >? 0 then _ ← obs stream_flush Flush; mret close_msg else mret close_msg
    | Err e => mret (close_msg +:+ io_debug e)
    end
  else mret close_msg.

(** One iteration of the handler: what it leaves in the buffer and in the close
    message. *)
Definition fiber_round (p_peer_address : SocketAddr) (p_on_msg_callback : OnMessageCallback Env)
    (conn_live_time : Instant) (msg : Buffer) : IO (flow Buffer string) :=
  r ← obs (stream_read MAX_MSG_SIZE) Read;
  '(msg, close_msg) ←
    (match r with
     | Ok d =>
       let msg := set_size (Z.of_nat (length d)) (set_buf (overwrite d (buf msg)) msg) in
       t ← act now;
       let elapsed_secs := as_secs_f64 (instant_sub t conn_live_time) in
       '(msg, close_conn) ←
         call (on_message p_on_msg_callback elapsed_secs p_peer_address msg)
           (fun '(after, r) => OnMessage elapsed_secs p_peer_address msg after r);
       let close_msg := if is_err close_conn then debug_callback close_conn +:+ ". " else EmptyString in
       close_msg ← send_reply msg close_msg;
       mret (msg, close_msg)
     | Err e => mret (msg, REASON +:+ io_debug e)
     end);
  if bool_decide (close_msg = EmptyString) then mret (Continue msg)
  else mret (Break (REASON +:+ close_msg)).

Definition handle_tcp_connection (fuel : nat) (p_peer_address : SocketAddr)
    (p_on_msg_callback : OnMessageCallback Env) : IO string :=
  conn_live_time ← act now;
  loop fuel (fiber_round p_peer_address p_on_msg_callback conn_live_time) (Buffer_new BINARY).

Definition handle_ws_connection (_p_peer_address : SocketAddr)
    (_p_on_msg_callback : OnMessageCallback Env) : IO string :=
  mret "close_msg_from_ws"%string.

Definition accept_connection (fuel : nat) (p_protocol : TcpProtocol) (p_peer_address : SocketAddr)
    (p_io_timeout_in_secs : f64) (p_on_accept_connection : OnSocketCallback Env)
    (p_on_msg : OnMessageCallback Env) (p_on_close_connection : OnCloseSocketCallback Env)
    : IO (result unit anyhow) :=
  _ ←? call (on_socket p_on_accept_connection p_peer_address) (OnAccept p_peer_address);
  d ← lift (from_secs_f64 p_io_timeout_in_secs);
  _ ←?[anyhow_of_io] obs (set_read_timeout d) SetTimeout;
  d ← lift (from_secs_f64 p_io_timeout_in_secs);
  _ ←?[anyhow_of_io] obs (set_write_timeout d) SetTimeout;
  close_msg ← (match p_protocol with
               | Native => handle_tcp_connection fuel p_peer_address p_on_msg
               | Websocket => handle_ws_connection p_peer_address p_on_msg
               end);
  call (on_close_socket p_on_close_connection p_peer_address close_msg) (OnClose p_peer_address close_msg).
End connection.

(** The observations of an accept loop and of the server. *)
Inductive server_event `{!Errors} `{!Net} `{!FiberNet Env} : Type :=
| OnBind (a : SocketAddr) (r : result unit anyhow)
| SpawnWorker (id : Z)
| Listen (a : SocketAddr) (r : result unit io_error)
| TryLock (locked : bool)
| TryRecv (signal : option bool)
| Accept (r : result (Conn * SocketAddr) io_error)
| Spawn (worker : Z) (conn : Conn) (peer : SocketAddr)
| LogError (msg : string).
Arguments server_event {_ _} Env {_}.

Section server.
Context `{!Errors} `{!Net} {Env : Type} `{!Race Env} `{!FiberNet Env}.
Abbreviation SIO := (M Env (server_event Env)).

Definition shutdown_requested : SIO bool :=
  locked ← obs try_lock TryLock;
  if locked : bool then
    r ← obs try_recv TryRecv;
    mret (match r with Some b => b | None => false end)
  else mret false.

Definition timeout_for_accept (secs : f64) : SIO (result (Conn * SocketAddr) io_error) :=
  _ ← lift (from_secs_f64 secs);
  mret (Err (io_error_new TimedOut
    ("timeout " +:+ f64_display secs +:+ " seconds reached for accepting fiber based tcp listener"))).

Definition main_round (p_worker_id : Z) (p_config : TcpFiberServerConfig) (_ : unit)
    : SIO (flow unit unit) :=
  close ← shutdown_requested;
  if close : bool then mret (Break tt)
  else
    r ← with_timeout (accept_timeout_in_secs p_config)
          (timeout_for_accept (accept_timeout_in_secs p_config)) (obs accept Accept);
    match r with
    | Ok (stream, peer_addr) => _ ← emit (Spawn p_worker_id stream peer_addr); mret (Continue tt)
    | Err e =>
      _ ← emit (LogError ("could not accept tcp fiber connection on worker #" +:+ pretty p_worker_id
                          +:+ ". because Err(" +:+ io_debug e +:+ ")"));
      mret (Continue tt)
    end.

Definition server_main_loop (fuel : nat) (p_worker_id : Z) (p_config : TcpFiberServerConfig) : SIO unit :=
  loop fuel (main_round p_worker_id p_config) tt.

(** The coroutine of a worker: its own listener on the shared address. *)
Definition worker (fuel : nat) (socket_addr : SocketAddr) (p_config : TcpFiberServerConfig) (i : Z)
    : SIO unit :=
  tcp_listener_res ← obs (listen socket_addr) (Listen socket_addr);
  match tcp_listener_res with
  | Ok _ => server_main_loop fuel i p_config
  | Err e => emit (LogError ("could not bind to tcp fiber socket. because " +:+ io_debug e))
  end.

(** [for i in 0..workers]: the coroutines are started, not waited for. *)
Fixpoint spawn_workers (n : nat) (i : Z) : SIO unit :=
  match n with
  | O => mret tt
  | S n => _ ← emit (SpawnWorker i); spawn_workers n (i + 1)
  end.

Definition server (p_config : TcpFiberServerConfig) (p_on_bind_socket : OnSocketCallback Env) : SIO unit :=
  let addr := address p_config +:+ ":" +:+ pretty (port p_config) in
  match addr_from_str addr with
  | Err _ => panic "called `Result::unwrap()` on an `Err` value"
  | Ok socket_addr =>
    r ← call (on_socket p_on_bind_socket socket_addr) (OnBind socket_addr);
    if is_err r then panic "called `Result::unwrap()` on an `Err` value"
    else spawn_workers (Z.to_nat (fiber_num_of_workers p_config)) 0
  end.
End server.

(** ** What a fiber session is *)

Section session.
Context `{!Errors} `{!Net} {Env : Type} `{!Clock Env} `{!Stream Env} `{!StreamLaws Env} `{!FiberNet Env}.

(** The reply to a message, and what a failed write adds to the close message. *)
Inductive reply : Buffer -> list event -> string -> Prop :=
| reply_none b : size b = 0 -> reply b [] EmptyString
| reply_failed b e : 0 < size b -> reply b [Write (buf b) (Err e)] (io_debug e)
| reply_empty b n : 0 < size b -> n <= 0 -> reply b [Write (buf b) (Ok n)] EmptyString
| reply_sent b n r : 0 < size b -> 0 < n -> reply b [Write (buf b) (Ok n); Flush r] EmptyString.

(** The complaint of the callback. *)
Definition complaint (r : result unit anyhow) : string :=
  if is_err r then debug_callback r +:+ ". " else EmptyString.

Inductive fiber_session (peer : SocketAddr) : Buffer -> list event -> res string -> Prop :=
| fiber_open b : fiber_session peer b [] NoFuel
| fiber_calling b d o : is_Ret o = false -> fiber_session peer b [Read (Ok d)] o
| fiber_read_error b e :
    fiber_session peer b [Read (Err e)] (Ret (REASON +:+ (REASON +:+ io_debug e)))
| fiber_stop b d secs after r t x :
    buffer_wf after -> reply after t x -> complaint r +:+ x <> EmptyString ->
    fiber_session peer b
      (Read (Ok d) ::
       OnMessage secs peer (mkBuffer (type_ b) (Z.of_nat (length d)) (overwrite d (buf b))) after r :: t)
      (Ret (REASON +:+ (complaint r +:+ x)))
| fiber_go_on b d secs after r t x t' o :
    buffer_wf after -> reply after t x -> complaint r +:+ x = EmptyString ->
    fiber_session peer after t' o ->
    fiber_session peer b
      (Read (Ok d) ::
       OnMessage secs peer (mkBuffer (type_ b) (Z.of_nat (length d)) (overwrite d (buf b))) after r ::
       t ++ t') o.

Lemma string_app_nil_r (s : string) : s +:+ EmptyString = s.
Proof. induction s as [|c s IH]; [done|]. change (String c (s +:+ EmptyString) = String c s). by rewrite IH. Qed.

Lemma send_reply_wp after (s : string) (e : Env) :
  buffer_wf after ->
  wp (send_reply after s) (fun r _ t => exists x, r = Ret (s +:+ x) /\ reply after t x) e.
Proof.
  intros [_ Hs]. unfold send_reply. destruct (Z.gtb_spec (size after) 0).
  2:{ apply wp_ret. exists EmptyString. rewrite string_app_nil_r. split; [done|]. apply reply_none. lia. }
  apply wp_bind, wp_obs. intros [n|x] e1 _.
  2:{ apply wp_ret. exists (io_debug x). split; [done|]. by apply reply_failed. }
  destruct (Z.gtb_spec n 0).
  - apply wp_bind, wp_obs. intros r e2 _. apply wp_ret. exists EmptyString.
    rewrite string_app_nil_r. split; [done|]. by apply reply_sent.
  - apply wp_ret. exists EmptyString. rewrite string_app_nil_r. split; [done|]. by apply reply_empty.
Qed.

Lemma REASON_app s : REASON +:+ s <> EmptyString.
Proof. done. Qed.

Lemma fiber_loop_session peer (cb : OnMessageCallback Env) start fuel b e :
  buffer_wf b ->
  wp (loop fuel (fiber_round peer cb start) b) (fun r _ t => fiber_session peer b t r) e.
Proof.
  revert b e. induction fuel as [|fuel IH]; intros b e Hb; [by constructor|].
  rewrite loop_S. apply wp_bind. unfold fiber_round at 1.
  apply wp_bind, wp_obs. intros [d|x] e1 Hread.
  2:{ apply wp_bind, wp_ret. rewrite bool_decide_false by apply REASON_app.
      do 2 apply wp_ret. apply fiber_read_error. }
  apply stream_read_cap in Hread; [|done]. pose proof (received_wf b d Hb Hread) as Hb1.
  unfold set_size, set_buf. cbn [type_ size buf].
  apply wp_bind, wp_bind, wp_act. intros t e2 _. cbn zeta. apply wp_bind, wp_call.
  intros [[after r]|why|] e3 Hcb; [|by apply fiber_calling..].
  apply (on_message_wf cb Hb1) in Hcb. apply wp_bind. fold (complaint r).
  eapply wp_mono; [|by apply send_reply_wp]. intros o e4 t' (x & -> & Hreply). apply wp_ret.
  destruct (bool_decide_reflect (complaint r +:+ x = EmptyString)) as [Hempty|Hne].
  - apply wp_ret. eapply wp_mono; [|by apply IH]. intros o e5 t2 Hs.
    cbn [app]. rewrite !app_nil_r. by eapply fiber_go_on.
  - do 2 apply wp_ret. cbn [app]. rewrite !app_nil_r. by apply fiber_stop.
Qed.

Lemma fiber_connection_session fuel peer (cb : OnMessageCallback Env) e :
  wp (handle_tcp_connection fuel peer cb) (fun r _ t => fiber_session peer (Buffer_new BINARY) t r) e.
Proof.
  unfold handle_tcp_connection. apply wp_bind, wp_act. intros t e1 _.
  eapply wp_mono; [|by apply fiber_loop_session, Buffer_new_wf]. done.
Qed.

(** What a session writes. *)
Definition writes (t : list event) : list (list u8) :=
  omap (fun ev => match ev with Write d _ => Some d | _ => None end) t.
Definition asked (t : list event) : list (list u8) :=
  omap (fun ev => match ev with
                  | OnMessage _ _ _ after _ => if 0 <? size after then Some (buf after) else None
                  | _ => None
                  end) t.

Lemma reply_writes b t x :
  reply b t x -> writes t = (if 0 <? size b then [buf b] else []) /\ asked t = [].
Proof. destruct 1; (rewrite (proj2 (Z.ltb_lt _ _)) by lia) || replace (size b) with 0; done. Qed.

Lemma fiber_session_writes peer b t o :
  fiber_session peer b t o ->
  writes t = asked t /\ Forall (fun d => Z.of_nat (length d) = MAX_MSG_SIZE) (writes t).
Proof.
  induction 1 as [|b d o Ho|b e|b d secs after r t x [Hl _] Hr _|b d secs after r t x t' o [Hl _] Hr _ _ [IH1 IH2]];
    try (split; [done|constructor]).
  all: unfold writes, asked in *; cbn [omap list_omap]; rewrite ?omap_app;
    destruct (reply_writes _ _ _ Hr) as [Hw Ha]; unfold writes, asked in Hw, Ha; rewrite Hw, Ha;
    destruct (0 <? size after); cbn [app]; split; try congruence; by repeat constructor.
Qed.

(** C23: a fiber session refines its specification [fiber_session]: each round
    reads, calls back and, when a size was left, writes the whole array once
    (the refusal of the callback does not stop this last reply); the session
    ends when the callback refused or a read or write failed, and the prefix of
    the close message is doubled for a failed read. Every write is the array a
    callback left, all [MAX_MSG_SIZE] bytes of it. *)
Theorem fiber_session_refines fuel peer (cb : OnMessageCallback Env) e :
  wp (handle_tcp_connection fuel peer cb)
     (fun r _ t => fiber_session peer (Buffer_new BINARY) t r /\
        writes t = asked t /\ Forall (fun d => Z.of_nat (length d) = MAX_MSG_SIZE) (writes t)) e.
Proof.
  eapply wp_mono; [|by apply fiber_connection_session].
  intros r e' t Hs. split; [done|]. exact (fiber_session_writes _ _ _ _ Hs).
Qed.

(** The life of a fiber connection. *)
Inductive fiber_life (proto : TcpProtocol) (peer : SocketAddr) :
    list event -> result unit anyhow -> Prop :=
| fiber_refused x : fiber_life proto peer [OnAccept peer (Err x)] (Err x)
| fiber_no_read_timeout x :
    fiber_life proto peer [OnAccept peer (Ok tt); SetTimeout (Err x)] (Err (anyhow_of_io x))
| fiber_no_write_timeout x :
    fiber_life proto peer [OnAccept peer (Ok tt); SetTimeout (Ok tt); SetTimeout (Err x)]
      (Err (anyhow_of_io x))
| fiber_closed t msg r :
    match proto with
    | Native => fiber_session peer (Buffer_new BINARY) t (Ret msg)
    | Websocket => t = [] /\ msg = "close_msg_from_ws"%string
    end ->
    fiber_life proto peer
      (OnAccept peer (Ok tt) :: SetTimeout (Ok tt) :: SetTimeout (Ok tt) :: t ++ [OnClose peer msg r]) r.

(** The life of a fiber connection: accept callback, read and write timeouts,
    session, close callback, the first failure being the result; a websocket
    connection is closed at once without a byte read; and a timeout that is
    negative, infinite or not a number panics before the session, whoever
    connects. *)
Theorem fiber_life_cycle fuel proto peer secs on_accept (on_msg : OnMessageCallback Env) on_close e :
  wp (accept_connection fuel proto peer secs on_accept on_msg on_close)
     (fun r _ t =>
        (forall x, r = Ret x -> fiber_life proto peer t x) /\
        (forall why, from_secs_f64 secs = Panic why ->
           OnAccept peer (Ok tt) ∈ t -> r = Panic why /\ t = [OnAccept peer (Ok tt)])) e.
Proof.
  unfold accept_connection. apply wp_try, wp_call.
  intros [[[]|x]|why|] e1 _.
  2:{ split; [intros y [= <-]; constructor|]. intros why _ Hin%list_elem_of_singleton. done. }
  2,3: split; [done|]; by intros ?? ?%elem_of_nil.
  apply wp_bind, wp_lift. destruct (from_secs_f64 secs) as [d|why|]; [|split; [done|by intros ? [= ->]]|by split].
  apply wp_try, wp_obs. intros [[]|x] e2 _; [|split; [intros y [= <-]; constructor|done]].
  apply wp_bind, wp_lift, wp_try, wp_obs.
  intros [[]|x] e3 _; [|split; [intros y [= <-]; constructor|done]].
  apply wp_bind.
  eapply (wp_mono _ (fun r _ t => forall msg, r = Ret msg ->
            match proto with
            | Native => fiber_session peer (Buffer_new BINARY) t (Ret msg)
            | Websocket => t = [] /\ msg = "close_msg_from_ws"%string
            end)).
  { intros [msg|why|] e4 t Ht; [|by split..]. apply wp_call. intros r e5 _. split; [|done].
    intros x ->. cbn [app]. by apply fiber_closed, Ht. }
  destruct proto.
  - eapply wp_mono; [|by apply fiber_connection_session]. by intros r e4 t Hs msg ->.
  - apply wp_ret. by intros msg [= <-].
Qed.
End session.

(** ** Workers and their accept loops *)

Section workers.
Context `{!Errors} `{!Net} {Env : Type} `{!Race Env} `{!FiberNet Env}.

Lemma spawn_workers_wp n i (e : Env) :
  wp (spawn_workers n i)
     (fun r _ t => r = Ret tt /\ t = map (fun k => SpawnWorker (i + Z.of_nat k)) (seq 0 n)) e.
Proof.
  revert i e. induction n as [|n IH]; intros i e; [by apply wp_ret|].
  apply wp_bind, wp_emit. eapply wp_mono; [|apply IH]. intros r e1 t [-> ->]. split; [done|].
  cbn [app seq map]. rewrite Z.add_0_r. f_equal. rewrite <-seq_shift, map_map.
  apply map_ext. intros k. f_equal. lia.
Qed.

(** The workers of a fiber server: a bad address or a refusing bind callback is
    a panic; otherwise exactly the workers [0 .. n-1] of the configuration are
    started, so with zero workers the server returns without ever listening. *)
Theorem fiber_workers config on_bind (e : Env) :
  wp (server config on_bind)
     (fun r _ t =>
        match r with
        | Ret _ => exists a, addr_from_str (address config +:+ ":" +:+ pretty (port config)) = Ok a /\
            t = OnBind a (Ok tt) ::
                map (fun k => SpawnWorker (Z.of_nat k)) (seq 0 (Z.to_nat (fiber_num_of_workers config))) /\
            (fiber_num_of_workers config = 0 -> t = [OnBind a (Ok tt)])
        | _ => Forall (fun ev => match ev with SpawnWorker _ => False | _ => True end) t
        end) e.
Proof.
  unfold server. destruct (addr_from_str _) as [a|x]; [|by apply wp_panic].
  apply wp_bind, wp_call. intros [[[]|x]|why|] e1 _; [|by repeat constructor..].
  cbn [is_err is_ok negb]. eapply wp_mono; [|apply spawn_workers_wp].
  intros r e2 t [-> ->]. exists a. split; [done|]. split; [done|].
  by intros ->.
Qed.

Definition accepted (t : list (server_event Env)) : list (Conn * SocketAddr) :=
  omap (fun ev => match ev with Accept (Ok p) => Some p | _ => None end) t.
Definition spawned (i : Z) (t : list (server_event Env)) : list (Conn * SocketAddr) :=
  omap (fun ev => match ev with
                  | Spawn w c a => if w =? i then Some (c, a) else None
                  | _ => None
                  end) t.
Definition quiet (ev : server_event Env) : Prop :=
  match ev with TryRecv (Some true) => False | _ => True end.

Definition fiber_served (i : Z) (r : res unit) (t : list (server_event Env)) : Prop :=
  spawned i t = accepted t /\
  match r with
  | Ret _ => exists t', t = t' ++ [TryRecv (Some true)] /\ Forall quiet t'
  | Panic _ => False
  | NoFuel => Forall quiet t
  end.

Lemma fiber_accept_wp i config (t0 : list (server_event Env)) (e : Env) :
  timeout_ok (accept_timeout_in_secs config) ->
  spawned i t0 = accepted t0 -> Forall quiet t0 ->
  wp (r ← with_timeout (accept_timeout_in_secs config)
            (timeout_for_accept (accept_timeout_in_secs config)) (obs accept Accept);
      match r with
      | Ok (stream, peer_addr) => _ ← emit (Spawn i stream peer_addr); mret (@Continue unit unit tt)
      | Err e =>
        _ ← emit (LogError ("could not accept tcp fiber connection on worker #" +:+ pretty i
                            +:+ ". because Err(" +:+ io_debug e +:+ ")"));
        mret (Continue tt)
      end)
     (fun r _ t => match r with
        | Ret (Continue _) => spawned i (t0 ++ t) = accepted (t0 ++ t) /\ Forall quiet (t0 ++ t)
        | _ => False
        end) e.
Proof.
  intros Hok Ht0 Hq.
  assert (forall t, spawned i t = accepted t -> Forall quiet t ->
            spawned i (t0 ++ t) = accepted (t0 ++ t) /\ Forall quiet (t0 ++ t)) as Hext.
  { intros t Ht Hqt. unfold spawned, accepted in *. rewrite !omap_app, Ht0, Ht.
    split; [done|]. by apply Forall_app. }
  apply wp_bind, wp_with_timeout; [done| |].
  - intros d e1 Hd. apply wp_bind, wp_lift. rewrite Hd. apply wp_ret, wp_bind, wp_emit, wp_ret.
    apply Hext; by repeat constructor.
  - intros e1. apply wp_obs. intros [[c a]|x] e2 _; apply wp_bind, wp_emit, wp_ret;
      apply Hext; try by repeat constructor.
    unfold spawned, accepted. cbn [omap list_omap app]. by rewrite Z.eqb_refl.
Qed.

(** The accept loop of a worker: every connection it accepts gets a coroutine,
    once and in order; timeouts and failed accepts are logged and skipped; it
    never panics and is left only by a [true] from the shutdown channel, so one
    [true] stops one worker. *)
Theorem fiber_worker_serves fuel i config (e : Env) :
  timeout_ok (accept_timeout_in_secs config) ->
  wp (server_main_loop fuel i config) (fun r _ t => fiber_served i r t) e.
Proof.
  intros Hok. unfold server_main_loop.
  refine (wp_loop (fun _ _ t => spawned i t = accepted t /\ Forall quiet t)
            (fun r _ t => fiber_served i r t) _ _ _ fuel tt e [] _).
  { intros _ e0 t [Hs Hq]. by split. }
  2:{ by split; [|constructor]. }
  intros [] e0 t [Hs Hq]. unfold main_round, shutdown_requested.
  assert (forall l, spawned i l = accepted l -> Forall quiet l ->
            spawned i (t ++ l) = accepted (t ++ l) /\ Forall quiet (t ++ l)) as Hext.
  { intros l Hl Hql. unfold spawned, accepted in *. rewrite !omap_app, Hs, Hl.
    split; [done|]. by apply Forall_app. }
  assert (forall l e1, spawned i l = accepted l -> Forall quiet l ->
    wp (r ← with_timeout (accept_timeout_in_secs config)
              (timeout_for_accept (accept_timeout_in_secs config)) (obs accept Accept);
        match r with
        | Ok (stream, peer_addr) => _ ← emit (Spawn i stream peer_addr); mret (@Continue unit unit tt)
        | Err e =>
          _ ← emit (LogError ("could not accept tcp fiber connection on worker #" +:+ pretty i
                              +:+ ". because Err(" +:+ io_debug e +:+ ")"));
          mret (Continue tt)
        end)
       (fun r _ t' => match r with
          | Ret (Continue _) => spawned i (t ++ l ++ t') = accepted (t ++ l ++ t') /\
                                Forall quiet (t ++ l ++ t')
          | _ => False
          end) e1) as Hacc.
  { intros l e1 Hl Hql. destruct (Hext l Hl Hql). eapply wp_mono; [|by apply (fiber_accept_wp i config (t ++ l))].
    intros [[]|why|] e2 t'; by rewrite <-?(assoc_L app). }
  apply wp_bind, wp_bind, wp_obs. intros locked e1 _. destruct locked.
  2:{ apply wp_ret. eapply wp_mono; [|by apply (Hacc [TryLock false]); [|repeat constructor]].
      by intros [[]|why|] e2 t'. }
  apply wp_bind, wp_obs. intros [[]|] e2 _; apply wp_ret.
  - apply wp_ret. split.
    + unfold spawned, accepted in *. by rewrite !omap_app, Hs.
    + exists (t ++ [TryLock true]). split; [cbn [app]; by rewrite <-(assoc_L app)|].
      apply Forall_app. split; [done|]. by repeat constructor.
  - eapply wp_mono; [|by apply (Hacc [TryLock true; TryRecv (Some false)]); [|repeat constructor]].
    by intros [[]|why|] e3 t'.
  - eapply wp_mono; [|by apply (Hacc [TryLock true; TryRecv None]); [|repeat constructor]].
    by intros [[]|why|] e3 t'.
Qed.
End workers.

(** ** Concrete runs *)
Module Runs.
Import Concrete.

Definition two_seconds : f64 := f64_of_Z 2.
Lemma two_seconds_ok : timeout_ok two_seconds.
Proof. intros _. by vm_compute. Qed.

(** A listener: the connections to come and the values of the shutdown channel. *)
Record door := mkDoor { queue : list (Z * string); signals : list bool }.
#[export] Instance door_race : Race door := {| race := fun p => (ReadyFirst, p) |}.
#[export] Instance door_net : FiberNet door := {|
  Conn := Z;
  set_read_timeout := fun _ p => (Ok tt, p); set_write_timeout := fun _ p => (Ok tt, p);
  listen := fun _ p => (Ok tt, p);
  accept := fun p => match queue p with
                     | [] => (Err "nobody"%string, p)
                     | c :: cs => (Ok c, mkDoor cs (signals p))
                     end;
  try_lock := fun p => (true, p);
  try_recv := fun p => match signals p with
                       | [] => (None, p)
                       | b :: bs => (Some b, mkDoor (queue p) bs)
                       end;
  f64_display := fun _ => "2"%string;
|}.

Definition idle_config : TcpFiberServerConfig := {|
  protocol := Native; address := "127.0.0.1"; port := 8000; fiber_num_of_workers := 0;
  accept_timeout_in_secs := two_seconds; io_timeout_in_secs := two_seconds |}.

(** Zero workers: nothing is started. *)
Example no_workers_run :
  server (Env := door) idle_config welcome (mkDoor [(1, "peer"%string)] []) =
    (Ret tt, mkDoor [(1, "peer"%string)] [], [OnBind "127.0.0.1:8000"%string (Ok tt)]).
Proof. by vm_compute. Qed.

Lemma fiber_worker_serves_witness :
  timeout_ok two_seconds /\
  let s := server_main_loop (Env := door) 4 0 idle_config (mkDoor [(1, "peer"%string)] [false; false; true]) in
  fiber_served 0 (fst (fst s)) (snd s).
Proof.
  split; [exact two_seconds_ok|]. intros s.
  exact (wp_outcome _ (fun r t => fiber_served 0 r t) _
    (fiber_worker_serves (Env := door) 4 0 idle_config
      (mkDoor [(1, "peer"%string)] [false; false; true]) two_seconds_ok)).
Defined.

#[export] Instance peer_net : FiberNet peer := {|
  Conn := Z;
  set_read_timeout := fun _ p => (Ok tt, p); set_write_timeout := fun _ p => (Ok tt, p);
  listen := fun _ p => (Ok tt, p); accept := fun p => (Err "nobody"%string, p);
  try_lock := fun p => (true, p); try_recv := fun p => (None, p);
  f64_display := fun _ => "2"%string;
|}.

(** A refusing callback still gets its reply sent. *)
Definition refused_session := handle_tcp_connection (Env := peer) 2 "peer" refuse (mkPeer [[Byte.x41]] [] 0).
Example refused_run :
  fst (fst refused_session) = Ret (REASON +:+ "Err(refused). "%string) /\
  length (outbox (snd (fst refused_session))) = 1024%nat.
Proof. by vm_compute. Qed.

Lemma fiber_session_refines_witness :
  fiber_session "peer"%string (Buffer_new BINARY) (snd refused_session) (fst (fst refused_session)).
Proof.
  exact (proj1 (wp_outcome _ (fun r t => fiber_session _ _ t r /\ _) _
    (fiber_session_refines (Env := peer) 2 "peer"%string refuse (mkPeer [[Byte.x41]] [] 0)))).
Defined.

(** A negative timeout panics once the connection is accepted. *)
Definition hopeless := accept_connection (Env := peer) 2 Native "peer" (f64_of_Z (-1))
                         welcome refuse bye (mkPeer [[Byte.x41]] [] 0).
Lemma fiber_life_cycle_witness :
  snd hopeless = [OnAccept "peer"%string (Ok tt)] /\
  fst (fst hopeless) =
    Panic "can not convert float seconds to Duration: value is negative".
Proof.
  pose proof (fiber_life_cycle (Env := peer) 2 Native "peer"%string (f64_of_Z (-1)) welcome refuse bye
                (mkPeer [[Byte.x41]] [] 0)) as Hlife.
  apply (wp_outcome _ (fun r t => _ /\ forall why, _ -> OnAccept _ _ ∈ t -> r = Panic why /\ t = _)) in Hlife.
  destruct Hlife as [_ Hpanic].
  destruct (Hpanic "can not convert float seconds to Duration: value is negative"%string) as [Hr Ht].
  - by vm_compute.
  - left.
  - split; [exact Ht|exact Hr].
Defined.
End Runs.
