(* ===== verification/Workers.v ===== *)
(** The workers of the fiber server together
    ([wolf/src/stream/tcp/tcp_server_fiber.rs]): the accept loops of
    [FiberServer] interleaved in any order, sharing the one shutdown channel
    and the lock around it.

    [phase] and [phase_step] say what one worker does, as an automaton over the
    events of its loop; the code is shown to be that automaton. [net_step] is
    their product: every interleaving of the workers and of whoever asks for
    the shutdown, on the shared channel. *)
From stdpp Require Import pretty.
From S2P Require Import Prelude F64 Common FiberServer.
Local Open Scope Z_scope.
#[local] Set Default Goal Selector "!".

(** ** One worker as an automaton *)

(** Where a coroutine is: before binding its listener, at the head of the loop,
    inside the lock, at the accept, with a connection or a failure in hand, out
    of the loop. *)
Inductive phase `{!Errors} `{!Net} `{!FiberNet Env} : Type :=
| Starting
| Unbound (why : io_error)
| Gone
| Checking
| Holding
| Accepting
| Serving (c : Conn) (peer : SocketAddr)
| Failing (why : io_error)
| Stopped.
Arguments phase {_ _} Env {_}.

Section automaton.
Context `{!Errors} `{!Net} {Env : Type} `{!Race Env} `{!FiberNet Env}.
Implicit Types (p : phase Env) (ev : server_event Env) (t : list (server_event Env)).

(** What the loop logs when it could not accept. *)
Definition not_accepted (i : Z) (e : io_error) : string :=
  "could not accept tcp fiber connection on worker #" +:+ pretty i
    +:+ ". because Err(" +:+ io_debug e +:+ ")".
Definition accept_timed_out (secs : f64) : io_error :=
  io_error_new TimedOut
    ("timeout " +:+ f64_display secs +:+ " seconds reached for accepting fiber based tcp listener").
Definition not_bound (e : io_error) : string :=
  "could not bind to tcp fiber socket. because " +:+ io_debug e.

Inductive phase_step (addr : SocketAddr) (i : Z) (config : TcpFiberServerConfig) :
    phase Env -> server_event Env -> phase Env -> Prop :=
| step_listen : phase_step addr i config Starting (Listen addr (Ok tt)) Checking
| step_no_listen e : phase_step addr i config Starting (Listen addr (Err e)) (Unbound e)
| step_unbound e : phase_step addr i config (Unbound e) (LogError (not_bound e)) Gone
| step_locked : phase_step addr i config Checking (TryLock true) Holding
| step_not_locked : phase_step addr i config Checking (TryLock false) Accepting
| step_shutdown : phase_step addr i config Holding (TryRecv (Some true)) Stopped
| step_go_on s : s <> Some true -> phase_step addr i config Holding (TryRecv s) Accepting
| step_timed_out :
    f64_gt (accept_timeout_in_secs config) (f64_of_Z 0) = true ->
    phase_step addr i config Accepting
      (LogError (not_accepted i (accept_timed_out (accept_timeout_in_secs config)))) Checking
| step_accepted c a : phase_step addr i config Accepting (Accept (Ok (c, a))) (Serving c a)
| step_not_accepted e : phase_step addr i config Accepting (Accept (Err e)) (Failing e)
| step_spawned c a : phase_step addr i config (Serving c a) (Spawn i c a) Checking
| step_logged e : phase_step addr i config (Failing e) (LogError (not_accepted i e)) Checking.

Inductive path (addr : SocketAddr) (i : Z) (config : TcpFiberServerConfig) :
    phase Env -> list (server_event Env) -> phase Env -> Prop :=
| path_nil p : path addr i config p [] p
| path_cons p ev q t r :
    phase_step addr i config p ev q -> path addr i config q t r ->
    path addr i config p (ev :: t) r.

Lemma path_app addr i config p t q u r :
  path addr i config p t q -> path addr i config q u r -> path addr i config p (t ++ u) r.
Proof. induction 1; [done|]. intros ?. econstructor; eauto. Qed.

Lemma path_snoc addr i config p t q ev r :
  path addr i config p t q -> phase_step addr i config q ev r ->
  path addr i config p (t ++ [ev]) r.
Proof. intros Hp Hs. eapply path_app; [done|]. econstructor; [done|constructor]. Qed.

(** A worker that has a listener stays in the loop, or leaves it stopped. *)
Definition in_loop p : Prop :=
  match p with Starting | Unbound _ | Gone => False | _ => True end.

Lemma in_loop_path addr i config p t q : path addr i config p t q -> in_loop p -> in_loop q.
Proof. induction 1 as [|p ev q t r Hs _ IH]; [done|]. intros Hp. apply IH. by destruct Hs. Qed.

(** ** The code is the automaton *)

Section code.
Context (addr : SocketAddr) (i : Z) (config : TcpFiberServerConfig).
Context (Hok : timeout_ok (accept_timeout_in_secs config)).

(** The accept at the end of a round, and what follows it. *)
Lemma accept_path t0 (e : Env) :
  path addr i config Checking t0 Accepting ->
  wp (r ← with_timeout (accept_timeout_in_secs config)
            (timeout_for_accept (accept_timeout_in_secs config)) (obs accept Accept);
      match r with
      | Ok (stream, peer_addr) => _ ← emit (Spawn i stream peer_addr); mret (@Continue unit unit tt)
      | Err e => _ ← emit (LogError (not_accepted i e)); mret (Continue tt)
      end)
     (fun r _ t => r = Ret (Continue tt) /\ path addr i config Checking (t0 ++ t) Checking) e.
Proof.
  intros Ht0. unfold with_timeout. destruct (f64_gt _ _) eqn:Hgt.
  2:{ apply wp_bind, wp_obs. intros [[c a]|x] e1 _; apply wp_bind, wp_emit, wp_ret; (split; [done|]).
      - eapply path_app; [done|]. do 2 (econstructor; [constructor|]). constructor.
      - eapply path_app; [done|]. do 2 (econstructor; [constructor|]). constructor. }
  destruct (from_secs_f64_ok _ Hgt Hok) as [d Hd]. unfold select, timeout_for_accept.
  apply wp_bind, wp_bind, wp_act. intros [] e1 _.
  - apply wp_bind, wp_lift. rewrite Hd. apply wp_ret, wp_bind, wp_emit, wp_ret. split; [done|].
    eapply path_snoc; [done|]. by constructor.
  - apply wp_obs. intros [[c a]|x] e2 _; apply wp_bind, wp_emit, wp_ret; (split; [done|]);
      (eapply path_app; [done|]); do 2 (econstructor; [constructor|]); constructor.
  - apply wp_bind, wp_lift. rewrite Hd.
    apply wp_obs. intros [[c a]|x] e2 _; apply wp_bind, wp_emit, wp_ret; (split; [done|]);
      (eapply path_app; [done|]); do 2 (econstructor; [constructor|]); constructor.
Qed.

Lemma round_path (e : Env) :
  wp (main_round i config tt)
     (fun r _ t => r = Ret (Continue tt) /\ path addr i config Checking t Checking \/
                   r = Ret (Break tt) /\ path addr i config Checking t Stopped) e.
Proof.
  unfold main_round, shutdown_requested. apply wp_bind, wp_bind, wp_obs.
  intros locked e1 _. destruct locked.
  2:{ apply wp_ret. eapply wp_mono; [|by apply (accept_path [TryLock false]);
        econstructor; [constructor|constructor]].
      intros r e2 t [-> Ht]. left. by rewrite app_nil_r. }
  apply wp_bind, wp_obs. intros s e2 _. apply wp_ret. destruct (decide (s = Some true)) as [->|Hs].
  { apply wp_ret. right. split; [done|]. do 2 (econstructor; [constructor|]). constructor. }
  replace (match s with Some b => b | None => false end) with false by (by destruct s as [[]|]).
  eapply wp_mono; [|apply (accept_path [TryLock true; TryRecv s])].
  - intros r e3 t [-> Ht]. by left.
  - do 2 (econstructor; [by constructor|]). constructor.
Qed.

Lemma loop_path fuel (e : Env) :
  wp (server_main_loop fuel i config)
     (fun r _ t => path addr i config Checking t (match r with Ret _ => Stopped | _ => Checking end) /\
                   forall why, r <> Panic why) e.
Proof.
  unfold server_main_loop.
  refine (wp_loop (fun _ _ t => path addr i config Checking t Checking)
            (fun r _ t => path addr i config Checking t (match r with Ret _ => Stopped | _ => Checking end) /\
                          forall why, r <> Panic why) _ _ _ fuel tt e [] _).
  { by intros _ e0 t Ht. }
  2:{ constructor. }
  intros [] e0 t Ht. eapply wp_mono; [|apply round_path].
  intros r e1 u [[-> Hu]|[-> Hu]].
  - by eapply path_app.
  - split; [by eapply path_app|done].
Qed.

(** What a worker of the fiber server does, whatever its sockets, channel and
    clock answer, is the automaton [phase_step]: bind, then rounds of trying the
    lock, asking the channel only while holding it, and accepting; a run out of
    fuel stands at the head of the loop, and a worker that returned either
    failed to bind or received [true] inside the lock. It never panics. *)
Lemma worker_is_automaton fuel (e : Env) :
  wp (worker fuel addr config i)
     (fun r _ t =>
        match r with
        | Ret _ => exists p, (p = Stopped \/ p = Gone) /\ path addr i config Starting t p
        | NoFuel => path addr i config Starting t Checking
        | Panic _ => False
        end) e.
Proof.
  unfold worker. apply wp_bind, wp_obs. intros [[]|x] e1 _.
  - eapply wp_mono; [|apply loop_path]. intros [[]|why|] e2 t [Ht Hp].
    + exists Stopped. split; [by left|]. econstructor; [constructor|done].
    + by destruct (Hp why).
    + econstructor; [constructor|done].
  - apply wp_emit. exists Gone. split; [by right|].
    do 2 (econstructor; [constructor|]). constructor.
Qed.
End code.
End automaton.

(** ** The automaton is the code

    An environment that answers as told, so that every path of the automaton is
    a run of the worker. *)
Module Script.

Inductive answer `{!Errors} `{!Net} (C : Type) : Type :=
| Listens (r : result unit io_error)
| Locks (b : bool)
| Receives (s : option bool)
| Times_out
| Accepts (r : result (C * SocketAddr) io_error).
Arguments Listens {_ _ C} r.
Arguments Locks {_ _ C} b.
Arguments Receives {_ _ C} s.
Arguments Times_out {_ _ C}.
Arguments Accepts {_ _ C} r.

Section script.
Context `{!Errors} `{!Net} {C : Type} (float_text : f64 -> string).

Definition unscripted : io_error := io_error_new OtherKind "the script has ended".

#[local] Instance script_race : Race (list (answer C)) := {|
  race := fun l => match l with Times_out :: l' => (TimerFires, l') | _ => (ReadyFirst, l) end |}.
#[local] Instance script_net : FiberNet (list (answer C)) := {|
  Conn := C;
  set_read_timeout := fun _ l => (Ok tt, l); set_write_timeout := fun _ l => (Ok tt, l);
  listen := fun _ l => match l with Listens r :: l' => (r, l') | _ => (Err unscripted, l) end;
  accept := fun l => match l with Accepts r :: l' => (r, l') | _ => (Err unscripted, l) end;
  try_lock := fun l => match l with Locks b :: l' => (b, l') | _ => (false, l) end;
  try_recv := fun l => match l with Receives s :: l' => (s, l') | _ => (None, l) end;
  f64_display := float_text;
|}.

(** The answers that make the worker do the events of [t] from [p]. *)
Fixpoint script (accepting : bool) (t : list (server_event (list (answer C)))) : list (answer C) :=
  match t with
  | [] => []
  | Listen _ r :: t' => Listens r :: script false t'
  | TryLock b :: t' => Locks b :: script (negb b) t'
  | TryRecv s :: t' => Receives s :: script true t'
  | Accept r :: t' => Accepts r :: script false t'
  | LogError _ :: t' => if accepting then Times_out :: script false t' else script false t'
  | _ :: t' => script false t'
  end.

Context (addr : SocketAddr) (i : Z) (config : TcpFiberServerConfig).
Context (Hok : timeout_ok (accept_timeout_in_secs config)).
Abbreviation script_path := (path (Env := list (answer C)) addr i config).

Ltac run_ops :=
  unfold server_main_loop, main_round, shutdown_requested, with_timeout, select, timeout_for_accept,
    mbind, M_mbind, M_bind, obs, act, emit, lift, mret, M_mret, M_ret.

(** The accept that ends a round, played from its script. *)
Lemma accept_script t r :
  script_path Accepting t r -> (r = Checking \/ r = Stopped) ->
  exists u t', t = u ++ t' /\ u <> [] /\ script_path Checking t' r /\
    (r ← with_timeout (accept_timeout_in_secs config)
            (timeout_for_accept (accept_timeout_in_secs config)) (obs accept Accept);
      match r with
      | Ok (stream, peer_addr) => _ ← emit (Spawn i stream peer_addr); mret (@Continue unit unit tt)
      | Err e => _ ← emit (LogError (not_accepted i e)); mret (Continue tt)
      end) (script true t) = (Ret (Continue tt), script false t', u).
Proof.
  intros Ht Hr. inversion Ht as [|? ev q t1 ? Hs Hp]; subst; [by destruct Hr|].
  inversion Hs; subst.
  - eexists [_], t1. split; [done|]. split; [done|]. split; [done|].
    match goal with Hg : f64_gt _ _ = true |- _ =>
      destruct (from_secs_f64_ok _ Hg Hok) as [d Hd]; run_ops; rewrite Hg end.
    cbn. by rewrite Hd.
  - inversion Hp as [|? ev q t2 ? Hs2 Hp2]; subst; [by destruct Hr|]. inversion Hs2; subst.
    eexists [_; _], t2. split; [done|]. split; [done|]. split; [done|].
    run_ops. by destruct (f64_gt _ _).
  - inversion Hp as [|? ev q t2 ? Hs2 Hp2]; subst; [by destruct Hr|]. inversion Hs2; subst.
    eexists [_; _], t2. split; [done|]. split; [done|]. split; [done|].
    run_ops. by destruct (f64_gt _ _).
Qed.

Lemma bind_script {A B} (m : M (list (answer C)) (server_event (list (answer C))) A)
    (k : A -> M (list (answer C)) (server_event (list (answer C))) B) e a e1 t1 b e2 t2 :
  m e = (Ret a, e1, t1) -> k a e1 = (Ret b, e2, t2) -> (m ≫= k) e = (Ret b, e2, t1 ++ t2).
Proof. intros Hm Hk. by rewrite (bind_Ret _ _ _ _ _ _ Hm), Hk. Qed.

Lemma round_script t r :
  script_path Checking t r -> (r = Checking \/ r = Stopped) -> t <> [] ->
  (r = Stopped /\ main_round i config tt (script false t) = (Ret (Break tt), [], t)) \/
  exists u t', t = u ++ t' /\ u <> [] /\ script_path Checking t' r /\
    main_round i config tt (script false t) = (Ret (Continue tt), script false t', u).
Proof.
  intros Ht Hr Hne. inversion Ht as [|? ev q t1 ? Hs Hp]; subst; [done|].
  inversion Hs; subst.
  - inversion Hp as [|? ev q t2 ? Hs2 Hp2]; subst; [by destruct Hr|]. inversion Hs2; subst.
    + left. inversion Hp2 as [|? ev q t3 ? Hs3]; subst; [done|]. inversion Hs3.
    + right. destruct (accept_script t2 r Hp2 Hr) as (u & t' & -> & Hu & Hp' & Hrun).
      eexists (_ :: _ :: u), t'. split; [done|]. split; [done|]. split; [done|].
      unfold main_round. eapply (bind_script _ _ _ false _ [TryLock true; TryRecv _]); [|exact Hrun].
      cbn. by destruct s as [[]|].
  - right. destruct (accept_script t1 r Hp Hr) as (u & t' & -> & Hu & Hp' & Hrun).
    eexists (_ :: u), t'. split; [done|]. split; [done|]. split; [done|].
    unfold main_round. by eapply (bind_script _ _ _ false _ [TryLock false]); [|exact Hrun].
Qed.

Lemma loop_script t r :
  script_path Checking t r -> (r = Checking \/ r = Stopped) ->
  exists fuel, server_main_loop fuel i config (script false t) =
    (match r with Stopped => Ret tt | _ => NoFuel end, [], t).
Proof.
  remember (length t) as n eqn:Hn. revert t r Hn.
  induction (lt_wf n) as [n _ IH]. intros t r -> Ht Hr. destruct (decide (t = [])) as [->|Hne].
  { exists O. inversion Ht; subst. by destruct Hr. }
  destruct (round_script t r Ht Hr Hne) as [[-> Hrun]|(u & t' & -> & Hu & Ht' & Hrun)].
  { exists 1%nat. by apply loop_break. }
  destruct (IH (length t')) with (t := t') (r := r) as [fuel Hf]; [|done..|].
  { destruct u; [done|]. rewrite length_app. simpl. lia. }
  exists (S fuel). unfold server_main_loop in *. by rewrite (loop_continue _ _ _ _ _ _ _ Hrun), Hf.
Qed.

(** How a worker that stands at a phase has ended, if its code can be cut there. *)
Definition outcome (p : phase (list (answer C))) : option (res unit) :=
  match p with
  | Checking => Some NoFuel
  | Stopped | Gone => Some (Ret tt)
  | _ => None
  end.

(** A path that can be cut there is a run. *)
Lemma path_is_run t p o :
  script_path Starting t p -> outcome p = Some o ->
  exists fuel e e', worker fuel addr config i e = (o, e', t).
Proof.
  intros Ht Ho. inversion Ht as [|? ev q t1 ? Hs Hp]; subst; [done|].
  inversion Hs; subst.
  - assert (p = Checking \/ p = Stopped) as Hend.
    { apply in_loop_path in Hp; [|done]. destruct p; try done; [by left|by right]. }
    destruct (loop_script t1 p Hp Hend) as [fuel Hf].
    exists fuel, (script false (Listen addr (Ok tt) :: t1)), [].
    unfold worker. etrans; [by eapply (bind_Ret _ _ _ (Ok tt) (script false t1) [Listen addr (Ok tt)])|].
    rewrite Hf. destruct Hend as [-> | ->]; by simplify_eq/=.
  - inversion Hp as [|? ev q t2 ? Hs2 Hp2]; subst; [done|]. inversion Hs2; subst.
    inversion Hp2 as [|? ev q t3 ? Hs3]; subst; [|inversion Hs3].
    exists O, [Listens (Err e)], []. simplify_eq/=. done.
Qed.

(** C13: the automaton and the code of a worker have the same behaviours: a list of
    events is a path of [phase_step] that ends at the head of the loop, or out of
    it, exactly when some environment and fuel make [worker] produce it with that
    outcome. *)
Theorem worker_behaviours t o :
  (exists p, script_path Starting t p /\ outcome p = Some o) <->
  (exists fuel e e', worker fuel addr config i e = (o, e', t)).
Proof.
  split; [by intros (p & Ht & Ho); eapply path_is_run|].
  intros (fuel & e & e' & Hrun).
  pose proof (worker_is_automaton addr i config Hok fuel e) as Hw.
  unfold wp in Hw. rewrite Hrun in Hw. destruct o as [[]|why|]; [| done|].
  - destruct Hw as (p & [-> | ->] & Ht); by eexists.
  - by exists Checking.
Qed.
End script.
End Script.

(** ** The workers together *)

(** Who may hold the lock of the channel: a worker, or the code that asks for the
    shutdown. *)
Inductive owner := Asker | Worker (i : nat).
#[export] Instance owner_eq_dec : EqDecision owner.
Proof. solve_decision. Defined.

(** One step of the whole: an event of a worker, or of the code outside: a value
    sent on the channel, and its taking and leaving the lock. *)
Inductive label `{!Errors} `{!Net} `{!FiberNet Env} : Type :=
| Work (i : nat) (ev : server_event Env)
| Ask (b : bool)
| AskerLocks
| AskerUnlocks.
Arguments label {_ _} Env {_}.

Section network.
Context `{!Errors} `{!Net} {Env : Type} `{!Race Env} `{!FiberNet Env}.

(** The channel, the lock around it, and where each worker is. *)
Record net := mkNet { chan : list bool; holder : option owner; workers : list (phase Env) }.

(** What an event of worker [i] does to the channel and its lock; [None] when it
    cannot happen. The lock is tried without waiting, and the guard lives until
    the channel has been asked once. *)
Definition share (i : nat) (ev : server_event Env) (c : list bool) (h : option owner)
    : option (list bool * option owner) :=
  match ev with
  | TryLock true => if decide (h = None) then Some (c, Some (Worker i)) else None
  | TryLock false => if decide (h = None) then None else Some (c, h)
  | TryRecv s =>
    if decide (h = Some (Worker i)) then
      match s, c with
      | None, [] => Some ([], None)
      | Some b, b' :: c' => if Bool.eqb b b' then Some (c', None) else None
      | _, _ => None
      end
    else None
  | _ => Some (c, h)
  end.

Context (addr : SocketAddr) (config : TcpFiberServerConfig).

Inductive net_step : net -> label Env -> net -> Prop :=
| net_work i p ev q c h c' h' ps :
    ps !! i = Some p -> phase_step addr (Z.of_nat i) config p ev q ->
    share i ev c h = Some (c', h') ->
    net_step (mkNet c h ps) (Work i ev) (mkNet c' h' (<[i := q]> ps))
| net_ask b c h ps : net_step (mkNet c h ps) (Ask b) (mkNet (c ++ [b]) h ps)
| net_asker_locks c ps : net_step (mkNet c None ps) AskerLocks (mkNet c (Some Asker) ps)
| net_asker_unlocks c ps : net_step (mkNet c (Some Asker) ps) AskerUnlocks (mkNet c None ps).

Inductive net_run : net -> list (label Env) -> net -> Prop :=
| net_run_nil s : net_run s [] s
| net_run_snoc s tr s1 l s2 : net_run s tr s1 -> net_step s1 l s2 -> net_run s (tr ++ [l]) s2.

(** The workers of a configuration, before any has run. *)
Definition start (n : nat) : net := mkNet [] None (replicate n Starting).

(** The events of one worker, what was asked for, and what the workers received. *)
Definition events_of (i : nat) (tr : list (label Env)) : list (server_event Env) :=
  omap (fun l => match l with Work j ev => if decide (i = j) then Some ev else None | _ => None end) tr.
Definition asked_for (tr : list (label Env)) : list bool :=
  omap (fun l => match l with Ask b => Some b | _ => None end) tr.
Definition received (tr : list (label Env)) : list bool :=
  omap (fun l => match l with Work _ (TryRecv s) => s | _ => None end) tr.

Definition is_stopped (p : phase Env) : bool := match p with Stopped => true | _ => false end.
Definition trues (l : list bool) : nat := count id l.

(** *** Each worker runs its code *)

Lemma net_run_path n tr s i p :
  net_run (start n) tr s -> workers s !! i = Some p ->
  path addr (Z.of_nat i) config Starting (events_of i tr) p.
Proof.
  remember (start n) as s0 eqn:Hs0. intros Hrun. revert i p.
  induction Hrun as [s|s tr s1 l s2 Hrun IH Hstep]; intros i p Hp.
  { subst s. apply lookup_replicate in Hp as [-> _]. constructor. }
  specialize (IH Hs0). unfold events_of in *. rewrite omap_app.
  destruct Hstep as [j pj ev q c h c' h' ps Hj Hev Hsh| | |]; cbn [workers] in *;
    [|by rewrite app_nil_r; apply IH..].
  cbn [omap list_omap]. destruct (decide (i = j)) as [->|Hne].
  - rewrite list_lookup_insert_eq in Hp by (by eapply lookup_lt_Some). simplify_eq.
    eapply path_snoc; [by apply IH|done].
  - rewrite list_lookup_insert_ne in Hp by done. rewrite app_nil_r. by apply IH.
Qed.

(** *** The channel and its lock *)

Record net_inv (tr : list (label Env)) (s : net) : Prop := {
  inv_fifo : asked_for tr = received tr ++ chan s;
  inv_lock i : holder s = Some (Worker i) <-> workers s !! i = Some Holding;
  inv_stopped : count is_stopped (workers s) = trues (received tr);
}.

(** Only the lock and the channel change what the invariant speaks of. *)
Lemma share_local i p ev q c h c' h' :
  phase_step addr (Z.of_nat i) config p ev q -> share i ev c h = Some (c', h') ->
  (ev = TryLock true /\ p = Checking /\ q = Holding /\ h = None /\ h' = Some (Worker i) /\ c' = c) \/
  (exists s, ev = TryRecv s /\ p = Holding /\ q = (if decide (s = Some true) then Stopped else Accepting) /\
     h = Some (Worker i) /\ h' = None /\ c = option_list s ++ c') \/
  (c' = c /\ h' = h /\ p <> Holding /\ q <> Holding /\ p <> Stopped /\ q <> Stopped /\
   forall s, ev <> TryRecv s).
Proof.
  intros Hs Hsh.
  assert (forall s, share i (TryRecv s) c h = Some (c', h') ->
            h = Some (Worker i) /\ h' = None /\ c = option_list s ++ c') as Hrecv.
  { clear. intros s. cbn [share]. case_decide as Hh; [|done].
    destruct s as [b|], c as [|b' c]; try done.
    - destruct (Bool.eqb b b') eqn:Hb; [|done]. apply Bool.eqb_prop in Hb. by intros [= <- <-]; subst.
    - by intros [= <- <-]. }
  destruct Hs; try (by right; right; cbn [share] in Hsh; simplify_eq).
  - left. cbn [share] in Hsh. case_decide; by simplify_eq.
  - right; right. cbn [share] in Hsh. case_decide; by simplify_eq.
  - right; left. exists (Some true). destruct (Hrecv _ Hsh) as (-> & -> & ->). by rewrite decide_True.
  - right; left. exists s. destruct (Hrecv _ Hsh) as (-> & -> & ->). by rewrite decide_False.
Qed.

Lemma net_run_inv n tr s : net_run (start n) tr s -> net_inv tr s.
Proof.
  remember (start n) as s0 eqn:Hs0. induction 1 as [s|s tr s1 l s2 Hrun IH Hstep]; subst s.
  { split; [done| |].
    - intros i. split; [done|]. by intros [? _]%lookup_replicate.
    - cbn. clear. unfold count. induction n as [|n IH]; [done|exact IH]. }
  specialize (IH eq_refl). destruct IH as [Hf Hl Hc].
  unfold asked_for, received, trues in *.
  destruct Hstep as [i p ev q c h c' h' ps Hp Hev Hsh|b c h ps|c ps|c ps]; cbn [chan holder workers] in *.
  2:{ split; unfold asked_for, received, trues; cbn [chan holder workers]; rewrite ?omap_app; cbn [omap list_omap]; rewrite ?app_nil_r; [|done..].
      rewrite Hf. by rewrite (assoc_L app). }
  2,3: split; unfold asked_for, received, trues; cbn [chan holder workers]; rewrite ?omap_app; cbn [omap list_omap]; rewrite ?app_nil_r; [done| |done];
    intros i; rewrite <-Hl; by split.
  pose proof (count_insert is_stopped ps i p q Hp) as Hcount.
  assert (forall j, j <> i -> <[i:=q]> ps !! j = ps !! j) as Hother
    by (intros j Hj; by apply list_lookup_insert_ne).
  assert (<[i:=q]> ps !! i = Some q) as Hsame by (apply list_lookup_insert_eq; by eapply lookup_lt_Some).
  destruct (share_local _ _ _ _ _ _ _ _ Hev Hsh)
    as [(-> & -> & -> & -> & -> & ->)|[(s & -> & -> & -> & -> & -> & ->)|(-> & -> & Hp1 & Hq1 & Hp2 & Hq2 & Hev')]];
    split; unfold asked_for, received, trues; cbn [chan holder workers]; rewrite ?omap_app; cbn [omap list_omap];
    rewrite ?app_nil_r, ?count_app.
  - done.
  - intros j. destruct (decide (j = i)) as [->|Hj]; [by rewrite Hsame|].
    rewrite Hother, <-Hl by done. split; congruence.
  - cbn in Hcount. lia.
  - rewrite Hf. by destruct s; cbn; rewrite ?app_nil_r, <-?(assoc_L app).
  - intros j. split; [done|]. intros Hj. exfalso. destruct (decide (j = i)) as [->|Hne].
    + rewrite Hsame in Hj. by case_decide.
    + rewrite Hother, <-Hl in Hj by done. congruence.
  - unfold count in *. destruct (decide (s = Some true)) as [->|]; [cbn in *; lia|].
    destruct s as [[]|]; cbn in *; (done || lia).
  - rewrite Hf. destruct ev as [| | | |s| | |]; try (by rewrite app_nil_r). by destruct (Hev' s).
  - intros j. rewrite Hl. destruct (decide (j = i)) as [->|Hj]; [|by rewrite Hother].
    rewrite Hp, Hsame. split; congruence.
  - assert (is_stopped p = false /\ is_stopped q = false) as [Hp' Hq'] by (by destruct p, q).
    rewrite Hp', Hq' in Hcount. cbn in Hcount.
    destruct ev as [| | | |s| | |]; try (by destruct (Hev' s)); unfold count in *; cbn; lia.
Qed.

Lemma net_run_length n tr s : net_run (start n) tr s -> length (workers s) = n.
Proof.
  remember (start n) as s0 eqn:Hs0. induction 1 as [s|s tr s1 l s2 Hrun IH Hstep]; subst s.
  - apply length_replicate.
  - specialize (IH eq_refl). destruct Hstep; cbn in *; by rewrite ?length_insert.
Qed.

(** C14: shutting down a fiber server of [n] workers, in whatever order its workers
    and the code that asks for it run: what the workers received, followed by what
    is still queued, is exactly what was asked for, in order; a worker that asks
    the channel is the one that holds its lock, so no two do; and as many workers
    have stopped as [true]s were received. One [true] therefore does not shut the
    server down: with fewer of them than workers, some worker has not stopped. *)
Theorem shutdown_accounting n tr s :
  net_run (start n) tr s ->
  asked_for tr = received tr ++ chan s /\
  (forall i, workers s !! i = Some Holding -> holder s = Some (Worker i)) /\
  count is_stopped (workers s) = trues (received tr) /\
  (trues (asked_for tr) < n -> exists i p, workers s !! i = Some p /\ p <> Stopped)%nat.
Proof.
  intros Hrun. pose proof (net_run_length _ _ _ Hrun) as Hn. destruct (net_run_inv _ _ _ Hrun) as [Hf Hl Hc].
  split; [done|]. split; [by intros i; rewrite Hl|]. split; [done|]. intros Hlt.
  destruct (count_lt_length is_stopped (workers s)) as (i & p & Hi & Hp).
  - rewrite Hf in Hlt. unfold trues in *. rewrite count_app in Hlt. lia.
  - exists i, p. split; [done|]. by destruct p.
Qed.

(** *** The shutdown can always be completed *)

(** Steps of the workers alone. *)
Definition by_workers (tr : list (label Env)) : Prop :=
  Forall (fun l => match l with Work _ _ => True | _ => False end) tr.

(** How far a worker is from the head of the loop, or from its end. *)
Definition distance (p : phase Env) : nat :=
  match p with
  | Starting => 2 | Unbound _ => 1 | Gone => 0 | Checking => 0 | Holding => 3
  | Accepting => 2 | Serving _ _ => 1 | Failing _ => 1 | Stopped => 0
  end.
Definition distances (ps : list (phase Env)) : nat := sum_list_with distance ps.

Lemma distances_insert ps i p q :
  ps !! i = Some p ->
  (distances (<[i := q]> ps) + distance p = distances ps + distance q)%nat.
Proof.
  unfold distances. revert i. induction ps as [|x l IH]; intros [|i] Hi; simplify_eq/=; [lia|].
  specialize (IH i Hi). lia.
Qed.

Definition over (p : phase Env) : Prop := p = Stopped \/ p = Gone.

(** A worker outside the lock and the head of the loop moves by itself. *)
Lemma phase_moves i p :
  f64_gt (accept_timeout_in_secs config) (f64_of_Z 0) = true ->
  ~ over p -> p <> Checking -> p <> Holding ->
  exists ev q, phase_step addr (Z.of_nat i) config p ev q /\ (distance q < distance p)%nat /\
    forall c h, share i ev c h = Some (c, h).
Proof.
  intros Hgt Ho H1 H2. destruct p as [|e| | | | |c a|e|]; try done.
  - exists (Listen addr (Ok tt)), Checking. repeat split; [constructor|simpl; lia].
  - exists (LogError (not_bound e)), Gone. repeat split; [constructor|simpl; lia].
  - destruct Ho. by right.
  - eexists (LogError _), Checking. repeat split; [by constructor|simpl; lia].
  - exists (Spawn (Z.of_nat i) c a), Checking. repeat split; [constructor|simpl; lia].
  - eexists (LogError _), Checking. repeat split; [by constructor|simpl; lia].
  - destruct Ho. by left.
Qed.

#[local] Instance over_dec p : Decision (over p).
Proof. unfold over. destruct p; (by left; left) || (by left; right) || (right; by intros [|]). Defined.

Lemma by_workers_asked tr tr' : by_workers tr' -> asked_for (tr ++ tr') = asked_for tr.
Proof.
  intros Hw. unfold asked_for. rewrite omap_app.
  replace (omap _ tr') with (@nil bool); [by rewrite app_nil_r|].
  induction Hw as [|[] tr' Hl _ IH]; done.
Qed.

Definition smaller (s' s : net) : Prop :=
  (length (chan s') < length (chan s) \/
   length (chan s') = length (chan s) /\ distances (workers s') < distances (workers s))%nat.

Lemma net_progress n tr s :
  f64_gt (accept_timeout_in_secs config) (f64_of_Z 0) = true ->
  (n <= trues (asked_for tr))%nat ->
  net_run (start n) tr s -> holder s <> Some Asker -> ~ Forall over (workers s) ->
  exists tr' s', by_workers tr' /\ net_run (start n) (tr ++ tr') s' /\ holder s' <> Some Asker /\ smaller s' s.
Proof.
  intros Hgt Hn Hrun Hh Hlive. pose proof (net_run_length _ _ _ Hrun) as Hlen.
  pose proof (net_run_inv _ _ _ Hrun) as [Hf Hl Hc].
  apply not_Forall_Exists, Exists_exists in Hlive as (p & [i Hi]%list_elem_of_lookup & Hp); [|apply _].
  assert (chan s = [] -> False) as Hchan.
  { intros Hnil. rewrite Hnil, app_nil_r in Hf. rewrite <-Hf in Hc.
    destruct Hp. left. assert (is_stopped p = true) as Hs by (eapply count_full; [|done]; lia).
    by destruct p. }
  destruct s as [c h ps]. cbn [chan holder workers] in *.
  destruct h as [[|j]|].
  - done.
  - (* the worker inside asks the channel *)
    assert (ps !! j = Some Holding) as Hj by (by apply Hl).
    destruct c as [|b c]; [by destruct Hchan|].
    assert (exists q, phase_step addr (Z.of_nat j) config Holding (TryRecv (Some b)) q) as [q Hq]
      by (destruct b; [exists Stopped|exists Accepting]; by constructor).
    exists [Work j (TryRecv (Some b))], (mkNet c None (<[j := q]> ps)).
    split; [by repeat constructor|]. split; [|split; [done|left; simpl; lia]].
    econstructor; [done|]. econstructor; [done..|]. cbn [share]. rewrite decide_True by done. by destruct b.
  - assert (p <> Holding) as HnH by (intros ->; by apply Hl in Hi).
    assert ({p = Checking} + {p <> Checking}) as [->|HnC] by (destruct p; (by left) || by right).
    + destruct c as [|b c]; [by destruct Hchan|].
      exists [Work i (TryLock true); Work i (TryRecv (Some b))],
             (mkNet c None (<[i := if b then Stopped else Accepting]> (<[i := Holding]> ps))).
      split; [by repeat constructor|]. split; [|split; [done|left; simpl; lia]].
      change [?x; ?y] with ([x] ++ [y]). rewrite (assoc_L app). econstructor.
      * econstructor; [done|]. by econstructor; [done|constructor|].
      * econstructor; [apply list_lookup_insert_eq; by eapply lookup_lt_Some|destruct b; by constructor|].
        cbn [share]. rewrite decide_True by done. by destruct b.
    + destruct (phase_moves i p Hgt Hp HnC HnH) as (ev & q & Hstep & Hd & Hsh).
      exists [Work i ev], (mkNet c None (<[i := q]> ps)).
      split; [by repeat constructor|]. split; [by econstructor; [|econstructor]|]. split; [done|].
      right. cbn [chan workers]. pose proof (distances_insert ps i p q Hi). lia.
Qed.

(** C15: a fiber server that has been asked to stop once per worker can always
    complete its shutdown: from every state its workers and the code outside can
    reach, unless that code sits on the lock, the workers alone can run to the
    end of them all, provided an accept times out. *)
Theorem shutdown_completes n tr s :
  f64_gt (accept_timeout_in_secs config) (f64_of_Z 0) = true ->
  (n <= trues (asked_for tr))%nat ->
  net_run (start n) tr s -> holder s <> Some Asker ->
  exists tr' s', by_workers tr' /\ net_run (start n) (tr ++ tr') s' /\ Forall over (workers s').
Proof.
  intros Hgt. remember (length (chan s)) as a eqn:Ha. revert tr s Ha.
  induction (lt_wf a) as [a _ IHa]. intros tr s Ha.
  remember (distances (workers s)) as d eqn:Hd. revert tr s Ha Hd.
  induction (lt_wf d) as [d _ IHd]. intros tr s -> -> Hn Hrun Hh.
  destruct (decide (Forall over (workers s))) as [Hall|Hlive].
  { exists [], s. rewrite app_nil_r. by repeat constructor. }
  destruct (net_progress n tr s Hgt Hn Hrun Hh Hlive) as (tr1 & s1 & Hw & Hrun1 & Hh1 & Hsm).
  assert (exists tr' s', by_workers tr' /\ net_run (start n) ((tr ++ tr1) ++ tr') s' /\
            Forall over (workers s')) as (tr2 & s2 & Hw2 & Hrun2 & Hall).
  { rewrite <-(by_workers_asked tr tr1 Hw) in Hn.
    destruct Hsm as [Hc|[Hc Hd]]; [by eapply IHa|by eapply IHd]. }
  exists (tr1 ++ tr2), s2. rewrite (assoc_L app). split; [by apply Forall_app|done].
Qed.
End network.

(** ** Interleavings of the code *)

Section interleaving.
Context `{!Errors} `{!Net} {C : Type} (float_text : f64 -> string).
#[local] Instance told_race : Race (list (Script.answer C)) := Script.script_race.
#[local] Instance told_net : FiberNet (list (Script.answer C)) := Script.script_net float_text.

(** C16: every interleaving of the network is one of the code: whatever the other
    workers and the code that asks for the shutdown do, the events of worker [i]
    are those of a run of [worker], with the identifier [i], that is still in its
    loop or has returned as the state of the network says. *)
Theorem interleaving_is_code addr config n tr s i p o :
  timeout_ok (accept_timeout_in_secs config) ->
  net_run addr config (start n) tr s -> workers s !! i = Some p -> Script.outcome float_text p = Some o ->
  exists fuel e e', worker fuel addr config (Z.of_nat i) e = (o, e', events_of i tr).
Proof.
  intros Hok Hrun Hp Ho.
  apply (Script.path_is_run float_text addr (Z.of_nat i) config Hok _ p); [by eapply net_run_path|done].
Qed.
End interleaving.

(** ** Concrete runs *)
Module Runs.
Import Concrete.

Definition two_config : TcpFiberServerConfig := {|
  protocol := Native; address := "127.0.0.1"; port := 8000; fiber_num_of_workers := 2;
  accept_timeout_in_secs := FiberServer.Runs.two_seconds;
  io_timeout_in_secs := FiberServer.Runs.two_seconds |}.
Definition home : string := "127.0.0.1:8000".
#[local] Instance run_race : Race (list (Script.answer Z)) := Script.script_race.
#[local] Instance run_net : FiberNet (list (Script.answer Z)) := Script.script_net (fun _ => "2"%string).

(** A worker told to stop at its first question. *)
Definition told : list (Script.answer Z) :=
  [Script.Listens (Ok tt); Script.Locks true; Script.Receives (Some true)].
Definition stopped_at_once := worker (Env := list (Script.answer Z)) 3 home two_config 0 told.
Example stopped_run :
  stopped_at_once = (Ret tt, [], [Listen home (Ok tt); TryLock true; TryRecv (Some true)]).
Proof. by vm_compute. Qed.

Lemma worker_behaviours_witness :
  exists p, path (Env := list (Script.answer Z)) home 0 two_config Starting
    [Listen home (Ok tt); TryLock true; TryRecv (Some true)] p /\ Script.outcome (fun _ => "2"%string) p = Some (Ret tt).
Proof.
  apply (Script.worker_behaviours (H0 := text_net) (C := Z) (fun _ => "2"%string) home 0 two_config FiberServer.Runs.two_seconds_ok).
  exists 3%nat. eexists _, _. exact stopped_run.
Defined.

(** Two workers, one [true]: the first stops, the second has not started. *)
Definition one_true : list (label (list (Script.answer Z))) :=
  [Ask true; Work 0 (Listen home (Ok tt)); Work 0 (TryLock true); Work 0 (TryRecv (Some true))].
Lemma one_true_run : net_run (H0 := text_net) home two_config (start 2) one_true (mkNet [] None [Stopped; Starting]).
Proof.
  unfold one_true.
  apply (net_run_snoc _ _ _ [_; _; _] (mkNet [true] (Some (Worker 0)) [Holding; Starting])).
  2:{ by refine (net_work (H0 := text_net) home two_config 0 Holding _ Stopped _ _ _ _ [Holding; Starting] _ _ _); [|constructor|]. }
  apply (net_run_snoc _ _ _ [_; _] (mkNet [true] None [Checking; Starting])).
  2:{ by refine (net_work (H0 := text_net) home two_config 0 Checking _ Holding _ _ _ _ [Checking; Starting] _ _ _); [|constructor|]. }
  apply (net_run_snoc _ _ _ [_] (mkNet [true] None [Starting; Starting])).
  2:{ by refine (net_work (H0 := text_net) home two_config 0 Starting _ Checking _ _ _ _ [Starting; Starting] _ _ _); [|constructor|]. }
  apply (net_run_snoc _ _ _ [] (mkNet [] None [Starting; Starting])); [apply net_run_nil|].
  apply (net_ask (H0 := text_net) home two_config true []).
Qed.

Lemma shutdown_accounting_witness :
  exists i p, [Stopped; Starting (Env := list (Script.answer Z))] !! i = Some p /\ p <> Stopped.
Proof.
  destruct (shutdown_accounting (H0 := text_net) home two_config 2 one_true _ one_true_run) as (_ & _ & _ & Hlive).
  apply Hlive. vm_compute. lia.
Defined.

Lemma shutdown_completes_witness :
  exists tr' s', by_workers tr' /\
    net_run (H0 := text_net) home two_config (start 2) ((one_true ++ [Ask true]) ++ tr') s' /\ Forall over (workers s').
Proof.
  apply (shutdown_completes (H0 := text_net) home two_config 2 (one_true ++ [Ask true]) (mkNet [true] None [Stopped; Starting])).
  - by vm_compute.
  - vm_compute. lia.
  - eapply net_run_snoc; [exact one_true_run|]. apply (net_ask (H0 := text_net) home two_config true []).
  - done.
Defined.

Lemma interleaving_is_code_witness :
  exists fuel e e', worker (Env := list (Script.answer Z)) fuel home two_config (Z.of_nat 0) e =
    (Ret tt, e', events_of 0 one_true).
Proof.
  eapply (interleaving_is_code (H0 := text_net) (C := Z) (fun _ => "2"%string) home two_config 2 one_true
           (mkNet [] None [Stopped; Starting]) 0 Stopped (Ret tt)).
  - exact FiberServer.Runs.two_seconds_ok.
  - exact one_true_run.
  - done.
  - done.
Defined.
End Runs.
