(* ===== verification/Handlers.v ===== *)
(** The bounds of the message handlers: whatever the protocol, and whatever size
    the callback leaves, it is shown a size within the array of [MAX_MSG_SIZE]
    bytes, and no read, write or message sent exceeds it. The client of UDP is the
    exception: it shows the size its callback left.

    [safe P m] is the judgment: every event of [m] is well typed and its result
    satisfies [P]. [TypedHandler] is what a protocol handler promises to the
    code that wraps it ([accept_connection], [client]); the wrappers are judged
    against the promise, and each handler discharges it. *)
From S2P Require Import Prelude F64 Common TcpServer TcpClient Udp FiberServer.
Local Open Scope Z_scope.
#[local] Set Default Goal Selector "!".

(** ** The judgment *)

(** The well-typed events of a component. *)
Class Typing (Ev : Type) := event_ok : Ev -> Prop.

Definition safe {Env Ev A} `{!Typing Ev} (P : A -> Prop) (m : M Env Ev A) : Prop :=
  forall e, wp m (fun r _ t => Forall event_ok t /\ forall a, r = Ret a -> P a) e.
Definition any {A} (_ : A) : Prop := True.

Section rules.
Context {Env Ev : Type} `{!Typing Ev}.

Lemma safe_ret {A} (P : A -> Prop) a : P a -> safe (Env := Env) P (mret a).
Proof. intros Ha e. apply wp_ret. split; [constructor|]. by intros b [= <-]. Qed.

Lemma safe_weaken {A} (P Q : A -> Prop) (m : M Env Ev A) :
  safe P m -> (forall a, P a -> Q a) -> safe Q m.
Proof. intros Hm HPQ e. eapply wp_mono; [|apply Hm]. intros r e' t [Ht Hr]. split; [done|]. eauto. Qed.

Lemma safe_bind {A B} (Q : A -> Prop) (P : B -> Prop) (m : M Env Ev A) (k : A -> M Env Ev B) :
  safe Q m -> (forall a, Q a -> safe P (k a)) -> safe P (m ≫= k).
Proof.
  intros Hm Hk e. apply wp_bind. eapply wp_mono; [|apply Hm].
  intros [a|why|] e1 t1 [Ht1 Ha]; [|by split..].
  eapply wp_mono; [|by apply Hk, Ha]. intros r e2 t2 [Ht2 Hr]. split; [by apply Forall_app|done].
Qed.

Lemma safe_try {T U E F} (Q : T -> Prop) (P : result U F -> Prop) (f : E -> F)
    (m : M Env Ev (result T E)) (k : T -> M Env Ev (result U F)) :
  safe (fun r => forall a, r = Ok a -> Q a) m -> (forall a, Q a -> safe P (k a)) ->
  (forall x, P (Err (f x))) -> safe P (try_ f m k).
Proof.
  intros Hm Hk He. apply (safe_bind _ _ _ _ Hm). intros [a|x] Ha; [by apply Hk, Ha|by apply safe_ret].
Qed.

Lemma safe_lift {A} (P : A -> Prop) (r : res A) :
  (forall a, r = Ret a -> P a) -> safe (Env := Env) P (lift r).
Proof. intros Hr e. apply wp_lift. split; [constructor|done]. Qed.

Lemma safe_act {A} (P : A -> Prop) (f : Env -> A * Env) :
  (forall e a e', f e = (a, e') -> P a) -> safe P (act f).
Proof. intros Hf e. apply wp_act. intros a e' Ha. split; [constructor|]. intros b [= <-]. eauto. Qed.

Lemma safe_emit ev : event_ok ev -> safe (Env := Env) any (emit ev).
Proof. intros Hev e. apply wp_emit. by repeat constructor. Qed.

Lemma safe_obs {A} (P : A -> Prop) (f : Env -> A * Env) ev :
  (forall e a e', f e = (a, e') -> event_ok (ev a) /\ P a) -> safe P (obs f ev).
Proof.
  intros Hf e. apply wp_obs. intros a e' Ha. destruct (Hf _ _ _ Ha) as [Hev HP].
  split; [by repeat constructor|]. by intros b [= <-].
Qed.

Lemma safe_call {A} (P : A -> Prop) (f : Env -> res A * Env) ev :
  (forall e a e', f e = (Ret a, e') -> event_ok (ev a) /\ P a) -> safe P (call f ev).
Proof.
  intros Hf e. apply wp_call. intros [a|why|] e' Ha; [|by split; [constructor|]..].
  destruct (Hf _ _ _ Ha) as [Hev HP]. split; [by repeat constructor|]. by intros b [= <-].
Qed.

Lemma safe_loop {St B} (I : St -> Prop) (P : B -> Prop) (body : St -> M Env Ev (flow St B)) n s :
  (forall s, I s -> safe (fun f => match f with Continue s' => I s' | Break b => P b end) (body s)) ->
  I s -> safe P (loop n body s).
Proof.
  intros Hb. revert s. induction n as [|n IH]; intros s Hs.
  { intros e. by split; [constructor|]. }
  rewrite loop_S. apply (safe_bind _ _ _ _ (Hb s Hs)).
  intros [s'|b] Hf; [by apply IH|by apply safe_ret].
Qed.

Lemma safe_with_timeout `{!Race Env} {A} (P : A -> Prop) secs (timer op : M Env Ev A) :
  safe P timer -> safe P op -> safe P (with_timeout secs timer op).
Proof.
  intros Ht Hop. unfold with_timeout, select. destruct (f64_gt secs _); [|done].
  apply (safe_bind any); [by apply safe_act|]. intros [] _; [done..|].
  apply (safe_bind any); [by apply safe_lift|]. by intros _ _.
Qed.

Lemma safe_timer {A} (P : A -> Prop) secs (k : M Env Ev A) :
  safe P k -> safe P (_ ← lift (from_secs_f64 secs); k).
Proof. intros Hk. apply (safe_bind any); [by apply safe_lift|]. by intros _ _. Qed.
End rules.

(** ** The events *)

(** What a handler reads and writes; what it shows: a size within the array; what
    the callback may leave: any [usize]. *)
Definition bytes_ok (d : list u8) : Prop := Z.of_nat (length d) <= MAX_MSG_SIZE.
Definition shown_ok (b : Buffer) : Prop := buffer_wf b /\ size b <= MAX_MSG_SIZE.
Definition call_ok (given after : Buffer) : Prop := shown_ok given /\ buffer_wf after.
(** A websocket message that is sent: data within the bound, or a closing frame. *)
Definition message_ok `{!Errors} `{!WsLib} (m : Message) : Prop :=
  (exists d, m = msg_text d /\ bytes_ok d) \/ (exists d, m = msg_binary d /\ bytes_ok d) \/
  (exists frame, m = msg_close frame).

#[export] Instance tcp_typing `{!Errors} `{!Net} `{!WsLib} `{!TlsLib} : Typing TcpServer.event :=
  fun ev => match ev with
            | TcpServer.Read (Ok d) | TcpServer.Write d _ => bytes_ok d
            | TcpServer.OnMessage _ _ given after _ => call_ok given after
            | TcpServer.Send m _ => message_ok m
            | _ => True
            end.
#[export] Instance client_typing `{!Errors} `{!Net} `{!Pki} : Typing TcpClient.event :=
  fun ev => match ev with
            | TcpClient.Read (Ok d) | TcpClient.Write d _ => bytes_ok d
            | TcpClient.OnMessage _ _ given after _ => call_ok given after
            | _ => True
            end.
(** Of the two kinds of UDP endpoint, only the server shows the size it received:
    the client shows the size its callback left. *)
Definition udp_shown (kind : UdpConnectionType) (given : Buffer) : Prop :=
  match kind with UDPServer => shown_ok given | UDPClient => buffer_wf given end.
Definition udp_typing `{!Errors} `{!Net} (kind : UdpConnectionType) : Typing Udp.event :=
  fun ev => match ev with
            | Udp.Recv (Ok (d, _)) | Udp.Send d _ _ => bytes_ok d
            | Udp.OnMessage _ _ given after _ => udp_shown kind given /\ buffer_wf after
            | _ => True
            end.
#[export] Instance fiber_typing `{!Errors} `{!Net} : Typing FiberServer.event :=
  fun ev => match ev with
            | FiberServer.Read (Ok d) | FiberServer.Write d _ => bytes_ok d
            | FiberServer.OnMessage _ _ given after _ => call_ok given after
            | _ => True
            end.

(** *** The steps the handlers share *)
Section steps.
Context `{!Errors} `{!Net} {Env Ev : Type} `{!Typing Ev}.

Lemma safe_callback (cb : OnMessageCallback Env) secs peer b (ev : Buffer * result unit anyhow -> Ev) :
  buffer_wf b -> (forall after r, buffer_wf after -> event_ok (ev (after, r))) ->
  safe (fun p => buffer_wf (fst p)) (call (on_message cb secs peer b) ev).
Proof.
  intros Hb Hev. apply safe_call. intros e [after r] e' Hcb. apply (on_message_wf cb Hb) in Hcb.
  split; [by apply Hev|done].
Qed.

Lemma safe_read `{!Stream Env} `{!StreamLaws Env} (ev : result (list u8) io_error -> Ev) :
  (forall d, bytes_ok d -> event_ok (ev (Ok d))) -> (forall x, event_ok (ev (Err x))) ->
  safe (fun r => forall d, r = Ok d -> bytes_ok d) (obs (stream_read MAX_MSG_SIZE) ev).
Proof.
  intros Hok Herr. apply safe_obs. intros e [d|x] e' Hr.
  - apply stream_read_cap in Hr; [|done]. split; [by apply Hok|]. by intros ? [= <-].
  - split; [by apply Herr|done].
Qed.

Lemma wf_bytes b : buffer_wf b -> bytes_ok (buf b).
Proof. intros [Hl _]. unfold bytes_ok. lia. Qed.

Lemma slice_bytes b n v : buffer_wf b -> slice_to n (buf b) = Ret v -> bytes_ok v.
Proof.
  intros [Hl _]. unfold slice_to. destruct (_ <=? _); [|done]. intros [= <-].
  unfold bytes_ok. rewrite length_take. lia.
Qed.

Lemma filled_wf b d : buffer_wf b -> bytes_ok d ->
  buffer_wf (set_size (Z.of_nat (length d)) (set_buf (overwrite d (buf b)) b)).
Proof. intros Hb Hd. by apply received_wf. Qed.

Lemma filled_shown b d : buffer_wf b -> bytes_ok d ->
  shown_ok (set_size (Z.of_nat (length d)) (set_buf (overwrite d (buf b)) b)).
Proof. intros Hb Hd. split; [by apply filled_wf|exact Hd]. Qed.

Lemma new_shown t : shown_ok (Buffer_new t).
Proof. split; [apply Buffer_new_wf|done]. Qed.

Lemma overwritten_wf b d : buffer_wf b -> bytes_ok d -> buffer_wf (set_buf (overwrite d (buf b)) b).
Proof.
  intros [Hl Hs] Hd. split; [|done]. unfold bytes_ok in *. cbn. rewrite length_overwrite; lia.
Qed.
End steps.

(** ** The promise of a handler *)
Class TypedHandler {Env Ev A} `{!Errors} `{!Net} `{!Typing Ev}
    (handler : nat -> SocketAddr -> OnMessageCallback Env -> M Env Ev A) : Prop :=
  handler_safe fuel peer cb : safe any (handler fuel peer cb).

Section tcp.
Context `{!Errors} `{!Net} `{!WsLib} `{!WsLaws} `{!TlsLib} {Env : Type}.
Context `{!Clock Env} `{!Race Env} `{!Stream Env} `{!StreamLaws Env} `{!WsStream Env}.

#[export] Instance native_typed secs :
  TypedHandler (fun fuel peer => TcpServer.handle_tcp_connection (Env := Env) fuel peer secs).
Proof.
  intros fuel peer cb. unfold TcpServer.handle_tcp_connection.
  apply (safe_bind any); [by apply safe_act|]. intros start _.
  apply (safe_bind any); [|by intros; apply safe_ret].
  apply (safe_loop buffer_wf); [|apply Buffer_new_wf]. intros b Hb. unfold tcp_round.
  apply (safe_bind (fun r => forall d, r = Ok d -> bytes_ok d)).
  { apply safe_with_timeout; [|by apply safe_read]. by apply safe_timer, safe_ret. }
  intros [d|x] Hd; [|by apply safe_ret]. specialize (Hd d eq_refl).
  apply (safe_bind any); [apply (safe_bind any); [by apply safe_act|by intros; apply safe_ret]|].
  intros elapsed _. apply (safe_bind (fun p => buffer_wf (fst p))).
  { apply safe_callback; [by apply filled_wf|]. intros after r Ha. by split; [apply filled_shown|]. }
  intros [after r] Ha. cbn in Ha. destruct (is_err r); [by apply safe_ret|].
  destruct (size after >? 0); [|by apply safe_ret].
  apply (safe_bind bytes_ok); [apply safe_lift; intros v Hv; by eapply slice_bytes|]. intros v Hv.
  apply (safe_bind any); [by apply safe_obs|]. intros [n|x] _; [|by apply safe_ret].
  apply (safe_bind any); [by apply safe_obs|]. intros f _. by apply safe_ret.
Qed.

(** A text: its bytes go to the front of the array. *)
Lemma ws_text_safe (cb : OnMessageCallback Env) peer secs st m :
  is_text m = true -> msg_len m <= MAX_MSG_SIZE -> shown_ok (msg_buffer st) ->
  safe (fun p => fst p = true -> buffer_wf (msg_buffer (snd p)))
    (handle_ws_text_msg (into_text m) cb peer secs st).
Proof.
  intros Ht Hm Hb. unfold handle_ws_text_msg. destruct (into_text m) as [s|x] eqn:Hs; [|by apply safe_ret].
  pose proof (into_text_len m s Ht Hs) as Hl. pose proof Hb as [[Hlen Hsz] Hmax].
  apply (safe_bind (fun l => Z.of_nat (length l) = MAX_MSG_SIZE)).
  { apply safe_lift. unfold copy_nonoverlapping. intros l. destruct (_ <=? _) eqn:Hle; [|done].
    intros [= <-]. cbn in *. rewrite length_overwrite; lia. }
  intros l Hl1. apply (safe_bind (fun p => buffer_wf (fst p))).
  { apply safe_callback; [by split|]. intros after r Ha. by split; [split; [split|]|]. }
  intros [after r] Ha. cbn in Ha. destruct (is_err r); [by apply safe_ret|].
  rewrite Buffer_reset_eq by done. cbn [buf]. rewrite from_utf8_zeros.
  apply (safe_bind any).
  { apply safe_obs. intros _ x _ _. split; [|done]. left. by exists zeros. } intros [[]|x] _; [|by apply safe_ret].
  apply safe_ret. intros _. apply (Buffer_new_wf (type_ after)).
Qed.

(** A binary message: only one of the whole array gets to the callback. *)
Lemma ws_binary_safe (cb : OnMessageCallback Env) peer secs st d :
  shown_ok (msg_buffer st) ->
  safe (fun f => match f with Continue st' => buffer_wf (msg_buffer st') | Break _ => True end)
    (handle_ws_binary_msg d cb peer secs st).
Proof.
  intros [Hb Hle]. unfold handle_ws_binary_msg. destruct (Z.eqb_spec (Z.of_nat (length d)) MAX_MSG_SIZE) as [Hd|_];
    [|by apply safe_ret].
  assert (buffer_wf (set_buf (overwrite d (buf (msg_buffer st))) (set_type BINARY (msg_buffer st)))) as Hb'.
  { apply (overwritten_wf (set_type BINARY (msg_buffer st))); [exact Hb|]. unfold bytes_ok. lia. }
  apply (safe_bind (fun p => buffer_wf (fst p))).
  { apply safe_callback; [done|]. intros after r Ha. by split; [split|]. }
  intros [after r] Ha. cbn in Ha. destruct (is_err r); [by apply safe_ret|].
  apply (safe_bind any).
  { apply safe_obs. intros _ x _ _. split; [|done]. right; left. exists (buf after). by split; [|apply wf_bytes]. }
  intros x _. destruct (is_err x); by apply safe_ret.
Qed.

#[export] Instance websocket_typed secs :
  TypedHandler (fun fuel peer => TcpServer.handle_ws_connection (Env := Env) fuel peer secs).
Proof.
  intros fuel peer cb. unfold handle_ws_connection.
  apply (safe_bind any); [by apply safe_act|]. intros start _.
  apply (safe_try any); [by apply safe_obs| |done]. intros _ _.
  apply (safe_bind any).
  2:{ intros st _. apply (safe_try any); [|by intros; apply safe_ret|done].
      apply safe_obs. intros _ x _ _. split; [|done]. right; right. by eexists. }
  apply (safe_loop (fun st => buffer_wf (msg_buffer st))); [|apply (Buffer_new_wf TEXT)].
  intros st Hst. unfold ws_round. apply (safe_bind any).
  { apply safe_with_timeout; [by apply safe_timer, safe_ret|by apply safe_obs]. }
  intros [[m|x]|] _; [|by apply safe_ret..].
  destruct (is_close m); [by apply safe_ret|]. destruct (negb _ && _) eqn:Hm; [|by apply safe_ret].
  cbn [size set_size]. destruct (Z.gtb_spec (msg_len m) MAX_MSG_SIZE) as [_|Hle]; [by apply safe_ret|].
  assert (shown_ok (set_size (msg_len m) (msg_buffer st))) as Hb.
  { destruct Hst as [Hl _]. split; [|exact Hle]. split; [done|]. pose proof (msg_len_nonneg m).
    unfold MAX_MSG_SIZE, u64_max in *. cbn. lia. }
  apply (safe_bind any); [apply (safe_bind any); [by apply safe_act|by intros; apply safe_ret]|].
  intros elapsed _. destruct (is_text m) eqn:Ht.
  - eapply safe_bind; [by apply ws_text_safe|]. intros [[] st'] Hst'; apply safe_ret; [by apply Hst'|done].
  - destruct (is_binary m); [|by apply safe_ret].
    eapply safe_weaken; [by apply ws_binary_safe|]. by intros [].
Qed.

(** The wrapper of both, against their promise. *)
Lemma wrapped_safe (h : nat -> SocketAddr -> OnMessageCallback Env -> M Env TcpServer.event (result string anyhow))
    `{!TypedHandler h} fuel peer on_accept cb on_close :
  safe any
    (_ ←? call (on_socket on_accept peer) (TcpServer.OnAccept peer);
     close_msg ←? h fuel peer cb;
     call (on_close_socket on_close peer close_msg) (TcpServer.OnClose peer close_msg)).
Proof.
  apply (safe_try any); [by apply safe_call| |done]. intros _ _.
  apply (safe_try any); [|intros msg _; by apply safe_call|done].
  eapply safe_weaken; [apply handler_safe|done].
Qed.

Lemma tcp_connection_safe fuel proto peer secs on_accept (cb : OnMessageCallback Env) on_close :
  safe any (TcpServer.accept_connection fuel proto peer secs on_accept cb on_close).
Proof. destruct proto; [exact (wrapped_safe _ _ _ _ _ _)|exact (wrapped_safe _ _ _ _ _ _)]. Qed.

Lemma tcp_task_safe `{!Listener Env} fuel config stream peer on_accept (cb : OnMessageCallback Env) on_close :
  safe any (TcpServer.connection_task fuel config stream peer on_accept cb on_close).
Proof.
  pose proof (tcp_connection_safe fuel (TcpServer.protocol config) peer
    (TcpServer.io_timeout_in_secs config) on_accept cb on_close) as Hc.
  unfold connection_task. destruct (TcpServer.tls config).
  - apply (safe_bind any); [by apply safe_obs|]. intros [c|x] _; [|by apply safe_ret].
    apply (safe_bind _ _ _ _ Hc). intros r _. apply (safe_bind any); [|by intros; apply safe_ret].
    destruct (is_err r); [by apply safe_emit|by apply safe_ret].
  - apply (safe_bind _ _ _ _ Hc). intros r _. apply (safe_bind any); [|by intros; apply safe_ret].
    destruct r; [by apply safe_ret|by apply safe_emit].
Qed.
End tcp.

Section client.
Context `{!Errors} `{!Net} `{!Pki} {Env : Type} `{!Clock Env} `{!Race Env} `{!Stream Env} `{!StreamLaws Env}.

#[export] Instance client_stream_typed secs :
  TypedHandler (fun fuel peer => TcpClient.handle_client_stream (Env := Env) fuel peer secs).
Proof.
  intros fuel peer cb. unfold handle_client_stream.
  apply (safe_bind any); [by apply safe_act|]. intros start _.
  apply (safe_loop shown_ok); [|apply new_shown]. intros b Hb. unfold TcpClient.client_round.
  apply (safe_bind any); [by apply safe_act|]. intros now _.
  apply (safe_bind (fun p => buffer_wf (fst p))).
  { apply safe_callback; [apply Hb|]. intros after r Ha. by split. }
  intros [after r] Ha. cbn in Ha. destruct (is_err r); [by apply safe_ret|].
  apply (safe_bind any).
  { destruct (size after >? 0); [|by apply safe_ret].
    apply (safe_bind bytes_ok); [apply safe_lift; intros v Hv; by eapply slice_bytes|]. intros v Hv.
    apply (safe_bind any); [by apply safe_obs|]. intros [n|x] _; [|by apply safe_ret].
    destruct (n >? 0); [by apply safe_obs|by apply safe_ret]. }
  intros [[]|x] _; [|by apply safe_ret].
  apply (safe_bind (fun r => forall d, r = Ok d -> bytes_ok d)).
  { apply safe_with_timeout; [|by apply safe_read]. by apply safe_timer, safe_ret. }
  intros [d|x] Hd; apply safe_ret; [|done]. by apply filled_shown, Hd.
Qed.

Lemma client_safe `{!Connector Env} fuel config on_accept (cb : OnMessageCallback Env) on_close :
  safe any (TcpClient.client fuel config on_accept cb on_close).
Proof.
  unfold client. apply (safe_try any); [by apply safe_ret| |done]. intros addr _.
  apply (safe_try any); [by apply safe_call| |done]. intros _ _.
  apply (safe_try any); [|intros _ _; by apply safe_call|done].
  assert (forall peer, safe (fun r => forall a : unit, r = Ok a -> any a)
            (TcpClient.handle_client_stream fuel peer (TcpClient.io_timeout_in_secs config) cb)) as Hh.
  { intros peer. eapply safe_weaken; [exact (handler_safe fuel peer cb)|done]. }
  destruct (TcpClient.tls config).
  - apply (safe_try any).
    + unfold load_root_ca. destruct (tls_ca_path config); [|by apply safe_ret].
      apply (safe_try any); [by apply safe_obs| |done]. intros _ _.
      apply (safe_try any); [by apply safe_obs| |done]. intros certs _.
      apply (safe_bind any); [by apply safe_lift|]. intros l _. by apply safe_ret.
    + intros roots _. apply (safe_try any); [by apply safe_obs| |done]. intros _ _.
      apply (safe_try any); [by apply safe_ret| |done]. intros domain _.
      apply (safe_try any); [by apply safe_obs| |done]. intros peer _.
      apply (safe_try any); [by apply safe_obs| |done]. by intros _ _.
    + done.
  - apply (safe_try any); [by apply safe_obs| |done]. intros _ _.
    apply (safe_try any); [by apply safe_obs| |done]. by intros peer _.
Qed.
End client.

Section udp.
Context `{!Errors} `{!Net} {Env : Type} `{!Clock Env} `{!Race Env} `{!UdpSocket Env} `{!UdpLaws Env}.

Abbreviation safe_udp kind := (safe (Typing0 := udp_typing kind)).

Lemma udp_read_safe kind secs :
  safe_udp kind (fun r => forall d a, r = Ok (d, a) -> bytes_ok d) (Udp.read (Env := Env) secs).
Proof.
  apply safe_with_timeout; [by apply safe_timer, safe_ret|].
  apply safe_obs. intros e [[d a]|x] e' Hr; [|done].
  apply recv_from_cap in Hr; [|done]. split; [done|]. by intros ?? [= <- _].
Qed.

Lemma udp_send_safe kind peer d secs : bytes_ok d -> safe_udp kind any (Udp.send (Env := Env) peer d secs).
Proof. intros Hd. apply safe_with_timeout; [by apply safe_timer, safe_ret|by apply safe_obs]. Qed.

Lemma udp_callback_safe kind (cb : OnMessageCallback Env) secs peer b :
  udp_shown kind b -> safe_udp kind (fun p => buffer_wf (fst p)) (Udp.run_on_message cb secs peer b).
Proof.
  intros Hb. apply safe_callback; [by destruct kind; [apply Hb|]|]. intros after r Ha. by split.
Qed.

Definition round_ok (f : flow Buffer string) : Prop :=
  match f with Continue b => buffer_wf b | Break _ => True end.

Lemma udp_server_round_safe secs (cb : OnMessageCallback Env) start b :
  buffer_wf b -> safe_udp UDPServer round_ok (Udp.server_round secs cb start b).
Proof.
  intros Hb. unfold server_round. apply (safe_bind any); [by apply safe_act|]. intros now _.
  apply (safe_bind _ _ _ _ (udp_read_safe UDPServer secs)). intros [[d peer]|x] Hd; [|by apply safe_ret].
  specialize (Hd d peer eq_refl).
  apply (safe_bind _ _ _ _ (udp_callback_safe UDPServer cb _ peer _ (filled_shown b d Hb Hd))).
  intros [after r] Ha. cbn in Ha. destruct (is_err r); [by apply safe_ret|].
  destruct (_ >? 0); [|by apply safe_ret].
  apply (safe_bind any); [by apply udp_send_safe, wf_bytes|]. intros [n|x] _; by apply safe_ret.
Qed.

Lemma udp_client_round_safe secs (cb : OnMessageCallback Env) start peer b :
  buffer_wf b -> safe_udp UDPClient round_ok (Udp.client_round secs cb start peer b).
Proof.
  intros Hb. unfold client_round. apply (safe_bind any); [by apply safe_act|]. intros now _.
  apply (safe_bind _ _ _ _ (udp_callback_safe UDPClient cb _ peer _ Hb)).
  intros [after r] Ha. cbn in Ha. destruct (is_err r); [by apply safe_ret|].
  destruct (size after >? 0); [|by apply safe_ret].
  apply (safe_bind any); [by apply udp_send_safe, wf_bytes|]. intros [n|x] _; [|by apply safe_ret].
  apply (safe_bind _ _ _ _ (udp_read_safe UDPClient secs)). intros [[d a]|x] Hd; apply safe_ret; [|done].
  by apply overwritten_wf; [|eapply Hd].
Qed.

Lemma udp_safe fuel address port kind secs on_bind (cb : OnMessageCallback Env) on_close :
  safe_udp kind any (Udp.connect fuel address port kind secs on_bind cb on_close).
Proof.
  unfold connect. apply (safe_try any); [by apply safe_ret| |done]. intros addr _.
  apply (safe_try any); [by apply safe_obs| |done]. intros _ _.
  apply (safe_try any); [by apply safe_call| |done]. intros _ _.
  apply (safe_bind any); [by apply safe_act|]. intros start _.
  apply (safe_try any); [|intros msg _; by apply safe_call|done].
  destruct kind.
  - apply (safe_bind any); [|by intros; apply safe_ret].
    apply (safe_loop buffer_wf); [|apply Buffer_new_wf]. intros b Hb.
    eapply safe_weaken; [by apply udp_server_round_safe|]. by intros [].
  - apply (safe_try any); [by apply safe_obs| |done]. intros peer _.
    apply (safe_bind any); [|by intros; apply safe_ret].
    apply (safe_loop buffer_wf); [|apply Buffer_new_wf]. intros b Hb.
    eapply safe_weaken; [by apply udp_client_round_safe|]. by intros [].
Qed.
End udp.

Section fiber.
Context `{!Errors} `{!Net} {Env : Type} `{!Clock Env} `{!Stream Env} `{!StreamLaws Env}.

#[export] Instance fiber_typed :
  TypedHandler (FiberServer.handle_tcp_connection (Env := Env)).
Proof.
  intros fuel peer cb. unfold FiberServer.handle_tcp_connection.
  apply (safe_bind any); [by apply safe_act|]. intros start _.
  apply (safe_loop buffer_wf); [|apply Buffer_new_wf]. intros b Hb. unfold fiber_round.
  apply (safe_bind (fun r => forall d, r = Ok d -> bytes_ok d)); [by apply safe_read|].
  intros r Hr. apply (safe_bind (fun p => buffer_wf (fst p))).
  - destruct r as [d|x]; [|by apply safe_ret]. specialize (Hr d eq_refl).
    apply (safe_bind any); [by apply safe_act|]. intros now _.
    apply (safe_bind (fun p => buffer_wf (fst p))).
    { apply safe_callback; [by apply filled_wf|]. intros after r Ha. by split; [apply filled_shown|]. }
    intros [after r] Ha. cbn in Ha. apply (safe_bind any); [|by intros; apply safe_ret].
    unfold send_reply. destruct (size after >? 0); [|by apply safe_ret].
    apply (safe_bind any); [apply safe_obs; intros; split; [by apply wf_bytes|done]|].
    intros [n|x] _; [|by apply safe_ret]. destruct (n >? 0); [|by apply safe_ret].
    apply (safe_bind any); [by apply safe_obs|]. intros; by apply safe_ret.
  - intros [after close_msg] Ha. case_bool_decide; by apply safe_ret.
Qed.

Lemma fiber_safe `{!FiberNet Env} fuel proto peer secs on_accept (cb : OnMessageCallback Env) on_close :
  safe any (FiberServer.accept_connection fuel proto peer secs on_accept cb on_close).
Proof.
  unfold FiberServer.accept_connection. apply (safe_try any); [by apply safe_call| |done]. intros _ _.
  apply (safe_bind any); [by apply safe_lift|]. intros d _.
  apply (safe_try any); [by apply safe_obs| |done]. intros _ _.
  apply (safe_bind any); [by apply safe_lift|]. intros d' _.
  apply (safe_try any); [by apply safe_obs| |done]. intros _ _.
  apply (safe_bind any); [|intros msg _; by apply safe_call].
  destruct proto; [exact (handler_safe fuel peer cb)|by apply safe_ret].
Qed.
End fiber.

(** ** Every endpoint is within its bounds *)
Section endpoints.
Context `{!Errors} `{!Net} `{!WsLib} `{!WsLaws} `{!TlsLib} {Env : Type}.
Context `{!Clock Env} `{!Race Env} `{!Stream Env} `{!StreamLaws Env} `{!WsStream Env}.
Context `{!Pki} `{!Listener Env} `{!Connector Env} `{!UdpSocket Env} `{!UdpLaws Env} `{!FiberNet Env}.

(** C34: the bounds of the messages of every endpoint: in the task of a TCP server's
    connection (native or websocket, under TLS or not), in a TCP client, in both
    kinds of UDP endpoint and in a fiber server's connection, for every fuel and
    every callback, even one that panics or leaves any size up to [u64_max]: the
    callback is shown a size of at most [MAX_MSG_SIZE] (a longer websocket message
    is never shown), whatever it left before; no read or write of bytes and no
    websocket message that is sent (closing frames apart) exceeds it. The exception
    is the client of UDP, whose callback is shown the size it left itself, however
    large. *)
Theorem endpoints_typed fuel (cb : OnMessageCallback Env) on_accept on_bind on_close on_end (e : Env) :
  (forall config stream peer,
     wp (connection_task fuel config stream peer on_accept cb on_close)
        (fun _ _ t => Forall event_ok t) e) /\
  (forall config,
     wp (TcpClient.client fuel config on_accept cb on_end) (fun _ _ t => Forall event_ok t) e) /\
  (forall address port kind secs,
     wp (Udp.connect fuel address port kind secs on_bind cb on_close)
        (fun _ _ t => Forall (udp_typing kind) t) e) /\
  (forall proto peer secs,
     wp (FiberServer.accept_connection fuel proto peer secs on_accept cb on_close)
        (fun _ _ t => Forall event_ok t) e).
Proof.
  split_and!; intros; (eapply wp_mono;
    [|first [apply tcp_task_safe | apply client_safe | apply udp_safe | apply fiber_safe]]);
    by intros r e' t [Ht _].
Qed.
End endpoints.

(** ** A concrete endpoint *)
Module Runs.
Import Concrete TcpServer.Runs TcpClient.Runs Udp.Runs FiberServer.Runs.

#[local] Instance peer_ws : WsStream peer := {|
  ws_accept := fun p => (Ok tt, p);
  ws_next := fun p => match inbox p with
                      | [] => (None, p)
                      | d :: ds => (Some (Ok (FBinary d)), mkPeer ds (outbox p) (clock p))
                      end;
  ws_send := fun m p => (Ok tt, p);
|}.
#[local] Instance peer_listener : Listener peer := {|
  bind := fun _ p => (Ok tt, p); set_ttl := fun _ p => (Ok tt, p);
  TcpServer.accept := fun p => (Err "nobody"%string, p);
  tls_accept := fun _ c p => (Ok c, p);
  TcpServer.try_lock := fun p => (true, p); TcpServer.try_recv := fun p => (None, p);
|}.

(** A client of UDP shows its callback the size it left, past the array. *)
Example udp_client_shows_what_was_left :
  Exists (fun ev => match ev with Udp.OnMessage _ _ given _ _ => size given = 1025 | _ => False end)
    (snd (Udp.connect (Env := peer) 2 "127.0.0.1" 8000 UDPClient five_seconds welcome overlong bye
            (mkPeer [[Byte.x41; Byte.x42]] [] 0))).
Proof. vm_compute. do 10 (first [by left | right]). Qed.

(** A callback that asks for a byte more than the array holds: it is shown a size
    within it all the same, and nothing longer is written. *)
Lemma endpoints_typed_witness :
  let s := TcpServer.connection_task (Env := peer) 3 local_config 7 "peer" welcome overlong bye
             (mkPeer [[Byte.x41; Byte.x42]] [] 0) in
  is_Ret (fst (fst s)) = false /\ length (snd s) = 3%nat /\ Forall event_ok (snd s).
Proof.
  intros s. split; [by vm_compute|]. split; [by vm_compute|].
  destruct (endpoints_typed (Env := peer) 3 overlong welcome welcome bye welcome
              (mkPeer [[Byte.x41; Byte.x42]] [] 0)) as (Htask & _).
  exact (wp_outcome _ (fun _ t => Forall event_ok t) _ (Htask local_config 7 "peer"%string)).
Defined.
End Runs.
