(* ===== verification/ServerTasks.v ===== *)
(** The TCP server with its connections ([stream/tcp/tcp_server.rs]): the accept
    loop and the tasks it spawned, in every interleaving, over the shutdown channel
    and its lock. The accept loop and a connection are automata that the code of
    [TcpServer] refines; the system puts one of the first with any number of the
    second. *)
From S2P Require Import Prelude F64 Common TcpServer Handlers.
Local Open Scope Z_scope.
#[local] Set Default Goal Selector "!".

(** ** Paths of an automaton *)
Section steps.
Context {P E : Type} (step : P -> E -> P -> Prop).

Inductive steps : P -> list E -> P -> Prop :=
| steps_nil p : steps p [] p
| steps_cons p ev q t r : step p ev q -> steps q t r -> steps p (ev :: t) r.

Lemma steps_one p ev q : step p ev q -> steps p [ev] q.
Proof. intros Hs. econstructor; [done|constructor]. Qed.

Lemma steps_app p t q u r : steps p t q -> steps q u r -> steps p (t ++ u) r.
Proof. induction 1; [done|]. intros Hu. econstructor; eauto. Qed.

Lemma steps_prefix p t u r : t `prefix_of` u -> steps p u r -> exists q, steps p t q.
Proof.
  intros [k ->]. revert p. induction t as [|ev t IH]; intros p Hu; [eexists; constructor|].
  inversion Hu as [|? ? q ? ? Hs Ht]; subst. destruct (IH q Ht) as [q' Hq]. exists q'. by econstructor.
Qed.

(** A property of the phase and of what was seen on the way to it. *)
Lemma steps_inv (J : P -> list E -> Prop) p t q u :
  (forall p t ev q, J p t -> step p ev q -> J q (t ++ [ev])) -> J p t -> steps p u q -> J q (t ++ u).
Proof.
  intros Hstep HJ Hu. revert t HJ. induction Hu as [p|p ev q u r Hs _ IH]; intros t HJ; [by rewrite app_nil_r|].
  rewrite (cons_middle ev), (assoc_L app). by eapply IH, Hstep.
Qed.
End steps.

(** ** The accept loop as an automaton *)
Section main.
Context `{!Errors} `{!Net} `{!TlsLib}.

Inductive main_phase :=
| Starting | Failed | Bound | WithTtl
| Polling | Locked | Accepting | Handing (c : Conn) (a : SocketAddr)
| Stopping | Closed_.

(** Where the loop polls: at its start, and after an accept that timed out. *)
Definition polls (p : main_phase) : Prop := p = Polling \/ p = Accepting.

Inductive main_step : main_phase -> server_event -> main_phase -> Prop :=
| main_bind a : main_step Starting (Bind a (Ok tt)) Bound
| main_not_bound a x : main_step Starting (Bind a (Err x)) Failed
| main_ttl n : main_step Bound (SetTtl n (Ok tt)) WithTtl
| main_no_ttl n x : main_step Bound (SetTtl n (Err x)) Failed
| main_ready a : main_step WithTtl (OnBind a (Ok tt)) Polling
| main_refused a x : main_step WithTtl (OnBind a (Err x)) Failed
| main_locked p : polls p -> main_step p (TryLock true) Locked
| main_busy p : polls p -> main_step p (TryLock false) Accepting
| main_asked : main_step Locked (TryRecv (Some true)) Stopping
| main_not_asked s : s <> Some true -> main_step Locked (TryRecv s) Accepting
| main_accept c a : main_step Accepting (Accept (Ok (c, a))) (Handing c a)
| main_no_accept x : main_step Accepting (Accept (Err x)) Polling
| main_spawn c a : main_step (Handing c a) (Spawn c a) Polling
| main_closed a r : main_step Stopping (OnCloseSocket a r) Closed_.

(** The shutdowns received. *)
Definition received (t : list server_event) : list bool :=
  omap (fun ev => match ev with TryRecv s => s | _ => None end) t.
Definition closed_socket (ev : server_event) : bool :=
  match ev with OnCloseSocket _ _ => true | _ => false end.

(** What the phase says of the past: every accepted connection was spawned, but
    for the one being handed over; no shutdown was received, but for the one that
    stopped the loop; the close callback ran at the end only. *)
Definition main_past (p : main_phase) (t : list server_event) : Prop :=
  accepted t = spawned t ++ match p with Handing c a => [(c, a)] | _ => [] end /\
  (exists fs, Forall (fun b => b = false) fs /\
     received t = fs ++ match p with Stopping | Closed_ => [true] | _ => [] end) /\
  (existsb closed_socket t = true -> p = Closed_).

Lemma main_past_step p t ev q : main_past p t -> main_step p ev q -> main_past q (t ++ [ev]).
Proof.
  intros (Ha & (fs & Hfs & Hr) & Hc) Hs. unfold main_past, accepted, spawned, received in *.
  rewrite !omap_app, existsb_app, Ha, Hr.
  destruct Hs as [| | | | | |? [-> | ->]|? [-> | ->]| |[[]|] ?| | | |]; cbn; rewrite ?app_nil_r, ?orb_false_r in *;
    try done; (split; [done|split; [|intros Hx; first [done|by apply Hc in Hx]]]); try (by exists fs; rewrite ?app_nil_r).
  exists (fs ++ [false]). rewrite app_nil_r. split; [|done]. apply Forall_app. by repeat constructor.
Qed.

Lemma main_steps_past t q : steps main_step Starting t q -> main_past q t.
Proof.
  intros Hs. refine (steps_inv _ main_past Starting [] q t main_past_step _ Hs).
  split; [done|]. split; [|done]. by exists [].
Qed.

Context {Env : Type} `{!Race Env} `{!Listener Env}.
Implicit Types e : Env.

(** The accept of a round, from wherever it was polled. *)
Lemma accept_steps config p t e :
  timeout_ok (accept_timeout_in_secs config) -> steps main_step p t Accepting ->
  wp (r ← with_timeout (accept_timeout_in_secs config)
            (timeout_for_accept (accept_timeout_in_secs config)) (obs accept Accept);
      match r with
      | Err _ => mret (@Continue unit unit tt)
      | Ok (stream, peer_addr) => _ ← emit (Spawn stream peer_addr); mret (@Continue unit unit tt)
      end)
    (fun r _ u => r = Ret (Continue tt) /\ exists q, polls q /\ steps main_step p (t ++ u) q) e.
Proof.
  intros Hok Hp. apply wp_bind, wp_with_timeout; [done| |].
  - intros d e1 Hd. apply wp_bind, wp_lift. rewrite Hd. do 2 apply wp_ret. split; [done|].
    exists Accepting. rewrite app_nil_r. by split; [right|].
  - intros e1. apply wp_obs. intros [[c a]|x] e2 _.
    + apply wp_bind, wp_emit, wp_ret. split; [done|]. exists Polling. split; [by left|].
      eapply steps_app; [done|]. econstructor; [constructor|]. apply steps_one. constructor.
    + apply wp_ret. split; [done|]. exists Polling. split; [by left|].
      eapply steps_app; [done|]. apply steps_one. constructor.
Qed.

Lemma main_round_steps config p e :
  timeout_ok (accept_timeout_in_secs config) -> polls p ->
  wp (main_round config tt) (fun r _ t =>
    r = Ret (Continue tt) /\ (exists q, polls q /\ steps main_step p t q) \/
    r = Ret (Break tt) /\ steps main_step p t Stopping) e.
Proof.
  intros Hok Hp. unfold main_round, shutdown_requested. apply wp_bind, wp_bind, wp_obs.
  intros [] e1 _.
  2:{ apply wp_ret. eapply wp_mono; [|by eapply (accept_steps config p [TryLock false]), steps_one, main_busy].
      intros r e2 t [-> Hq]. by left. }
  apply wp_bind, wp_obs. intros s e2 _. apply wp_ret. destruct s as [[]|].
  - apply wp_ret. right. split; [done|]. econstructor; [by apply main_locked|]. apply steps_one. constructor.
  - eapply wp_mono; [|eapply (accept_steps config p [TryLock true; TryRecv (Some false)]); [done|]].
    + intros r e3 t [-> Hq]. by left.
    + econstructor; [by apply main_locked|]. by apply steps_one, main_not_asked.
  - eapply wp_mono; [|eapply (accept_steps config p [TryLock true; TryRecv None]); [done|]].
    + intros r e3 t [-> Hq]. by left.
    + econstructor; [by apply main_locked|]. by apply steps_one, main_not_asked.
Qed.

Lemma main_loop_steps fuel config e :
  timeout_ok (accept_timeout_in_secs config) ->
  wp (server_main_loop fuel config) (fun r _ t =>
    match r with Ret _ => steps main_step Polling t Stopping | _ => exists q, steps main_step Polling t q end) e.
Proof.
  intros Hok. unfold server_main_loop.
  refine (wp_loop (fun _ _ t => exists q, polls q /\ steps main_step Polling t q)
            (fun r _ t => match r with
               | Ret _ => steps main_step Polling t Stopping
               | _ => exists q, steps main_step Polling t q
               end) _ _ _ fuel tt e [] _).
  - intros _ e0 t (q & _ & Hq). by exists q.
  - intros [] e0 t (q & Hp & Hq). eapply wp_mono; [|by apply main_round_steps].
    intros r e1 u [(-> & q' & Hp' & Hq')|(-> & Hq')]; [exists q'; split; [done|]|]; by eapply steps_app.
  - exists Polling. split; [by left|constructor].
Qed.

(** The code of the server is the automaton, from its start. *)
Lemma server_steps fuel config on_bind on_close e :
  timeout_ok (accept_timeout_in_secs config) ->
  wp (server fuel config on_bind on_close) (fun _ _ t => exists q, steps main_step Starting t q) e.
Proof.
  intros Hok. unfold server. destruct (addr_from_str _) as [a|x]; [|apply wp_ret; eexists; constructor].
  apply wp_try, wp_obs. intros [[]|x] e1 _; [|eexists; apply steps_one; constructor].
  apply wp_try, wp_obs. intros [[]|x] e2 _;
    [|eexists; econstructor; [constructor|]; apply steps_one; constructor].
  apply wp_try, wp_call.
  assert (steps main_step Starting [Bind a (Ok tt); SetTtl (ttl config) (Ok tt)] WithTtl) as Hbound.
  { econstructor; [constructor|]. apply steps_one. constructor. }
  intros [[[]|x]|why|] e3 _; [| |by eexists|by eexists].
  2:{ eexists. eapply (steps_app _ _ [_; _] _ [_]); [done|]. apply steps_one. constructor. }
  apply wp_bind. eapply wp_mono; [|by apply main_loop_steps].
  assert (forall t q, steps main_step Polling t q ->
    steps main_step Starting (Bind a (Ok tt) :: SetTtl (ttl config) (Ok tt) :: OnBind a (Ok tt) :: t) q) as Hpre.
  { intros t q Ht. eapply (steps_app _ _ [_; _] _ (_ :: t)); [done|]. econstructor; [constructor|done]. }
  intros [[]|why|] e4 t Ht; [|by destruct Ht as [q Hq%Hpre]; exists q..].
  apply wp_call. intros [r|why|] e5 _; [|by eexists; apply Hpre; rewrite ?app_nil_r..].
  exists Closed_. apply Hpre. eapply steps_app; [done|]. apply steps_one. constructor.
Qed.
End main.

(** ** A connection as an automaton *)
Section connection.
Context `{!Errors} `{!Net} `{!WsLib} `{!TlsLib}.

Inductive conn_phase := Accepted | Ready | Refused | Serving | Gone (r : result unit anyhow) | Ended.

(** What happens between the callbacks of a connection with [peer]. *)
Definition own (peer : SocketAddr) (ev : event) : Prop :=
  inner ev /\ match ev with OnMessage _ a _ _ _ => a = peer | _ => True end.

Inductive conn_step (tls : bool) (peer : SocketAddr) : conn_phase -> event -> conn_phase -> Prop :=
| conn_tls c : tls = true -> conn_step tls peer Accepted (TlsAccept (Ok c)) Ready
| conn_no_tls x : tls = true -> conn_step tls peer Accepted (TlsAccept (Err x)) Ended
| conn_open : conn_step tls peer Ready (OnAccept peer (Ok tt)) Serving
| conn_refused x : conn_step tls peer Ready (OnAccept peer (Err x)) Refused
| conn_own ev : own peer ev -> conn_step tls peer Serving ev Serving
| conn_closed msg r : conn_step tls peer Serving (OnClose peer msg r) (Gone r)
| conn_log p msg :
    p = Refused \/ p = Serving \/ (exists x, p = Gone (Err x)) -> conn_step tls peer p (LogError msg) Ended.

(** Without TLS a connection is ready from the start. *)
Definition conn_start (tls : bool) : conn_phase := if tls then Accepted else Ready.

Definition opened (ev : event) : bool := match ev with OnAccept _ (Ok _) => true | _ => false end.
Definition ended (ev : event) : bool := match ev with OnClose _ _ _ => true | _ => false end.

(** How often the callbacks have run. *)
Definition conn_past (p : conn_phase) (t : list event) : Prop :=
  match p with
  | Accepted | Ready | Refused => count opened t = 0%nat /\ count ended t = 0%nat
  | Serving => count opened t = 1%nat /\ count ended t = 0%nat
  | Gone _ => count opened t = 1%nat /\ count ended t = 1%nat
  | Ended => (count ended t <= count opened t <= 1)%nat
  end.

Lemma conn_past_step tls peer p t ev q :
  conn_past p t -> conn_step tls peer p ev q -> conn_past q (t ++ [ev]).
Proof.
  intros Hp Hs. unfold conn_past in *. rewrite !count_app.
  destruct Hs as [c ?|x ?| |x|[] [Hi _]|msg r|p msg [->|[->|[x ->]]]]; try done;
    unfold count at 2 4; cbn in *; lia.
Qed.

Lemma conn_steps_past tls peer t q : steps (conn_step tls peer) (conn_start tls) t q -> conn_past q t.
Proof.
  intros Hs. refine (steps_inv _ conn_past (conn_start tls) [] q t (conn_past_step tls peer) _ Hs).
  by destruct tls.
Qed.

Lemma conn_counts p t : conn_past p t -> (count ended t <= count opened t <= 1)%nat.
Proof. destruct p; cbn; lia. Qed.

Lemma own_steps tls peer t : Forall (own peer) t -> steps (conn_step tls peer) Serving t Serving.
Proof. induction 1; econstructor; [|done]. by constructor. Qed.
End connection.

(** ** The code of a connection is the automaton

    The handlers show nothing but what is theirs: the judgment of [Handlers], for
    the events of one peer. *)
Section code.
Context `{!Errors} `{!Net} `{!WsLib} `{!TlsLib} {Env : Type}.
Context `{!Clock Env} `{!Race Env} `{!Stream Env} `{!WsStream Env}.
Context (peer : SocketAddr).
#[local] Instance own_typing : Typing event := own peer.
Implicit Types (e : Env) (cb : OnMessageCallback Env).

Ltac theirs := by (split; [|done]).

Lemma safe_elapsed start : safe any (elapsed_secs (Env := Env) start).
Proof. apply (safe_bind any); [by apply safe_act|by intros; apply safe_ret]. Qed.

Lemma safe_shown cb secs b : safe any (run_on_message cb secs peer b).
Proof. apply safe_call. intros e [after r] e' _. theirs. Qed.

Lemma native_own fuel secs cb : safe any (handle_tcp_connection (Env := Env) fuel peer secs cb).
Proof.
  unfold handle_tcp_connection. apply (safe_bind any); [by apply safe_act|]. intros start _.
  apply (safe_bind any); [|by intros; apply safe_ret]. apply (safe_loop any); [|done]. intros b _.
  unfold tcp_round. apply (safe_bind any).
  { apply safe_with_timeout; [by apply safe_timer, safe_ret|]. apply safe_obs. intros; theirs. }
  intros [d|x] _; [|by apply safe_ret]. apply (safe_bind any); [apply safe_elapsed|]. intros t _.
  apply (safe_bind any); [apply safe_shown|]. intros [after r] _. destruct (is_err r); [by apply safe_ret|].
  destruct (size after >? 0); [|by apply safe_ret]. apply (safe_bind any); [by apply safe_lift|]. intros v _.
  apply (safe_bind any); [apply safe_obs; intros; theirs|]. intros [n|x] _; [|by apply safe_ret].
  apply (safe_bind any); [apply safe_obs; intros; theirs|]. intros f _. by apply safe_ret.
Qed.

Lemma text_own m secs st cb : safe any (handle_ws_text_msg (Env := Env) m cb peer secs st).
Proof.
  unfold handle_ws_text_msg. destruct m as [s|x]; [|by apply safe_ret].
  apply (safe_bind any); [by apply safe_lift|]. intros l _. apply (safe_bind any); [apply safe_shown|].
  intros [after r] _. destruct (is_err r); [by apply safe_ret|].
  destruct (from_utf8 _); [|by apply safe_ret].
  apply (safe_bind any); [apply safe_obs; intros; theirs|]. intros x _. destruct (is_err x); by apply safe_ret.
Qed.

Lemma binary_own d secs st cb : safe any (handle_ws_binary_msg (Env := Env) d cb peer secs st).
Proof.
  unfold handle_ws_binary_msg. destruct (_ =? _); [|by apply safe_ret].
  apply (safe_bind any); [apply safe_shown|]. intros [after r] _. destruct (is_err r); [by apply safe_ret|].
  apply (safe_bind any); [apply safe_obs; intros; theirs|]. intros x _. destruct (is_err x); by apply safe_ret.
Qed.

Lemma websocket_own fuel secs cb : safe any (handle_ws_connection (Env := Env) fuel peer secs cb).
Proof.
  unfold handle_ws_connection. apply (safe_bind any); [by apply safe_act|]. intros start _.
  apply (safe_try any); [apply safe_obs; intros; theirs| |done]. intros _ _. apply (safe_bind any).
  2:{ intros st _. apply (safe_try any); [apply safe_obs; intros; theirs| |done]. intros _ _. by apply safe_ret. }
  apply (safe_loop any); [|done]. intros st _. unfold ws_round. apply (safe_bind any).
  { apply safe_with_timeout; [by apply safe_timer, safe_ret|]. apply safe_obs. intros; theirs. }
  intros [[m|x]|] _; [|by apply safe_ret..]. destruct (is_close m); [by apply safe_ret|].
  destruct (_ && _); [|by apply safe_ret]. destruct (_ >? _); [by apply safe_ret|].
  apply (safe_bind any); [apply safe_elapsed|]. intros t _. destruct (is_text m).
  - apply (safe_bind any); [apply text_own|]. intros [[] st'] _; by apply safe_ret.
  - destruct (is_binary m); [|by apply safe_ret]. eapply safe_weaken; [apply binary_own|]. by intros [].
Qed.

(** Where a connection is when its result is known. *)
Definition finished (p : conn_phase) (r : result unit anyhow) : Prop :=
  p = Gone r \/ (p = Refused \/ p = Serving) /\ is_err r = true.

Lemma accept_connection_steps tls fuel proto secs on_accept cb on_close e :
  wp (accept_connection (Env := Env) fuel proto peer secs on_accept cb on_close) (fun r _ t =>
    exists q, steps (conn_step tls peer) Ready t q /\ forall x, r = Ret x -> finished q x) e.
Proof.
  unfold accept_connection. apply wp_try, wp_call.
  intros [[[]|x]|why|] e1 _; [| |by exists Ready; split; [constructor|]..].
  2:{ exists Refused. split; [apply steps_one; constructor|]. intros y [= <-]. by right; split; [left|]. }
  apply wp_try.
  assert (safe any ((match proto with
                     | Native => handle_tcp_connection
                     | Websocket => handle_ws_connection
                     end) fuel peer secs cb)) as Hs by (destruct proto; [apply native_own|apply websocket_own]).
  eapply wp_mono; [|apply Hs]. intros r e2 t [Ht%(own_steps tls) _].
  assert (steps (conn_step tls peer) Ready (OnAccept peer (Ok tt) :: t) Serving) as Hopen
    by (econstructor; [constructor|done]).
  destruct r as [[msg|x]|why|]; [| |exists Serving; split; [exact Hopen|done]..].
  2:{ exists Serving. split; [exact Hopen|]. intros y [= <-]. by right; split; [right|]. }
  apply wp_call. intros [r|why|] e3 _; [|exists Serving; rewrite app_nil_r; split; [exact Hopen|done]..].
  exists (Gone r). split; [|by intros y [= <-]; left].
  eapply (steps_app _ _ (_ :: t)); [exact Hopen|]. apply steps_one. constructor.
Qed.

Context `{!Listener Env}.

Definition uses_tls (config : TcpServerConfig) : bool := match tls config with Some _ => true | None => false end.

Lemma connection_task_steps fuel config stream on_accept cb on_close e :
  wp (connection_task (Env := Env) fuel config stream peer on_accept cb on_close) (fun _ _ t =>
    exists q, steps (conn_step (uses_tls config) peer) (conn_start (uses_tls config)) t q) e.
Proof.
  assert (forall q x msg, finished q x -> is_err x = true ->
    conn_step (uses_tls config) peer q (LogError msg) Ended) as Hlog.
  { intros q x msg [->|[[->| ->] _]] Hx; constructor; auto. destruct x as [[]|x]; [done|]. right; right. by exists x. }
  unfold connection_task, uses_tls in *. destruct (tls config) as [acceptor|]; cbn [conn_start] in *.
  - apply wp_bind, wp_obs. intros [c|x] e1 _.
    2:{ apply wp_ret. eexists. apply steps_one. by constructor. }
    apply wp_bind. eapply wp_mono; [|apply (accept_connection_steps true)]. intros r e2 t (q & Hq & Hf).
    assert (steps (conn_step true peer) Accepted (TlsAccept (Ok c) :: t) q) as Ht by (econstructor; [by constructor|done]).
    destruct r as [x|why|]; [|by exists q..]. apply wp_bind. specialize (Hf x eq_refl).
    destruct (is_err x) eqn:Hx; [apply wp_emit, wp_ret|apply wp_ret, wp_ret].
    + exists Ended. rewrite app_nil_r. eapply (steps_app _ _ (_ :: t)); [exact Ht|]. eapply steps_one, Hlog; done.
    + exists q. by rewrite !app_nil_r.
  - apply wp_bind. eapply wp_mono; [|apply (accept_connection_steps false)]. intros r e2 t (q & Hq & Hf).
    destruct r as [[[]|x]|why|]; [| |by exists q..]; specialize (Hf _ eq_refl).
    + apply wp_bind, wp_ret, wp_ret. exists q. by rewrite !app_nil_r.
    + apply wp_bind, wp_emit, wp_ret. exists Ended. rewrite app_nil_r. eapply steps_app; [exact Hq|].
      eapply steps_one, Hlog; done.
Qed.
End code.

(** ** The system

    The accept loop, the task of each connection it spawned, and whoever else holds
    the channel and its lock (the callbacks among them). *)
Section system.
Context `{!Errors} `{!Net} `{!WsLib} `{!TlsLib}.

Inductive label :=
| ByMain (ev : server_event)
| ByTask (i : nat) (ev : event)
| Takes
| Sends (b : bool)
| Releases.
Inductive holder := Free | MainHolds | OtherHolds.
Record world := mkWorld { chan : list bool; lock : holder; conns : list (Conn * SocketAddr) }.
Definition start : world := mkWorld [] Free [].

(** The loop gets the lock exactly when it is free, and holds it for one receive,
    which takes the oldest shutdown; a spawned connection is a new task; a task
    acts once it is spawned. *)
Definition sys_step (w : world) (l : label) : option world :=
  match l, lock w with
  | ByMain (TryLock true), Free => Some (mkWorld (chan w) MainHolds (conns w))
  | ByMain (TryLock false), OtherHolds => Some w
  | ByMain (TryLock _), _ => None
  | ByMain (TryRecv s), MainHolds =>
    if decide (s = head (chan w)) then Some (mkWorld (tail (chan w)) Free (conns w)) else None
  | ByMain (TryRecv _), _ => None
  | ByMain (Spawn c a), _ => Some (mkWorld (chan w) (lock w) (conns w ++ [(c, a)]))
  | ByMain _, _ => Some w
  | ByTask i _, _ => if decide (i < length (conns w))%nat then Some w else None
  | Takes, Free => Some (mkWorld (chan w) OtherHolds (conns w))
  | Releases, OtherHolds => Some (mkWorld (chan w) Free (conns w))
  | Takes, _ | Releases, _ => None
  | Sends b, _ => Some (mkWorld (chan w ++ [b]) (lock w) (conns w))
  end.
Fixpoint sys_run (w : world) (tr : list label) : option world :=
  match tr with [] => Some w | l :: tr => w ← sys_step w l; sys_run w tr end.

Definition main_part : list label -> list server_event :=
  omap (fun l => match l with ByMain ev => Some ev | _ => None end).
Definition task_part (i : nat) : list label -> list event :=
  omap (fun l => match l with ByTask j ev => if decide (j = i) then Some ev else None | _ => None end).
Definition task_events : list label -> list event :=
  omap (fun l => match l with ByTask _ ev => Some ev | _ => None end).
Definition asked : list label -> list bool :=
  omap (fun l => match l with Sends b => Some b | _ => None end).

Lemma main_part_cons l tr : main_part (l :: tr) = main_part [l] ++ main_part tr.
Proof. apply (omap_app _ [l]). Qed.
Lemma asked_cons l tr : asked (l :: tr) = asked [l] ++ asked tr.
Proof. apply (omap_app _ [l]). Qed.
Lemma received_app t u : received (t ++ u) = received t ++ received u.
Proof. apply omap_app. Qed.
Lemma spawned_app t u : spawned (t ++ u) = spawned t ++ spawned u.
Proof. apply omap_app. Qed.

Lemma sys_step_account w l w' :
  sys_step w l = Some w' ->
  chan w ++ asked [l] = received (main_part [l]) ++ chan w' /\
  conns w' = conns w ++ spawned (main_part [l]) /\
  (forall i ev, l = ByTask i ev -> (i < length (conns w))%nat).
Proof.
  destruct w as [ch lk cs]. unfold sys_step. cbn. intros Hs.
  destruct l as [[]|i ev| | |]; repeat case_match; simplify_eq; cbn; rewrite ?app_nil_r;
    (split_and!; [try done|done|intros ? ? ?; by simplify_eq]).
  by destruct ch.
Qed.

(** What the system keeps: the channel is a fifo, the tasks are those spawned, and
    only they act. *)
Lemma sys_account tr w w' :
  sys_run w tr = Some w' ->
  chan w ++ asked tr = received (main_part tr) ++ chan w' /\
  conns w' = conns w ++ spawned (main_part tr) /\
  (forall i ev, ByTask i ev ∈ tr -> (i < length (conns w'))%nat).
Proof.
  revert w. induction tr as [|l tr IH]; intros w; cbn [sys_run].
  { intros [= <-]. split_and!; [by rewrite app_nil_r|by rewrite app_nil_r|by intros ? ? ?%not_elem_of_nil]. }
  destruct (sys_step w l) as [w1|] eqn:Hstep; [|done]. cbn [mbind option_bind]. intros Hrun.
  destruct (sys_step_account _ _ _ Hstep) as (Hc1 & Hs1 & Hi1). destruct (IH _ Hrun) as (Hc & Hs & Hi).
  rewrite main_part_cons, asked_cons, received_app, spawned_app. split_and!.
  - by rewrite (assoc_L app), Hc1, <-!(assoc_L app), Hc.
  - by rewrite Hs, Hs1, (assoc_L app).
  - intros i ev [Heq|Hin]%elem_of_cons; [|by eapply Hi]. specialize (Hi1 i ev (eq_sym Heq)).
    rewrite Hs, Hs1, !length_app. lia.
Qed.

Lemma task_part_cons i j ev tr :
  task_part i (ByTask j ev :: tr) = (if decide (j = i) then [ev] else []) ++ task_part i tr.
Proof. unfold task_part. cbn. by destruct (decide _). Qed.

Lemma sum_one j c n :
  (j < n)%nat -> sum_list_with (fun i => if decide (j = i) then c else 0%nat) (seq 0 n) = c.
Proof.
  intros Hj. induction n as [|n IH]; [lia|]. rewrite seq_S, sum_list_with_app. cbn.
  destruct (decide (j = n)) as [->|].
  - assert (forall m, (m <= n)%nat -> sum_list_with (fun i => if decide (n = i) then c else 0%nat) (seq 0 m) = 0%nat)
      as ->; [|done|lia].
    induction m as [|m IHm]; [done|]. intros Hm. rewrite seq_S, sum_list_with_app, IHm by lia. cbn.
    destruct (decide (n = m)); lia.
  - rewrite IH; lia.
Qed.

(** The events of all tasks, counted task by task. *)
Lemma count_tasks f tr n :
  (forall i ev, ByTask i ev ∈ tr -> (i < n)%nat) ->
  count f (task_events tr) = sum_list_with (fun i => count f (task_part i tr)) (seq 0 n).
Proof.
  induction tr as [|l tr IH]; intros Hn.
  { induction (seq 0 n); [done|]. by cbn. }
  assert (forall i ev, ByTask i ev ∈ tr -> (i < n)%nat) as Hn' by (intros i ev Hin; eapply Hn; by right).
  specialize (IH Hn'). destruct l as [ev|j ev| |b|]; [exact IH| |exact IH..].
  assert (j < n)%nat as Hj by (eapply Hn; by left).
  change (task_events _) with ([ev] ++ task_events tr). rewrite count_app, IH, <-(sum_one j (count f [ev]) n Hj).
  generalize (seq 0 n). induction l as [|i k IHk]; [done|]. cbn [sum_list_with]. rewrite <-IHk, task_part_cons, count_app.
  destruct (decide (j = i)); [lia|]. change (count f []) with 0%nat. lia.
Qed.

Lemma sum_le {A} (f g : A -> nat) l :
  (forall x, x ∈ l -> (f x <= g x)%nat) -> (sum_list_with f l <= sum_list_with g l)%nat.
Proof.
  induction l as [|x l IH]; intros Hfg; [done|]. cbn. specialize (Hfg x ltac:(by left)) as Hx.
  assert (sum_list_with f l <= sum_list_with g l)%nat by (apply IH; intros y Hy; apply Hfg; by right). lia.
Qed.
Lemma sum_ones {A} (l : list A) : sum_list_with (fun _ => 1%nat) l = length l.
Proof. induction l; cbn; lia. Qed.
End system.

(** ** A server at work *)
Section server.
Context `{!Errors} `{!Net} `{!WsLib} `{!TlsLib} {S T : Type}.
Context `{!Race S} `{!Listener S}.
Context `{!Clock T} `{!Race T} `{!Stream T} `{!WsStream T} `{!Listener T}.

(** C11: a server and its connections, at any point of any interleaving of the
    accept loop, the tasks and those who ask for shutdowns. Every accepted
    connection has a task of its own, in order, but for the one being handed over;
    a task goes through the phases of a connection with its own peer, whatever the
    others do, also after the server has returned; so connections closed, opened
    and accepted come in that order of number. Shutdowns are received in the order
    they were asked for; the loop goes on over any number of [false]s and ends with
    the first [true]: the server's close callback runs only then, with nothing left
    half accepted. *)
Theorem server_and_tasks fuel config on_bind on_close_socket (e : S)
    on_accept (on_message : OnMessageCallback T) on_close tr w :
  timeout_ok (accept_timeout_in_secs config) ->
  sys_run start tr = Some w ->
  main_part tr `prefix_of` snd (server fuel config on_bind on_close_socket e) ->
  (forall i c a, conns w !! i = Some (c, a) -> exists fuel_i (e_i : T),
     task_part i tr `prefix_of` snd (connection_task fuel_i config c a on_accept on_message on_close e_i)) ->
  (accepted (main_part tr) = conns w \/ exists p, accepted (main_part tr) = conns w ++ [p]) /\
  (forall i c a, conns w !! i = Some (c, a) -> exists q,
     steps (conn_step (uses_tls config) a) (conn_start (uses_tls config)) (task_part i tr) q) /\
  (count ended (task_events tr) <= count opened (task_events tr) <= length (conns w))%nat /\
  (exists fs, Forall (fun b => b = false) fs /\
     (asked tr = fs ++ chan w \/ asked tr = fs ++ true :: chan w) /\
     (existsb closed_socket (main_part tr) = true ->
        asked tr = fs ++ true :: chan w /\ accepted (main_part tr) = conns w)).
Proof.
  intros Hok Hrun Hmain Htasks.
  destruct (sys_account _ _ _ Hrun) as (Hchan & Hconns & Hidx). cbn in Hchan, Hconns.
  assert (exists q, steps main_step Starting (snd (server fuel config on_bind on_close_socket e)) q) as [q0 Hq0]
    by exact (wp_outcome _ (fun _ t => exists q, steps main_step Starting t q) e (server_steps _ _ _ _ _ Hok)).
  destruct (steps_prefix _ _ _ _ _ Hmain Hq0) as [q Hq]. apply main_steps_past in Hq as (Ha & (fs & Hfs & Hr) & Hc).
  assert (forall i c a, conns w !! i = Some (c, a) -> exists q,
     steps (conn_step (uses_tls config) a) (conn_start (uses_tls config)) (task_part i tr) q) as Hpaths.
  { intros i c a Hi. destruct (Htasks i c a Hi) as (fuel_i & e_i & Hpre).
    destruct (wp_outcome _ (fun _ t => exists q, steps _ _ t q) e_i
      (connection_task_steps a fuel_i config c on_accept on_message on_close e_i)) as [q1 Hq1].
    by eapply steps_prefix. }
  assert (forall i, i ∈ seq 0 (length (conns w)) ->
    (count ended (task_part i tr) <= count opened (task_part i tr) <= 1)%nat) as Hcounts.
  { intros i Hi%elem_of_seq. destruct (lookup_lt_is_Some_2 (conns w) i) as [[c a] Hca]; [lia|].
    destruct (Hpaths i c a Hca) as [q1 Hq1%conn_steps_past]. by eapply conn_counts. }
  rewrite Hr, <-(assoc_L app) in Hchan. split_and!; [|done| | |].
  - rewrite Ha, Hconns. destruct q; rewrite ?app_nil_r; eauto.
  - rewrite !(count_tasks _ _ _ Hidx). apply sum_le. intros i Hi. by apply Hcounts.
  - rewrite !(count_tasks _ _ _ Hidx). etrans; [by apply sum_le; intros i Hi; apply Hcounts|].
    by rewrite sum_ones, length_seq.
  - exists fs. split; [done|]. split; [rewrite Hchan; destruct q; auto|].
    intros ->%Hc. by rewrite Hchan, Ha, Hconns, app_nil_r.
Qed.
End server.

(** ** A session that outlives its server *)
Module Runs.
Import Concrete TcpServer.Runs.

(** A guest: what it will have sent; then its reads fail. *)
Definition guest := list (list u8).
#[local] Instance guest_clock : Clock guest := {| now := fun g => (0, g) |}.
#[local] Instance guest_race : Race guest := {| race := fun g => (ReadyFirst, g) |}.
#[local] Instance guest_stream : Stream guest := {|
  stream_read := fun _ g => match g with [] => (Err "reset"%string, []) | d :: g => (Ok d, g) end;
  stream_write := fun d g => (Ok (Z.of_nat (length d)), g);
  stream_flush := fun g => (Ok tt, g);
|}.
#[local] Instance guest_ws : WsStream guest :=
  {| ws_accept := fun g => (Ok tt, g); ws_next := fun g => (None, g); ws_send := fun _ g => (Ok tt, g) |}.
#[local] Instance guest_listener : Listener guest := {|
  bind := fun _ g => (Ok tt, g); set_ttl := fun _ g => (Ok tt, g); accept := fun g => (Err "no", g);
  tls_accept := fun _ c g => (Ok c, g); try_lock := fun g => (false, g); try_recv := fun g => (None, g);
|}.

(** One connection is accepted between a [false] and a [true]. *)
Definition server_part : list server_event :=
  snd (server 5 local_config welcome welcome (mkDoor [(1, "guest"%string)] true [false; true])).
Definition guest_part : list event :=
  snd (connection_task (Env := guest) 3 local_config 1 "guest"%string welcome echo bye [[Byte.x41]]).

(** The server's close callback runs while the session is open. *)
Definition outliving : list label :=
  [Sends false; Sends true] ++ map ByMain (take 7 server_part) ++ map (ByTask 0) (take 2 guest_part) ++
  map ByMain (drop 7 server_part) ++ map (ByTask 0) (drop 2 guest_part).

Example outliving_run :
  sys_run start outliving = Some (mkWorld [] Free [(1, "guest"%string)]) /\
  existsb closed_socket (take 7 server_part) = false /\ existsb closed_socket server_part = true /\
  existsb ended (take 2 guest_part) = false /\ existsb ended guest_part = true.
Proof. by vm_compute. Qed.

Lemma server_and_tasks_witness :
  sys_run start outliving = Some (mkWorld [] Free [(1, "guest"%string)]) /\
  (count ended (task_events outliving) <= count opened (task_events outliving) <= 1)%nat /\
  accepted (main_part outliving) = [(1, "guest"%string)].
Proof.
  assert (sys_run start outliving = Some (mkWorld [] Free [(1, "guest"%string)])) as Hrun by (by vm_compute).
  split; [exact Hrun|].
  assert (main_part outliving `prefix_of` server_part) as Hmain by (exists []; by vm_compute).
  assert (task_part 0 outliving `prefix_of` guest_part) as Htask by (exists []; by vm_compute).
  destruct (server_and_tasks (S := door) (T := guest) 5 local_config welcome welcome
    (mkDoor [(1, "guest"%string)] true [false; true]) welcome echo bye outliving _
    five_seconds_ok Hrun Hmain) as (_ & _ & Hcount & fs & _ & _ & Hclosed).
  - intros [|i] c a Hi; [|done]. injection Hi as <- <-. by exists 3%nat, [[Byte.x41]].
  - split; [exact Hcount|]. apply Hclosed. by vm_compute.
Defined.
End Runs.
