(* ===== verification/Tls.v ===== *)
(** TLS acceptors of the servers ([wolf/src/stream/common/tls.rs]). *)
From S2P Require Import Prelude Common.
Local Open Scope Z_scope.
#[local] Set Default Goal Selector "!".

Inductive TlsPrivateKeyType := PKCS8 | RSA.

(** The derived [Debug]. *)
Definition TlsPrivateKeyType_debug (t : TlsPrivateKeyType) : string :=
  match t with PKCS8 => "PKCS8" | RSA => "RSA" end.

(** The file system, the PEM reader and the TLS library. *)
Class Rustls `{!Errors} (Env : Type) := {
  path_debug : string -> string;
  File : Type;
  File_open : string -> Env -> result File io_error * Env;
  pem_certs : File -> Env -> result (list (list u8)) io_error * Env;
  pkcs8_private_keys : File -> Env -> result (list (list u8)) io_error * Env;
  rsa_private_keys : File -> Env -> result (list (list u8)) io_error * Env;
  rustls_error : Type;
  rustls_debug : rustls_error -> string;
  ServerConfig : Type;
  with_single_cert : list (list u8) -> list u8 -> result ServerConfig rustls_error;
}.

(** What is observed: the files read, and whether an acceptor was configured. *)
Inductive event :=
| ReadCerts (path : string)
| ReadKeys (path : string) (t : TlsPrivateKeyType)
| Configured.

Section tls.
Context `{!Errors} {Env : Type} `{!Rustls Env}.
Abbreviation IO := (M Env event).

(** [File::open(p).and_then(parse)]. *)
Definition open_and_then {A} (path : string) (parse : File -> Env -> result A io_error * Env)
    : Env -> result A io_error * Env := fun e =>
  match File_open path e with
  | (Ok f, e) => parse f e
  | (Err x, e) => (Err x, e)
  end.

Definition load_certs (p_path : string) : IO (result (list (list u8)) anyhow) :=
  r ← obs (open_and_then p_path pem_certs) (fun _ => ReadCerts p_path);
  mret (map_err (fun e => anyhow_msg
    ("could not load certs " +:+ path_debug p_path +:+ " because of " +:+ io_debug e)) r).

Definition load_private_keys (p_path : string) (p_type : TlsPrivateKeyType)
    : IO (result (list (list u8)) anyhow) :=
  r ← obs (open_and_then p_path (match p_type with
                                 | PKCS8 => pkcs8_private_keys
                                 | RSA => rsa_private_keys
                                 end)) (fun _ => ReadKeys p_path p_type);
  mret (map_err (fun e => anyhow_msg
    ("could not load private keys " +:+ path_debug p_path +:+ " with type "
     +:+ TlsPrivateKeyType_debug p_type +:+ " because of " +:+ io_debug e)) r).

(** [anyhow::ensure!]. *)
Definition ensure (c : bool) (msg : string) : result unit anyhow :=
  if c then Ok tt else Err (anyhow_msg msg).

(** [keys.remove(0)]. *)
Definition remove_first (keys : list (list u8)) : res (list u8) :=
  match keys with
  | k :: _ => Ret k
  | [] => Panic "removal index (is 0) should be < len (is 0)"
  end.

(** A parameter that must be given. *)
Definition provided {A} (what : string) (o : option A) : result A anyhow :=
  ok_or_else (anyhow_context what (anyhow_msg "Invalid Parameters for tcp::run_server")) o.

Definition new (p_tls_certificate_path p_tls_private_key_path : option string)
    (p_tls_private_type : option TlsPrivateKeyType) : IO (result ServerConfig anyhow) :=
  crt ←? mret (provided "p_tls_certificate_path not provided for tcp server" p_tls_certificate_path);
  certs ←? load_certs crt;
  _ ←? mret (ensure (bool_decide (certs = [])) "missing certificate for TLS tcp server");
  key ←? mret (provided "p_tls_private_key_path not provided for tcp server" p_tls_private_key_path);
  key_type ←? mret (provided "p_tls_private_type not provided for tcp server" p_tls_private_type);
  keys ←? load_private_keys key key_type;
  _ ←? mret (ensure (bool_decide (keys = [])) "missing private key for TLS tcp server");
  k ← lift (remove_first keys);
  match with_single_cert certs k with
  | Ok c => _ ← emit Configured; mret (Ok c)
  | Err e => mret (Err (anyhow_msg ("could not build tls server config because of " +:+ rustls_debug e)))
  end.

(** ** No configuration is accepted *)

#[local] Ltac not_configured := rewrite ?not_elem_of_cons; split_and?; done || apply not_elem_of_nil.

(** The outcomes of [new], by what its files hold. *)
Definition rejected (crt key : option string) (ty : option TlsPrivateKeyType)
    (r : res (result ServerConfig anyhow)) (t : list event) : Prop :=
  match crt with
  | None => (exists x, r = Ret (Err x)) /\ t = []
  | Some c =>
    (exists x, r = Ret (Err x)) /\ t = [ReadCerts c] \/
    exists k y, key = Some k /\ ty = Some y /\ t = [ReadCerts c; ReadKeys k y] /\
      ((exists x, r = Ret (Err x)) \/ exists why, r = Panic why)
  end.

(** C40: no TLS server can be configured: whatever the certificate file, the key
    file and the key type, [Tls::new] fails. Both guards are the wrong way
    round: a file with certificates is refused as [missing certificate], before
    the key is read; only when both files hold nothing does the code get past
    them, and then it panics on the first of no keys. *)
Theorem tls_new_rejects_everything crt key ty (e : Env) :
  wp (new crt key ty) (fun r _ t =>
    rejected crt key ty r t /\ (Configured ∉ t) /\
    (forall c f certs e1, crt = Some c -> File_open c e = (Ok f, e1) ->
       fst (pem_certs f e1) = Ok certs -> certs <> [] ->
       r = Ret (Err (anyhow_msg "missing certificate for TLS tcp server")) /\ t = [ReadCerts c])) e.
Proof.
  unfold wp, new, load_certs, load_private_keys, try_, obs, mbind, M_mbind, M_bind.
  destruct crt as [c|]; cbn; [|split; [split; [by eexists|done]|split; [not_configured|done]]].
  destruct (open_and_then c pem_certs e) as [[certs|x] e2] eqn:Hcerts; cbn.
  2: { split; [left; split; [by eexists|done]|]. split; [not_configured|].
       intros c' f' certs' e1' [= <-]. intros Hf. unfold open_and_then in Hcerts.
       rewrite Hf in Hcerts. by rewrite Hcerts. }
  destruct (decide (certs = [])) as [->|Hne]; cbn.
  2: { rewrite bool_decide_eq_false_2 by done. cbn.
       split; [left; split; [by eexists|done]|]. split; [not_configured|]. by intros c' f' certs' e1' [= <-]. }
  assert (forall (Q : Prop) c' f' certs' e1', Some c = Some c' -> File_open c' e = (Ok f', e1') ->
    fst (pem_certs f' e1') = Ok certs' -> certs' <> [] -> Q) as Hno.
  { intros Q c' f' certs' e1' [= <-] Hf. unfold open_and_then in Hcerts. rewrite Hf in Hcerts.
    rewrite Hcerts. by intros [= <-]. }
  destruct key as [k|]; cbn; [|split; [by left; split; [eexists|]|split; [not_configured|intros ????; apply Hno]]].
  destruct ty as [y|]; cbn; [|split; [by left; split; [eexists|]|split; [not_configured|intros ????; apply Hno]]].
  destruct (open_and_then k _ e2) as [[keys|x] e3]; cbn.
  - destruct keys as [|k0 keys]; cbn;
      (split; [right; exists k, y; split_and!; eauto|split; [not_configured|intros ????; apply Hno]]).
  - split; [right; exists k, y; split_and!; eauto|split; [not_configured|intros ????; apply Hno]].
Qed.
End tls.

(** ** A run: a certificate and a key that the TLS library would take *)
Module Runs.
Import Concrete.
#[export] Instance one_file : Rustls unit := {|
  path_debug := id; File := string; File_open := fun p e => (Ok p, e);
  pem_certs := fun _ e => (Ok [[Byte.x30]], e);
  pkcs8_private_keys := fun _ e => (Ok [[Byte.x31]], e);
  rsa_private_keys := fun _ e => (Ok [], e);
  rustls_error := string; rustls_debug := id;
  ServerConfig := list (list u8) * list u8; with_single_cert := fun c k => Ok (c, k);
|}.
Example good_files_are_refused :
  new (Some "crt"%string) (Some "key"%string) (Some PKCS8) tt =
    (Ret (Err "missing certificate for TLS tcp server"%string), tt, [ReadCerts "crt"]).
Proof. reflexivity. Qed.
End Runs.
