(* ===== verification/Rist.v ===== *)
(** RIST streams ([wolf/src/stream/rist.rs], over [wolf/sys/stream/rist.cpp] and
    [rist_data_block.cpp]): who owns the contexts and data blocks that cross the
    C boundary. *)
From Stdlib Require Import Ascii.
From S2P Require Import Prelude Common.
Local Open Scope Z_scope.
#[local] Set Default Goal Selector "!".

(** ** The enumerations *)
Inductive rist_connection_status :=
| RIST_CONNECTION_ESTABLISHED | RIST_CONNECTION_TIMED_OUT | RIST_CLIENT_CONNECTED | RIST_CLIENT_TIMED_OUT.
Inductive rist_ctx_mode := RIST_SENDER_MODE | RIST_RECEIVER_MODE.
Inductive rist_profile := RIST_PROFILE_SIMPLE | RIST_PROFILE_MAIN | RIST_PROFILE_ADVANCED.
Inductive rist_log_level :=
| RIST_LOG_DISABLE | RIST_LOG_ERROR | RIST_LOG_WARN | RIST_LOG_NOTICE | RIST_LOG_INFO
| RIST_LOG_DEBUG | RIST_LOG_SIMULATE.

(** [as i32], and the derived [Debug] of the mode. *)
Definition profile_i32 (p : rist_profile) : Z :=
  match p with RIST_PROFILE_SIMPLE => 0 | RIST_PROFILE_MAIN => 1 | RIST_PROFILE_ADVANCED => 2 end.
Definition log_level_i32 (l : rist_log_level) : Z :=
  match l with
  | RIST_LOG_DISABLE => -1 | RIST_LOG_ERROR => 3 | RIST_LOG_WARN => 4 | RIST_LOG_NOTICE => 5
  | RIST_LOG_INFO => 6 | RIST_LOG_DEBUG => 7 | RIST_LOG_SIMULATE => 100
  end.
Definition mode_debug (m : rist_ctx_mode) : string :=
  match m with RIST_SENDER_MODE => "RIST_SENDER_MODE" | RIST_RECEIVER_MODE => "RIST_RECEIVER_MODE" end.

Definition from_i32 (value : Z) : rist_log_level :=
  match value with
  | 3 => RIST_LOG_ERROR | 4 => RIST_LOG_WARN | 5 => RIST_LOG_NOTICE | 6 => RIST_LOG_INFO
  | 7 => RIST_LOG_DEBUG | 100 => RIST_LOG_SIMULATE | _ => RIST_LOG_DISABLE
  end.

(** ** The C heap

    What the wrapper allocates and frees: data blocks and contexts, by address;
    the byte arrays payloads point to; and the library's own state. A pointer is
    an address or null. *)
Abbreviation ptr := (option positive).

Record block := mkBlock { payload : ptr; payload_len : Z }.

(** [w_rist_ctx_t]: its profile, and whether the library's context and log are
    there (the peer is written and the loss percentage stored, and neither is
    read again). *)
Record w_ctx := mkCtx { c_profile : Z; c_ctx : bool; c_log : bool }.

Record heap (L : Type) := mkHeap {
  blocks : gmap positive block;
  ctxs : gmap positive w_ctx;
  bytes : gmap positive (list u8);
  lib : L;
}.
Arguments mkHeap {L} _ _ _ _.
Arguments blocks {L} _.
Arguments ctxs {L} _.
Arguments bytes {L} _.
Arguments lib {L} _.

Definition set_blocks {L} (b : gmap positive block) (h : heap L) : heap L :=
  mkHeap b (ctxs h) (bytes h) (lib h).
Definition set_ctxs {L} (c : gmap positive w_ctx) (h : heap L) : heap L :=
  mkHeap (blocks h) c (bytes h) (lib h).
Definition set_lib {L} (l : L) (h : heap L) : heap L :=
  mkHeap (blocks h) (ctxs h) (bytes h) l.

(** The callbacks that can be registered. *)
Inductive registration := AuthHandler | ConnStatus | OutOfBand | Stats | ReceiverData.
#[export] Instance registration_eq_dec : EqDecision registration.
Proof. solve_decision. Defined.

(** The allocator and librist. The status of a call is its result; those that
    hand blocks over act on the heap. *)
Class Librist (L : Type) := {
  calloc_fails : L -> bool * L;
  rist_logging_set : Z -> string -> L -> Z * L;
  rist_create : rist_ctx_mode -> Z -> L -> Z * L;
  simulate_loss : rist_ctx_mode -> Z -> L -> L;
  rist_destroy : positive -> L -> L;
  rist_parse_address2 : string -> L -> Z * L;
  rist_peer_create : positive -> L -> Z * L;
  rist_start : positive -> L -> Z * L;
  rist_register : registration -> positive -> L -> Z * L;
  rist_sender_data_write : positive -> positive -> heap L -> Z * heap L;
  rist_receiver_data_read2 : positive -> ptr -> Z -> heap L -> (Z * ptr) * heap L;
  rist_receiver_data_block_free2 : positive -> heap L -> ptr * heap L;
}.

(** The documentation of [rist_receiver_data_block_free2]: it releases a live
    block and points to NULL on return. A block the library will not release is
    left as it is, for the caller to free. *)
Class LibristLaws (L : Type) `{!Librist L} : Prop := {
  free2_law a (h : heap L) : is_Some (blocks h !! a) ->
    exists l, rist_receiver_data_block_free2 a h = (None, set_lib l (set_blocks (delete a (blocks h)) h)) \/
              rist_receiver_data_block_free2 a h = (Some a, set_lib l h);
}.

(** What is observed: releases of what the C side owns. *)
Inductive event := FreeBlock (a : positive) | FreeCtx (a : positive).

Definition UB_NULL : string := "undefined behaviour: null pointer dereference".
Definition UB_FREED : string := "undefined behaviour: use after free".
Definition UB_OVERREAD : string := "undefined behaviour: read past the end of an object".

Section rist.
Context `{!Errors} {L : Type} `{!Librist L}.
Abbreviation IO := (M (heap L) event).

(** A call that only concerns the library's state. *)
Definition on_lib {A} (f : L -> A * L) : IO A :=
  act (fun h => let '(a, l) := f (lib h) in (a, set_lib l h)).

(** Dereferencing a pointer to a block, and to a context. *)
Definition deref_block (p : ptr) : IO (positive * block) := fun h =>
  match p with
  | None => (Panic UB_NULL, h, [])
  | Some a => match blocks h !! a with
              | Some b => (Ret (a, b), h, [])
              | None => (Panic UB_FREED, h, [])
              end
  end.
Definition deref_ctx (p : ptr) : IO (positive * w_ctx) := fun h =>
  match p with
  | None => (Panic UB_NULL, h, [])
  | Some a => match ctxs h !! a with
              | Some c => (Ret (a, c), h, [])
              | None => (Panic UB_FREED, h, [])
              end
  end.
(** Reading [n] bytes at a pointer. *)
Definition deref_bytes (p : ptr) (n : Z) : IO (list u8) := fun h =>
  match p with
  | None => (Panic UB_NULL, h, [])
  | Some d => match bytes h !! d with
              | Some l => if n <=? Z.of_nat (length l) then (Ret (take (Z.to_nat n) l), h, [])
                          else (Panic UB_OVERREAD, h, [])
              | None => (Panic UB_FREED, h, [])
              end
  end.

(** ** [rist_data_block.cpp] *)

Definition w_rist_init_data_block : IO (option positive) :=
  fails ← on_lib calloc_fails;
  if fails : bool then mret None
  else act (fun h => let a := fresh (dom (blocks h)) in
                     (Some a, set_blocks (<[a := mkBlock None 0]> (blocks h)) h)).

Definition w_rist_set_data_block (p_block : ptr) (p_data : ptr) (p_data_len : Z) : IO unit :=
  '(a, _) ← deref_block p_block;
  act (fun h => (tt, set_blocks (<[a := mkBlock p_data p_data_len]> (blocks h)) h)).

Definition w_rist_get_data_block (p_block : ptr) : IO ptr :=
  '(_, b) ← deref_block p_block; mret (payload b).
Definition w_rist_get_data_block_len (p_block : ptr) : IO Z :=
  '(_, b) ← deref_block p_block; mret (payload_len b).

(** The pointer it leaves: the library may have released the block already. *)
Definition w_rist_free_data_block (p_block : ptr) : IO ptr :=
  '(a, _) ← deref_block p_block;
  p ← act (rist_receiver_data_block_free2 a);
  _ ← emit (FreeBlock a);
  match p with
  | Some a => _ ← act (fun h => (tt, set_blocks (delete a (blocks h)) h)); mret None
  | None => mret None
  end.

(** ** [rist_data_block] *)

Record rist_data_block := mkDataBlock { block_ptr : ptr }.

Definition default : rist_data_block := mkDataBlock None.

(** [Drop::drop]. *)
Definition drop_data_block (self : rist_data_block) : IO rist_data_block :=
  if bool_decide (block_ptr self = None) then mret self
  else p ← w_rist_free_data_block (block_ptr self); mret (mkDataBlock p).

(** [#[derive(Clone)]]: the pointer is copied. *)
Definition clone_data_block (self : rist_data_block) : rist_data_block := self.

(** The body [new] and [from] share: the block is replaced by a new one; on
    failure what the structure holds is dropped. *)
Definition init_data_block (rist_block : rist_data_block) : IO (result rist_data_block anyhow) :=
  r ← w_rist_init_data_block;
  match r with
  | Some a => mret (Ok (mkDataBlock (Some a)))
  | None =>
    _ ← drop_data_block rist_block;
    mret (Err (anyhow_msg "could not allocate memory for rist_data_block"))
  end.

Definition new_data_block : IO (result rist_data_block anyhow) := init_data_block (mkDataBlock None).

Definition from (p_data_block : ptr) : IO (result rist_data_block anyhow) :=
  init_data_block (mkDataBlock p_data_block).

(** [size_t] and [usize] have the same width. *)
Definition read_data_block (self : rist_data_block) : IO (result (list u8) anyhow) :=
  p ← w_rist_get_data_block (block_ptr self);
  len_usize ← w_rist_get_data_block_len (block_ptr self);
  if len_usize >? 0 then l ← deref_bytes p len_usize; mret (Ok l)
  else mret (Err (anyhow_msg "invalid len size. trace info rist::read")).

(** [set]: a slice is an address and a length; only these are stored. *)
Definition set_data_block (self : rist_data_block) (p_data : positive * Z) : IO unit :=
  w_rist_set_data_block (block_ptr self) (Some (fst p_data)) (snd p_data).

(** ** [rist.cpp] *)

Definition put_ctx (a : positive) (c : w_ctx) : IO unit :=
  act (fun h => (tt, set_ctxs (<[a := c]> (ctxs h)) h)).

(** The status, and the context written through the pointer if any. *)
Definition w_rist_init (p_mode : rist_ctx_mode) (p_profile p_loss_percentage p_log_level : Z)
    : IO (Z * ptr) :=
  fails ← on_lib calloc_fails;
  if fails : bool then mret (-1, None)
  else
    a ← act (fun h => let a := fresh (dom (ctxs h)) in
                      (a, set_ctxs (<[a := mkCtx p_profile false false]> (ctxs h)) h));
    s ← on_lib (rist_logging_set p_log_level
                  (match p_mode with RIST_SENDER_MODE => "sender" | RIST_RECEIVER_MODE => "receiver" end));
    if negb (s =? 0) then mret (-1, None)
    else
      _ ← put_ctx a (mkCtx p_profile false true);
      ret ← on_lib (rist_create p_mode p_profile);
      if negb (ret =? 0) then mret (-1, None)
      else
        _ ← (if p_loss_percentage >? 0 then
               on_lib (fun l => (tt, simulate_loss p_mode (p_loss_percentage * 10) l))
             else mret tt);
        _ ← put_ctx a (mkCtx p_profile true true);
        mret (0, Some a).

(** What a C string denotes: the bytes before the terminator, which has to be
    there. *)
Fixpoint c_str (s : string) : res string :=
  match s with
  | EmptyString => Panic UB_OVERREAD
  | String c s => if bool_decide (c = Ascii.zero) then Ret EmptyString
                  else r ← c_str s; mret (String c r)
  end.

Definition w_rist_connect (p_rist : ptr) (p_url : string) : IO Z :=
  s ← lift (c_str p_url);
  r ← on_lib (rist_parse_address2 s);
  '(a, _) ← deref_ctx p_rist;
  if negb (r =? 0) then mret (-1)
  else
    r ← on_lib (rist_peer_create a);
    if r =? -1 then mret (-1)
    else r ← on_lib (rist_start a); mret (if r =? -1 then -1 else 0).

(** The five registrations: out-of-band data is not for the simple profile, and
    the statuses that count as failures differ. *)
Definition w_rist_set (k : registration) (p_rist : ptr) : IO Z :=
  '(a, c) ← deref_ctx p_rist;
  if bool_decide (k = OutOfBand) && (c_profile c =? 0) then mret (-1)
  else
    r ← on_lib (rist_register k a);
    let failed := match k with AuthHandler | ReceiverData => negb (r =? 0) | _ => r =? -1 end in
    mret (if failed then -1 else 0).

Definition w_rist_write (p_rist p_block : ptr) : IO Z :=
  '(a, _) ← deref_ctx p_rist;
  '(b, _) ← deref_block p_block;
  act (rist_sender_data_write a b).

Definition w_rist_read (p_rist p_block : ptr) (p_timeout : Z) : IO (Z * ptr) :=
  '(a, _) ← deref_ctx p_rist;
  act (rist_receiver_data_read2 a p_block p_timeout).

Definition w_rist_fini (p_rist : ptr) : IO unit :=
  if bool_decide (p_rist = None) then mret tt
  else
    '(a, c) ← deref_ctx p_rist;
    _ ← (if c_ctx c then on_lib (fun l => (tt, rist_destroy a l)) else mret tt);
    _ ← act (fun h => (tt, set_ctxs (delete a (ctxs h)) h));
    emit (FreeCtx a).

(** ** [rist] *)

Record rist := mkRist {
  ctx : ptr;
  url : string;
  mode : rist_ctx_mode;
  profile : rist_profile;
  loss_percentage : Z;
  log_level : rist_log_level;
}.

(** [Drop::drop], and the derived [Clone]. *)
Definition drop_rist (self : rist) : IO unit := w_rist_fini (ctx self).
Definition clone_rist (self : rist) : rist := self.

Definition new (p_mode : rist_ctx_mode) (p_profile : rist_profile) (p_loss_percentage : Z)
    (p_log_level : rist_log_level) : IO (result rist anyhow) :=
  let obj p := mkRist p EmptyString p_mode p_profile p_loss_percentage p_log_level in
  '(ret, p) ← w_rist_init p_mode (profile_i32 p_profile) p_loss_percentage (log_level_i32 p_log_level);
  if ret =? 0 then mret (Ok (obj p))
  else
    _ ← drop_rist (obj p);
    mret (Err (anyhow_msg ("could not create rist " +:+ mode_debug p_mode))).

Definition connect (self : rist) (p_url : string) : IO (rist * result unit anyhow) :=
  let self := mkRist (ctx self) p_url (mode self) (profile self) (loss_percentage self) (log_level self) in
  ret ← w_rist_connect (ctx self) (url self);
  mret (self, if ret =? 0 then Ok tt else Err (anyhow_msg ("could not connect to " +:+ url self))).

Definition set_callback (k : registration) (what : string) (self : rist) : IO (result unit anyhow) :=
  ret ← w_rist_set k (ctx self);
  mret (if ret =? 0 then Ok tt
        else Err (anyhow_msg ("could not set " +:+ what +:+ " for " +:+ url self))).

Definition set_auth_handler := set_callback AuthHandler "auth handler".
Definition set_conn_status_callback := set_callback ConnStatus "connection status callback".
Definition set_out_of_band_callback := set_callback OutOfBand "out of band callback".
Definition set_stats_callback := set_callback Stats "stats callback".
Definition set_receiver_data_callback := set_callback ReceiverData "receiver callback".

Definition send (self : rist) (p_data_block : rist_data_block) : IO Z :=
  w_rist_write (ctx self) (block_ptr p_data_block).

Definition read (self : rist) (p_data_block : rist_data_block) (p_timeout : Z)
    : IO (Z * rist_data_block) :=
  '(n, p) ← w_rist_read (ctx self) (block_ptr p_data_block) p_timeout;
  mret (n, mkDataBlock p).
End rist.

(** ** The enumerations round trip *)

Lemma from_i32_log_level l : from_i32 (log_level_i32 l) = l.
Proof. by destruct l. Qed.

(** ** Steps on the heap *)

Section proofs.
Context `{!Errors} {L : Type} `{!Librist L} `{!LibristLaws L}.
Implicit Types h : heap L.

Lemma deref_block_live a b h (Q : res (positive * block) -> heap L -> list event -> Prop) :
  blocks h !! a = Some b -> Q (Ret (a, b)) h [] -> wp (deref_block (Some a)) Q h.
Proof. intros Ha HQ. unfold wp, deref_block. by rewrite Ha. Qed.

Lemma deref_ctx_live a c h (Q : res (positive * w_ctx) -> heap L -> list event -> Prop) :
  ctxs h !! a = Some c -> Q (Ret (a, c)) h [] -> wp (deref_ctx (Some a)) Q h.
Proof. intros Ha HQ. unfold wp, deref_ctx. by rewrite Ha. Qed.

(** A call of the library leaves the blocks, contexts and byte arrays alone. *)
Lemma wp_on_lib {A} (f : L -> A * L) h (Q : res A -> heap L -> list event -> Prop) :
  (forall a l, Q (Ret a) (set_lib l h) []) -> wp (on_lib f) Q h.
Proof.
  intros HQ. unfold on_lib. apply wp_act. intros a h' Heq.
  destruct (f (lib h)) as [a' l]. simplify_eq. apply HQ.
Qed.

(** Freeing a live block takes exactly that block away. *)
Lemma free_data_block_live a h (Q : res ptr -> heap L -> list event -> Prop) :
  is_Some (blocks h !! a) ->
  (forall l, Q (Ret None) (set_lib l (set_blocks (delete a (blocks h)) h)) [FreeBlock a]) ->
  wp (w_rist_free_data_block (Some a)) Q h.
Proof.
  intros Ha HQ. unfold w_rist_free_data_block. destruct Ha as [b Ha].
  apply wp_bind. eapply deref_block_live; [done|]. apply wp_bind, wp_act.
  intros p h' Hf. destruct (free2_law a h (mk_is_Some _ _ Ha)) as (l & [E|E]); rewrite E in Hf; simplify_eq;
    apply wp_bind, wp_emit; [by apply wp_ret|].
  apply wp_bind, wp_act. intros [] h' [= <-]. apply wp_ret. exact (HQ l).
Qed.

Lemma drop_live a h (Q : res rist_data_block -> heap L -> list event -> Prop) :
  is_Some (blocks h !! a) ->
  (forall l, Q (Ret (mkDataBlock None)) (set_lib l (set_blocks (delete a (blocks h)) h)) [FreeBlock a]) ->
  wp (drop_data_block (mkDataBlock (Some a))) Q h.
Proof.
  intros Ha HQ. unfold drop_data_block. simpl. apply wp_bind, free_data_block_live; [done|].
  intros l. by apply wp_ret.
Qed.

(** Dropping what was freed is undefined. *)
Lemma drop_freed a h (Q : res rist_data_block -> heap L -> list event -> Prop) :
  blocks h !! a = None -> Q (Panic UB_FREED) h [] -> wp (drop_data_block (mkDataBlock (Some a))) Q h.
Proof.
  intros Ha HQ. unfold drop_data_block. simpl. unfold w_rist_free_data_block.
  apply wp_bind, wp_bind. unfold wp, deref_block. by rewrite Ha.
Qed.

(** Finalizing a live context takes exactly that context away; finalizing it
    again is undefined. *)
Lemma fini_live k c h (Q : res unit -> heap L -> list event -> Prop) :
  ctxs h !! k = Some c ->
  (forall l, Q (Ret tt) (set_lib l (set_ctxs (delete k (ctxs h)) h)) [FreeCtx k]) ->
  wp (w_rist_fini (Some k)) Q h.
Proof.
  intros Hk HQ. unfold w_rist_fini. simpl. apply wp_bind. eapply deref_ctx_live; [done|].
  apply wp_bind. destruct (c_ctx c).
  - apply wp_on_lib. intros [] l. apply wp_bind, wp_act. intros [] h1 [= <-]. apply wp_emit, HQ.
  - apply wp_ret. apply wp_bind, wp_act. intros [] h1 [= <-]. apply wp_emit.
    specialize (HQ (lib h)). by destruct h.
Qed.

Lemma fini_freed k h (Q : res unit -> heap L -> list event -> Prop) :
  ctxs h !! k = None -> Q (Panic UB_FREED) h [] -> wp (w_rist_fini (Some k)) Q h.
Proof.
  intros Hk HQ. unfold w_rist_fini. simpl. apply wp_bind. unfold wp, deref_ctx. by rewrite Hk.
Qed.

(** A new block is at an address of its own, or the caller's is dropped. *)
Lemma init_data_block_wp p h (Q : res (result rist_data_block anyhow) -> heap L -> list event -> Prop) :
  (forall l, let a := fresh (dom (blocks h)) in
     Q (Ret (Ok (mkDataBlock (Some a)))) (set_lib l (set_blocks (<[a := mkBlock None 0]> (blocks h)) h)) []) ->
  (forall l, wp (drop_data_block (mkDataBlock p)) (fun r h' t =>
     match r with
     | Ret _ => Q (Ret (Err (anyhow_msg "could not allocate memory for rist_data_block"))) h' (t ++ [])
     | Panic s => Q (Panic s) h' t
     | NoFuel => Q NoFuel h' t
     end) (set_lib l h)) ->
  wp (init_data_block (mkDataBlock p)) Q h.
Proof.
  intros HOk HErr. unfold init_data_block, w_rist_init_data_block.
  apply wp_bind, wp_bind, wp_on_lib. intros [|] l.
  - apply wp_ret, wp_bind. eapply wp_mono; [|exact (HErr l)]. by intros [s|why|] h' t.
  - apply wp_act. intros r h' [= <- <-]. apply wp_ret. apply HOk.
Qed.

(** ** Ownership of data blocks *)

(** A block is made, pointed at a slice, read, and goes out of scope. *)
Definition use_block (p_data : positive * Z) : M (heap L) event (result (list u8) anyhow) :=
  b ←? new_data_block;
  _ ← set_data_block b p_data;
  r ← read_data_block b;
  _ ← drop_data_block b;
  mret r.

(** A block that came from the library is wrapped, read, and goes out of scope. *)
Definition use_foreign (a : positive) : M (heap L) event (result (list u8) anyhow) :=
  b ←? from (Some a);
  r ← read_data_block b;
  _ ← drop_data_block b;
  mret r.

(** C28: ownership of data blocks. A block that is made, pointed at a live slice
    and read in its scope gives the bytes of the slice, is released exactly once
    and leaves the heap as it was; running out of memory is an error that
    releases nothing. Wrapping a block of the library loses it instead: on
    success its address is overwritten, so it can never be read (the read is an
    error) nor released, while running out of memory releases it. No step is
    undefined. *)
Theorem rist_block_ownership h d n l a :
  bytes h !! d = Some l -> 0 < n <= Z.of_nat (length l) -> is_Some (blocks h !! a) ->
  wp (use_block (d, n)) (fun r h' t => blocks h' = blocks h /\
     ((exists x, r = Ret (Err x) /\ t = []) \/
      (exists b, r = Ret (Ok (take (Z.to_nat n) l)) /\ blocks h !! b = None /\ t = [FreeBlock b]))) h /\
  wp (use_foreign a) (fun r h' t => exists x, r = Ret (Err x) /\
     ((blocks h' = delete a (blocks h) /\ t = [FreeBlock a]) \/
      (exists b, b <> a /\ blocks h' = blocks h /\ t = [FreeBlock b]))) h.
Proof.
  intros Hd Hn Ha.
  pose proof (is_fresh (dom (blocks h))) as Hfresh%not_elem_of_dom. set (b := fresh (dom (blocks h))) in *.
  split.
  - apply wp_try. apply init_data_block_wp; cbn zeta.
    2:{ intros l0. apply wp_ret. split; [done|]. left. by eexists. }
    intros l0. fold b. apply wp_bind. unfold set_data_block, w_rist_set_data_block. simpl.
    apply wp_bind. eapply deref_block_live; [by apply lookup_insert_eq|].
    apply wp_act. intros [] h1 [= <-]. apply wp_bind. unfold read_data_block.
    apply wp_bind. unfold w_rist_get_data_block. apply wp_bind.
    eapply deref_block_live; [by apply lookup_insert_eq|]. apply wp_ret.
    apply wp_bind. unfold w_rist_get_data_block_len. apply wp_bind.
    eapply deref_block_live; [by apply lookup_insert_eq|]. apply wp_ret. simpl.
    rewrite (proj2 (Z.gtb_lt n 0)) by lia. apply wp_bind.
    unfold wp at 1, deref_bytes. simpl. rewrite Hd, (proj2 (Z.leb_le _ _)) by lia. apply wp_ret.
    apply wp_bind. apply drop_live; [by eexists; apply lookup_insert_eq|]. intros l1. apply wp_ret. simpl.
    rewrite insert_insert_eq, delete_insert_id by done. split; [done|]. right. by exists b.
  - apply wp_try. apply init_data_block_wp; cbn zeta.
    2:{ intros l0. apply drop_live; [done|]. intros l1. eexists. split; [done|]. by left. }
    intros l0. fold b. apply wp_bind. unfold read_data_block.
    apply wp_bind. unfold w_rist_get_data_block. apply wp_bind.
    eapply deref_block_live; [by apply lookup_insert_eq|]. apply wp_ret.
    apply wp_bind. unfold w_rist_get_data_block_len. apply wp_bind.
    eapply deref_block_live; [by apply lookup_insert_eq|]. apply wp_ret. simpl. apply wp_ret.
    apply wp_bind. apply drop_live; [by eexists; apply lookup_insert_eq|]. intros l1. apply wp_ret. simpl.
    eexists. split; [done|]. right. exists b. split; [|by rewrite delete_insert_id].
    intros ->. destruct Ha as [? Ha]. congruence.
Qed.

(** Cloning and dropping do not go together: [rist_data_block] and [rist] are
    [Clone], by copying the pointer, and free it when dropped, so that dropping
    a live value and a clone of it is undefined behaviour, for both types,
    whatever the library does. *)
Theorem rist_clone_double_free h b c :
  (exists a, block_ptr b = Some a /\ is_Some (blocks h !! a)) ->
  (exists a, ctx c = Some a /\ is_Some (ctxs h !! a)) ->
  wp (_ ← drop_data_block b; drop_data_block (clone_data_block b)) (fun r _ _ => r = Panic UB_FREED) h /\
  wp (_ ← drop_rist c; drop_rist (clone_rist c)) (fun r _ _ => r = Panic UB_FREED) h.
Proof.
  destruct b as [p]. simpl. intros (a & -> & Ha) (k & Hk & [w Hw]). split.
  - apply wp_bind, drop_live; [done|]. intros l. apply drop_freed; [|done]. apply lookup_delete_eq.
  - unfold clone_rist, drop_rist. rewrite Hk. eapply wp_bind, fini_live; [done|].
    intros l. apply fini_freed; [|done]. apply lookup_delete_eq.
Qed.

(** ** The life of a context *)

(** A context is made and goes out of scope. *)
Definition use_rist (m : rist_ctx_mode) (p : rist_profile) (loss : Z) (l : rist_log_level)
    : M (heap L) event (result unit anyhow) :=
  r ←? new m p loss l;
  _ ← drop_rist r;
  mret (Ok tt).

(** The strings that hold a NUL. *)
Fixpoint has_nul (s : string) : bool :=
  match s with EmptyString => false | String c s => bool_decide (c = Ascii.zero) || has_nul s end.

Lemma c_str_unterminated u : has_nul u = false -> c_str u = Panic UB_OVERREAD.
Proof.
  induction u as [|c u IH]; simpl; [done|]. intros [-> Hu]%orb_false_iff. by rewrite IH.
Qed.

Lemma c_str_terminated u rest : has_nul u = false -> c_str (u +:+ String Ascii.zero rest) = Ret u.
Proof.
  induction u as [|c u IH]; [done|]. intros [Hc Hu]%orb_false_iff.
  change (String c u +:+ String zero rest) with (String c (u +:+ String zero rest)). simpl.
  by rewrite Hc, IH.
Qed.

(** What [w_rist_init] leaves: a fresh context, a leak, or nothing. *)
Lemma w_rist_init_wp m p loss lvl h (Q : res (Z * ptr) -> heap L -> list event -> Prop) :
  let k := fresh (dom (ctxs h)) in
  (forall l, fst (calloc_fails (lib h)) = true -> Q (Ret (-1, None)) (set_lib l h) []) ->
  (forall l w, fst (calloc_fails (lib h)) = false ->
     Q (Ret (-1, None)) (set_lib l (set_ctxs (<[k := w]> (ctxs h)) h)) []) ->
  (forall l w, fst (calloc_fails (lib h)) = false ->
     Q (Ret (0, Some k)) (set_lib l (set_ctxs (<[k := w]> (ctxs h)) h)) []) ->
  wp (w_rist_init m p loss lvl) Q h.
Proof.
  intros k Hnone Hleak Hnew. unfold w_rist_init. apply wp_bind. unfold on_lib at 1.
  apply wp_act. intros fails h1 Hcalloc. destruct (calloc_fails (lib h)) as [fails' l0].
  simplify_eq. simpl in *. destruct fails; [by apply wp_ret, Hnone|].
  apply wp_bind, wp_act. intros k0 h1 [= <- <-]. apply wp_bind, wp_on_lib. intros s l1.
  destruct (s =? 0); simpl; [|by apply wp_ret, Hleak].
  apply wp_bind. unfold put_ctx. apply wp_act. intros [] h2 [= <-]. apply wp_bind, wp_on_lib. intros ret l2.
  destruct (ret =? 0); simpl; [|apply wp_ret]; unfold set_ctxs, set_lib; simpl.
  2:{ rewrite insert_insert_eq. by apply Hleak. }
  apply wp_bind. assert (forall l, wp
    (_ ← act (fun h : heap L => (tt, set_ctxs (<[k := mkCtx p true true]> (ctxs h)) h)); mret (0, Some k))
    Q (mkHeap (blocks h) (<[k := mkCtx p false true]> (<[k := mkCtx p false false]> (ctxs h))) (bytes h) l)) as Hend.
  { intros l. apply wp_bind, wp_act. intros [] h2 [= <-]. apply wp_ret. unfold set_ctxs. simpl.
    rewrite !insert_insert_eq. by apply (Hnew l). }
  destruct (loss >? 0); [apply wp_on_lib; intros [] l3|apply wp_ret]; apply Hend.
Qed.

(** Contexts. One that is made and goes out of scope is released exactly once
    and leaves the heap as it was; when the allocation fails nothing is released
    or kept, but when a later step of the creation fails the allocated context
    is lost: it stays on the heap and no pointer to it is left. Connecting reads
    past the end of every address: the bytes of the [String] are passed without
    a terminator (only an address that holds a NUL is read within bounds, up to
    it). *)
Theorem rist_context_life h m p loss lvl c u :
  wp (use_rist m p loss lvl) (fun r h' t => blocks h' = blocks h /\
     ((r = Ret (Ok tt) /\ ctxs h' = ctxs h /\ exists k, ctxs h !! k = None /\ t = [FreeCtx k]) \/
      (exists x, r = Ret (Err x) /\ t = [] /\
         if fst (calloc_fails (lib h)) then ctxs h' = ctxs h
         else exists k w, ctxs h !! k = None /\ ctxs h' = <[k := w]> (ctxs h)))) h /\
  (has_nul u = false ->
     fst (fst (connect c u h)) = Panic UB_OVERREAD /\
     forall rest, c_str (u +:+ String Ascii.zero rest) = Ret u).
Proof.
  pose proof (is_fresh (dom (ctxs h))) as Hfresh%not_elem_of_dom.
  split; [|intros Hu; split; [|intros rest; by apply c_str_terminated]].
  - apply wp_try. apply wp_bind, w_rist_init_wp.
    + intros l Hf. simpl. apply wp_bind, wp_ret, wp_ret. split; [done|]. right. rewrite Hf. by eexists.
    + intros l w Hf. simpl. apply wp_bind, wp_ret, wp_ret. split; [done|]. right. rewrite Hf.
      eexists. split_and!; [done..|]. by do 2 eexists.
    + intros l w Hf. simpl. apply wp_ret, wp_bind. unfold drop_rist. simpl.
      eapply fini_live; [apply lookup_insert_eq|]. intros l1. apply wp_ret. simpl.
      rewrite delete_insert_id by done. split; [done|]. left. split_and!; [done..|]. by eexists.
  - unfold connect, w_rist_connect, mbind, M_mbind, M_bind, lift. simpl.
    by rewrite c_str_unterminated.
Qed.
End proofs.

(** ** Runs: a library that never fails and releases the blocks that hold data *)
Module Runs.
Import Concrete.

#[export] Instance plain_rist : Librist unit := {|
  calloc_fails := fun l => (false, l);
  rist_logging_set := fun _ _ l => (0, l);
  rist_create := fun _ _ l => (0, l);
  simulate_loss := fun _ _ l => l;
  rist_destroy := fun _ l => l;
  rist_parse_address2 := fun _ l => (0, l);
  rist_peer_create := fun _ l => (0, l);
  rist_start := fun _ l => (0, l);
  rist_register := fun _ _ l => (0, l);
  rist_sender_data_write := fun _ a h =>
    (match blocks h !! a with Some b => payload_len b | None => -1 end, h);
  rist_receiver_data_read2 := fun _ p _ h => ((0, p), h);
  rist_receiver_data_block_free2 := fun a h =>
    match blocks h !! a with
    | Some (mkBlock None _) => (Some a, h)
    | _ => (None, set_blocks (delete a (blocks h)) h)
    end;
|}.
#[export] Instance plain_rist_laws : LibristLaws unit.
Proof.
  split. intros a h [[p n] Ha]. exists (lib h). unfold rist_receiver_data_block_free2. simpl.
  rewrite Ha. destruct p; [left|right]; by destruct h.
Qed.

Definition hello : list u8 := bytes_of_string "HELLO WOLF!".
(** A heap with a block of the library's, a context and eleven bytes. *)
Definition start : heap unit :=
  mkHeap {[ 7%positive := mkBlock None 0 ]} {[ 5%positive := mkCtx 1 true true ]}
    {[ 9%positive := hello ]} tt.
Definition sender : rist := mkRist (Some 5%positive) EmptyString RIST_SENDER_MODE RIST_PROFILE_MAIN 0 RIST_LOG_INFO.

(** A block is sent through a context. *)
Example sending :
  fst (fst ((b ←? new_data_block; _ ← set_data_block b (9%positive, 11); n ← send sender b; mret (Ok n)) start))
    = Ret (Ok 11).
Proof. vm_compute. reflexivity. Qed.

Lemma rist_block_ownership_witness :
  exists b, fst (fst (use_block (9%positive, 5) start)) = Ret (Ok (bytes_of_string "HELLO")) /\
    snd (use_block (9%positive, 5) start) = [FreeBlock b].
Proof.
  destruct (rist_block_ownership start 9 5 hello 7) as [Hown _].
  - reflexivity.
  - vm_compute. split; [reflexivity|discriminate].
  - by eexists.
  - apply (wp_mono _ _ (fun r _ t => (exists x, r = Ret (Err x) /\ t = []) \/
      (exists b, r = Ret (Ok (take (Z.to_nat 5) hello)) /\ blocks start !! b = None /\ t = [FreeBlock b]))) in Hown;
      [|by intros r e t [_ Hr]].
    apply (wp_outcome _ (fun r t => (exists x, r = Ret (Err x) /\ t = []) \/
      (exists b, r = Ret (Ok (take (Z.to_nat 5) hello)) /\ blocks start !! b = None /\ t = [FreeBlock b]))) in Hown.
    destruct Hown as [(x & Hx & _)|(b & Hr & _ & Ht)].
    + exfalso. revert Hx. vm_compute. discriminate.
    + exists b. split; [exact Hr|exact Ht].
Defined.

Lemma rist_clone_double_free_witness :
  fst (fst ((_ ← drop_rist sender; drop_rist (clone_rist sender)) start)) = Panic UB_FREED.
Proof.
  refine (wp_outcome _ (fun r _ => r = Panic UB_FREED) _ _).
  refine (proj2 (rist_clone_double_free start (mkDataBlock (Some 7%positive)) sender _ _)).
  - by exists 7%positive.
  - by exists 5%positive.
Defined.

Lemma rist_context_life_witness :
  fst (fst (connect sender "rist://127.0.0.1:1234" start)) = Panic UB_OVERREAD.
Proof.
  apply (proj2 (rist_context_life start RIST_SENDER_MODE RIST_PROFILE_MAIN 0 RIST_LOG_INFO sender
    "rist://127.0.0.1:1234")). reflexivity.
Defined.
End Runs.
