(* ===== verification/Lz4.v ===== *)
(** LZ4 compression ([wolf/src/system/compression/lz4.rs], over
    [wolf/sys/system/lz4.cpp]): the safe wrapper around the C library, with the vectors it resizes and truncates by hand. *)
From S2P Require Import Prelude.
Local Open Scope Z_scope.
#[local] Set Default Goal Selector "!".

Inductive LZ4CompressMode := DEFAULT | FAST.

Definition debug_mode (m : LZ4CompressMode) : string :=
  match m with
  | DEFAULT => "LZ4CompressMode_DEFAULT"
  | FAST => "LZ4CompressMode_FAST"
  end.

(** ** The C library

    A call returns a C [int] and the bytes it wrote at the front of the
    destination. *)
Class LZ4 := {
  LZ4_compressBound : Z -> Z;
  LZ4_compress_default : list u8 -> Z -> Z * list u8;
  LZ4_compress_fast : list u8 -> Z -> Z -> Z * list u8;
  LZ4_decompress_safe : list u8 -> Z -> Z * list u8;
}.

Definition LZ4_MAX_INPUT_SIZE : Z := 0x7E000000.

(** [compressed c s]: [c] is a compressed form of [s]. *)
Class LZ4Laws `{!LZ4} := {
  compressed : list u8 -> list u8 -> Prop;
  bound_law n :
    LZ4_compressBound n =
      if ((0 <=? n) && (n <=? LZ4_MAX_INPUT_SIZE)) then n + n / 255 + 16 else 0;
  (** With a destination of at least the bound, compression succeeds. *)
  default_law s n :
    s <> [] -> Z.of_nat (length s) <= LZ4_MAX_INPUT_SIZE ->
    LZ4_compressBound (Z.of_nat (length s)) <= n ->
    exists c, LZ4_compress_default s n = (Z.of_nat (length c), c) /\ compressed c s /\
      Z.of_nat (length c) <= LZ4_compressBound (Z.of_nat (length s));
  fast_law s n a :
    s <> [] -> Z.of_nat (length s) <= LZ4_MAX_INPUT_SIZE ->
    LZ4_compressBound (Z.of_nat (length s)) <= n ->
    exists c, LZ4_compress_fast s n a = (Z.of_nat (length c), c) /\ compressed c s /\
      Z.of_nat (length c) <= LZ4_compressBound (Z.of_nat (length s));
  (** A compressed form is not empty, and at most 255 times smaller. *)
  ratio_law c s : compressed c s -> c <> [] /\ Z.of_nat (length s) <= 255 * Z.of_nat (length c);
  (** Decompression writes within the destination; of a compressed form it
      gives the source back when the destination can hold it, and fails
      otherwise. *)
  decompress_cap c n : 0 <= n -> Z.of_nat (length (snd (LZ4_decompress_safe c n))) <= n /\
    fst (LZ4_decompress_safe c n) <= Z.of_nat (length (snd (LZ4_decompress_safe c n)));
  decompress_law c s n :
    compressed c s -> Z.of_nat (length s) <= n ->
    LZ4_decompress_safe c n = (Z.of_nat (length s), s);
  decompress_short c s n :
    compressed c s -> n < Z.of_nat (length s) -> fst (LZ4_decompress_safe c n) < 0;
}.

(** ** The wrapper of the C library ([wolf/sys/system/lz4.cpp]) *)
Section wrapper.
Context `{!LZ4}.
Definition w_lz4_compress_bound (p_input_size : Z) : Z := LZ4_compressBound p_input_size.
Definition w_lz4_compress_default (p_src : list u8) (p_dst_size : Z) : Z * list u8 :=
  LZ4_compress_default p_src p_dst_size.
Definition w_lz4_compress_fast (p_source : list u8) (p_dst_size p_acceleration : Z) : Z * list u8 :=
  LZ4_compress_fast p_source p_dst_size p_acceleration.
Definition w_lz4_decompress_safe (p_src : list u8) (p_dst_size : Z) : Z * list u8 :=
  LZ4_decompress_safe p_src p_dst_size.
End wrapper.

(** ** Vectors *)

(** A [Vec<u8>]: its elements, and how many it has room for. *)
Record vec := mkVec { elems : list u8; capacity : Z }.
Definition vec_len (v : vec) : Z := Z.of_nat (length (elems v)).
Definition vec_wf (v : vec) : Prop := vec_len v <= capacity v.

Definition clear (v : vec) : vec := mkVec [] (capacity v).
(** [resize(n, 0)]. *)
Definition resize (n : Z) (v : vec) : vec :=
  let k := Z.to_nat n in
  mkVec (take k (elems v) ++ replicate (k - length (elems v)) Byte.x00) (Z.max (capacity v) n).
(** [shrink_to(n)]: the room drops to the larger of the length and [n]. *)
Definition shrink_to (n : Z) (v : vec) : vec :=
  mkVec (elems v) (Z.min (capacity v) (Z.max (vec_len v) n)).
(** [set_len(n)]: unchecked; beyond the initialised elements it is undefined. *)
Definition set_len (n : Z) (v : vec) : res vec :=
  if n <=? vec_len v then Ret (mkVec (take (Z.to_nat n) (elems v)) (capacity v))
  else Panic "undefined behaviour: set_len beyond the initialised elements".
(** The C side writes [w] through the vector's pointer. *)
Definition write_front (w : list u8) (v : vec) : res vec :=
  if Z.of_nat (length w) <=? vec_len v then Ret (mkVec (overwrite w (elems v)) (capacity v))
  else Panic "undefined behaviour: write out of bounds".

(** [i32::try_from(n).unwrap()] of a [usize]. *)
Definition i32_try_into (n : Z) : res Z :=
  if n <=? i32_max then Ret n else Panic "called `Result::unwrap()` on an `Err` value".

Section lz4.
Context `{!LZ4} {anyhow : Type} (anyhow_msg : string -> anyhow) (oc : overflow).

Definition bail {A} (s : string) (v : vec) : res (vec * result A anyhow) :=
  Ret (v, Err (anyhow_msg s)).

Definition compress (p_dst : vec) (p_src : list u8) (p_mode : LZ4CompressMode) (p_acceleration : Z)
    : res (vec * result unit anyhow) :=
  let src_len := i32_try_from_or_0 (Z.of_nat (length p_src)) in
  if src_len =? 0 then bail "invalid source size. trace info: lz4::compress" p_dst
  else
    let max_dst_size := w_lz4_compress_bound src_len in
    let safe_max_dst_size := usize_try_from_or_0 max_dst_size in
    if safe_max_dst_size =? 0 then bail "invalid destination size. trace info: lz4::compress" p_dst
    else
      let p_dst := resize safe_max_dst_size (clear p_dst) in
      n ← i32_try_into safe_max_dst_size;
      let '(new_size_i32, w) :=
        match p_mode with
        | DEFAULT => w_lz4_compress_default p_src n
        | FAST => w_lz4_compress_fast p_src n p_acceleration
        end in
      p_dst ← write_front w p_dst;
      let new_size := usize_try_from_or_0 new_size_i32 in
      if new_size >? 0 then
        p_dst ← set_len new_size (shrink_to new_size p_dst);
        mret (p_dst, Ok tt)
      else bail "missing buffer destination size. trace info: lz4::compress" p_dst.

(** The attempts of [de_compress]: at most [n] destinations, each twice the one
    before; the result is the vector and the last returned size. *)
Fixpoint attempts (n : nat) (p_src : list u8) (max_dst_size : Z) (ret_size : Z) (p_dst : vec)
    : res (vec * Z) :=
  match n with
  | O => Ret (p_dst, ret_size)
  | S n =>
    let max_dst_safe_usize := usize_try_from_or_0 max_dst_size in
    if max_dst_safe_usize =? 0 then Ret (p_dst, ret_size)
    else
      let p_dst := resize max_dst_safe_usize p_dst in
      let '(ret_size, w) := w_lz4_decompress_safe p_src max_dst_size in
      p_dst ← write_front w p_dst;
      if ret_size >? 0 then Ret (p_dst, ret_size)
      else
        max_dst_size ← arith_s oc 32 (max_dst_size * 2);
        attempts n p_src max_dst_size ret_size p_dst
  end.

Definition de_compress (p_dst : vec) (p_src : list u8) : res (vec * result unit anyhow) :=
  let src_len := i32_try_from_or_0 (Z.of_nat (length p_src)) in
  if src_len =? 0 then bail "invalid source length. trace info: lz4::decompress" p_dst
  else
    max_dst_size ← arith_s oc 32 (src_len * 2);
    '(p_dst, ret_size) ← attempts 10 p_src max_dst_size 0 (clear p_dst);
    let new_size := usize_try_from_or_0 ret_size in
    if new_size >? 0 then
      p_dst ← set_len new_size (shrink_to new_size p_dst);
      mret (p_dst, Ok tt)
    else bail "missing buffer destination size. trace info: lz4::decompress" p_dst.
End lz4.

(** ** Vectors keep their bounds *)

Lemma vec_len_resize n v : 0 <= n -> vec_len (resize n v) = n.
Proof.
  intros Hn. unfold vec_len, resize. simpl.
  rewrite length_app, length_take, length_replicate. lia.
Qed.

Lemma write_front_Ret w v :
  Z.of_nat (length w) <= vec_len v ->
  exists v', write_front w v = Ret v' /\ vec_len v' = vec_len v /\
    take (length w) (elems v') = w.
Proof.
  intros Hw. unfold write_front. rewrite (proj2 (Z.leb_le _ _) Hw). eexists. split; [done|].
  unfold vec_len in *. simpl. rewrite length_overwrite by lia. split; [done|]. apply take_overwrite.
Qed.

(** Truncating after a write leaves what was written. *)
Lemma set_len_written w v v' :
  write_front w v = Ret v' ->
  exists v2, set_len (Z.of_nat (length w)) (shrink_to (Z.of_nat (length w)) v') = Ret v2 /\ elems v2 = w.
Proof.
  unfold write_front. destruct (Z.leb_spec (Z.of_nat (length w)) (vec_len v)) as [Hle|]; [|done].
  intros [= <-]. unfold set_len, vec_len in *. cbn [elems shrink_to].
  rewrite length_overwrite by lia. rewrite (proj2 (Z.leb_le _ _) Hle).
  eexists. split; [done|]. cbn [elems]. rewrite Nat2Z.id. apply take_overwrite.
Qed.

Lemma usize_of_nonneg n : 0 <= n -> usize_try_from_or_0 n = n.
Proof. intros Hn. unfold usize_try_from_or_0. by rewrite (proj2 (Z.leb_le _ _) Hn). Qed.

(** What the wrapper calls. *)
Ltac calls :=
  unfold w_lz4_compress_bound, w_lz4_compress_default, w_lz4_compress_fast, w_lz4_decompress_safe in *.

Section proofs.
Context `{!LZ4} `{!LZ4Laws} {anyhow : Type} (anyhow_msg : string -> anyhow).

Lemma i32_of_length (l : list u8) :
  Z.of_nat (length l) <= i32_max -> i32_try_from_or_0 (Z.of_nat (length l)) = Z.of_nat (length l).
Proof. intros Hl. unfold i32_try_from_or_0. by rewrite (proj2 (Z.leb_le _ _) Hl). Qed.

Lemma nonempty_length (l : list u8) : l <> [] -> 0 < Z.of_nat (length l).
Proof. destruct l; simpl; [done|lia]. Qed.

(** Compression of a source the library accepts. *)
Lemma compress_ok dst s mode acc :
  s <> [] -> Z.of_nat (length s) <= LZ4_MAX_INPUT_SIZE ->
  exists v, compress anyhow_msg dst s mode acc = Ret (v, Ok tt) /\ compressed (elems v) s /\
    vec_len v <= w_lz4_compress_bound (Z.of_nat (length s)).
Proof.
  intros Hs Hlen. pose proof (nonempty_length s Hs) as Hpos.
  assert (Z.of_nat (length s) <= i32_max) as Hi by (unfold i32_max, LZ4_MAX_INPUT_SIZE in *; lia).
  unfold compress. rewrite i32_of_length by done.
  rewrite (proj2 (Z.eqb_neq _ _)) by lia.
  calls. set (m := LZ4_compressBound (Z.of_nat (length s))) in *.
  assert (0 < m <= i32_max) as Hm.
  { unfold m. rewrite bound_law. rewrite (proj2 (Z.leb_le 0 _)), (proj2 (Z.leb_le _ _) Hlen) by lia.
    cbn [andb]. unfold i32_max, LZ4_MAX_INPUT_SIZE in *. Z.div_mod_to_equations. lia. }
  rewrite (usize_of_nonneg m) by lia. rewrite (proj2 (Z.eqb_neq m 0)) by lia.
  unfold i32_try_into. rewrite (proj2 (Z.leb_le m i32_max)) by lia. cbn [mbind res_mbind res_bind].
  assert (exists c, (match mode with
                     | DEFAULT => LZ4_compress_default s m
                     | FAST => LZ4_compress_fast s m acc
                     end) = (Z.of_nat (length c), c) /\ compressed c s /\ Z.of_nat (length c) <= m)
    as (c & -> & Hc & Hcm).
  { destruct mode; [apply default_law|apply fast_law]; done || lia. }
  destruct (write_front_Ret c (resize m (clear dst))) as (v & Hv & _ & _);
    [rewrite vec_len_resize; lia|]. rewrite Hv.
  destruct (ratio_law c s Hc) as [Hne _]. pose proof (nonempty_length c Hne).
  cbn [mbind res_mbind res_bind]. rewrite usize_of_nonneg by lia.
  rewrite (proj2 (Z.gtb_lt _ _)) by lia.
  destruct (set_len_written c _ v Hv) as (v2 & -> & Hv2). cbn [mbind res_mbind res_bind].
  exists v2. unfold vec_len. rewrite Hv2. done.
Qed.

(** The attempts at a compressed source: with destinations large enough within
    the remaining ones, and no overflow before, the source comes back. *)
Lemma attempts_ok oc n c s d r v :
  compressed c s -> s <> [] -> 0 < d -> Z.of_nat (length s) <= d * 2 ^ (Z.of_nat n - 1) ->
  d <= i32_max -> 2 * Z.of_nat (length s) <= i32_max + 1 -> (0 < n)%nat ->
  exists v0 v', attempts oc n c d r v = Ret (v', Z.of_nat (length s)) /\
    write_front s v0 = Ret v'.
Proof.
  intros Hc Hs. pose proof (nonempty_length s Hs) as Hpos.
  revert d r v. induction n as [|n IH]; intros d r v Hd Hfit Hdi Hlim Hn; [lia|].
  cbn [attempts]. calls. rewrite usize_of_nonneg by lia. rewrite (proj2 (Z.eqb_neq _ _)) by lia.
  destruct (decompress_cap c d ltac:(lia)) as [Hw _].
  destruct (LZ4_decompress_safe c d) as [ret w] eqn:Edec. cbn [snd] in Hw.
  destruct (write_front_Ret w (resize d v)) as (v1 & Hv1 & _ & _); [rewrite vec_len_resize; lia|].
  rewrite Hv1. cbn [mbind res_mbind res_bind].
  destruct (Z.le_gt_cases (Z.of_nat (length s)) d) as [Hle|Hgt].
  - rewrite (decompress_law c s d) in Edec by done. injection Edec as <- <-.
    rewrite (proj2 (Z.gtb_lt _ _)) by lia. by exists (resize d v), v1.
  - pose proof (decompress_short c s d Hc ltac:(lia)) as Hneg. rewrite Edec in Hneg. cbn [fst] in Hneg.
    destruct (Z.gtb_spec ret 0); [lia|].
    rewrite arith_s_in by (unfold i32_max in *; change (2 ^ (32 - 1)) with (2 ^ 31); lia).
    cbn [mbind res_mbind res_bind]. destruct n as [|n].
    { change (Z.of_nat 1 - 1) with 0 in Hfit. lia. }
    apply IH; [lia| |unfold i32_max in *; lia|done|lia].
    replace (d * 2 * 2 ^ (Z.of_nat (S n) - 1)) with (d * 2 ^ (Z.of_nat (S (S n)) - 1)); [done|].
    rewrite <-Z.mul_assoc. f_equal. rewrite <-Z.pow_succ_r by lia. f_equal. lia.
Qed.

(** Decompression of a compressed form of a source of at most 10^9 bytes, that is
    itself at most the library's bound for one. *)
Lemma decompress_ok oc dst c s :
  compressed c s -> s <> [] -> Z.of_nat (length s) <= 10 ^ 9 -> Z.of_nat (length c) <= 1003921584 ->
  exists v, de_compress anyhow_msg oc dst c = Ret (v, Ok tt) /\ elems v = s.
Proof.
  intros Hc Hs Hlen Hcb. pose proof (nonempty_length s Hs) as Hpos.
  destruct (ratio_law _ _ Hc) as [Hne Hratio]. pose proof (nonempty_length _ Hne) as Hcpos.
  unfold de_compress. rewrite i32_of_length by (unfold i32_max; lia).
  rewrite (proj2 (Z.eqb_neq _ _)) by lia.
  rewrite arith_s_in by (change (2 ^ (32 - 1)) with (2 ^ 31); lia). cbn [mbind res_mbind res_bind].
  destruct (attempts_ok oc 10 c s (Z.of_nat (length c) * 2) 0 (clear dst))
    as (v0 & v1 & -> & Hv1); [done|done|lia| |unfold i32_max; lia|unfold i32_max; lia|lia|].
  { change (2 ^ (Z.of_nat 10 - 1)) with 512. lia. }
  cbn [mbind res_mbind res_bind]. rewrite usize_of_nonneg by lia.
  rewrite (proj2 (Z.gtb_lt _ _)) by lia.
  destruct (set_len_written s v0 v1 Hv1) as (v2 & -> & Hv2). cbn [mbind res_mbind res_bind].
  by exists v2.
Qed.

(** C7: the round trip: a source of 1 to 10^9 bytes is compressed, in either mode
    and with any acceleration, and decompressed back to itself, into any two
    vectors and under either overflow profile: no step of the wrapper overflows,
    truncates or writes out of bounds, and ten attempts are enough. *)
Theorem lz4_round_trip oc dst1 dst2 s mode acc :
  s <> [] -> Z.of_nat (length s) <= 10 ^ 9 ->
  exists c v, compress anyhow_msg dst1 s mode acc = Ret (c, Ok tt) /\
    de_compress anyhow_msg oc dst2 (elems c) = Ret (v, Ok tt) /\ elems v = s.
Proof.
  intros Hs Hlen. destruct (compress_ok dst1 s mode acc) as (c & Hcomp & Hc & Hcl);
    [done|unfold LZ4_MAX_INPUT_SIZE; lia|].
  assert (vec_len c <= 10 ^ 9 + 10 ^ 9 / 255 + 16) as Hcb.
  { etrans; [exact Hcl|]. calls. rewrite bound_law.
    rewrite (proj2 (Z.leb_le 0 _)), (proj2 (Z.leb_le _ LZ4_MAX_INPUT_SIZE))
      by (unfold LZ4_MAX_INPUT_SIZE; lia).
    cbn [andb]. pose proof (Z.div_le_mono _ _ 255 ltac:(lia) Hlen). lia. }
  destruct (decompress_ok oc dst2 (elems c) s) as (v & Hv & Hs'); [done..|by etrans; [exact Hcb|]|].
  by exists c, v.
Qed.

(** The errors of compression: an empty source and one past [i32::MAX] are an
    invalid source, one past the library's limit an invalid destination, and the
    caller's vector is untouched; within the limit compression always succeeds,
    with a result of at most the library's bound. *)
Theorem lz4_compress_total dst s mode acc :
  (Z.of_nat (length s) = 0 \/ i32_max < Z.of_nat (length s) ->
   compress anyhow_msg dst s mode acc =
     Ret (dst, Err (anyhow_msg "invalid source size. trace info: lz4::compress"))) /\
  (LZ4_MAX_INPUT_SIZE < Z.of_nat (length s) <= i32_max ->
   compress anyhow_msg dst s mode acc =
     Ret (dst, Err (anyhow_msg "invalid destination size. trace info: lz4::compress"))) /\
  (1 <= Z.of_nat (length s) <= LZ4_MAX_INPUT_SIZE ->
   exists v, compress anyhow_msg dst s mode acc = Ret (v, Ok tt) /\ compressed (elems v) s /\
     vec_len v <= w_lz4_compress_bound (Z.of_nat (length s))).
Proof.
  split_and!.
  - intros [Hz|Hbig]; unfold compress.
    + rewrite i32_of_length by (unfold i32_max; lia). by rewrite Hz.
    + unfold i32_try_from_or_0. by rewrite (proj2 (Z.leb_gt _ _) Hbig).
  - intros [Hmax Hle]. unfold compress. rewrite i32_of_length by done.
    rewrite (proj2 (Z.eqb_neq _ _)) by (unfold LZ4_MAX_INPUT_SIZE in *; lia).
    calls. rewrite bound_law, (proj2 (Z.leb_gt _ LZ4_MAX_INPUT_SIZE) Hmax). by rewrite andb_false_r.
  - intros Hs. apply compress_ok; [|lia]. intros ->. simpl in Hs. lia.
Qed.

(** A destination size that is no longer positive ends the attempts. *)
Lemma attempts_stop oc n c d r v : d <= 0 -> attempts oc (S n) c d r v = Ret (v, r).
Proof.
  intros Hd. cbn [attempts]. unfold usize_try_from_or_0.
  destruct (Z.leb_spec 0 d); [by replace d with 0 by lia|done].
Qed.

(** Attempts that all fail. *)
Lemma attempts_fail n c d r v :
  (forall k, fst (w_lz4_decompress_safe c k) <= 0) -> r <= 0 -> - 2 ^ 31 <= d < 2 ^ 31 ->
  exists v' r', attempts Wrapping n c d r v = Ret (v', r') /\ r' <= 0.
Proof.
  intros Hfail. revert d r v. induction n as [|n IH]; intros d r v Hr Hd; [by exists v, r|].
  cbn [attempts]. calls. destruct (Z.eqb_spec (usize_try_from_or_0 d) 0) as [|Hd0]; [by exists v, r|].
  assert (0 < d) as Hd1.
  { unfold usize_try_from_or_0 in Hd0. destruct (Z.leb_spec 0 d); lia. }
  rewrite usize_of_nonneg by lia.
  destruct (decompress_cap c d ltac:(lia)) as [Hw _]. specialize (Hfail d) as Hf.
  destruct (LZ4_decompress_safe c d) as [ret w]. cbn [fst snd] in Hw, Hf.
  destruct (write_front_Ret w (resize d v)) as (v1 & -> & _ & _); [rewrite vec_len_resize; lia|].
  cbn [mbind res_mbind res_bind]. destruct (Z.gtb_spec ret 0); [lia|].
  unfold arith_s. destruct ((- 2 ^ (32 - 1) <=? d * 2) && (d * 2 <? 2 ^ (32 - 1))) eqn:E;
    cbn [mbind res_mbind res_bind]; apply IH; try done.
  - change (2 ^ (32 - 1)) with (2 ^ 31) in E. lia.
  - unfold wrap_s. change (2 ^ (32 - 1)) with (2 ^ 31).
    pose proof (Z.mod_pos_bound (d * 2 + 2 ^ 31) (2 ^ 32) ltac:(lia)). lia.
Qed.

(** In the release profile, whatever the size. *)
Lemma decompress_fails_wrapping dst c :
  (forall k, fst (w_lz4_decompress_safe c k) <= 0) ->
  exists v msg, de_compress anyhow_msg Wrapping dst c = Ret (v, Err (anyhow_msg msg)).
Proof.
  intros Hfail. unfold de_compress. destruct (Z.eqb_spec (i32_try_from_or_0 (Z.of_nat (length c))) 0);
    [by do 2 eexists|].
  assert (exists d, arith_s Wrapping 32 (i32_try_from_or_0 (Z.of_nat (length c)) * 2) = Ret d /\
            - 2 ^ 31 <= d < 2 ^ 31) as (d & -> & Hd).
  { unfold arith_s. change (2 ^ (32 - 1)) with (2 ^ 31). case_match eqn:E; eexists; split; try done.
    - lia.
    - unfold wrap_s. change (2 ^ (32 - 1)) with (2 ^ 31).
      match goal with |- _ <= ?x mod _ - _ < _ => pose proof (Z.mod_pos_bound x (2 ^ 32) ltac:(lia)) end.
      lia. }
  cbn [mbind res_mbind res_bind].
  destruct (attempts_fail 10 c d 0 (clear dst) Hfail ltac:(lia) Hd) as (v & r & -> & Hr).
  cbn [mbind res_mbind res_bind]. unfold usize_try_from_or_0.
  destruct (Z.leb_spec 0 r); [assert (r = 0) as -> by lia|]; by do 2 eexists.
Qed.

(** The first doubling, of a size it does not overflow. *)
Lemma doubled_fits oc n : 0 <= n < 2 ^ 30 -> arith_s oc 32 (n * 2) = Ret (n * 2).
Proof.
  intros Hn. unfold arith_s. change (2 ^ (32 - 1)) with (2 ^ 31).
  by rewrite (proj2 (Z.leb_le _ _)), (proj2 (Z.ltb_lt _ _)) by lia.
Qed.

(** With the overflow checks, the room may not double past an [i32]. *)
Lemma attempts_fail_checked n c d r v :
  (forall k, fst (w_lz4_decompress_safe c k) <= 0) -> r <= 0 -> 0 < d < 2 ^ 31 ->
  (d * 2 ^ Z.of_nat n < 2 ^ 31 -> exists v' r', attempts Checked n c d r v = Ret (v', r') /\ r' <= 0) /\
  (2 ^ 31 <= d * 2 ^ Z.of_nat n -> exists why, attempts Checked n c d r v = Panic why).
Proof.
  intros Hfail. revert d r v. induction n as [|n IH]; intros d r v Hr Hd.
  { change (2 ^ Z.of_nat 0) with 1. split; [intros _; by exists v, r|lia]. }
  cbn [attempts]. calls. rewrite usize_of_nonneg by lia. rewrite (proj2 (Z.eqb_neq d 0)) by lia.
  destruct (decompress_cap c d ltac:(lia)) as [Hw _]. specialize (Hfail d) as Hf.
  destruct (LZ4_decompress_safe c d) as [ret w]. cbn [fst snd] in Hw, Hf.
  destruct (write_front_Ret w (resize d v)) as (v1 & -> & _ & _); [rewrite vec_len_resize; lia|].
  cbn [mbind res_mbind res_bind]. destruct (Z.gtb_spec ret 0); [lia|].
  replace (d * 2 ^ Z.of_nat (S n)) with (d * 2 * 2 ^ Z.of_nat n)
    by (rewrite Nat2Z.inj_succ, Z.pow_succ_r by lia; lia).
  pose proof (Z.pow_pos_nonneg 2 (Z.of_nat n) ltac:(lia) ltac:(lia)) as Hp.
  unfold arith_s. change (2 ^ (32 - 1)) with (2 ^ 31).
  destruct (Z.ltb_spec (d * 2) (2 ^ 31)) as [Hlt|Hge].
  - rewrite (proj2 (Z.leb_le _ _)) by lia. cbn [andb mbind res_mbind res_bind]. apply IH; lia.
  - rewrite andb_false_r. cbn [mbind res_mbind res_bind]. split; [nia|by eexists].
Qed.

(** C38: sources that do not decompress: in the release profile the wrapper always
    returns an error for them, whatever their size; in the debug profile it does so
    for those under 2^20 bytes or too long for an [i32], and panics for all the
    others, when the room it doubles ten times overflows. From 2^30 bytes on the
    first doubling overflows, so that a perfectly good compressed source is refused
    in the release profile and panics in the debug one. *)
Theorem lz4_decompress_errors dst c :
  ((forall k, fst (w_lz4_decompress_safe c k) <= 0) ->
   (exists v msg, de_compress anyhow_msg Wrapping dst c = Ret (v, Err (anyhow_msg msg))) /\
   (Z.of_nat (length c) < 2 ^ 20 \/ i32_max < Z.of_nat (length c) ->
    exists v msg, de_compress anyhow_msg Checked dst c = Ret (v, Err (anyhow_msg msg))) /\
   (2 ^ 20 <= Z.of_nat (length c) <= i32_max ->
    exists why, de_compress anyhow_msg Checked dst c = Panic why)) /\
  (2 ^ 30 <= Z.of_nat (length c) <= i32_max ->
   (exists why, de_compress anyhow_msg Checked dst c = Panic why) /\
   (exists v msg, de_compress anyhow_msg Wrapping dst c = Ret (v, Err (anyhow_msg msg)))).
Proof.
  split.
  - intros Hfail. split; [by apply decompress_fails_wrapping|]. unfold i32_max.
    split; intros Hlen; unfold de_compress.
    + destruct Hlen as [Hlen|Hlen].
      2:{ unfold i32_try_from_or_0, i32_max. rewrite (proj2 (Z.leb_gt _ _)) by lia. by do 2 eexists. }
      rewrite i32_of_length by (unfold i32_max; lia). destruct (Z.eqb_spec (Z.of_nat (length c)) 0); [by do 2 eexists|].
      rewrite doubled_fits by lia. cbn [mbind res_mbind res_bind].
      destruct (proj1 (attempts_fail_checked 10 c (Z.of_nat (length c) * 2) 0 (clear dst) Hfail ltac:(lia)
                  ltac:(lia))) as (v & r & -> & Hr).
      { change (2 ^ Z.of_nat 10) with 1024. change (2 ^ 20) with 1048576 in Hlen. lia. }
      cbn [mbind res_mbind res_bind]. unfold usize_try_from_or_0.
      destruct (Z.leb_spec 0 r); [assert (r = 0) as -> by lia|]; by do 2 eexists.
    + rewrite i32_of_length by (unfold i32_max; lia). rewrite (proj2 (Z.eqb_neq _ _)) by lia.
      destruct (Z.lt_ge_cases (Z.of_nat (length c)) (2 ^ 30)) as [Hlt|Hge].
      * rewrite doubled_fits by lia. cbn [mbind res_mbind res_bind].
        destruct (proj2 (attempts_fail_checked 10 c (Z.of_nat (length c) * 2) 0 (clear dst) Hfail ltac:(lia)
                    ltac:(lia))) as (why & ->); [|by eexists].
        change (2 ^ Z.of_nat 10) with 1024. change (2 ^ 20) with 1048576 in Hlen. lia.
      * unfold arith_s. change (2 ^ (32 - 1)) with (2 ^ 31).
        rewrite (proj2 (Z.ltb_ge (Z.of_nat (length c) * 2) (2 ^ 31))) by lia. rewrite andb_false_r. by eexists.
  - intros Hlen. unfold de_compress. rewrite i32_of_length by lia.
    rewrite (proj2 (Z.eqb_neq _ _)) by lia. unfold arith_s.
    change (2 ^ (32 - 1)) with (2 ^ 31). unfold i32_max in Hlen.
    rewrite (proj2 (Z.ltb_ge (Z.of_nat (length c) * 2) (2 ^ 31))) by lia. rewrite andb_false_r.
    cbn [mbind res_mbind res_bind]. split; [by eexists|].
    assert (wrap_s 32 (Z.of_nat (length c) * 2) = Z.of_nat (length c) * 2 - 2 ^ 32) as ->.
    { unfold wrap_s. change (2 ^ (32 - 1)) with (2 ^ 31).
      rewrite <-(Z_mod_plus_full _ (-1)), Z.mod_small by lia. lia. }
    rewrite (attempts_stop Wrapping 9) by lia. cbn [mbind res_mbind res_bind].
    by do 2 eexists.
Qed.
End proofs.

(** ** A concrete library: the stored form *)
Module Runs.

Definition stored_bound (n : Z) : Z :=
  if ((0 <=? n) && (n <=? LZ4_MAX_INPUT_SIZE)) then n + n / 255 + 16 else 0.
(** A marker byte, then the source. *)
Definition store (s : list u8) (n : Z) : Z * list u8 :=
  if Z.of_nat (S (length s)) <=? n then (Z.of_nat (S (length s)), Byte.x01 :: s) else (0, []).
Definition unstore (c : list u8) (n : Z) : Z * list u8 :=
  match c with
  | [] => (-1, [])
  | _ :: s => if Z.of_nat (length s) <=? n then (Z.of_nat (length s), s) else (-1, [])
  end.
#[export] Instance stored : LZ4 := {|
  LZ4_compressBound := stored_bound;
  LZ4_compress_default := store;
  LZ4_compress_fast := fun s n _ => store s n;
  LZ4_decompress_safe := unstore;
|}.

Lemma store_ok s n :
  s <> [] -> Z.of_nat (length s) <= LZ4_MAX_INPUT_SIZE -> stored_bound (Z.of_nat (length s)) <= n ->
  store s n = (Z.of_nat (length (Byte.x01 :: s)), Byte.x01 :: s) /\
  Z.of_nat (length (Byte.x01 :: s)) <= stored_bound (Z.of_nat (length s)).
Proof.
  intros _ Hs Hn. unfold stored_bound in *.
  rewrite (proj2 (Z.leb_le 0 _)), (proj2 (Z.leb_le _ _) Hs) in * by lia. cbn [andb] in *.
  pose proof (Z.div_pos (Z.of_nat (length s)) 255 ltac:(lia) ltac:(lia)).
  unfold store. rewrite (proj2 (Z.leb_le _ _)) by lia. split; [done|]. simpl. lia.
Qed.

#[export] Instance stored_laws : LZ4Laws.
Proof.
  refine {| compressed := fun c s => c = Byte.x01 :: s |}.
  - done.
  - intros s n H1 H2 H3. destruct (store_ok s n H1 H2 H3) as [H4 Hl].
    exists (Byte.x01 :: s). by split; [exact H4|].
  - intros s n a H1 H2 H3. destruct (store_ok s n H1 H2 H3) as [H4 Hl].
    exists (Byte.x01 :: s). by split; [exact H4|].
  - intros c s ->. split; [done|]. simpl. lia.
  - intros [|b s] n Hn; simpl; [lia|]. destruct (Z.leb_spec (Z.of_nat (length s)) n); simpl; lia.
  - intros c s n -> Hn. simpl. by rewrite (proj2 (Z.leb_le _ _) Hn).
  - intros c s n -> Hn. simpl. by rewrite (proj2 (Z.leb_gt _ _) Hn).
Defined.

Definition hello : list u8 := bytes_of_string "HELLO WOLF".

Lemma lz4_round_trip_witness :
  hello <> [] /\
  exists c v, compress id (mkVec [] 0) hello FAST 5 = Ret (c, Ok tt) /\
    de_compress id Checked (mkVec [Byte.x00] 1) (elems c) = Ret (v, Ok tt) /\ elems v = hello.
Proof.
  split; [done|].
  exact (lz4_round_trip id Checked (mkVec [] 0) (mkVec [Byte.x00] 1) hello FAST 5
           ltac:(done) ltac:(vm_compute; done)).
Defined.

Lemma lz4_compress_total_witness :
  compress id (mkVec [Byte.x41] 1) [] DEFAULT 1 =
    Ret (mkVec [Byte.x41] 1, Err "invalid source size. trace info: lz4::compress"%string) /\
  exists v, compress id (mkVec [] 0) hello DEFAULT 1 = Ret (v, Ok tt).
Proof.
  split; [exact (proj1 (lz4_compress_total id (mkVec [Byte.x41] 1) [] DEFAULT 1) (or_introl eq_refl))|].
  destruct (proj2 (proj2 (lz4_compress_total id (mkVec [] 0) hello DEFAULT 1))) as (v & Hv & _).
  - split; vm_compute; done.
  - by exists v.
Defined.

(** A marker with nothing after it decompresses to nothing; a source of 2^30
    bytes cannot be given a destination. *)
Lemma lz4_decompress_errors_witness :
  (exists v msg, de_compress id Wrapping (mkVec [] 0) [Byte.x01] = Ret (v, Err msg)) /\
  (exists why, de_compress id Checked (mkVec [] 0) (replicate (Z.to_nat (2 ^ 30)) Byte.x01) = Panic why).
Proof.
  split.
  - refine (proj1 (proj1 (lz4_decompress_errors id (mkVec [] 0) [Byte.x01]) _)).
    intros k. change (fst (unstore [Byte.x01] k) <= 0). unfold unstore.
    by destruct (Z.of_nat (length (@nil u8)) <=? k).
  - apply (proj2 (lz4_decompress_errors id (mkVec [] 0) (replicate (Z.to_nat (2 ^ 30)) Byte.x01))).
    rewrite length_replicate, Z2Nat.id by lia. by split.
Defined.
End Runs.
