(* ===== verification/Lzma.v ===== *)
(** LZMA compression: the bridge ([wolf/src/system/compression/lzma.rs]) and the
    C++ behind it ([wolf/src/system/_cxx/lzma/lzma.cpp]): the two stream formats,
    the headers written and read by hand, and who frees what. *)
From S2P Require Import Prelude Common.
Local Open Scope Z_scope.
#[local] Set Default Goal Selector "!".

Inductive LZMAType := LZMA1 | LZMA2.

(** ** The library *)
Definition LZMA_PROPS_SIZE : Z := 5.
Definition SZ_OK : Z := 0.
Definition SZ_ERROR_MEM : Z := 2.
Inductive ELzmaFinishMode := LZMA_FINISH_ANY | LZMA_FINISH_END.
Inductive ELzmaStatus :=
| LZMA_STATUS_NOT_SPECIFIED
| LZMA_STATUS_FINISHED_WITH_MARK
| LZMA_STATUS_NOT_FINISHED
| LZMA_STATUS_NEEDS_MORE_INPUT
| LZMA_STATUS_MAYBE_FINISHED_WITHOUT_MARK.
#[export] Instance status_eq_dec : EqDecision ELzmaStatus.
Proof. solve_decision. Defined.

(** The properties the code sets; the library's [_Init] gives the others. *)
Record CLzmaEncProps := mkProps { dictSize : Z; fb : Z; level : Z }.

(** What a call returns through its pointers: an encoder, its status and the
    stream (and, for LZMA, the encoded properties); a decoder, its status, the
    bytes it wrote, how far it read, and (for LZMA2) how the stream stands. *)
Class Lzma (Env : Type) := {
  mi_malloc : Z -> Env -> option positive * Env;
  mi_free : positive -> Env -> Env;
  LzmaEncode : CLzmaEncProps -> list u8 -> Z -> Env -> (Z * list u8 * list u8) * Env;
  LzmaDecode : list u8 -> list u8 -> Z -> Z -> Env -> (Z * list u8 * Z) * Env;
  Lzma2Enc_Create : Env -> option positive * Env;
  Lzma2Enc_SetProps : CLzmaEncProps -> Env -> Z * Env;
  Lzma2Enc_WriteProperties : CLzmaEncProps -> u8;
  Lzma2Enc_Encode2 : CLzmaEncProps -> list u8 -> Z -> Env -> (Z * list u8) * Env;
  Lzma2Enc_Destroy : positive -> Env -> Env;
  CLzma2Dec : Type;
  Lzma2Dec_Allocate : u8 -> Env -> (Z * CLzma2Dec) * Env;
  Lzma2Dec_Init : CLzma2Dec -> CLzma2Dec;
  Lzma2Dec_DecodeToBuf : CLzma2Dec -> Z -> list u8 -> ELzmaFinishMode -> Env ->
    (Z * list u8 * Z * ELzmaStatus * CLzma2Dec) * Env;
  Lzma2Dec_Free : CLzma2Dec -> Env -> Env;
}.

(** What is owned, and what is observed: an allocation that succeeded or was
    refused, a release, the status of a coder. *)
Inductive block := Heap (a : positive) | Encoder (h : positive) | Decoder.
Inductive event := Got (b : block) | Refused | Released (b : block) | Status (s : Z).

Definition UB_OVERREAD : string := "undefined behaviour: read out of bounds".

(** ** Bytes of an integer *)
Definition LZMA_HEADER_SRC_SIZE : Z := 8.

(** The size of the source, low byte first. *)
Definition size_bytes (n : Z) : list u8 :=
  map (fun i => byte_of_Z (Z.land (Z.shiftr n (Z.of_nat i * 8)) 0xFF)) (seq 0 (Z.to_nat LZMA_HEADER_SRC_SIZE)).

(** The size read back, byte [i] and the [n - 1] after it. *)
Fixpoint size_from_header (n : nat) (src : list u8) (offset i acc : Z) : res Z :=
  match n with
  | O => Ret acc
  | S n =>
    a ← gsl_at src (offset + i);
    let b := i * 8 in
    let c := wrap_u 64 (Z.shiftl (byte_z a) b) in
    size_from_header n src offset (i + 1) (if c <? u64_max then Z.lor acc c else acc)
  end.

Section lzma.
Context {Env : Type} `{!Lzma Env}.
Abbreviation IO := (M Env event).

Definition malloc (n : Z) : IO (option positive) :=
  obs (mi_malloc n) (fun p => match p with Some a => Got (Heap a) | None => Refused end).
Definition free (a : positive) : IO unit :=
  obs (fun e => (tt, mi_free a e)) (fun _ => Released (Heap a)).

(** [_lzma_prop]: the size of the source arrives as an [int]. *)
Definition lzma_prop (pLevel pSrcSize : Z) : CLzmaEncProps :=
  let pSrcSize := wrap_s 32 pSrcSize in
  {| dictSize := if pSrcSize <=? Z.shiftl 1 12 then Z.shiftl 1 12
                 else if pSrcSize >=? Z.shiftl 3 29 then Z.shiftl 3 29
                 else pSrcSize;
     fb := 40;
     level := if pLevel >? 9 then 9 else pLevel |}.

(** The room for the compressed bytes, a [size_t]. *)
Definition output_size (src_size : Z) : Z :=
  let n := wrap_u 64 (src_size * 2) in if n <? 1024 then 1024 else n.

(** The vector a function returns, and its trace message when it sets one. *)
Definition fails (msg : string) : IO (list u8 * option string) := mret ([], Some msg).

Definition compress_1 (pSrcBuffer : list u8) (pLevel : Z) : IO (list u8 * option string) :=
  let src_size := Z.of_nat (length pSrcBuffer) in
  if src_size =? 0 then fails "pSrcBuffer.size() == 0. trace info: lzma_cxx::compress_1"
  else
    let props := lzma_prop pLevel src_size in
    let output_size_64 := output_size src_size in
    compress_mem ← malloc output_size_64;
    match compress_mem with
    | None => fails "could not allocate memory for compressed buffer. trace info: lzma_cxx::compress_1"
    | Some a =>
      '(lzma_status, stream, props_encoded) ←
        obs (LzmaEncode props pSrcBuffer output_size_64) (fun r => Status (fst (fst r)));
      if lzma_status =? SZ_OK then
        let v := overwrite props_encoded (replicate (Z.to_nat LZMA_PROPS_SIZE) Byte.x00)
                   ++ size_bytes src_size ++ stream in
        _ ← free a;
        mret (v, None)
      else fails "LzmaEncode failed on compressing. trace info: lzma_cxx::compress_1"
    end.

Definition decompress_1 (pSrcBuffer : list u8) : IO (list u8 * option string) :=
  let src_size := Z.of_nat (length pSrcBuffer) in
  let offset := LZMA_HEADER_SRC_SIZE + LZMA_PROPS_SIZE in
  if src_size <? offset then fails "invalid lzma header. trace info: lzma_cxx::decompress_1"
  else
    size ← lift (size_from_header (Z.to_nat LZMA_HEADER_SRC_SIZE) pSrcBuffer LZMA_PROPS_SIZE 0 0);
    if size <=? 256 * 1024 * 1024 then
      data ← malloc size;
      match data with
      | None =>
        fails "could not allocate memory for lzma decompress buffer. trace info: lzma_cxx::decompress_1"
      | Some a =>
        let proc_in_size := src_size - LZMA_HEADER_SRC_SIZE + LZMA_PROPS_SIZE in
        _ ← lift (gsl_at pSrcBuffer offset);
        let payload := drop (Z.to_nat offset) pSrcBuffer in
        '(status, out, looked_at) ←
          obs (LzmaDecode (take 5 pSrcBuffer) payload proc_in_size size) (fun r => Status (fst (fst r)));
        if looked_at >? Z.of_nat (length payload) then panic UB_OVERREAD
        else if Z.of_nat (length out) >? size then panic UB_OVERWRITE
        else if (status =? SZ_OK) && (Z.of_nat (length out) =? size) then
          _ ← free a;
          mret (out, None)
        else mret ([], None)
      end
    else fails "invalid lzma header size. trace info: lzma_cxx::decompress_1".

Definition compress_2 (pSrcBuffer : list u8) (pLevel : Z) : IO (list u8 * option string) :=
  let src_size := Z.of_nat (length pSrcBuffer) in
  if src_size =? 0 then fails "pSrcBuffer.size() == 0. trace info: lzma_cxx::compress_2"
  else
    enc_handler ← obs Lzma2Enc_Create (fun h => match h with Some h => Got (Encoder h) | None => Refused end);
    match enc_handler with
    | None => fails "Lzma2Enc_Create(...) == NULL. trace info: lzma_cxx::compress_2"
    | Some h =>
      let props := lzma_prop pLevel src_size in
      props_status ← obs (Lzma2Enc_SetProps props) Status;
      if negb (props_status =? SZ_OK) then
        fails "Lzma2Enc_SetProps(...) == SZ_OK. trace info: lzma_cxx::compress_2"
      else
        let properties := Lzma2Enc_WriteProperties props in
        let output_size_64 := output_size src_size in
        compress_mem ← malloc output_size_64;
        match compress_mem with
        | None => fails "could not allocate memory for compressed buffer. trace info: lzma_cxx::compress"
        | Some a =>
          '(encode_status, stream) ←
            obs (Lzma2Enc_Encode2 props pSrcBuffer output_size_64) (fun r => Status (fst r));
          _ ← obs (fun e => (tt, Lzma2Enc_Destroy h e)) (fun _ => Released (Encoder h));
          if encode_status =? SZ_OK then
            let v := properties :: size_bytes src_size ++ stream in
            _ ← free a;
            mret (v, None)
          else fails "LzmaEncode failed on compressing. trace info: lzma_cxx::compress"
        end
    end.

Definition BUF_SIZE : Z := 10240.

(** The state of the decoding loop: the decoder, the positions, what was written
    to the front of the buffer. *)
Record decoding := mkDecoding { dec : CLzma2Dec; out_pos : Z; in_pos : Z; data : list u8 }.

(** One round of [while (_out_pos < _pre_out_size)]: [inl] is a failed decoding. *)
Definition decode_round (pSrcBuffer : list u8) (size : Z) (s : decoding)
    : IO (flow decoding (unit + decoding)) :=
  let pre_out_size := wrap_u 64 (size * 2) in
  if out_pos s <? pre_out_size then
    let dest_len := Z.min BUF_SIZE (pre_out_size - out_pos s) in
    let src_len := Z.min BUF_SIZE (wrap_u 64 (Z.of_nat (length pSrcBuffer) - in_pos s)) in
    _ ← lift (gsl_at pSrcBuffer (in_pos s));
    '(r, out, consumed, status, d) ←
      obs (Lzma2Dec_DecodeToBuf (dec s) dest_len
             (take (Z.to_nat src_len) (drop (Z.to_nat (in_pos s)) pSrcBuffer))
             (if out_pos s + dest_len =? size then LZMA_FINISH_END else LZMA_FINISH_ANY))
        (fun x => Status (fst (fst (fst (fst x)))));
    if out_pos s + Z.of_nat (length out) >? size then panic UB_OVERWRITE
    else if negb (r =? SZ_OK) then mret (Break (inl tt))
    else
      let s' := mkDecoding d (wrap_u 32 (out_pos s + Z.of_nat (length out)))
                  (wrap_u 32 (in_pos s + consumed)) (data s ++ out) in
      if bool_decide (status = LZMA_STATUS_FINISHED_WITH_MARK) then mret (Break (inr s'))
      else mret (Continue s')
  else mret (Break (inr s)).

Definition decompress_2 (fuel : nat) (pSrcBuffer : list u8) : IO (list u8 * option string) :=
  let src_size := Z.of_nat (length pSrcBuffer) in
  if src_size <? LZMA_HEADER_SRC_SIZE + 1 then fails "invalid lzma2 header. trace info: lzma_cxx::decompress_2"
  else
    size ← lift (size_from_header (Z.to_nat LZMA_HEADER_SRC_SIZE) pSrcBuffer 1 0 0);
    if size <=? 256 * 1024 * 1024 then
      mem ← malloc size;
      match mem with
      | None =>
        fails "could not allocate memory for lzma decompress buffer. trace info: lzma_cxx::decompress_2"
      | Some a =>
        '(r, d) ← obs (Lzma2Dec_Allocate Byte.x00) (fun x => Status (fst x));
        if negb (r =? SZ_OK) then
          fails "Lzma2Dec_Allocate(...) == SZ_OK. trace info: lzma_cxx::decompress_2"
        else
          _ ← emit (Got Decoder);
          _ ← lift (gsl_at pSrcBuffer 0);
          x ← loop fuel (decode_round pSrcBuffer size)
                (mkDecoding (Lzma2Dec_Init d) 0 (LZMA_HEADER_SRC_SIZE + 1) []);
          match x with
          | inl _ => fails "Lzma2Dec_DecodeToBuf(...) == SZ_OK. trace info: lzma_cxx::decompress_2"
          | inr s =>
            _ ← obs (fun e => (tt, Lzma2Dec_Free (dec s) e)) (fun _ => Released Decoder);
            if out_pos s =? size then
              _ ← free a;
              mret (data s, None)
            else mret ([], None)
          end
      end
    else fails "invalid lzma2 header size. trace info: lzma_cxx::decompress_2".

Definition compress (p_source_buffer : list u8) (p_compress_type : LZMAType) (p_level : Z)
    : IO (list u8 * option string) :=
  match p_compress_type with
  | LZMA1 => compress_1 p_source_buffer p_level
  | LZMA2 => compress_2 p_source_buffer p_level
  end.
Definition decompress (fuel : nat) (p_source_buffer : list u8) (p_compress_type : LZMAType)
    : IO (list u8 * option string) :=
  match p_compress_type with
  | LZMA1 => decompress_1 p_source_buffer
  | LZMA2 => decompress_2 fuel p_source_buffer
  end.
End lzma.

(** ** What the library guarantees

    Whatever it is given, a coder writes no more than its destination holds and
    reads no more than the length it is told. *)
Class LzmaCaps (Env : Type) `{!Lzma Env} : Prop := {
  encoded_props p s n e r c pe e' :
    LzmaEncode p s n e = ((r, c, pe), e') -> Z.of_nat (length pe) = LZMA_PROPS_SIZE;
  decode_cap p s m n e r out k e' :
    0 <= n -> 0 <= m -> LzmaDecode p s m n e = ((r, out, k), e') ->
    Z.of_nat (length out) <= n /\ 0 <= k <= m;
  decode2_cap d n w f e r out k st d' e' :
    0 <= n -> Lzma2Dec_DecodeToBuf d n w f e = ((r, out, k, st, d'), e') ->
    Z.of_nat (length out) <= n /\ 0 <= k <= Z.of_nat (length w);
}.

(** The formats. [stream1 p c s]: with the encoded properties [p], [c] is an LZMA
    stream of [s]; [stream2 p c s], an LZMA2 stream, its end mark included, for a
    decoder with the dictionary of the property byte [p]. [pending d c s]: the
    decoder [d] has still to read [c] and to write [s]. *)
Class LzmaLaws (Env : Type) `{!Lzma Env} := {
  stream1 : list u8 -> list u8 -> list u8 -> Prop;
  stream2 : u8 -> list u8 -> list u8 -> Prop;
  pending : CLzma2Dec -> list u8 -> list u8 -> Prop;
  (** An encoder that succeeds leaves a stream, not empty, in the room it has. *)
  encode_law p s n e c pe e' :
    LzmaEncode p s n e = ((SZ_OK, c, pe), e') -> stream1 pe c s /\ c <> [] /\ Z.of_nat (length c) <= n;
  encode2_law p s n e c e' :
    Lzma2Enc_Encode2 p s n e = ((SZ_OK, c), e') ->
    stream2 (Lzma2Enc_WriteProperties p) c s /\ c <> [] /\ Z.of_nat (length c) <= n;
  (** A dictionary of 4096 bytes is the property byte 0. *)
  properties_law p : dictSize p = 4096 -> Lzma2Enc_WriteProperties p = Byte.x00;
  (** Decoding a stream into a destination of the size of its source, told at
      least the stream's length, gives the source and does not look past the
      stream, unless memory runs out. *)
  decode_law p c s rest m e r out k e' :
    stream1 p c s -> Z.of_nat (length c) <= m ->
    LzmaDecode p (c ++ rest) m (Z.of_nat (length s)) e = ((r, out, k), e') ->
    k <= Z.of_nat (length c) /\ (r = SZ_OK /\ out = s \/ r = SZ_ERROR_MEM);
  (** A property byte up to 40 is supported: only memory can be short. *)
  allocate_law p e r d e' :
    byte_z p <= 40 -> Lzma2Dec_Allocate p e = ((r, d), e') -> r = SZ_OK \/ r = SZ_ERROR_MEM;
  init_law p e d e' c s :
    Lzma2Dec_Allocate p e = ((SZ_OK, d), e') -> stream2 p c s -> pending (Lzma2Dec_Init d) c s;
  (** A round that may finish anywhere, with room to write and something to read,
      makes progress, and ends at the mark, which is the last of the stream. *)
  decode2_law d c s n w e r out k st d' e' :
    pending d c s -> 0 < n -> w <> [] -> w `prefix_of` c ->
    Lzma2Dec_DecodeToBuf d n w LZMA_FINISH_ANY e = ((r, out, k, st, d'), e') ->
    r = SZ_OK /\ exists c' s', c = take (Z.to_nat k) w ++ c' /\ s = out ++ s' /\
      (st = LZMA_STATUS_FINISHED_WITH_MARK /\ s' = [] \/
       st <> LZMA_STATUS_FINISHED_WITH_MARK /\ c' <> [] /\ pending d' c' s' /\ (0 < k \/ out <> []));
}.

(** ** Accounting *)
Definition got (t : list event) : list block :=
  omap (fun ev => match ev with Got b => Some b | _ => None end) t.
Definition released (t : list event) : list block :=
  omap (fun ev => match ev with Released b => Some b | _ => None end) t.
(** Everything that was allocated was released. *)
Definition balanced (t : list event) : Prop := got t ≡ₚ released t.
Definition out_of_memory (t : list event) : Prop := Refused ∈ t \/ Status SZ_ERROR_MEM ∈ t.

Lemma got_app t u : got (t ++ u) = got t ++ got u.
Proof. apply omap_app. Qed.
Lemma released_app t u : released (t ++ u) = released t ++ released u.
Proof. apply omap_app. Qed.

(** ** The header *)


Lemma length_size_bytes n : length (size_bytes n) = 8%nat.
Proof. unfold size_bytes. by rewrite length_map, length_seq. Qed.

Lemma size_bytes_lookup n (j : nat) :
  (j < 8)%nat ->
  exists b, size_bytes n !! j = Some b /\ byte_z b = n / 2 ^ (8 * Z.of_nat j) mod 256.
Proof.
  intros Hj. unfold size_bytes. rewrite list_lookup_fmap, lookup_seq_lt by done. eexists. split; [done|].
  rewrite byte_z_of_Z. change 0xFF with (Z.ones 8). rewrite Z.land_ones by lia.
  change (2 ^ 8) with 256. rewrite Z.mod_mod by lia. rewrite Z.shiftr_div_pow2 by lia.
  do 3 f_equal. lia.
Qed.

(** One more byte of the low end of a number. *)
Lemma low_bytes_step n i :
  0 <= i ->
  Z.lor (n mod 2 ^ (8 * i)) (Z.shiftl (n / 2 ^ (8 * i) mod 256) (8 * i)) = n mod 2 ^ (8 * (i + 1)).
Proof.
  intros Hi. apply Z.bits_inj'. intros m Hm. rewrite Z.lor_spec, Z.shiftl_spec by done.
  change 256 with (2 ^ 8). rewrite !Z.testbit_mod_pow2 by lia.
  destruct (Z.ltb_spec m (8 * i)), (Z.ltb_spec m (8 * (i + 1))); cbn [andb orb]; try lia.
  - rewrite (Z.testbit_neg_r _ (m - 8 * i)) by lia. by rewrite andb_false_r, orb_false_r.
  - rewrite (proj2 (Z.ltb_lt (m - 8 * i) 8)) by lia. cbn [andb]. rewrite Z.div_pow2_bits by lia.
    f_equal. lia.
Qed.

Lemma header_byte a i :
  0 <= i < 8 -> wrap_u 64 (Z.shiftl (byte_z a) (i * 8)) = Z.shiftl (byte_z a) (8 * i) /\
  wrap_u 64 (Z.shiftl (byte_z a) (i * 8)) < u64_max.
Proof.
  intros Hi. pose proof (byte_z_range a) as Ha. replace (i * 8) with (8 * i) by lia.
  rewrite Z.shiftl_mul_pow2 by lia.
  assert (2 ^ (8 * i) <= 2 ^ 56) as Hp by (apply Z.pow_le_mono_r; lia).
  assert (0 < 2 ^ (8 * i)) as Hp0 by (apply Z.pow_pos_nonneg; lia).
  rewrite wrap_u_small; [unfold u64_max; split; [done|nia]|nia].
Qed.

Lemma size_from_header_step n src offset k (i : nat) :
  0 <= n -> 0 <= offset -> (i + k <= 8)%nat ->
  (forall j : nat, (i <= j < i + k)%nat -> src !! Z.to_nat (offset + Z.of_nat j) = size_bytes n !! j) ->
  size_from_header k src offset (Z.of_nat i) (n mod 2 ^ (8 * Z.of_nat i)) =
  Ret (n mod 2 ^ (8 * Z.of_nat (i + k))).
Proof.
  intros Hn Ho. revert i. induction k as [|k IH]; intros i Hk Hsrc; [by rewrite Nat.add_0_r|].
  cbn [size_from_header]. unfold gsl_at at 1. rewrite Hsrc by lia.
  destruct (size_bytes_lookup n i ltac:(lia)) as (b & -> & Hb). cbn [mbind res_mbind res_bind].
  destruct (header_byte b (Z.of_nat i) ltac:(lia)) as [Hc Hlt].
  rewrite (proj2 (Z.ltb_lt _ _) Hlt), Hc, Hb, low_bytes_step by lia.
  replace (Z.of_nat i + 1) with (Z.of_nat (S i)) by lia. rewrite IH; [do 4 f_equal; lia|lia|].
  intros j Hj. apply Hsrc. lia.
Qed.

(** The size written by [compress] is the one [decompress] reads. *)
Lemma size_from_header_written pre n rest :
  0 <= n < 2 ^ 64 ->
  size_from_header 8 (pre ++ size_bytes n ++ rest) (Z.of_nat (length pre)) 0 0 = Ret n.
Proof.
  intros Hn. pose proof (size_from_header_step n (pre ++ size_bytes n ++ rest) (Z.of_nat (length pre)) 8 0) as H.
  change (2 ^ (8 * Z.of_nat 0)) with 1 in H. change (Z.of_nat 0) with 0 in H.
  rewrite Z.mod_1_r in H. rewrite H; [|lia|lia|lia|].
  - change (8 * Z.of_nat (0 + 8)) with 64. by rewrite Z.mod_small.
  - intros j Hj. rewrite lookup_app_r by lia. rewrite lookup_app_l by (rewrite length_size_bytes; lia).
    f_equal. lia.
Qed.

(** Of any source long enough, the header reads as some size. *)
Lemma size_from_header_total k src offset i acc :
  0 <= offset -> 0 <= i -> 0 <= acc -> offset + i + Z.of_nat k <= Z.of_nat (length src) ->
  exists n, size_from_header k src offset i acc = Ret n /\ 0 <= n.
Proof.
  intros Ho. revert i acc. induction k as [|k IH]; intros i acc Hi Hacc Hlen; [by eexists|].
  cbn [size_from_header]. unfold gsl_at at 1.
  destruct (lookup_lt_is_Some_2 src (Z.to_nat (offset + i)) ltac:(lia)) as [b Hb]. rewrite Hb.
  cbn [mbind res_mbind res_bind]. apply IH; [lia| |lia]. destruct (_ <? _); [|done].
  apply Z.lor_nonneg. split; [done|]. apply wrap_u_range. lia.
Qed.

(** ** Compressing, and decompressing what was compressed *)
Section round_trip.
Context {Env : Type} `{!Lzma Env} `{!LzmaCaps Env} `{!LzmaLaws Env}.
Implicit Types (e : Env) (s v : list u8).

(** What [compress] gives for a source: the header, then a stream of it. *)
Definition compressed (ty : LZMAType) (v s : list u8) : Prop :=
  match ty with
  | LZMA1 => exists p c, v = p ++ size_bytes (Z.of_nat (length s)) ++ c /\
      Z.of_nat (length p) = LZMA_PROPS_SIZE /\ stream1 p c s /\ c <> []
  | LZMA2 => exists p c, v = p :: size_bytes (Z.of_nat (length s)) ++ c /\ stream2 p c s /\ c <> [] /\
      (Z.of_nat (length s) <= 4096 -> p = Byte.x00 /\ Z.of_nat (length c) <= 8192)
  end.

Lemma small_dictionary lvl n : 0 <= n <= 4096 -> dictSize (lzma_prop lvl n) = 4096.
Proof.
  intros Hn. unfold lzma_prop. assert (wrap_s 32 n = n) as ->.
  { unfold wrap_s. change (2 ^ (32 - 1)) with (2 ^ 31). rewrite Z.mod_small; lia. }
  cbn [dictSize]. change (Z.shiftl 1 12) with 4096. by rewrite (proj2 (Z.leb_le n 4096)) by lia.
Qed.

(** A run of [compress]: a compressed form and nothing left allocated, or
    nothing and a message. *)
Lemma compress_wp s ty lvl e :
  wp (compress s ty lvl) (fun r _ t => exists v tr, r = Ret (v, tr) /\
    match tr with None => compressed ty v s /\ balanced t | Some _ => v = [] end) e.
Proof.
  destruct ty; cbn [compress]; unfold compress_1, compress_2, fails.
  - destruct (Z.eqb_spec (Z.of_nat (length s)) 0) as [|Hs]; [apply wp_ret; by do 2 eexists|].
    apply wp_bind, wp_obs. intros [a|] e1 _; [|apply wp_ret; by do 2 eexists].
    apply wp_bind, wp_obs. intros [[st c] pe] e2 Henc. destruct (Z.eqb_spec st SZ_OK) as [->|];
      [|apply wp_ret; by do 2 eexists].
    apply wp_bind, wp_obs. intros [] e3 _. apply wp_ret. eexists _, None. split; [done|]. split.
    + exists pe, c. pose proof (encoded_props _ _ _ _ _ _ _ _ Henc) as Hpe.
      apply encode_law in Henc as (? & ? & _). split_and!; try done. f_equal. unfold overwrite.
      rewrite drop_ge by (rewrite length_replicate; lia). by rewrite app_nil_r.
    + unfold balanced. done.
  - destruct (Z.eqb_spec (Z.of_nat (length s)) 0) as [|Hs]; [apply wp_ret; by do 2 eexists|].
    apply wp_bind, wp_obs. intros [h|] e1 _; [|apply wp_ret; by do 2 eexists].
    apply wp_bind, wp_obs. intros st e2 _. destruct (negb _); [apply wp_ret; by do 2 eexists|].
    apply wp_bind, wp_obs. intros [a|] e3 _; [|apply wp_ret; by do 2 eexists].
    apply wp_bind, wp_obs. intros [st2 c] e4 Henc. apply wp_bind, wp_obs. intros [] e5 _.
    destruct (Z.eqb_spec st2 SZ_OK) as [->|]; [|apply wp_ret; by do 2 eexists].
    apply wp_bind, wp_obs. intros [] e6 _. apply wp_ret. eexists _, None. split; [done|]. split; [|unfold balanced; done].
    apply encode2_law in Henc as (? & ? & Hc). do 2 eexists. split_and!; [done..|].
    intros Hlen. split; [by apply properties_law, small_dictionary; lia|]. revert Hc.
    unfold output_size. rewrite wrap_u_small by lia. destruct (_ <? _); lia.
Qed.

(** The header [decompress] reads from a compressed form. *)
Lemma header_of_compressed_1 p c s :
  Z.of_nat (length p) = LZMA_PROPS_SIZE -> Z.of_nat (length s) < 2 ^ 64 ->
  size_from_header (Z.to_nat LZMA_HEADER_SRC_SIZE) (p ++ size_bytes (Z.of_nat (length s)) ++ c)
    LZMA_PROPS_SIZE 0 0 = Ret (Z.of_nat (length s)).
Proof. intros <- Hs. apply size_from_header_written. lia. Qed.

Lemma header_of_compressed_2 p c s :
  Z.of_nat (length s) < 2 ^ 64 ->
  size_from_header (Z.to_nat LZMA_HEADER_SRC_SIZE) (p :: size_bytes (Z.of_nat (length s)) ++ c) 1 0 0 =
  Ret (Z.of_nat (length s)).
Proof. intros Hs. apply (size_from_header_written [p]). lia. Qed.

(** The source, with nothing left allocated, or nothing when memory ran out. *)
Definition given_back s (r : res (list u8 * option string)) (t : list event) : Prop :=
  r = Ret (s, None) /\ balanced t \/ out_of_memory t /\ exists tr, r = Ret ([], tr).

Lemma decompress_1_wp v s e :
  compressed LZMA1 v s -> Z.of_nat (length s) <= 2 ^ 28 ->
  wp (decompress_1 v) (fun r _ t => given_back s r t) e.
Proof.
  intros (p & c & -> & Hp & Hstream & Hc) Hs. unfold decompress_1, fails.
  rewrite header_of_compressed_1 by lia. rewrite !length_app, length_size_bytes.
  change (LZMA_HEADER_SRC_SIZE + LZMA_PROPS_SIZE) with 13. unfold LZMA_PROPS_SIZE in Hp.
  assert (0 < length c)%nat as Hc0 by (destruct c; simpl; [done|lia]).
  rewrite (proj2 (Z.ltb_ge _ _)) by lia. apply wp_bind, wp_lift.
  rewrite (proj2 (Z.leb_le _ _)) by lia. apply wp_bind, wp_obs. intros [a|] e1 _.
  2:{ apply wp_ret. right. split; [left; by left|]. by eexists. }
  change (Z.to_nat 13) with 13%nat.
  assert (drop 13 (p ++ size_bytes (Z.of_nat (length s)) ++ c) = c) as Hdrop.
  { rewrite (assoc_L app), drop_app_ge by (rewrite length_app, length_size_bytes; lia).
    rewrite length_app, length_size_bytes. by replace (13 - _)%nat with 0%nat by lia. }
  rewrite Hdrop. rewrite (take_app_length' p) by lia.
  apply wp_bind, wp_lift. unfold gsl_at.
  destruct (lookup_lt_is_Some_2 (p ++ size_bytes (Z.of_nat (length s)) ++ c) (Z.to_nat 13)) as [b ->].
  { rewrite !length_app, length_size_bytes. lia. }
  apply wp_bind, wp_obs. intros [[r out] k] e2 Hdec.
  pose proof Hdec as Hcap. apply decode_cap in Hcap as [Hout _]; [|lia|unfold LZMA_HEADER_SRC_SIZE, LZMA_PROPS_SIZE; lia].
  rewrite <-(app_nil_r c) in Hdec at 1. eapply decode_law in Hdec as [Hk Hr]; [|done|unfold LZMA_HEADER_SRC_SIZE, LZMA_PROPS_SIZE; lia].
  rewrite !Z.gtb_ltb, !(proj2 (Z.ltb_ge _ _)) by lia. destruct Hr as [[-> ->]| ->].
  - rewrite !Z.eqb_refl. cbn [andb]. apply wp_bind, wp_obs. intros [] e3 _. apply wp_ret.
    left. split; [done|]. unfold balanced. done.
  - cbn [SZ_ERROR_MEM SZ_OK Z.eqb andb]. apply wp_ret. right. split; [right|by eexists].
    right. by left.
Qed.

(** The decoding loop on what is left of a stream. Its room is up to twice the
    size, so for a small source no round asks for the end of the stream. *)
Lemma decode_loop pre c s s0 fuel d e :
  pending d c s -> c <> [] -> (length c + length s < fuel)%nat ->
  Z.of_nat (length (pre ++ c)) < 2 ^ 32 -> 0 < Z.of_nat (length (s0 ++ s)) <= 4096 ->
  wp (loop fuel (decode_round (pre ++ c) (Z.of_nat (length (s0 ++ s))))
        (mkDecoding d (Z.of_nat (length s0)) (Z.of_nat (length pre)) s0))
     (fun r _ t => got t = [] /\ released t = [] /\ exists x, r = Ret (inr x) /\
        out_pos x = Z.of_nat (length (s0 ++ s)) /\ data x = s0 ++ s) e.
Proof.
  revert pre c s s0 d e. induction fuel as [|fuel IH]; intros pre c s s0 d e Hp Hc Hf Hlen Hs; [lia|].
  rewrite loop_S. apply wp_bind. unfold decode_round at 1. cbn [out_pos in_pos dec data].
  assert (0 < length c)%nat as Hc0 by (destruct c; simpl; [done|lia]).
  assert (wrap_u 64 (Z.of_nat (length (s0 ++ s)) * 2) = Z.of_nat (length (s0 ++ s)) * 2) as ->
    by (apply wrap_u_small; lia).
  rewrite length_app in Hs |- *. rewrite (proj2 (Z.ltb_lt _ _)) by lia.
  apply wp_bind, wp_lift. unfold gsl_at. rewrite lookup_app_r by lia.
  replace (Z.to_nat (Z.of_nat (length pre)) - length pre)%nat with 0%nat by lia.
  destruct c as [|b c1] eqn:Ec; [done|]. rewrite <-Ec in *. assert (c !! 0%nat = Some b) as Hb by (by rewrite Ec).
  rewrite Hb. clear Ec Hb c1. rewrite drop_app_length' by lia. rewrite length_app in Hlen |- *.
  rewrite wrap_u_small by lia. set (w := take _ c).
  assert (0 < length w)%nat as Hw0 by (unfold w, BUF_SIZE; rewrite length_take; lia).
  rewrite (proj2 (Z.eqb_neq (_ + Z.min _ _) _)) by (unfold BUF_SIZE; lia).
  apply wp_bind, wp_obs. intros [[[[r out] k] st] d'] e1 Hdec. cbn [fst].
  pose proof Hdec as Hcap. apply decode2_cap in Hcap as [_ Hk]; [|unfold BUF_SIZE; lia].
  eapply decode2_law in Hdec as (-> & c' & s' & Hc' & Hs' & Hend);
    [|done|unfold BUF_SIZE; lia|by intros Hw; rewrite Hw in Hw0; simpl in Hw0; lia|apply prefix_take].
  assert (length c = Z.to_nat k + length c')%nat as Hlc.
  { rewrite Hc' at 1. rewrite length_app, length_take. lia. }
  assert (length s = length out + length s')%nat as Hls by (by rewrite Hs', length_app).
  rewrite Z.gtb_ltb, (proj2 (Z.ltb_ge _ _)) by lia. cbn [Z.eqb SZ_OK negb].
  rewrite !wrap_u_small by lia.
  destruct Hend as [[-> ->]|(Hst & Hne & Hp' & Hprog)].
  - rewrite bool_decide_true by done. apply wp_ret, wp_ret. split_and!; [done..|]. eexists. split; [done|].
    cbn [out_pos data]. rewrite app_nil_r in Hs'. subst s. simpl in Hls. split; [lia|done].
  - rewrite bool_decide_false by done. apply wp_ret.
    assert (pre ++ c = (pre ++ take (Z.to_nat k) w) ++ c') as Hpre by (by rewrite <-(assoc_L app), <-Hc').
    assert (s0 ++ s = (s0 ++ out) ++ s') as Hss by (by rewrite <-(assoc_L app), <-Hs').
    specialize (IH (pre ++ take (Z.to_nat k) w) c' s' (s0 ++ out) d' e1 Hp' Hne).
    rewrite <-Hpre, <-Hss in IH. rewrite !length_app, length_take in IH.
    replace (Z.of_nat (length pre + Z.to_nat k `min` length w)) with (Z.of_nat (length pre) + k) in IH by lia.
    replace (Z.of_nat (length s0) + Z.of_nat (length out)) with (Z.of_nat (length s0 + length out)) by lia.
    eapply wp_mono; [|apply IH; [|lia|lia]].
    + intros r2 e2 t (Hg & Hr & Hx). rewrite got_app, released_app, Hg, Hr. by split_and!.
    + destruct Hprog as [|Hout]; [lia|]. destruct out; [done|]. simpl in *. lia.
Qed.

Lemma decompress_2_wp fuel v s e :
  compressed LZMA2 v s -> s <> [] -> Z.of_nat (length s) <= 4096 -> (length v + length s < fuel)%nat ->
  wp (decompress_2 fuel v) (fun r _ t => given_back s r t) e.
Proof.
  intros (p & c & -> & Hstream & Hc & Hp) Hs0 Hs Hf. destruct (Hp Hs) as [-> Hlc]. unfold decompress_2, fails.
  assert (0 < length s)%nat as Hs1 by (destruct s; simpl; [done|lia]).
  rewrite header_of_compressed_2 by lia.
  assert (length (Byte.x00 :: size_bytes (Z.of_nat (length s)) ++ c) = 9 + length c)%nat as Hlv
    by (cbn [length]; by rewrite length_app, length_size_bytes).
  rewrite Hlv in Hf |- *.
  change (LZMA_HEADER_SRC_SIZE + 1) with 9. rewrite (proj2 (Z.ltb_ge _ _)) by lia.
  apply wp_bind, wp_lift. rewrite (proj2 (Z.leb_le _ _)) by lia. apply wp_bind, wp_obs. intros [a|] e1 _.
  2:{ apply wp_ret. right. split; [left; by left|]. by eexists. }
  apply wp_bind, wp_obs. intros [r d] e2 Hal. assert (byte_z Byte.x00 <= 40) as H00 by (by vm_compute).
  pose proof (allocate_law _ _ _ _ _ H00 Hal) as [->| ->].
  2:{ apply wp_ret. right. split; [right; right; by left|]. by eexists. }
  cbn [Z.eqb SZ_OK negb]. apply wp_bind, wp_emit, wp_bind, wp_lift. cbn [gsl_at lookup Z.to_nat list_lookup].
  apply wp_bind. pose proof (init_law _ _ _ _ _ _ Hal Hstream) as Hpend.
  pose proof (decode_loop (Byte.x00 :: size_bytes (Z.of_nat (length s))) c s [] fuel _ e2 Hpend Hc) as Hloop.
  cbn [length] in Hloop. rewrite length_size_bytes in Hloop.
  eapply wp_mono; [|apply Hloop; [lia| |simpl; lia]].
  2:{ cbn [app] in Hlv |- *. rewrite Hlv. lia. }
  intros r2 e3 t (Hg & Hr & x & -> & Hpos & Hdata). cbn [app] in Hpos, Hdata. apply wp_bind, wp_obs.
  intros [] e4 _. rewrite Hpos, Z.eqb_refl. apply wp_bind, wp_obs. intros [] e5 _. apply wp_ret.
  left. split; [by rewrite Hdata|]. unfold balanced.
  rewrite !got_app, !released_app, Hg, Hr. apply Permutation_swap.
Qed.
End round_trip.

(** ** What the bridge promises *)
Section guarantees.
Context {Env : Type} `{!Lzma Env} `{!LzmaCaps Env}.
Implicit Types (e : Env) (src v : list u8).

(** What a decompression may return: at most 256 MiB, of the size in the header,
    with everything released; or nothing, and then it may have kept its buffer. *)
Definition returned (v : list u8) (tr : option string) (t : list event) : Prop :=
  Z.of_nat (length v) <= 2 ^ 28 /\ (v <> [] -> tr = None) /\
  (balanced t \/ v = [] /\ forall a, Released (Heap a) ∉ t).

Lemma released_elem t b : Released b ∈ t -> b ∈ released t.
Proof. intros Hb. apply list_elem_of_omap. by eexists. Qed.

Lemma returned_nothing tr t : released t = [] -> returned [] tr t.
Proof. intros Ht. split_and!; [done..|]. right. split; [done|]. intros a Hin%released_elem. rewrite Ht in Hin. by apply elem_of_nil in Hin. Qed.

(** The outcomes of a run of [decompress] of the type [ty]. *)
Definition outcome (ty : LZMAType) src (r : res (list u8 * option string)) (t : list event) : Prop :=
  match r with
  | Ret (v, tr) => returned v tr t
  | Panic why =>
    match ty with
    | LZMA1 => why = UB_OVERREAD \/ why = TERMINATE /\ length src = 13%nat
    | LZMA2 => why = UB_OVERWRITE \/ why = TERMINATE
    end
  | NoFuel => ty = LZMA2
  end.

Ltac nothing := by apply wp_ret, returned_nothing.

Lemma decompress_1_outcome src e : wp (decompress_1 src) (fun r _ t => outcome LZMA1 src r t) e.
Proof.
  unfold decompress_1, fails. change (LZMA_HEADER_SRC_SIZE + LZMA_PROPS_SIZE) with 13.
  destruct (Z.ltb_spec (Z.of_nat (length src)) 13) as [|Hlen]; [nothing|].
  destruct (size_from_header_total 8 src 5 0 0) as (n & Hn & Hpos); [lia..|].
  change (Z.to_nat LZMA_HEADER_SRC_SIZE) with 8%nat. change LZMA_PROPS_SIZE with 5 in *. rewrite Hn.
  apply wp_bind, wp_lift. destruct (Z.leb_spec n (256 * 1024 * 1024)) as [Hle|]; [|nothing].
  apply wp_bind, wp_obs. intros [a|] e1 _; [|nothing]. apply wp_bind, wp_lift. unfold gsl_at.
  destruct (src !! Z.to_nat 13) as [b|] eqn:Hb.
  2:{ right. split; [done|]. apply lookup_ge_None in Hb. lia. }
  apply wp_bind, wp_obs. intros [[st out] k] e2 Hdec.
  apply decode_cap in Hdec as [Hout Hk]; [|done|unfold LZMA_HEADER_SRC_SIZE; lia].
  destruct (Z.gtb_spec k (Z.of_nat (length (drop (Z.to_nat 13) src)))); [by left|].
  rewrite Z.gtb_ltb, (proj2 (Z.ltb_ge _ _)) by lia. destruct (_ && _) eqn:Hok; [|nothing].
  apply wp_bind, wp_obs. intros [] e3 _. apply wp_ret. split_and!; [lia|done|left; unfold balanced; done].
Qed.

(** The decoding loop stays within the buffer, or is seen leaving it. *)
Lemma decode_loop_outcome src size fuel x e :
  size <= 2 ^ 28 -> out_pos x = Z.of_nat (length (data x)) -> out_pos x <= size ->
  wp (loop fuel (decode_round src size) x) (fun r _ t => got t = [] /\ released t = [] /\
    match r with
    | Ret (inl _) | NoFuel => True
    | Ret (inr y) => out_pos y = Z.of_nat (length (data y)) /\ out_pos y <= size
    | Panic why => why = UB_OVERWRITE \/ why = TERMINATE
    end) e.
Proof.
  intros Hsize. revert x e. induction fuel as [|fuel IH]; intros x e Hx Hle; [done|].
  rewrite loop_S. apply wp_bind. unfold decode_round at 1.
  destruct (_ <? _) eqn:Hlt; [|apply wp_ret, wp_ret; by split_and!].
  apply wp_bind, wp_lift. unfold gsl_at. destruct (src !! _); [|by split_and!; [..|right]].
  apply wp_bind, wp_obs. intros [[[[r out] k] st] d'] e1 _. cbn [fst].
  destruct (Z.gtb_spec (out_pos x + Z.of_nat (length out)) size); [by split_and!; [..|left]|].
  destruct (negb _); [apply wp_ret, wp_ret; by split_and!|].
  rewrite (wrap_u_small 32 (out_pos x + _)) by lia. set (y := mkDecoding _ _ _ _).
  assert (out_pos y = Z.of_nat (length (data y))) as Hy by (cbn; rewrite length_app; lia).
  destruct (bool_decide _); [apply wp_ret, wp_ret; by split_and!|]. apply wp_ret.
  eapply wp_mono; [|by apply (IH y)]. intros r2 e2 t (Hg & Hr & Ho).
  rewrite got_app, released_app, Hg, Hr. by split_and!.
Qed.

Lemma decompress_2_outcome fuel src e : wp (decompress_2 fuel src) (fun r _ t => outcome LZMA2 src r t) e.
Proof.
  unfold decompress_2, fails. change (LZMA_HEADER_SRC_SIZE + 1) with 9.
  destruct (Z.ltb_spec (Z.of_nat (length src)) 9) as [|Hlen]; [nothing|].
  destruct (size_from_header_total 8 src 1 0 0) as (n & Hn & Hpos); [lia..|].
  change (Z.to_nat LZMA_HEADER_SRC_SIZE) with 8%nat. rewrite Hn.
  apply wp_bind, wp_lift. destruct (Z.leb_spec n (256 * 1024 * 1024)) as [Hle|]; [|nothing].
  apply wp_bind, wp_obs. intros [a|] e1 _; [|nothing]. apply wp_bind, wp_obs. intros [st d] e2 _.
  destruct (negb _); [nothing|]. apply wp_bind, wp_emit, wp_bind, wp_lift. unfold gsl_at.
  destruct (src !! Z.to_nat 0); [|by right]. apply wp_bind.
  eapply wp_mono; [|apply (decode_loop_outcome src n fuel); simpl; lia].
  intros [[u|y]|why|] e3 t (Hg & Hr & Ho); [| |done|done].
  - apply wp_ret, returned_nothing. by rewrite !released_app, Hr.
  - apply wp_bind, wp_obs. intros [] e4 _. destruct (Z.eqb_spec (out_pos y) n).
    + apply wp_bind, wp_obs. intros [] e5 _. apply wp_ret. split_and!; [lia|done|]. left. unfold balanced.
      rewrite !got_app, !released_app, Hg, Hr. apply Permutation_swap.
    + apply wp_ret. split_and!; [done..|]. right. split; [done|]. intros b' Hin%released_elem.
      rewrite !released_app, Hr in Hin. by apply list_elem_of_singleton in Hin.
Qed.

(** C9: decompressing any source, well formed or not, with a decoder that respects
    its bounds: what comes back is at most 256 MiB, with every allocation released,
    and a failure returns nothing (keeping its buffer). LZMA never writes out of
    bounds, but may read past the source (the length it passes is 10 bytes too
    long), and a source that is a header alone ends the program; LZMA2 may write
    past its buffer (it decodes up to twice the size in the header) and a source
    that stops before its end mark ends the program. *)
Theorem lzma_decompress_outcomes fuel ty src e :
  wp (decompress fuel src ty) (fun r _ t => outcome ty src r t) e.
Proof. destruct ty; [apply decompress_1_outcome|apply decompress_2_outcome]. Qed.

(** C8: compressing and decompressing back, for both types: a compression that
    gives no message leaves nothing allocated, and decompressing its result gives
    the source back and leaves nothing allocated either, unless memory runs out;
    for LZMA2 this is so up to 4096 bytes, the dictionary its decoder is always
    allocated with, and the loop ends within the fuel of the bytes it can read and
    write. A source over 256 MiB is compressed all the same, and its result is
    always refused. *)
Theorem lzma_round_trip `{!LzmaLaws Env} ty s lvl fuel e :
  Z.of_nat (length s) < 2 ^ 63 ->
  wp (compress s ty lvl) (fun r e1 t1 => exists v tr, r = Ret (v, tr) /\
    (tr = None ->
     balanced t1 /\
     (Z.of_nat (length s) <= match ty with LZMA1 => 2 ^ 28 | LZMA2 => 4096 end ->
      (length v + length s < fuel)%nat ->
      wp (decompress fuel v ty) (fun r2 _ t2 => given_back s r2 t2) e1) /\
     (2 ^ 28 < Z.of_nat (length s) ->
      wp (decompress fuel v ty) (fun r2 _ t2 => t2 = [] /\ exists msg, r2 = Ret ([], Some msg)) e1))) e.
Proof.
  intros Hlen. destruct s as [|b s0] eqn:Es.
  { destruct ty; apply wp_ret; by do 2 eexists. }
  rewrite <-Es in *. assert (s <> []) as Hs by (by rewrite Es). clear b s0 Es.
  eapply wp_mono; [|apply compress_wp]. intros r e1 t1 (v & tr & -> & Hc). exists v, tr. split; [done|].
  intros ->. destruct Hc as [Hc Hb]. split; [done|]. split.
  - intros Hmax Hf. destruct ty; [by apply decompress_1_wp|by apply decompress_2_wp].
  - intros Hbig. destruct ty; destruct Hc as (p & c & -> & Hp & _); cbn [decompress];
      unfold decompress_1, decompress_2, fails.
    + destruct (_ <? _); [apply wp_ret; by eauto|]. rewrite header_of_compressed_1 by (done || lia).
      apply wp_bind, wp_lift. rewrite (proj2 (Z.leb_gt _ _)) by lia. apply wp_ret. by eauto.
    + destruct (_ <? _); [apply wp_ret; by eauto|]. rewrite header_of_compressed_2 by lia.
      apply wp_bind, wp_lift. rewrite (proj2 (Z.leb_gt _ _)) by lia. apply wp_ret. by eauto.
Qed.
End guarantees.

(** C39: the properties of the encoders: the dictionary is the size of the source,
    kept between 4096 bytes and 1.5 GiB, as long as the size fits the [int] it is
    passed as; from 2 GiB to 4 GiB it wraps to a negative number and the dictionary
    is the smallest one. The level is at most 9, and the room for the result is
    twice the source, at least 1024 bytes. *)
Theorem lzma_prop_bounds lvl n :
  0 <= n < 2 ^ 63 ->
  let p := lzma_prop lvl n in
  4096 <= dictSize p <= 3 * 2 ^ 29 /\ level p = Z.min lvl 9 /\
  (n < 2 ^ 31 -> dictSize p = Z.max 4096 (Z.min n (3 * 2 ^ 29))) /\
  (2 ^ 31 <= n <= 2 ^ 32 -> dictSize p = 4096) /\
  output_size n = Z.max 1024 (2 * n).
Proof.
  intros Hn p. unfold p, lzma_prop, output_size. cbn [dictSize level].
  change (Z.shiftl 1 12) with 4096. change (Z.shiftl 3 29) with (3 * 2 ^ 29).
  rewrite wrap_u_small by lia. set (k := wrap_s 32 n). split_and!.
  - destruct (Z.leb_spec k 4096), (Z.geb_spec k (3 * 2 ^ 29)); lia.
  - destruct (Z.leb_spec k 4096), (Z.geb_spec k (3 * 2 ^ 29)); lia.
  - destruct (Z.gtb_spec lvl 9); lia.
  - intros Hsmall. assert (k = n) as -> by (unfold k, wrap_s; change (32 - 1) with 31; rewrite Z.mod_small; lia).
    destruct (Z.leb_spec n 4096), (Z.geb_spec n (3 * 2 ^ 29)); lia.
  - intros Hbig. assert (k <= 4096) as Hk; [|by rewrite (proj2 (Z.leb_le _ _))].
    unfold k, wrap_s. change (32 - 1) with 31. destruct (Z.eq_dec n (2 ^ 32)) as [->|]; [by vm_compute|].
    replace (n + 2 ^ 31) with (n - 2 ^ 31 + 1 * 2 ^ 32) by lia. rewrite Z.mod_add by lia.
    rewrite Z.mod_small by lia. lia.
  - destruct (Z.ltb_spec (n * 2) 1024); lia.
Qed.

(** ** A concrete library *)
Module Runs.

(** An allocator that may refuse, and stored formats. An LZMA stream is its
    source. An LZMA2 stream starts with the property byte its decoder must have
    and ends with a zero; in between, a byte is itself, after a one when it is a
    zero or a one. *)
Record heap := mkHeap { refuses : bool; next : positive }.
Definition escape (b : u8) : list u8 :=
  if bool_decide (b = Byte.x00 \/ b = Byte.x01) then [Byte.x01; b] else [b].
Definition enc2 (s : list u8) : list u8 := concat (map escape s) ++ [Byte.x00].

Inductive place := Fresh | Between | Escaped.
Fixpoint dec2 (prop : u8) (pl : place) (n : nat) (w : list u8)
    : Z * list u8 * Z * ELzmaStatus * (u8 * place) :=
  match w with
  | [] => (SZ_OK, [], 0, LZMA_STATUS_NEEDS_MORE_INPUT, (prop, pl))
  | b :: w =>
    let on '(r, out, k, st, d) := (r, out, k + 1, st, d) in
    let put '(r, out, k, st, d) := (r, b :: out, k + 1, st, d) in
    let full := (SZ_OK, [], 0, LZMA_STATUS_NOT_FINISHED, (prop, pl)) in
    match pl with
    | Fresh => if bool_decide (b = prop) then on (dec2 prop Between n w)
               else (1, [], 0, LZMA_STATUS_NOT_SPECIFIED, (prop, pl))
    | Between =>
      if bool_decide (b = Byte.x00) then (SZ_OK, [], 1, LZMA_STATUS_FINISHED_WITH_MARK, (prop, pl))
      else if bool_decide (b = Byte.x01) then on (dec2 prop Escaped n w)
      else match n with S n => put (dec2 prop Between n w) | O => full end
    | Escaped => match n with S n => put (dec2 prop Between n w) | O => full end
    end
  end.

Definition fits (n : Z) (c : list u8) (s : list u8) : bool :=
  bool_decide (s <> []) && (Z.of_nat (length c) <=? n).
Definition tag (p : CLzmaEncProps) : u8 := if dictSize p =? 4096 then Byte.x00 else Byte.x01.

#[export] Instance stored : Lzma heap := {|
  mi_malloc := fun _ h => if refuses h then (None, h) else (Some (next h), mkHeap false (Pos.succ (next h)));
  mi_free := fun _ h => h;
  LzmaEncode := fun _ s n h => ((if fits n s s then SZ_OK else 7, s, replicate 5 Byte.x5d), h);
  LzmaDecode := fun _ src m n h =>
    ((if n <=? Z.of_nat (length src) then SZ_OK else 1, take (Z.to_nat n) src, Z.min n m), h);
  Lzma2Enc_Create := fun h => (Some 1%positive, h);
  Lzma2Enc_SetProps := fun _ h => (SZ_OK, h);
  Lzma2Enc_WriteProperties := tag;
  Lzma2Enc_Encode2 := fun p s n h =>
    let c := tag p :: enc2 s in ((if fits n c s then SZ_OK else 7, c), h);
  Lzma2Enc_Destroy := fun _ h => h;
  CLzma2Dec := u8 * place;
  Lzma2Dec_Allocate := fun p h => ((SZ_OK, (p, Fresh)), h);
  Lzma2Dec_Init := id;
  Lzma2Dec_DecodeToBuf := fun d n w _ h => (dec2 (fst d) (snd d) (Z.to_nat n) w, h);
  Lzma2Dec_Free := fun _ h => h;
|}.

(** What the decoder has still to read and write. *)
Definition left_over (d : u8 * place) (c s : list u8) : Prop :=
  match snd d with
  | Fresh => c = fst d :: enc2 s
  | Between => c = enc2 s
  | Escaped => exists b s', s = b :: s' /\ c = b :: enc2 s'
  end.

Lemma dec2_bounds prop pl n w :
  let '(r, out, k, st, d) := dec2 prop pl n w in
  (length out <= n)%nat /\ 0 <= k <= Z.of_nat (length w).
Proof.
  revert pl n. induction w as [|b w IH]; intros pl n; cbn [dec2]; [simpl; lia|].
  pose proof (fun pl => IH pl n) as IHn.
  assert (forall m, (S m <= n)%nat -> let '(r, out, k, st, d) := dec2 prop Between m w in
            (length (b :: out) <= n)%nat /\ 0 <= k + 1 <= Z.of_nat (length (b :: w))) as Hput.
  { intros m Hm. specialize (IH Between m). destruct (dec2 _ _ _ _) as [[[[r out] k] st] d]. simpl. lia. }
  assert (forall pl, let '(r, out, k, st, d) := dec2 prop pl n w in
            (length out <= n)%nat /\ 0 <= k + 1 <= Z.of_nat (length (b :: w))) as Hon.
  { intros pl'. specialize (IHn pl'). destruct (dec2 _ _ _ _) as [[[[r out] k] st] d]. simpl. lia. }
  clear IH IHn. pose proof (Hon Between) as HB. pose proof (Hon Escaped) as HE.
  assert (forall m, n = S m -> let '(r, out, k, st, d) := dec2 prop Between m w in
            (length (b :: out) <= n)%nat /\ 0 <= k + 1 <= Z.of_nat (length (b :: w))) as HP.
  { intros m ->. apply Hput. lia. }
  destruct pl.
  - case_bool_decide; [|simpl; lia]. by destruct (dec2 prop Between n w) as [[[[r out] k] st] d].
  - case_bool_decide; [simpl; lia|].
    case_bool_decide; [by destruct (dec2 prop Escaped n w) as [[[[r out] k] st] d]|].
    destruct n as [|m]; [simpl; lia|]. specialize (HP m eq_refl).
    by destruct (dec2 prop Between m w) as [[[[r out] k] st] d].
  - destruct n as [|m]; [simpl; lia|]. specialize (HP m eq_refl).
    by destruct (dec2 prop Between m w) as [[[[r out] k] st] d].
Qed.

Lemma enc2_cons b s : enc2 (b :: s) = escape b ++ enc2 s.
Proof. unfold enc2. cbn [map concat]. by rewrite (assoc_L app). Qed.
Lemma enc2_nonempty s : enc2 s <> [].
Proof. unfold enc2. by destruct (concat _). Qed.

(** A decoding of the window [w] of the stream [c] of [s]. *)
Definition advanced (w c s : list u8) (x : Z * list u8 * Z * ELzmaStatus * (u8 * place)) : Prop :=
  let '(r, out, k, st, d) := x in
  r = SZ_OK /\ 0 <= k /\ exists c' s', c = take (Z.to_nat k) w ++ c' /\ s = out ++ s' /\
    (st = LZMA_STATUS_FINISHED_WITH_MARK /\ s' = [] \/
     st <> LZMA_STATUS_FINISHED_WITH_MARK /\ c' <> [] /\ left_over d c' s').

Lemma advanced_on b w c s x :
  advanced w c s x ->
  advanced (b :: w) (b :: c) s (let '(r, out, k, st, d) := x in (r, out, k + 1, st, d)).
Proof.
  destruct x as [[[[r out] k] st] d]. intros (-> & Hk & c' & s' & -> & -> & Hend).
  split; [done|]. split; [lia|]. exists c', s'. split_and!; [|done|done].
  by replace (Z.to_nat (k + 1)) with (S (Z.to_nat k)) by lia.
Qed.

Lemma advanced_put b w c s x :
  advanced w c s x ->
  advanced (b :: w) (b :: c) (b :: s) (let '(r, out, k, st, d) := x in (r, b :: out, k + 1, st, d)).
Proof.
  destruct x as [[[[r out] k] st] d]. intros (-> & Hk & c' & s' & -> & -> & Hend).
  split; [done|]. split; [lia|]. exists c', s'. split_and!; [|done|done].
  by replace (Z.to_nat (k + 1)) with (S (Z.to_nat k)) by lia.
Qed.

Lemma advanced_stuck w c s st d :
  st <> LZMA_STATUS_FINISHED_WITH_MARK -> c <> [] -> left_over d c s -> advanced w c s (SZ_OK, [], 0, st, d).
Proof. intros Hst Hc Hd. split; [done|]. split; [done|]. exists c, s. split_and!; [done..|]. by right. Qed.

Lemma left_over_nonempty d c s : left_over d c s -> c <> [].
Proof.
  unfold left_over. destruct (snd d); [by intros -> | intros ->; apply enc2_nonempty | by intros (? & ? & _ & ->)].
Qed.

Lemma dec2_law prop pl n w c s :
  left_over (prop, pl) c s -> w `prefix_of` c -> advanced w c s (dec2 prop pl n w).
Proof.
  revert pl n c s. induction w as [|b w IH]; intros pl n c s Hd Hw.
  { apply advanced_stuck; [done|by eapply left_over_nonempty|done]. }
  destruct Hw as [rest Hc]. cbn [app] in Hc.
  assert (forall pl' c1 s1 m, c = b :: c1 -> left_over (prop, pl') c1 s1 -> advanced w c1 s1 (dec2 prop pl' m w)) as Hnext.
  { intros pl' c1 s1 m -> Hd1. apply IH; [done|]. exists rest. by injection Hc. }
  destruct pl; cbn [dec2].
  - cbn in Hd. rewrite Hc in Hd. injection Hd as Hb Hrest. rewrite bool_decide_true by done. rewrite Hc, Hrest.
    apply advanced_on, Hnext; [by rewrite Hc, Hrest|done].
  - cbn in Hd. destruct s as [|a s].
    { rewrite Hd in Hc. injection Hc as <- Hrest. rewrite Hd. split; [done|]. split; [done|]. exists [], [].
      split_and!; [done..|]. by left. }
    rewrite enc2_cons in Hd. unfold escape in Hd. case_bool_decide as Ha; cbn [app] in Hd;
      rewrite Hd in Hc; injection Hc as <- Hrest; rewrite Hd.
    + apply advanced_on, Hnext; [exact Hd|by do 2 eexists].
    + rewrite !bool_decide_false by naive_solver.
      destruct n; [apply advanced_stuck; [done..|]|apply advanced_put, Hnext; [exact Hd|by cbn]].
      unfold left_over. cbn [snd]. rewrite enc2_cons. unfold escape. by rewrite bool_decide_false.
  - destruct Hd as (a & s' & -> & Hd). rewrite Hd in Hc. injection Hc as <- Hrest. rewrite Hd.
    destruct n; [apply advanced_stuck; [done..|by do 2 eexists]|apply advanced_put, Hnext; [exact Hd|by cbn]].
Qed.

(** With room and input, something is read. *)
Lemma dec2_progress prop pl n w c s :
  left_over (prop, pl) c s -> w `prefix_of` c -> w <> [] ->
  let '(_, _, k, _, _) := dec2 prop pl (S n) w in 0 < k.
Proof.
  intros Hd [rest Hc] Hw. destruct w as [|b w]; [done|]. cbn [app] in Hc.
  assert (forall pl m, let '(_, _, k, _, _) := dec2 prop pl m w in 0 < k + 1) as Hk.
  { intros pl' m. pose proof (dec2_bounds prop pl' m w) as H. destruct (dec2 prop pl' m w) as [[[[? ?] k] ?] ?]. lia. }
  pose proof (Hk Between n) as H1. pose proof (Hk Between (S n)) as H2. pose proof (Hk Escaped (S n)) as H3.
  clear Hk. destruct pl; cbn [dec2].
  - cbn in Hd. rewrite Hc in Hd. injection Hd as Hb _. rewrite bool_decide_true by done.
    by destruct (dec2 prop Between (S n) w) as [[[[? ?] k] ?] ?].
  - destruct (dec2 prop Between n w) as [[[[? ?] k] ?] ?], (dec2 prop Escaped (S n) w) as [[[[? ?] k'] ?] ?].
    by repeat case_bool_decide.
  - by destruct (dec2 prop Between n w) as [[[[? ?] k] ?] ?].
Qed.

#[export] Instance stored_caps : LzmaCaps heap.
Proof.
  split; cbn.
  - by intros p s n e r c pe e' [= <- <- <- <-].
  - intros p s m n e r out k e' Hn Hm [= <- <- <- <-]. rewrite length_take. lia.
  - intros d n w f e r out k st d' e' Hn [= Hd <-].
    pose proof (dec2_bounds (fst d) (snd d) (Z.to_nat n) w) as H. rewrite Hd in H. lia.
Qed.

Lemma fits_spec n c s : (if fits n c s then SZ_OK else 7) = SZ_OK -> s <> [] /\ Z.of_nat (length c) <= n.
Proof.
  unfold fits. case_bool_decide; [|done]. destruct (Z.leb_spec (Z.of_nat (length c)) n); [|done]. done.
Qed.

#[export] Instance stored_laws : LzmaLaws heap.
Proof.
  refine {| stream1 := fun p c s => c = s /\ s <> [];
            stream2 := fun p c s => c = p :: enc2 s;
            pending := left_over |}.
  - cbn. intros p s n e c pe e' [= Hst -> <- <-]. by apply fits_spec in Hst as [? ?].
  - cbn. intros p s n e c e' [= Hst <- <-]. by apply fits_spec in Hst as [? ?].
  - cbn. intros p Hp. unfold tag. by rewrite Hp.
  - cbn. intros p c s rest m e r out k e' [-> Hs] Hm [= <- <- <- <-]. split; [lia|]. left.
    rewrite (proj2 (Z.leb_le _ _)) by (rewrite length_app; lia). split; [done|].
    rewrite Nat2Z.id. by rewrite take_app_length.
  - cbn. intros p e r d e' _ [= <- <- <-]. by left.
  - cbn. by intros p e d e' c s [= <- <-] ->.
  - cbn. intros [prop pl] c s n w e r out k st d' e' Hd Hn Hw Hpre [= Hdec <-].
    pose proof (dec2_law prop pl (Z.to_nat n) w c s Hd Hpre) as H. cbn in Hdec. rewrite Hdec in H.
    destruct H as (-> & Hk & c' & s' & Hc & Hs & Hend). split; [done|]. exists c', s'. split_and!; [done..|].
    destruct Hend as [Hend|(? & ? & ?)]; [by left|right; split_and!; [done..|left]].
    destruct (Z.to_nat n) as [|m] eqn:Em; [lia|].
    pose proof (dec2_progress prop pl m w c s Hd Hpre Hw) as Hp. by rewrite Hdec in Hp.
Defined.

Definition plenty : heap := mkHeap false 1.
Definition wolf : list u8 := bytes_of_string "WOLF".
Definition packed (ty : LZMAType) : list u8 :=
  match fst (fst (compress wolf ty 5 plenty)) with Ret (v, _) => v | _ => [] end.
Definition unpacked (ty : LZMAType) (v : list u8) := fst (fst (decompress 100 v ty plenty)).

Example wolf_lzma1 :
  length (packed LZMA1) = 17%nat /\ unpacked LZMA1 (packed LZMA1) = Ret (wolf, None).
Proof. by vm_compute. Qed.
Example wolf_lzma2 :
  length (packed LZMA2) = 15%nat /\ unpacked LZMA2 (packed LZMA2) = Ret (wolf, None).
Proof. by vm_compute. Qed.

(** Sources that were not written by [compress]: a header alone, a stream shorter
    than its header says, a stream longer than it says, one without its end. *)
Definition with_size (ty : LZMAType) (n : Z) (stream : list u8) : list u8 :=
  match ty with
  | LZMA1 => replicate 5 Byte.x5d ++ size_bytes n ++ stream
  | LZMA2 => Byte.x00 :: size_bytes n ++ stream
  end.
Example header_alone : unpacked LZMA1 (with_size LZMA1 4 []) = Panic TERMINATE.
Proof. by vm_compute. Qed.
Example short_stream : unpacked LZMA1 (with_size LZMA1 4 [Byte.x57; Byte.x4f]) = Panic UB_OVERREAD.
Proof. by vm_compute. Qed.
Example long_stream : unpacked LZMA2 (with_size LZMA2 3 (Byte.x00 :: enc2 wolf)) = Panic UB_OVERWRITE.
Proof. by vm_compute. Qed.
Example no_end : unpacked LZMA2 (with_size LZMA2 4 (Byte.x00 :: wolf)) = Panic TERMINATE.
Proof. by vm_compute. Qed.

(** A source of more than 4096 bytes is compressed, but its stream needs a larger
    dictionary than the decoder is given: nothing comes back, and the buffer and
    the decoder are kept. *)
Example large_source :
  let s := replicate 5000 Byte.x57 in
  exists v, fst (fst (compress s LZMA2 5 plenty)) = Ret (v, None) /\
    unpacked LZMA2 v =
      Ret ([], Some "Lzma2Dec_DecodeToBuf(...) == SZ_OK. trace info: lzma_cxx::decompress_2"%string) /\
    released (snd (decompress 100 v LZMA2 plenty)) = [].
Proof. eexists. split; [by vm_compute|]. by vm_compute. Qed.

(** An encoding that fails keeps its buffer. *)
Example failed_encoding :
  let s := replicate 1000 Byte.x00 in
  let '(r, _, t) := compress s LZMA2 5 plenty in
  r = Ret ([], Some "LzmaEncode failed on compressing. trace info: lzma_cxx::compress"%string) /\
  got t = [Encoder 1; Heap 1] /\ released t = [Encoder 1].
Proof. by vm_compute. Qed.

Lemma lzma_round_trip_witness :
  fst (fst (compress wolf LZMA2 5 plenty)) = Ret (packed LZMA2, None) /\
  given_back wolf (fst (fst (decompress 100 (packed LZMA2) LZMA2 (snd (fst (compress wolf LZMA2 5 plenty))))))
    (snd (decompress 100 (packed LZMA2) LZMA2 (snd (fst (compress wolf LZMA2 5 plenty))))).
Proof.
  assert (fst (fst (compress wolf LZMA2 5 plenty)) = Ret (packed LZMA2, None)) as Hr by (by vm_compute).
  split; [exact Hr|].
  assert (Z.of_nat (length wolf) < 2 ^ 63) as Hlen by (by vm_compute).
  pose proof (lzma_round_trip LZMA2 wolf 5 100 plenty Hlen) as Hw. unfold wp in Hw at 1.
  destruct (compress wolf LZMA2 5 plenty) as [[r e1] t1]. cbn [fst snd] in *.
  destruct Hw as (v & tr & Hv & Hw). rewrite Hr in Hv. injection Hv as <- <-.
  destruct (Hw eq_refl) as (_ & Hback & _).
  assert (Z.of_nat (length wolf) <= 4096) as H4 by (by vm_compute).
  assert (length (packed LZMA2) + length wolf < 100)%nat as H100 by (vm_compute; lia).
  specialize (Hback H4 H100). unfold wp in Hback.
  destruct (decompress 100 (packed LZMA2) LZMA2 e1) as [[r2 e2] t2]. exact Hback.
Defined.

Lemma lzma_decompress_outcomes_witness :
  unpacked LZMA2 (with_size LZMA2 3 (Byte.x00 :: enc2 wolf)) = Panic UB_OVERWRITE /\
  outcome LZMA2 (packed LZMA2) (unpacked LZMA2 (packed LZMA2)) (snd (decompress 100 (packed LZMA2) LZMA2 plenty)).
Proof.
  split; [by vm_compute|].
  exact (wp_outcome _ (fun r t => outcome LZMA2 (packed LZMA2) r t) _
           (lzma_decompress_outcomes (Env := heap) 100 LZMA2 (packed LZMA2) plenty)).
Defined.

Lemma lzma_prop_bounds_witness :
  0 <= 2 ^ 31 < 2 ^ 63 /\ dictSize (lzma_prop 12 (2 ^ 31)) = 4096 /\ level (lzma_prop 12 (2 ^ 31)) = 9.
Proof.
  assert (0 <= 2 ^ 31 < 2 ^ 63) as Hn by lia. split; [exact Hn|].
  destruct (lzma_prop_bounds 12 (2 ^ 31) Hn) as (_ & Hl & _ & Hd & _). split; [apply Hd; lia|exact Hl].
Defined.
End Runs.
