(* ===== verification/Os.v ===== *)
(** The system helpers: the version of the native library
    ([wolf/src/lib.rs] over [wolf/sys/wolf/version.cpp]), processes
    ([system/os/system.rs]), screens ([system/os/screen.rs]), the timeout of a
    future ([system/chrono/time.rs]) and the script engines
    ([system/script/]). *)
From S2P Require Import Prelude F64 Common.
Local Open Scope Z_scope.
#[local] Set Default Goal Selector "!".

(** ** The version

    [w_sys_version] prints into a buffer of its caller; [sprintf] does not know
    the length (the branch of the systems that are not Windows). *)
Section version.

Definition W_MAX_PATH : Z := 260.
Definition version_text : string := "v3.0.0.0".
Definition bytes_of (s : string) : list u8 := String.list_byte_of_string s.

(** [sprintf] writes the text and its terminator. *)
Definition sprintf (s : string) (p_buf : list u8) : res (list u8) :=
  copy_nonoverlapping (bytes_of s ++ [Byte.x00]) p_buf.

Definition w_sys_version (p_buf : list u8) (p_len : Z) : res (list u8) :=
  if p_len >? W_MAX_PATH then Ret p_buf else sprintf version_text p_buf.

(** [CStr::from_ptr]: the bytes before the first zero; there must be one. *)
Fixpoint c_str (l : list u8) : res (list u8) :=
  match l with
  | [] => Panic "undefined behaviour: read out of bounds"
  | b :: l => if Byte.eqb b Byte.x00 then Ret [] else s ← c_str l; mret (b :: s)
  end.

Definition sys_version : res (list u8) :=
  let buf := replicate 32 Byte.x00 in
  buf ← w_sys_version buf (Z.of_nat (length buf));
  c ← c_str buf;
  mret (default [] (from_utf8 c)).

Lemma c_str_app s l :
  Forall (fun b => b <> Byte.x00) s -> c_str (s ++ Byte.x00 :: l) = Ret s.
Proof.
  induction 1 as [|b s Hb _ IH]; [done|]. cbn [c_str app].
  destruct (Byte.eqb b Byte.x00) eqn:E; [by apply Byte.byte_dec_bl in E|].
  by rewrite IH.
Qed.

(** The version in a buffer of any length, passed with its length: from 9 to
    260 bytes it holds the text, which [CStr] then reads back, and nothing after
    the terminator has changed; a longer buffer is left as it was, without an
    error; a shorter one is written past its end. [sys_version], with its 32
    bytes, returns ["v3.0.0.0"]. *)
Theorem version_bounds p_buf :
  let n := Z.of_nat (length p_buf) in
  (9 <= n <= W_MAX_PATH -> exists buf,
     w_sys_version p_buf n = Ret buf /\ c_str buf = Ret (bytes_of version_text) /\
     length buf = length p_buf /\ drop 9 buf = drop 9 p_buf) /\
  (W_MAX_PATH < n -> w_sys_version p_buf n = Ret p_buf) /\
  (n < 9 -> w_sys_version p_buf n = Panic "undefined behaviour: write out of bounds") /\
  sys_version = Ret (bytes_of version_text).
Proof.
  intros n. unfold w_sys_version, sprintf, copy_nonoverlapping.
  change (Z.of_nat (length (bytes_of version_text ++ [Byte.x00]))) with 9. unfold W_MAX_PATH. split_and!.
  - intros Hn. rewrite Z.gtb_ltb, (proj2 (Z.ltb_ge _ _)) by lia. rewrite (proj2 (Z.leb_le _ _)) by lia.
    eexists. split; [done|]. unfold overwrite. split_and!.
    + rewrite <-(assoc_L app). apply c_str_app. by repeat constructor.
    + rewrite length_app, length_drop.
      change (length (bytes_of version_text ++ [Byte.x00])) with 9%nat. lia.
    + done.
  - intros Hn. by rewrite Z.gtb_ltb, (proj2 (Z.ltb_lt _ _)).
  - intros Hn. rewrite Z.gtb_ltb, (proj2 (Z.ltb_ge _ _)) by lia. by rewrite (proj2 (Z.leb_gt _ _)).
  - by vm_compute.
Qed.
End version.

(** ** Processes *)
Section processes.

(** What the crate reads of a process, and the snapshot of the running ones by
    their identifier ([sysinfo::System]), iterated in an order of the map. *)
Record Process := mkProcess { name : string }.
Record System := mkSystem {
  processes : gmap Z Process;
  iteration : list (Z * Process);
  iteration_perm : iteration ≡ₚ map_to_list processes;
  used_memory : Z;
  total_memory : Z;
  used_swap : Z;
  total_swap : Z;
}.

Implicit Types sys : System.

(** [for proc in processes().values()]: a [usize] is counted up. *)
Fixpoint count_instances (oc : overflow) (p_process_name : string) (num : Z) (procs : list (Z * Process))
    : res Z :=
  match procs with
  | [] => Ret num
  | (_, proc) :: procs =>
    if bool_decide (name proc = p_process_name) then
      num ← arith_u oc 64 (num + 1); count_instances oc p_process_name num procs
    else count_instances oc p_process_name num procs
  end.
Definition number_of_process_instances (oc : overflow) sys (p_process_name : string) : res Z :=
  count_instances oc p_process_name 0 (iteration sys).

Fixpoint find_pid (p_process_id : Z) (procs : list (Z * Process)) : bool :=
  match procs with
  | [] => false
  | (p, _) :: procs => if bool_decide (p = p_process_id) then true else find_pid p_process_id procs
  end.
Definition is_process_running_by_pid sys (p_process_id : Z) : bool := find_pid p_process_id (iteration sys).

Fixpoint find_name (p_process_name : string) (procs : list (Z * Process)) : bool :=
  match procs with
  | [] => false
  | (_, proc) :: procs =>
    if bool_decide (name proc = p_process_name) then true else find_name p_process_name procs
  end.
Definition is_process_running_by_name sys (p_process_name : string) : bool :=
  find_name p_process_name (iteration sys).

Definition used_memory_in_kb sys : Z := used_memory sys.
Definition total_memory_in_kb sys : Z := total_memory sys.
Definition used_swap_in_kb sys : Z := used_swap sys.
Definition total_swap_in_kb sys : Z := total_swap sys.

(** The instances of a name, as a map. *)
Definition instances sys (n : string) : gmap Z Process :=
  filter (fun p => name (snd p) = n) (processes sys).

Lemma count_instances_eq oc n num procs :
  0 <= num -> num + Z.of_nat (length procs) < 2 ^ 64 ->
  count_instances oc n num procs =
    Ret (num + Z.of_nat (length (filter (fun p => name (snd p) = n) procs))).
Proof.
  revert num. induction procs as [|[i p] procs IH]; intros num H0 Hlen.
  { cbn. f_equal. lia. }
  cbn [count_instances]. rewrite filter_cons. cbn [snd]. cbn [length] in Hlen.
  case_bool_decide as Hp; [rewrite decide_True by done|rewrite decide_False by done].
  - rewrite arith_u_in by lia. cbn [mbind res_mbind res_bind]. rewrite IH by lia. f_equal. cbn [length]. lia.
  - apply IH; lia.
Qed.

Lemma iteration_length sys : length (iteration sys) = base.size (processes sys).
Proof. rewrite (iteration_perm sys), length_map_to_list. done. Qed.

Lemma instances_size sys n :
  length (filter (fun p => name (snd p) = n) (iteration sys)) = base.size (instances sys n).
Proof.
  unfold instances. rewrite <-length_map_to_list.
  assert (filter (fun p => name (snd p) = n) (iteration sys) ≡ₚ
          map_to_list (filter (fun p => name (snd p) = n) (processes sys))) as ->; [|done].
  apply NoDup_Permutation.
  - apply NoDup_filter. rewrite (iteration_perm sys). apply NoDup_map_to_list.
  - apply NoDup_map_to_list.
  - intros [i p]. rewrite list_elem_of_filter, (iteration_perm sys), !elem_of_map_to_list, map_lookup_filter_Some.
    split; intros [? ?]; by split.
Qed.

Lemma find_pid_spec i procs : find_pid i procs = true <-> i ∈ procs.*1.
Proof.
  induction procs as [|[j p] procs IH]; cbn; [rewrite elem_of_nil; done|].
  rewrite elem_of_cons, <-IH. case_bool_decide; intuition congruence.
Qed.

Lemma find_name_spec n procs :
  find_name n procs = true <-> filter (fun p => name (snd p) = n) procs <> [].
Proof.
  induction procs as [|[j p] procs IH]; [done|]. cbn [find_name]. rewrite filter_cons. cbn [snd].
  case_bool_decide; [by rewrite decide_True|by rewrite decide_False].
Qed.

(** The process queries agree with the snapshot, whatever the order it is
    iterated in and whatever the overflow profile: the count is the number of
    processes of that name (it fits a [usize], being at most their number), a
    name is running exactly when its count is positive, and an identifier
    exactly when it is a key. *)
Theorem process_queries oc sys n i :
  Z.of_nat (base.size (processes sys)) < 2 ^ 64 ->
  number_of_process_instances oc sys n = Ret (Z.of_nat (base.size (instances sys n))) /\
  (is_process_running_by_name sys n = true <-> instances sys n <> ∅) /\
  (is_process_running_by_pid sys i = true <-> is_Some (processes sys !! i)).
Proof.
  intros Hs. split_and!.
  - unfold number_of_process_instances. rewrite count_instances_eq; [|done|].
    + by rewrite instances_size.
    + rewrite iteration_length. lia.
  - unfold is_process_running_by_name. rewrite find_name_spec, <-map_size_empty_iff, <-instances_size.
    by rewrite length_zero_iff_nil.
  - unfold is_process_running_by_pid. rewrite find_pid_spec.
    assert ((iteration sys).*1 ≡ₚ (map_to_list (processes sys)).*1) as -> by (by rewrite (iteration_perm sys)).
    split.
    + intros ([j p] & -> & Hp)%list_elem_of_fmap. apply elem_of_map_to_list in Hp. by exists p.
    + intros [p Hp]. apply list_elem_of_fmap. exists (i, p). split; [done|]. by apply elem_of_map_to_list.
Qed.
End processes.

(** *** The snapshot's life *)
Section refreshing.
Context {Env : Type}.

(** What [sysinfo] can read again, and how: the snapshot is its own. *)
Inductive part := RAll | RSystem | RProcesses | RDisks | RNetworks.
Class Sysinfo := {
  sysinfo_new_all : Env -> System * Env;
  sysinfo_refresh : part -> System -> Env -> System * Env;
}.
Context `{!Sysinfo}.

Definition refresh (p : part) (sys : System) : M Env Empty_set System := act (sysinfo_refresh p sys).
Definition new : M Env Empty_set System := sys ← act sysinfo_new_all; refresh RAll sys.
Definition refresh_all := refresh RAll.
Definition refresh_system := refresh RSystem.
Definition refresh_processes := refresh RProcesses.
Definition refresh_disks := refresh RDisks.
Definition refresh_networks := refresh RNetworks.
End refreshing.

(** *** Starting a process, and waiting with a timeout *)
Section process.
Context `{!Errors} {Env : Type}.

(** The file system and the process table: a path's metadata (is it a file), and
    a spawned child. *)
Class Spawner := {
  Child : Type;
  metadata : string -> Env -> result bool io_error * Env;
  spawn : string -> list string -> Env -> result Child io_error * Env;
}.
Context `{!Spawner}.

Inductive process_event :=
| Metadata (path : string) (r : result bool io_error)
| Spawned (path : string) (args : list string) (r : result Child io_error).

Definition create_process (p_process_path : string) (p_process_args : list string)
    : M Env process_event (result Child anyhow) :=
  is_file ←?[anyhow_of_io] obs (metadata p_process_path) (Metadata p_process_path);
  if is_file : bool then
    child ←?[anyhow_of_io] obs (spawn p_process_path p_process_args) (Spawned p_process_path p_process_args);
    mret (Ok child)
  else mret (Err (anyhow_msg ("Process " +:+ p_process_path +:+ " is not a valid file"))).

(** The runtime's timeout: the future's end, or that the time has elapsed. *)
Class Timer := { tokio_timeout : Duration -> Env -> bool * Env; elapsed_display : string }.
Context `{!Timer}.

Definition timeout (p_duration : Duration) : M Env process_event (result unit anyhow) :=
  in_time ← act (tokio_timeout p_duration);
  if in_time : bool then mret (Ok tt)
  else mret (Err (anyhow_msg ("timeout reached after " +:+ elapsed_display))).

(** A process is started only from a path that is a file, once, with the
    arguments given; its absence, a path that is not a file, and a failed start
    are errors of their own. *)
Theorem create_process_runs path args (e : Env) :
  wp (create_process path args)
     (fun r _ t => match t with
        | [Metadata p (Err x)] => p = path /\ r = Ret (Err (anyhow_of_io x))
        | [Metadata p (Ok b)] =>
            p = path /\ b = false /\
            r = Ret (Err (anyhow_msg ("Process " +:+ path +:+ " is not a valid file")))
        | [Metadata p (Ok b); Spawned q a (Ok c)] =>
            p = path /\ b = true /\ q = path /\ a = args /\ r = Ret (Ok c)
        | [Metadata p (Ok b); Spawned q a (Err x)] =>
            p = path /\ b = true /\ q = path /\ a = args /\ r = Ret (Err (anyhow_of_io x))
        | _ => False
        end) e.
Proof.
  unfold create_process. apply wp_try, wp_obs. intros [[]|x] e1 _; [| |done].
  - apply wp_try, wp_obs. by intros [c|x] e2 _; [apply wp_ret|].
  - by apply wp_ret.
Qed.
End process.
Arguments Spawner {_} Env.

(** ** Screens *)
Class Displays `{!Errors} (Env : Type) := {
  Display : Type;
  Capturer : Type;
  Frame : Type;
  primary : Env -> result Display io_error * Env;
  all : Env -> result (list Display) io_error * Env;
  width : Display -> Z;
  height : Display -> Z;
  capturer_new : Display -> Env -> result Capturer io_error * Env;
  frame : Capturer -> Env -> result Frame io_error * Capturer * Env;
  io_display : io_error -> string;
}.

Section screens.
Context `{!Errors} {Env : Type} `{!Displays Env}.

Record Screen := mkScreen { capturer : Capturer; screen_height : Z; screen_width : Z }.

Inductive screen_event :=
| Primary (r : result Display io_error)
| All (r : result (list Display) io_error)
| Capture_from (d : Display) (r : result Capturer io_error)
| Frame_of (r : result Frame io_error).
Abbreviation IO := (M Env screen_event).

Definition new_capturer (d : Display) (because : string) (trace : string) : IO (result Capturer anyhow) :=
  r ← obs (capturer_new d) (Capture_from d);
  mret (map_err (fun e => anyhow_msg ("couldn't capture from display" +:+ because +:+ io_display e
                                       +:+ trace)) r).

Definition new_primary : IO (result Screen anyhow) :=
  display ←?[fun e => anyhow_msg ("couldn't find primary display, because " +:+ io_display e
                         +:+ ". trace info " +:+ "screen::new_primary")] obs primary Primary;
  let w := width display in
  let h := height display in
  c ←? new_capturer display " because " (". trace info " +:+ "screen::new_primary");
  mret (Ok (mkScreen c h w)).

Fixpoint new_each (displays : list Display) (instances : list Screen) : IO (result (list Screen) anyhow) :=
  match displays with
  | [] => mret (Ok instances)
  | display :: displays =>
    let w := width display in
    let h := height display in
    c ←? new_capturer display ". because " (" trace info " +:+ "screen::new_all");
    new_each displays (instances ++ [mkScreen c h w])
  end.

Definition new_all : IO (result (list Screen) anyhow) :=
  displays ←?[fun e => anyhow_msg ("couldn't find primary display because " +:+ io_display e
                         +:+ " trace info " +:+ "screen::new_all")] obs all All;
  new_each displays [].

Definition capture (self : Screen) : IO (result Frame io_error * Screen) :=
  '(r, c) ← (fun e => let '(r, c, e') := frame (capturer self) e in (Ret (r, c), e', [Frame_of r]));
  mret (r, mkScreen c (screen_height self) (screen_width self)).

Lemma new_capturer_wp d b tr (e : Env) :
  wp (new_capturer d b tr)
     (fun r _ t => exists x, t = [Capture_from d x] /\
        match x with
        | Ok c => r = Ret (Ok c)
        | Err y => r = Ret (Err (anyhow_msg ("couldn't capture from display" +:+ b +:+ io_display y +:+ tr)))
        end) e.
Proof. apply wp_bind, wp_obs. intros [c|y] e1 _; apply wp_ret; by eexists. Qed.

(** The screens made of the displays [ds], up to one that cannot be captured. *)
Inductive made : list Display -> list Screen -> list screen_event -> result (list Screen) anyhow -> Prop :=
| made_all ss : made [] ss [] (Ok ss)
| made_failed d ds ss x :
    made (d :: ds) ss [Capture_from d (Err x)]
      (Err (anyhow_msg ("couldn't capture from display. because " +:+ io_display x
                        +:+ " trace info screen::new_all")))
| made_next d ds ss c t r :
    made ds (ss ++ [mkScreen c (height d) (width d)]) t r ->
    made (d :: ds) ss (Capture_from d (Ok c) :: t) r.

Lemma new_each_wp ds ss (e : Env) :
  wp (new_each ds ss) (fun r _ t => exists x, r = Ret x /\ made ds ss t x) e.
Proof.
  revert ss e. induction ds as [|d ds IH]; intros ss e.
  { apply wp_ret. eexists. split; [done|constructor]. }
  cbn [new_each]. apply wp_try. eapply wp_mono; [|apply new_capturer_wp].
  intros r e1 t (x & -> & Hx). destruct x as [c|y]; subst r.
  - eapply wp_mono; [|apply IH]. intros r e2 t2 (x & -> & Hm). eexists. split; [done|]. by constructor.
  - eexists. split; [done|]. constructor.
Qed.

Lemma made_dimensions ds ss t r :
  made ds ss t r -> forall out, r = Ok out ->
  map (fun s => (screen_width s, screen_height s)) out =
    map (fun s => (screen_width s, screen_height s)) ss ++ map (fun d => (width d, height d)) ds.
Proof.
  induction 1 as [ss|d ds ss x|d ds ss c t r _ IH]; intros out Hout; [|done|].
  - injection Hout as ->. by rewrite app_nil_r.
  - rewrite (IH _ Hout), List.map_app, <-(assoc_L app). done.
Qed.

(** Capturing all screens: every display gets one screen, in order, with its
    own width and height; the first display that cannot be captured makes the
    whole call fail, and those after it are not tried. *)
Theorem new_all_screens (e : Env) :
  wp new_all
     (fun r _ t =>
        (exists x, t = [All (Err x)] /\ r = Ret (Err (anyhow_msg
            ("couldn't find primary display because " +:+ io_display x +:+ " trace info screen::new_all")))) \/
        (exists ds t' x, t = All (Ok ds) :: t' /\ r = Ret x /\ made ds [] t' x /\
           forall out, x = Ok out ->
             map (fun s => (screen_width s, screen_height s)) out = map (fun d => (width d, height d)) ds)) e.
Proof.
  unfold new_all. apply wp_try, wp_obs. intros [ds|x] e1 _.
  - eapply wp_mono; [|apply new_each_wp]. intros r e2 t (x & -> & Hm). right.
    exists ds, t, x. split_and!; [done..|]. exact (made_dimensions _ _ _ _ Hm).
  - left. by exists x.
Qed.
End screens.

(** ** Scripts *)
Class Engine (Env : Type) := {
  EvalAltResult : Type;
  eval_debug : EvalAltResult -> string;
  Dynamic : Type;
  dynamic_display : Dynamic -> string;
  register_fn : string -> Env -> Env;
  run : string -> Env -> result unit EvalAltResult * Env;
  eval : string -> Env -> result Dynamic EvalAltResult * Env;
  (** A web worker, a thread of it, and a script executed there. *)
  JsValue : Type;
  js_debug : JsValue -> string;
  worker_init : string -> Env -> result unit JsValue * Env;
  thread_init : Env -> result unit JsValue * Env;
  exec_js : bool -> string -> Env -> result JsValue JsValue * Env;
}.

Section scripts.
Context `{!Errors} {Env : Type} `{!Engine Env}.

Inductive script_event :=
| Ran (script : string) (r : result unit EvalAltResult)
| Evaluated (script : string) (r : result Dynamic EvalAltResult)
| WorkerInit (path : string) (r : result unit JsValue)
| ThreadInit (r : result unit JsValue)
| ExecJs (is_async : bool) (script : string) (r : result JsValue JsValue).
Abbreviation IO := (M Env script_event).

Definition register_function (p_name : string) : IO unit := act (fun e => (tt, register_fn p_name e)).
Definition run_return_void (p_script : string) : IO (result unit anyhow) :=
  r ← obs (run p_script) (Ran p_script);
  mret (map_err (fun e => anyhow_context "WRhai::run_return_void" (anyhow_msg (eval_debug e))) r).
Definition run_return_any (p_script : string) : IO (result Dynamic anyhow) :=
  r ← obs (eval p_script) (Evaluated p_script);
  mret (map_err (fun e => anyhow_context "WRhai::run_return_any" (anyhow_msg (eval_debug e))) r).

Record JavaScript := mkJavaScript { js_worker_path : string }.
Definition JavaScript_new (p_path_to_js_worker : option string) : JavaScript :=
  {| js_worker_path := default "./pkg/wolf_demo.js"%string p_path_to_js_worker |}.

Definition traced (e : JsValue) : anyhow :=
  anyhow_msg (js_debug e +:+ ". trace info: " +:+ "WJavaScript::execute").
Definition execute (self : JavaScript) (p_js_script : string) (p_async : bool) : IO (result JsValue anyhow) :=
  _ ←?[traced] obs (worker_init (js_worker_path self)) (WorkerInit (js_worker_path self));
  _ ←?[traced] obs thread_init ThreadInit;
  js_val ←?[traced] obs (exec_js p_async p_js_script) (ExecJs p_async p_js_script);
  mret (Ok js_val).

(** A script runs in a thread of the worker, once both have started, and every
    failure on the way is the result. *)
Lemma execute_runs self script p_async (e : Env) :
  wp (execute self script p_async)
     (fun r _ t => exists w, head t = Some (WorkerInit (js_worker_path self) w) /\
        match t with
        | [WorkerInit _ (Err x)] | [WorkerInit _ (Ok _); ThreadInit (Err x)]
        | [WorkerInit _ (Ok _); ThreadInit (Ok _); ExecJs _ _ (Err x)] => r = Ret (Err (traced x))
        | [WorkerInit _ (Ok _); ThreadInit (Ok _); ExecJs a s (Ok v)] =>
            a = p_async /\ s = script /\ r = Ret (Ok v)
        | _ => False
        end) e.
Proof.
  unfold execute. apply wp_try, wp_obs. intros [[]|x] e1 _; [|by eexists].
  apply wp_try, wp_obs. intros [[]|x] e2 _; [|by eexists].
  apply wp_try, wp_obs. intros [v|x] e3 _; [|by eexists]. apply wp_ret. by eexists.
Qed.
End scripts.

(** ** A concrete snapshot *)
Module Runs.
Definition procs : gmap Z Process :=
  list_to_map [(1, mkProcess "init"); (7, mkProcess "demo"); (9, mkProcess "demo")].
Definition snapshot : System := {|
  processes := procs; iteration := map_to_list procs; iteration_perm := reflexivity _;
  used_memory := 1; total_memory := 2; used_swap := 0; total_swap := 0 |}.

Lemma process_queries_witness :
  number_of_process_instances Checked snapshot "demo" = Ret 2 /\
  is_process_running_by_name snapshot "nobody" = false /\
  is_process_running_by_pid snapshot 7 = true.
Proof.
  assert (Z.of_nat (base.size (processes snapshot)) < 2 ^ 64) as Hs by (by vm_compute).
  destruct (process_queries Checked snapshot "demo" 7 Hs) as (Hn & _ & Hp).
  destruct (process_queries Checked snapshot "nobody" 7 Hs) as (_ & Hb & _).
  split_and!.
  - rewrite Hn. by vm_compute.
  - destruct (is_process_running_by_name snapshot "nobody"); [|done].
    destruct Hb as [Hb _]. destruct (Hb eq_refl). by vm_compute.
  - apply Hp. exists (mkProcess "demo"). by vm_compute.
Defined.
End Runs.
