(* ===== verification/Signals.v ===== *)
(** Signals and the runtime ([wolf/src/system/os/sigslot.rs], [runtime.rs]), and
    the scripted test of the demo ([wolf-demo/src/main.rs]) that puts them together
    with the script engine. *)
From stdpp Require Import pretty.
From S2P Require Import Prelude F64 Common Os.
Local Open Scope Z_scope.
#[local] Set Default Goal Selector "!".

(** ** Libraries

    The signals library: a signal, its connections, and the slots of type [F] (the
    closures) a signal calls when it is emitted. *)
Class Signals2 (Env F : Type) := {
  Signal : Type;
  Connection : Type;
  signal_new : Env -> Signal * Env;
  signal_connect : Signal -> F -> Env -> Connection * Env;
  connected : Connection -> Env -> bool;
  signal_disconnect : Connection -> Env -> Env;
  signal_emit : Signal -> Env -> list F * Env;
}.
(** The slots of a signal, in the order they were connected; a clone of a signal
    is the same signal. *)
Class SignalsLaws (Env F : Type) `{!Signals2 Env F} := {
  slots : Signal -> Env -> list (Connection * F);
  signal_new_slots e s e' : signal_new e = (s, e') -> slots s e' = [];
  signal_connect_slots s f e c e' :
    signal_connect s f e = (c, e') -> slots s e' = slots s e ++ [(c, f)] /\ c ∉ map fst (slots s e);
  connected_slots s c e : c ∈ map fst (slots s e) -> connected c e = true;
  disconnected_slots c e : (forall s, c ∉ map fst (slots s e)) -> connected c e = false;
  signal_disconnect_slots s c f d e :
    (d, f) ∈ slots s (signal_disconnect c e) <-> (d, f) ∈ slots s e /\ d <> c;
  signal_disconnect_order s c e : slots s (signal_disconnect c e) `sublist_of` slots s e;
  signal_emit_slots s e fs e' : signal_emit s e = (fs, e') -> fs = map snd (slots s e) /\ slots s e' = slots s e;
}.

(** The runtimes: spawning a thread or a task, and sleeping. *)
Class Runtimes (Env : Type) := {
  thread_spawn : Env -> Env;
  tokio_spawn : Env -> Env;
  thread_sleep : Duration -> Env -> Env;
  tokio_sleep : Duration -> Env -> Env;
}.
(** Sleeping leaves the signals as they are. *)
Class RuntimesLaws (Env F : Type) `{!Signals2 Env F} `{!SignalsLaws Env F} `{!Runtimes Env} := {
  sleep_slots x d (e : Env) : slots x (tokio_sleep d e) = slots x e;
}.

Inductive event (T : Type) :=
| Spawned (task : T)
| Slept (d : Duration)
| Log (msg : string).
Arguments Spawned {T} _.
Arguments Slept {T} _.
Arguments Log {T} _.

(** ** [SigSlot] and [Slot] *)
Section signals.
Context {Env F T : Type} `{!Signals2 Env F}.
Abbreviation IO := (M Env (event T)).

Record Slot := mkSlot { status : Connection }.
Record SigSlot := mkSigSlot { s : Signal }.

Definition is_connected (self : Slot) : IO bool := act (fun e => (connected (status self) e, e)).
Definition disconnect (self : Slot) : IO unit := act (fun e => (tt, signal_disconnect (status self) e)).

Definition new : IO SigSlot := x ← act signal_new; mret (mkSigSlot x).
Definition clone (self : SigSlot) : SigSlot := mkSigSlot (s self).
Definition connect (self : SigSlot) (p_slot : F) : IO Slot :=
  c ← act (signal_connect (s self) p_slot); mret (mkSlot c).

(** The closures run one after the other, as the library calls them. *)
Fixpoint run_all (run : F -> IO unit) (fs : list F) : IO unit :=
  match fs with
  | [] => mret tt
  | f :: fs => _ ← run f; run_all run fs
  end.
Definition emit_signal (run : F -> IO unit) (self : SigSlot) : IO unit :=
  fs ← act (signal_emit (s self)); run_all run fs.
End signals.

(** ** [RunTime], outside WebAssembly *)
Section runtime.
Context {Env T : Type} `{!Runtimes Env}.
Abbreviation IO := (M Env (event T)).

Definition thread (p_fn : T) : IO unit := obs (fun e => (tt, thread_spawn e)) (fun _ => Spawned p_fn).
Definition green_thread (p_future : T) : IO unit := obs (fun e => (tt, tokio_spawn e)) (fun _ => Spawned p_future).
(** [pollster::block_on]: the future runs to its end, here. *)
Definition spawn_local {Ev A} (f : M Env Ev A) : M Env Ev A := f.
Definition sleep (p_duration : Duration) : IO unit :=
  obs (fun e => (tt, thread_sleep p_duration e)) (fun _ => Slept p_duration).
Definition async_sleep (p_duration : Duration) : IO unit :=
  obs (fun e => (tt, tokio_sleep p_duration e)) (fun _ => Slept p_duration).
End runtime.

(** ** [RunTime::thread] in WebAssembly: a web worker, a thread of it, and the
    closure executed there, whose own result is dropped. *)
Section wasm.
Context `{!Errors} {Env T : Type} `{!Engine Env}.
Context (exec_async : T -> Env -> result JsValue JsValue * Env).

Inductive worker_event :=
| Worker (path : string) (r : result unit JsValue)
| Thread (r : result unit JsValue)
| Executed (p_fn : T)
| WorkerLog (msg : string).
Abbreviation IO := (M Env worker_event).

Definition PKG_JS_PATH : string := "./pkg/wolf_demo.js".
Definition thread_wasm (p_fn : T) : IO unit :=
  let TRACE := "RunTime::thread" in
  let failed e := emit (WorkerLog (js_debug e +:+ ". trace info: " +:+ TRACE)) in
  wasm_mt_res ← obs (worker_init PKG_JS_PATH) (Worker PKG_JS_PATH);
  match wasm_mt_res with
  | Ok _ =>
    thread_res ← obs thread_init Thread;
    match thread_res with
    | Ok _ => _ ← obs (exec_async p_fn) (fun _ => Executed p_fn); mret tt
    | Err e => failed e
    end
  | Err e => failed e
  end.

(** The closure runs once, in a thread of a worker, or a line says why not. *)
Lemma thread_wasm_runs p_fn (e : Env) :
  wp (thread_wasm p_fn) (fun r _ t => r = Ret tt /\
    (t = [Worker PKG_JS_PATH (Ok tt); Thread (Ok tt); Executed p_fn] \/
     exists x t', (t' = [Worker PKG_JS_PATH (Err x)] \/ t' = [Worker PKG_JS_PATH (Ok tt); Thread (Err x)]) /\
       t = t' ++ [WorkerLog (js_debug x +:+ ". trace info: RunTime::thread")])) e.
Proof.
  unfold thread_wasm. apply wp_bind, wp_obs. intros [[]|x] e1 _.
  - apply wp_bind, wp_obs. intros [[]|x] e2 _.
    + apply wp_bind, wp_obs. intros r e3 _. apply wp_ret. split; [done|]. by left.
    + apply wp_emit. split; [done|]. right. eexists x, _. split; [by right|done].
  - apply wp_emit. split; [done|]. right. eexists x, _. split; [by left|done].
Qed.
End wasm.

(** ** The demo's test

    Its slots and its task, by name. *)
Inductive slot := Slot1 (i : Z) | Slot2.
Inductive task := T1.

Inductive test_event `{!Errors} {Env : Type} `{!Engine Env} :=
| Script (ev : script_event)
| Ran (ev : event task).
Arguments test_event {_} Env {_}.

Section test.
Context `{!Errors} {Env : Type} `{!Engine Env} `{!Signals2 Env slot} `{!Runtimes Env}.
Abbreviation IO := (M Env (test_event Env)).

Definition w_log (msg : string) : M Env (event task) unit := emit (Log msg).
Definition seconds (n : Z) : Duration := n * 1000000000.

(** The closures connected, and the task started. *)
Definition run_slot (f : slot) : M Env (event task) unit :=
  match f with
  | Slot1 i => w_log ("hello from slot" +:+ pretty i)
  | Slot2 => w_log "hello from slot2"
  end.
Definition t1 : M Env (event task) unit :=
  _ ← w_log "t1 started"; _ ← sleep (seconds 1); w_log "t1 just stopped after 2 seconds".

Definition answer (res : result Dynamic anyhow) : string :=
  match res with
  | Ok v => "add returns: " +:+ dynamic_display v
  | Err e => "add returns error: " +:+ anyhow_debug e
  end.

(** The part with the signal. *)
Definition test_signals : M Env (event task) unit :=
  sig_slot ← new;
  let i := 1 in
  con_1 ← connect sig_slot (Slot1 i);
  con_2 ← connect sig_slot Slot2;
  b1 ← is_connected con_1;
  b ← (if b1 : bool then is_connected con_2 else mret false);
  _ ← (if b : bool then
         _ ← w_log "slot 1 & 2 was connected";
         _ ← disconnect con_2;
         w_log "slot 2 just disconnected"
       else mret tt);
  _ ← async_sleep (seconds 1);
  emit_signal run_slot sig_slot.

Definition test : IO unit :=
  _ ← retrace Script (register_function "add");
  res ← retrace Script (run_return_any "add(10, 7)");
  _ ← retrace Ran (w_log (answer res));
  _ ← retrace Ran (green_thread T1);
  _ ← retrace Ran (async_sleep (seconds 2));
  retrace Ran test_signals.
End test.

(** ** What the test shows *)

(** Disconnecting the second of a signal's connections leaves the first in front,
    and nothing of the second. *)
Lemma disconnect_second {Env F} `{!Signals2 Env F} `{!SignalsLaws Env F} x c1 c2 f1 f2 l (e : Env) :
  slots x e = (c1, f1) :: (c2, f2) :: l -> c1 <> c2 -> (c1, f1) ∉ l ->
  exists l', slots x (signal_disconnect c2 e) = (c1, f1) :: l' /\ l' `sublist_of` l.
Proof.
  intros He Hne Hl. pose proof (signal_disconnect_order x c2 e) as Hsub.
  assert ((c1, f1) ∈ slots x (signal_disconnect c2 e)) as Hin
    by (apply signal_disconnect_slots; split; [rewrite He; by left|done]).
  assert ((c2, f2) ∉ slots x (signal_disconnect c2 e)) as Hno by (by intros [_ ?]%signal_disconnect_slots).
  rewrite He in Hsub. apply sublist_cons_r in Hsub as [Hsub|(k & Hk & Hsub)].
  - exfalso. apply (elem_of_sublist _ _ _ Hin) in Hsub as [[= ? ?]|?]%elem_of_cons; done.
  - rewrite Hk in Hno |- *. exists k. split; [done|]. apply sublist_cons_r in Hsub as [|(k' & -> & _)]; [done|].
    destruct Hno. right. by left.
Qed.

Section proofs.
Context `{!Errors} {Env : Type} `{!Engine Env} `{!Signals2 Env slot} `{!Runtimes Env}.
Context `{!SignalsLaws Env slot} `{!RuntimesLaws Env slot}.

Lemma test_signals_wp (e : Env) :
  wp test_signals (fun r _ t => r = Ret tt /\
    t = [Log "slot 1 & 2 was connected"; Log "slot 2 just disconnected"; Slept (seconds 1);
         Log "hello from slot1"]) e.
Proof.
  unfold test_signals. apply wp_bind. unfold new. apply wp_bind, wp_act. intros x e1 H1%signal_new_slots.
  apply wp_ret. apply wp_bind. unfold connect at 1. apply wp_bind, wp_act. intros c1 e2 H2. apply wp_ret.
  apply signal_connect_slots in H2 as [H2 _]. cbn [s] in H2. rewrite H1 in H2. cbn [app] in H2.
  apply wp_bind. unfold connect at 1. apply wp_bind, wp_act. intros c2 e3 H3. apply wp_ret.
  apply signal_connect_slots in H3 as [H3 Hc]. cbn [s] in H3, Hc. rewrite H2 in H3, Hc. cbn [map fst app] in H3, Hc.
  assert (c1 <> c2) as Hne by (intros ->; apply Hc; by left).
  apply wp_bind, wp_act. intros b1 e4 [= <- <-].
  rewrite (connected_slots x c1) by (rewrite H3; by left).
  apply wp_bind, wp_act. intros b2 e5 [= <- <-].
  rewrite (connected_slots x c2) by (rewrite H3; right; by left).
  apply wp_bind, wp_bind, wp_emit, wp_bind, wp_act. intros [] e6 [= <-]. apply wp_emit.
  apply wp_bind, wp_obs. intros [] e7 [= <-]. unfold emit_signal. apply wp_bind, wp_act.
  intros fs e8 [-> _]%signal_emit_slots. cbn [s]. rewrite sleep_slots.
  destruct (disconnect_second x c1 c2 (Slot1 1) Slot2 [] e3) as (l' & -> & ->%sublist_nil_r);
    [done..|apply not_elem_of_nil|].
  cbn [map snd run_all]. apply wp_bind. unfold run_slot. apply wp_emit, wp_ret. done.
Qed.

(** What the test leaves behind: the sum, or the error of the script, then the
    task, and one greeting, of the slot that stayed connected. *)
Definition greeted (t : list (test_event Env)) : Prop :=
  exists msg x,
    t = [Script (Evaluated "add(10, 7)" x); Ran (Log msg); Ran (Spawned T1); Ran (Slept (seconds 2));
         Ran (Log "slot 1 & 2 was connected"); Ran (Log "slot 2 just disconnected");
         Ran (Slept (seconds 1)); Ran (Log "hello from slot1")] /\
    msg = answer (map_err (fun e => anyhow_context "WRhai::run_return_any" (anyhow_msg (eval_debug e))) x).

(** The scripted test runs to its end, whatever the script gives. *)
Lemma scripted_test (e : Env) : wp test (fun r _ t => r = Ret tt /\ greeted t) e.
Proof.
  unfold test. apply wp_bind, wp_retrace, wp_act. intros [] e1 _. apply wp_bind, wp_retrace.
  unfold run_return_any. apply wp_bind, wp_obs. intros x e2 _. apply wp_ret.
  apply wp_bind, wp_retrace, wp_emit. apply wp_bind, wp_retrace, wp_obs. intros [] e3 _.
  apply wp_bind, wp_retrace, wp_obs. intros [] e4 _. apply wp_retrace.
  eapply wp_mono; [|apply test_signals_wp]. intros r e5 t [-> ->]. split; [done|].
  by exists (answer (map_err (fun e => anyhow_context "WRhai::run_return_any" (anyhow_msg (eval_debug e))) x)), x.
Qed.
End proofs.

(** ** The signals shared with threads ([wolf/tests/system_os.rs])

    Two tasks connect slots of their own to the clones they are given, whenever
    they run. *)
Inductive shared_slot := Shared1 (i : Z) | Shared2 | OfOsThread | OfGreenThread.
Inductive shared_task := OsTask | GreenTask.
Definition of_tasks (f : shared_slot) : bool :=
  match f with OfOsThread | OfGreenThread => true | _ => false end.

Section shared.
Context {Env : Type} `{!Signals2 Env shared_slot} `{!Runtimes Env}.
Abbreviation IO := (M Env (event shared_task)).

Definition shared_text (f : shared_slot) : string :=
  match f with
  | Shared1 i => "hello from slot" +:+ pretty i
  | Shared2 => "hello from slot2"
  | OfOsThread => "hello from slot of os thread"
  | OfGreenThread => "hello from slot of green thread"
  end.
Definition run_shared (f : shared_slot) : IO unit := emit (Log (shared_text f)).
(** What the tasks do. *)
Definition shared_body (sig_cloned : SigSlot) (t : shared_task) : IO unit :=
  _ ← connect sig_cloned (match t with OsTask => OfOsThread | GreenTask => OfGreenThread end); mret tt.

Definition test_sigslot : IO unit :=
  sig_slot ← new;
  con_1 ← connect sig_slot (Shared1 1);
  con_2 ← connect sig_slot Shared2;
  _ ← thread OsTask;
  _ ← green_thread GreenTask;
  b1 ← is_connected con_1;
  b ← (if b1 : bool then is_connected con_2 else mret false);
  _ ← (if b : bool then
         _ ← emit (Log "slot 1 & 2 was connected");
         _ ← disconnect con_2;
         emit (Log "slot 2 just disconnected")
       else mret tt);
  _ ← async_sleep (seconds 1);
  emit_signal run_shared sig_slot.

(** The tasks run while the test spawns or sleeps, and do nothing but connect. *)
Definition grown (l l' : list (Connection * shared_slot)) : Prop :=
  exists k, l' = l ++ k /\ Forall (fun cf => of_tasks (snd cf) = true) k.
Class TasksConnect `{!SignalsLaws Env shared_slot} := {
  spawn_grown x e : grown (slots x e) (slots x (thread_spawn e));
  green_grown x e : grown (slots x e) (slots x (tokio_spawn e));
  sleep_grown x d e : grown (slots x e) (slots x (tokio_sleep d e));
}.

Lemma run_all_shared fs (e : Env) :
  wp (run_all run_shared fs) (fun r _ t => r = Ret tt /\ t = map (fun f => Log (shared_text f)) fs) e.
Proof.
  revert e. induction fs as [|f fs IH]; intros e; [by apply wp_ret|].
  cbn [run_all]. apply wp_bind, wp_emit. eapply wp_mono; [|apply IH]. by intros r e1 t [-> ->].
Qed.

Lemma grown_trans l1 l2 l3 : grown l1 l2 -> grown l2 l3 -> grown l1 l3.
Proof.
  intros (k & -> & Hk) (k' & -> & Hk'). exists (k ++ k'). split; [by rewrite (assoc_L app)|]. by apply Forall_app.
Qed.

Context `{!SignalsLaws Env shared_slot}.
(** A task only grows the signal it was given. *)
Lemma shared_body_grows sg t (e : Env) :
  wp (shared_body sg t) (fun r e' _ => r = Ret tt /\ grown (slots (s sg) e) (slots (s sg) e')) e.
Proof.
  unfold shared_body, connect. apply wp_bind, wp_bind, wp_act. intros c e1 [Hc _]%signal_connect_slots.
  apply wp_ret, wp_ret. split; [done|]. eexists. split; [exact Hc|]. constructor; [by destruct t|constructor].
Qed.

(** Whenever the tasks connect, the slot that was disconnected is not run, the
    other runs first, and those of the tasks that connected in time after it. *)
Theorem test_sigslot_greets `{!TasksConnect} (e : Env) :
  wp test_sigslot (fun r _ t => r = Ret tt /\ exists fs, Forall (fun f => of_tasks f = true) fs /\
    t = [Spawned OsTask; Spawned GreenTask; Log "slot 1 & 2 was connected"; Log "slot 2 just disconnected";
         Slept (seconds 1); Log "hello from slot1"] ++ map (fun f => Log (shared_text f)) fs) e.
Proof.
  unfold test_sigslot. apply wp_bind. unfold new. apply wp_bind, wp_act. intros x e1 H1%signal_new_slots.
  apply wp_ret. apply wp_bind. unfold connect at 1. apply wp_bind, wp_act. intros c1 e2 H2. apply wp_ret.
  apply signal_connect_slots in H2 as [H2 _]. cbn [s] in H2. rewrite H1 in H2. cbn [app] in H2.
  apply wp_bind. unfold connect at 1. apply wp_bind, wp_act. intros c2 e3 H3. apply wp_ret.
  apply signal_connect_slots in H3 as [H3 Hc]. cbn [s] in H3, Hc. rewrite H2 in H3, Hc. cbn [map fst app] in H3, Hc.
  assert (c1 <> c2) as Hne by (intros ->; apply Hc; by left).
  apply wp_bind, wp_obs. intros [] e4 [= <-]. apply wp_bind, wp_obs. intros [] e5 [= <-].
  destruct (grown_trans _ _ _ (spawn_grown x e3) (green_grown x (thread_spawn e3))) as (k & H5 & Hk).
  set (e5 := tokio_spawn (thread_spawn e3)) in *. rewrite H3 in H5. cbn [app] in H5.
  apply wp_bind, wp_act. intros b1 e6 [= <- <-]. rewrite (connected_slots x c1) by (rewrite H5; by left).
  apply wp_bind, wp_act. intros b2 e7 [= <- <-]. rewrite (connected_slots x c2) by (rewrite H5; right; by left).
  apply wp_bind, wp_bind, wp_emit, wp_bind, wp_act. intros [] e8 [= <-]. apply wp_emit.
  assert (forall k, Forall (fun cf => of_tasks (snd cf) = true) k -> (c1, Shared1 1) ∉ k) as Hno
    by (intros k' Hk' Hin; by apply (proj1 (Forall_forall _ _) Hk') in Hin).
  destruct (disconnect_second x c1 c2 (Shared1 1) Shared2 k e5 H5 Hne (Hno k Hk)) as (l & H6 & Hl).
  apply wp_bind, wp_obs. intros [] e9 [= <-]. unfold emit_signal. apply wp_bind, wp_act.
  intros fs e10 [-> _]%signal_emit_slots. cbn [s].
  destruct (sleep_grown x (seconds 1) (signal_disconnect c2 e5)) as (k' & -> & Hk'). rewrite H6.
  eapply wp_mono; [|apply run_all_shared]. intros r e11 t [-> ->]. split; [done|].
  exists (map snd (l ++ k')). split; [|done].
  rewrite Forall_fmap. apply Forall_app. split; [|done].
  rewrite Forall_forall in Hk |- *. intros cf Hin. apply Hk. by eapply elem_of_sublist.
Qed.
End shared.

(** ** A signal table

    The connections of all signals, in the order they were made. *)
Module Runs.
Record table (F : Type) := mkTable { signals : list Z; conns : list (Z * (Z * F)) }.
Arguments mkTable {F} _ _.
Arguments signals {F} _.
Arguments conns {F} _.

Section table.
Context {F : Type}.
Definition conn_ids (e : table F) : list Z := map (fun c => fst (snd c)) (conns e).
Definition slots_of (sg : Z) (e : table F) : list (Z * F) := map snd (filter (fun c => fst c = sg) (conns e)).

#[export] Instance table_signals : Signals2 (table F) F := {|
  Signal := Z; Connection := Z;
  signal_new := fun e =>
    let sg := fresh (signals e ++ map fst (conns e)) in (sg, mkTable (sg :: signals e) (conns e));
  signal_connect := fun sg f e =>
    let c := fresh (conn_ids e) in (c, mkTable (signals e) (conns e ++ [(sg, (c, f))]));
  connected := fun c e => bool_decide (c ∈ conn_ids e);
  signal_disconnect := fun c e => mkTable (signals e) (filter (fun x => fst (snd x) <> c) (conns e));
  signal_emit := fun sg e => (map snd (slots_of sg e), e);
|}.

Lemma slots_of_elem sg c f e : (c, f) ∈ slots_of sg e <-> (sg, (c, f)) ∈ conns e.
Proof.
  unfold slots_of. rewrite list_elem_of_fmap. split.
  - intros ([sg' x] & [= ->] & [Hs Hin]%list_elem_of_filter). simpl in *. by subst.
  - intros Hin. exists (sg, (c, f)). by rewrite list_elem_of_filter.
Qed.
Lemma slots_of_ids sg c e : c ∈ map fst (slots_of sg e) -> c ∈ conn_ids e.
Proof.
  intros ([c' f] & [= ->] & Hin%slots_of_elem)%list_elem_of_fmap.
  apply list_elem_of_fmap. by exists (sg, (c', f)).
Qed.
Lemma ids_slots_of c e : c ∈ conn_ids e -> exists sg, c ∈ map fst (slots_of sg e).
Proof.
  intros ([sg [c' f]] & [= ->] & Hin)%list_elem_of_fmap. exists sg.
  apply list_elem_of_fmap. exists (c', f). by rewrite slots_of_elem.
Qed.

#[export] Program Instance table_laws : SignalsLaws (table F) F := {| slots := slots_of |}.
Next Obligation.
  intros e sg e' [= <- <-]. unfold slots_of. simpl.
  set (sg := fresh _). assert (sg ∉ map fst (conns e)) as Hf.
  { intros Hin. apply (infinite_is_fresh (signals e ++ map fst (conns e))). apply elem_of_app. by right. }
  assert (filter (fun c => fst c = sg) (conns e) = []) as ->; [|done].
  destruct (filter _ _) as [|x l] eqn:E; [done|]. destruct Hf.
  assert (x ∈ filter (fun c => fst c = sg) (conns e)) as [<- Hin]%list_elem_of_filter by (rewrite E; by left).
  apply list_elem_of_fmap. by exists x.
Qed.
Next Obligation.
  intros sg f e c e' [= <- <-]. split.
  - unfold slots_of. simpl. rewrite filter_app, List.map_app. f_equal.
    by rewrite filter_cons_True.
  - intros Hin%slots_of_ids. by apply (infinite_is_fresh (conn_ids e)).
Qed.
Next Obligation. intros sg c e Hin%slots_of_ids. by apply bool_decide_eq_true_2. Qed.
Next Obligation. intros c e Hno. apply bool_decide_eq_false_2. intros [sg Hin]%ids_slots_of. by apply (Hno sg). Qed.
Next Obligation.
  intros sg c f d e. rewrite !slots_of_elem. simpl. rewrite list_elem_of_filter. simpl. tauto.
Qed.
Next Obligation.
  intros sg c e. unfold slots_of. simpl. apply fmap_sublist.
  rewrite list_filter_filter, (list_filter_iff _ (fun x => fst (snd x) <> c /\ fst x = sg)) by tauto.
  rewrite <-list_filter_filter. apply sublist_filter.
Qed.
Next Obligation. by intros sg e fs e' [= <- <-]. Qed.
End table.

(** Tasks that run as they are spawned, and connect to every signal there is. *)
Definition joined (f : shared_slot) (e : table shared_slot) : table shared_slot :=
  mkTable (signals e) (conns e ++ map (fun x => (x, (fresh (conn_ids e), f))) (signals e)).
#[local] Instance joining_runtimes : Runtimes (table shared_slot) := {|
  thread_spawn := joined OfOsThread; tokio_spawn := joined OfGreenThread;
  thread_sleep := fun _ => id; tokio_sleep := fun _ => id |}.
Lemma joined_grown f x e : of_tasks f = true -> grown (slots_of x e) (slots_of x (joined f e)).
Proof.
  intros Hf. unfold slots_of, joined. cbn [conns]. rewrite filter_app, List.map_app. eexists. split; [done|].
  apply Forall_forall. intros cf ([y cg] & -> & [_ Hin]%list_elem_of_filter)%list_elem_of_fmap.
  by apply list_elem_of_fmap in Hin as (z & [= -> ->] & _).
Qed.
#[local] Instance tasks_connect : TasksConnect.
Proof.
  split; cbn; intros; [by apply joined_grown..|].
  exists []. by rewrite app_nil_r.
Qed.
Example sigslot_run :
  snd (test_sigslot (mkTable [] [])) =
    [Spawned OsTask; Spawned GreenTask; Log "slot 1 & 2 was connected"; Log "slot 2 just disconnected";
     Slept 1000000000; Log "hello from slot1"; Log "hello from slot of os thread";
     Log "hello from slot of green thread"].
Proof. vm_compute. done. Qed.

(** An engine whose one script adds, and the test on an empty table. *)
Import Concrete.
Definition adder (Env : Type) : Engine Env := {|
  EvalAltResult := string; eval_debug := id; Dynamic := Z; dynamic_display := pretty;
  register_fn := fun _ e => e;
  Os.run := fun _ e => (Ok tt, e);
  eval := fun sc e => ((if String.eqb sc "add(10, 7)" then Ok 17 else Err "ErrorParsing"%string), e);
  JsValue := string; js_debug := id;
  worker_init := fun _ e => (Ok tt, e); thread_init := fun e => (Ok tt, e);
  exec_js := fun _ sc e => (Ok sc, e);
|}.
#[local] Instance table_engine : Engine (table slot) := adder _.
#[local] Instance table_runtimes : Runtimes (table slot) :=
  {| thread_spawn := id; tokio_spawn := id; thread_sleep := fun _ => id; tokio_sleep := fun _ => id |}.

Example test_run :
  let '(r, e, t) := test (mkTable [] []) in
  r = Ret tt /\ length (conns e) = 1%nat /\
  t = [Script (Evaluated "add(10, 7)" (Ok 17)); Ran (Log "add returns: 17"); Ran (Spawned T1);
       Ran (Slept 2000000000); Ran (Log "slot 1 & 2 was connected"); Ran (Log "slot 2 just disconnected");
       Ran (Slept 1000000000); Ran (Log "hello from slot1")].
Proof. vm_compute. done. Qed.

(** The task says two seconds and sleeps for one. *)
Example t1_run :
  snd (t1 (mkTable [] [])) = [Log "t1 started"; Slept (seconds 1); Log "t1 just stopped after 2 seconds"].
Proof. reflexivity. Qed.
End Runs.
