(* ===== verification/Gamepad.v ===== *)
(** Virtual gamepads: the bridge ([wolf/src/system/os/vigem_client.rs]) and the C++
    class behind it ([os/cxx/vigem_client/vigem_client.cpp]): the driver bus, the
    controllers plugged into it, and who frees them. *)
From Stdlib Require Import HexadecimalString HexadecimalZ.
From S2P Require Import Prelude F64 Common.
Local Open Scope Z_scope.
#[local] Set Default Goal Selector "!".

Inductive GamepadType := XBox360 | PS4.
#[export] Instance gamepad_type_eq : EqDecision GamepadType.
Proof. solve_decision. Defined.
Definition type_name (t : GamepadType) : string :=
  if bool_decide (t = XBox360) then "XBox360" else "PS4".

(** The state of a controller; the fields are [u16], [u8], [i16] and [u32]. *)
Record XINPUT_GAMEPAD_SHARED := mkGamepad {
  wButtons : Z;
  bLeftTrigger : Z;
  bRightTrigger : Z;
  sThumbLX : Z;
  sThumbLY : Z;
  sThumbRX : Z;
  sThumbRY : Z;
}.
Record XINPUT_STATE_SHARED := mkState { dwPacketNumber : Z; gamepad : XINPUT_GAMEPAD_SHARED }.

(** ** The ViGEm library: handles of the bus and of targets, status codes, and the
    report of a target, as the 12 bytes of an [XUSB_REPORT]. *)
Class Vigem (Env : Type) := {
  vigem_alloc : Env -> option positive * Env;
  vigem_connect : positive -> Env -> Z * Env;
  vigem_disconnect : positive -> Env -> Env;
  vigem_free : positive -> Env -> Env;
  vigem_target_alloc : GamepadType -> Env -> option positive * Env;
  vigem_target_add : positive -> positive -> Env -> Z * Env;
  vigem_target_remove : option positive -> positive -> Env -> Env;
  vigem_target_free : positive -> Env -> Env;
  vigem_target_x360_update : option positive -> positive -> list u8 -> Env -> Env;
}.
Definition VIGEM_ERROR_NONE : Z := 0x20000000.
Definition VIGEM_SUCCESS (r : Z) : bool := r =? VIGEM_ERROR_NONE.

Inductive event :=
| BusAlloc (p : option positive)
| BusConnect (r : Z)
| BusDisconnect
| BusFree (p : positive)
| TargetAlloc (p : option positive)
| TargetAdd (t : positive) (r : Z)
| TargetRemove (t : positive)
| TargetFree (t : positive)
| Report (t : positive) (bytes : list u8).

(** [std::format("{:x}", (int)code)]. *)
Definition hex (code : Z) : string := NilZero.string_of_int (Z.to_hex_int (wrap_s 32 code)).

(** ** Memory: the bytes of an [XINPUT_STATE], low byte first. *)
Definition le_bytes (n : nat) (z : Z) : list u8 :=
  map (fun i => byte_of_Z (Z.shiftr z (Z.of_nat i * 8))) (seq 0 n).
Definition gamepad_bytes (g : XINPUT_GAMEPAD_SHARED) : list u8 :=
  le_bytes 2 (wButtons g) ++ le_bytes 1 (bLeftTrigger g) ++ le_bytes 1 (bRightTrigger g) ++
  le_bytes 2 (sThumbLX g) ++ le_bytes 2 (sThumbLY g) ++ le_bytes 2 (sThumbRX g) ++ le_bytes 2 (sThumbRY g).
Definition state_bytes (x : XINPUT_STATE_SHARED) : list u8 :=
  le_bytes 4 (dwPacketNumber x) ++ gamepad_bytes (gamepad x).

Record impl := mkImpl {
  _driver_handler : option positive;
  _gamepads : list positive;
  _last_error : string;
}.
Definition set_last_error (s : string) (self : impl) : impl :=
  mkImpl (_driver_handler self) (_gamepads self) s.
(** The class holds its implementation by a unique pointer. *)
Record vigem_client := mkClient { _impl : option impl }.

Section gamepad.
Context {Env : Type} `{!Vigem Env}.
Abbreviation IO := (M Env event).

Definition impl_new : IO impl :=
  let _trace_info := "vigem_client::vigem_client" in
  driver ← obs vigem_alloc BusAlloc;
  match driver with
  | None =>
    mret (mkImpl None [] ("could not allocate memory for bus handler. trace info: " +:+ _trace_info))
  | Some d =>
    _ret ← obs (vigem_connect d) BusConnect;
    mret (mkImpl (Some d) []
      (if VIGEM_SUCCESS _ret then EmptyString
       else "gamepad bus connection failed with error code: " +:+ hex _ret +:+ ". trace info:" +:+ _trace_info))
  end.

Definition impl_reset_driver (self : impl) : IO (bool * impl) :=
  match _driver_handler self with
  | Some d => _ ← obs (fun e => (tt, vigem_disconnect d e)) (fun _ => BusDisconnect); mret (true, self)
  | None => mret (false, set_last_error "could not disconnect ViGem driver bus" self)
  end.

Definition target_remove (d : option positive) (t : positive) : IO unit :=
  obs (fun e => (tt, vigem_target_remove d t e)) (fun _ => TargetRemove t).
Definition target_free (t : positive) : IO unit :=
  obs (fun e => (tt, vigem_target_free t e)) (fun _ => TargetFree t).

Definition impl_add_gamepad_controller (pGameType : GamepadType) (self : impl) : IO (Z * impl) :=
  let _trace_info := "vigem_client::add_gamepad_controller" in
  match _driver_handler self with
  | None => mret (-1, set_last_error ("ViGem driver handler is null. trace info:" +:+ _trace_info) self)
  | Some d =>
    _handler ← obs (vigem_target_alloc pGameType) TargetAlloc;
    match _handler with
    | None =>
      mret (-1, set_last_error ("could not allocate memory for " +:+ type_name pGameType +:+
                                " target. trace info:" +:+ _trace_info) self)
    | Some t =>
      _pair ← obs (vigem_target_add d t) (TargetAdd t);
      if negb (VIGEM_SUCCESS _pair) then
        _ ← target_remove (Some d) t;
        mret (-1, set_last_error ("pair with bus failed with error code: " +:+ hex _pair +:+
                                  ". trace info: " +:+ _trace_info) self)
      else
        let gamepads := _gamepads self ++ [t] in
        mret (wrap_s 32 (Z.of_nat (length gamepads) - 1), mkImpl (Some d) gamepads (_last_error self))
    end
  end.

Definition update (self : impl) (i : Z) (report : list u8) : IO unit :=
  t ← lift (gsl_at (_gamepads self) i);
  obs (fun e => (tt, vigem_target_x360_update (_driver_handler self) t report e)) (fun _ => Report t report).

(** The whole [XINPUT_STATE] is copied over the [Gamepad] field of the local one,
    which is its last 12 bytes; [junk] is what they hold before. *)
Definition impl_send_xbox360_input (junk : vec u8 12) (pGamePadIndex : Z) (pXInput : XINPUT_STATE_SHARED)
    (self : impl) : IO (bool * impl) :=
  if pGamePadIndex <? Z.of_nat (length (_gamepads self)) then
    report ← lift (copy_nonoverlapping (state_bytes pXInput) junk);
    _ ← update self pGamePadIndex report;
    mret (true, self)
  else mret (false, set_last_error "gamepad index is invalid" self).

(** The report is the front of a zeroed state. *)
Definition impl_clear_gamepad_state (pGamePadIndex : Z) (self : impl) : IO (bool * impl) :=
  _ ← (if pGamePadIndex <? Z.of_nat (length (_gamepads self)) then
         update self pGamePadIndex (take 12 (replicate 16 Byte.x00))
       else mret tt);
  mret (false, set_last_error "gamepad index is invalid" self).

Definition impl_get_number_of_gamepads (self : impl) : Z := wrap_u 32 (Z.of_nat (length (_gamepads self))).

Fixpoint release_all (driver : option positive) (gamepads : list positive) : IO unit :=
  match gamepads with
  | [] => mret tt
  | t :: ts => _ ← target_remove driver t; _ ← target_free t; release_all driver ts
  end.
Definition impl_drop (self : impl) : IO unit :=
  '(_, self) ← impl_reset_driver self;
  _ ← release_all (_driver_handler self) (_gamepads self);
  match _driver_handler self with
  | Some d => obs (fun e => (tt, vigem_free d e)) (fun _ => BusFree d)
  | None => mret tt
  end.

(** ** The class and its bridge *)

Definition new : IO vigem_client := i ← impl_new; mret (mkClient (Some i)).
Definition drop_client (self : vigem_client) : IO unit :=
  match _impl self with Some i => impl_drop i | None => mret tt end.

(** A method of the class: that of the implementation, if there is one. *)
Definition through {A} (none : A) (f : impl -> IO (A * impl)) (self : vigem_client) : IO (A * vigem_client) :=
  match _impl self with
  | None => mret (none, self)
  | Some i => '(a, i) ← f i; mret (a, mkClient (Some i))
  end.
Definition reset_driver : vigem_client -> IO (bool * vigem_client) := through false impl_reset_driver.
Definition add_gamepad_controller (pGameType : GamepadType) : vigem_client -> IO (Z * vigem_client) :=
  through (-1) (impl_add_gamepad_controller pGameType).
Definition send_xbox360_input (junk : vec u8 12) (pGamePadIndex : Z) (pXInput : XINPUT_STATE_SHARED)
  : vigem_client -> IO (bool * vigem_client) :=
  through false (impl_send_xbox360_input junk pGamePadIndex pXInput).
(** The index is an [int] here. *)
Definition clear_gamepad_state (pGamePadIndex : Z) : vigem_client -> IO (bool * vigem_client) :=
  through false (impl_clear_gamepad_state (wrap_u 32 pGamePadIndex)).
Definition get_number_of_gamepads (self : vigem_client) : Z :=
  match _impl self with Some i => impl_get_number_of_gamepads i | None => 0 end.
Definition get_last_error (self : vigem_client) : string :=
  match _impl self with Some i => _last_error i | None => EmptyString end.
End gamepad.

(** ** Histories of calls *)
Inductive op :=
| ResetDriver
| AddGamepad (t : GamepadType)
| SendXbox360 (junk : vec u8 12) (i : Z) (x : XINPUT_STATE_SHARED)
| ClearState (i : Z)
| Number.
Inductive answer := ABool (b : bool) | AInt (n : Z).

Section histories.
Context {Env : Type} `{!Vigem Env}.
Abbreviation IO := (M Env event).

Definition answered {A} (f : A -> answer) (m : IO (A * vigem_client)) : IO (answer * vigem_client) :=
  '(a, c) ← m; mret (f a, c).
Definition perform (o : op) (self : vigem_client) : IO (answer * vigem_client) :=
  match o with
  | ResetDriver => answered ABool (reset_driver self)
  | AddGamepad t => answered AInt (add_gamepad_controller t self)
  | SendXbox360 junk i x => answered ABool (send_xbox360_input junk i x self)
  | ClearState i => answered ABool (clear_gamepad_state i self)
  | Number => mret (AInt (get_number_of_gamepads self), self)
  end.
Fixpoint perform_all (ops : list op) (self : vigem_client) : IO (list answer * vigem_client) :=
  match ops with
  | [] => mret ([], self)
  | o :: ops => '(a, c) ← perform o self; '(rest, c) ← perform_all ops c; mret (a :: rest, c)
  end.
(** A client made, used and dropped. *)
Definition life (ops : list op) : IO (list answer) :=
  c ← new; '(answers, c) ← perform_all ops c; _ ← drop_client c; mret answers.

(** What a trace says of the targets and of the bus. *)
Definition plugged : list event -> list positive :=
  omap (fun ev => match ev with TargetAdd t r => if VIGEM_SUCCESS r then Some t else None | _ => None end).
Definition refused : list event -> list positive :=
  omap (fun ev => match ev with TargetAdd t r => if VIGEM_SUCCESS r then None else Some t | _ => None end).
Definition removed : list event -> list positive :=
  omap (fun ev => match ev with TargetRemove t => Some t | _ => None end).
Definition freed : list event -> list positive :=
  omap (fun ev => match ev with TargetFree t => Some t | _ => None end).
Definition bus_allocated : list event -> list positive :=
  omap (fun ev => match ev with BusAlloc p => p | _ => None end).
Definition bus_freed : list event -> list positive :=
  omap (fun ev => match ev with BusFree d => Some d | _ => None end).

(** The answer to a call, from the number of controllers before it, and the
    number after it. *)
Inductive answer_ok (bus : bool) (n : Z) : op -> answer -> Z -> Prop :=
| ok_reset : answer_ok bus n ResetDriver (ABool bus) n
| ok_added t : bus = true -> answer_ok bus n (AddGamepad t) (AInt (wrap_s 32 n)) (n + 1)
| ok_not_added t : answer_ok bus n (AddGamepad t) (AInt (-1)) n
| ok_no_such junk i x : n <= i -> answer_ok bus n (SendXbox360 junk i x) (ABool false) n
| ok_clear i : answer_ok bus n (ClearState i) (ABool false) n
| ok_number : answer_ok bus n Number (AInt (wrap_u 32 n)) n.
Inductive answers_ok (bus : bool) : Z -> list op -> list answer -> Z -> Prop :=
| ok_nil n : answers_ok bus n [] [] n
| ok_cons n o a m ops l k :
    answer_ok bus n o a m -> answers_ok bus m ops l k -> answers_ok bus n (o :: ops) (a :: l) k.

(** What is observed of a trace, piece by piece. *)
Ltac observe :=
  unfold plugged, refused, removed, freed, bus_allocated, bus_freed in *; rewrite ?omap_app.

Definition number (st : impl) : Z := Z.of_nat (length (_gamepads st)).
Definition has_bus (st : impl) : bool := bool_decide (is_Some (_driver_handler st)).

(** From [st] to [st']: the controllers plugged are those added, a refused one is
    removed, and nothing is freed. *)
Definition used (st st' : impl) (t : list event) : Prop :=
  _driver_handler st' = _driver_handler st /\ _gamepads st' = _gamepads st ++ plugged t /\
  removed t = refused t /\ freed t = [] /\ bus_allocated t = [] /\ bus_freed t = [].

Lemma used_refl st st' t :
  _driver_handler st' = _driver_handler st -> _gamepads st' = _gamepads st ->
  plugged t = [] -> removed t = refused t -> freed t = [] -> bus_allocated t = [] -> bus_freed t = [] ->
  used st st' t.
Proof. intros Hd Hg Hp. unfold used. by rewrite Hd, Hg, Hp, app_nil_r. Qed.
Lemma used_trans st1 st2 st3 t u : used st1 st2 t -> used st2 st3 u -> used st1 st3 (t ++ u).
Proof.
  unfold used. intros (-> & Hg & Hr & Hf & Ha & Hb) (-> & -> & Hr' & Hf' & Ha' & Hb'). observe.
  by rewrite Hg, Hr, Hr', Hf, Hf', Ha, Ha', Hb, Hb', (assoc_L app).
Qed.

Lemma gsl_at_in {A} (l : list A) i :
  0 <= i < Z.of_nat (length l) -> exists a, gsl_at l i = Ret a.
Proof.
  intros Hi. unfold gsl_at. destruct (lookup_lt_is_Some_2 l (Z.to_nat i)) as [a ->]; [lia|by exists a].
Qed.
Lemma state_overruns (junk : vec u8 12) x : copy_nonoverlapping (state_bytes x) junk = Panic UB_OVERWRITE.
Proof. unfold copy_nonoverlapping. by rewrite length_vec_to_list. Qed.

(** One call: an answer, or the overrun of a report that is sent. *)
Definition call_outcome (st : impl) (o : op) (r : res (answer * vigem_client)) (t : list event) : Prop :=
  match r with
  | Ret (a, c) => exists st', c = mkClient (Some st') /\ used st st' t /\
      answer_ok (has_bus st) (number st) o a (number st')
  | Panic why => why = UB_OVERWRITE /\ t = [] /\ exists junk i x, o = SendXbox360 junk i x /\ i < number st
  | NoFuel => False
  end.

Lemma reset_wp st (e : Env) :
  wp (impl_reset_driver st) (fun r _ t => exists st', r = Ret (has_bus st, st') /\ used st st' t /\
    _gamepads st' = _gamepads st /\ plugged t = [] /\ refused t = []) e.
Proof.
  unfold impl_reset_driver, has_bus. destruct (_driver_handler st) as [d|] eqn:Ed.
  - apply wp_bind, wp_obs. intros [] e1 _. apply wp_ret. exists st. split_and!; try done.
    by apply used_refl.
  - apply wp_ret. eexists. split_and!; [done|by apply used_refl|done..].
Qed.

Lemma add_wp ty st (e : Env) :
  wp (impl_add_gamepad_controller ty st) (fun r _ t => exists n st', r = Ret (n, st') /\ used st st' t /\
    answer_ok (has_bus st) (number st) (AddGamepad ty) (AInt n) (number st')) e.
Proof.
  unfold impl_add_gamepad_controller, has_bus. destruct (_driver_handler st) as [d|] eqn:Ed.
  2:{ apply wp_ret. do 2 eexists. split_and!; [done|by apply used_refl|apply ok_not_added]. }
  apply wp_bind, wp_obs. intros [h|] e1 _.
  2:{ apply wp_ret. do 2 eexists. split_and!; [done|by apply used_refl|apply ok_not_added]. }
  apply wp_bind, wp_obs. intros r e2 _. destruct (VIGEM_SUCCESS r) eqn:Er; simpl.
  - apply wp_ret. do 2 eexists. split_and!; [done| |].
    + unfold used, plugged, refused, removed, freed, bus_allocated, bus_freed. simpl. by rewrite Er.
    + unfold number. simpl. rewrite length_app, Nat2Z.inj_add. simpl.
      rewrite Z.add_simpl_r. by apply ok_added.
  - apply wp_bind, wp_obs. intros [] e3 _. apply wp_ret. do 2 eexists. split_and!; [done| |apply ok_not_added].
    apply used_refl; try done; unfold plugged, refused, removed; simpl; by rewrite Er.
Qed.

Lemma perform_wp o st (e : Env) :
  wp (perform o (mkClient (Some st))) (fun r _ t => call_outcome st o r t) e.
Proof.
  destruct o as [|ty|junk i x|i|]; simpl; unfold answered.
  - apply wp_bind, wp_bind. eapply wp_mono; [|apply reset_wp]. intros r e1 t (st' & -> & Hu & Hg & _).
    apply wp_ret, wp_ret. rewrite !app_nil_r. exists st'. split_and!; [done..|].
    unfold number. rewrite Hg. apply ok_reset.
  - apply wp_bind, wp_bind. eapply wp_mono; [|apply add_wp]. intros r e1 t (n & st' & -> & Hu & Ha).
    apply wp_ret, wp_ret. rewrite !app_nil_r. by exists st'.
  - unfold send_xbox360_input, through, impl_send_xbox360_input. simpl.
    destruct (i <? Z.of_nat (length (_gamepads st))) eqn:Ei.
    + apply wp_bind, wp_bind, wp_bind, wp_lift. rewrite state_overruns. split_and!; [done..|].
      exists junk, i, x. split; [done|]. unfold number. lia.
    + apply wp_bind, wp_bind, wp_ret, wp_ret, wp_ret. eexists. split_and!; [done|by apply used_refl|].
      apply ok_no_such. unfold number. simpl. lia.
  - unfold clear_gamepad_state, through, impl_clear_gamepad_state. simpl.
    pose proof (wrap_u_range 32 i ltac:(lia)) as Hr.
    apply wp_bind, wp_bind, wp_bind. destruct (_ <? _) eqn:Ei.
    + destruct (gsl_at_in (_gamepads st) (wrap_u 32 i)) as [h Hh]; [lia|]. unfold update.
      apply wp_bind, wp_lift. rewrite Hh. apply wp_obs. intros [] e1 _. apply wp_ret, wp_ret, wp_ret.
      eexists. split_and!; [done|by apply used_refl|apply ok_clear].
    + apply wp_ret, wp_ret, wp_ret, wp_ret. eexists. split_and!; [done|by apply used_refl|apply ok_clear].
  - apply wp_ret. exists st. split_and!; [done|by apply used_refl|apply ok_number].
Qed.

Lemma perform_all_wp ops st (e : Env) :
  wp (perform_all ops (mkClient (Some st))) (fun r _ t =>
    match r with
    | Ret (l, c) => exists st', c = mkClient (Some st') /\ used st st' t /\
        answers_ok (has_bus st) (number st) ops l (number st')
    | Panic why => why = UB_OVERWRITE /\ exists st' junk i x, used st st' t /\
        SendXbox360 junk i x ∈ ops /\ i < number st'
    | NoFuel => False
    end) e.
Proof.
  revert st e. induction ops as [|o ops IH]; intros st e.
  { apply wp_ret. exists st. split_and!; [done|by apply used_refl|constructor]. }
  cbn [perform_all]. apply wp_bind. eapply wp_mono; [|apply perform_wp].
  intros [[a c]|why|] e1 t; [| |done].
  - intros (st1 & -> & Hu & Ha). apply wp_bind. eapply wp_mono; [|apply IH].
    assert (has_bus st1 = has_bus st) as Hb by (unfold has_bus; by rewrite (proj1 Hu)).
    intros [[l c]|why|] e2 u; [| |done].
    + intros (st2 & -> & Hu2 & Hl). apply wp_ret. rewrite app_nil_r. exists st2.
      split_and!; [done|by eapply used_trans|]. rewrite Hb in Hl. by eapply ok_cons.
    + intros (-> & st2 & junk & i & x & Hu2 & Hin & Hi). split; [done|]. exists st2, junk, i, x.
      split_and!; [by eapply used_trans|by right|done].
  - intros (-> & -> & junk & i & x & -> & Hi). split; [done|]. exists st, junk, i, x.
    split_and!; [by apply used_refl|by left|done].
Qed.

Lemma release_all_wp d ts (e : Env) :
  wp (release_all d ts) (fun r _ t => r = Ret tt /\ removed t = ts /\ freed t = ts /\
    plugged t = [] /\ refused t = [] /\ bus_allocated t = [] /\ bus_freed t = []) e.
Proof.
  revert e. induction ts as [|h ts IH]; intros e; [by apply wp_ret|].
  cbn [release_all]. apply wp_bind, wp_obs. intros [] e1 _. apply wp_bind, wp_obs. intros [] e2 _.
  eapply wp_mono; [|apply IH]. intros r e3 t (-> & Hr & Hf & Hp & Hq & Ha & Hb). observe.
  by rewrite Hr, Hf, Hp, Hq, Ha, Hb.
Qed.

Lemma drop_wp st (e : Env) :
  wp (drop_client (mkClient (Some st))) (fun r _ t => r = Ret tt /\ removed t = _gamepads st /\
    freed t = _gamepads st /\ plugged t = [] /\ refused t = [] /\ bus_allocated t = [] /\
    bus_freed t = option_list (_driver_handler st)) e.
Proof.
  unfold drop_client, impl_drop. simpl. apply wp_bind. eapply wp_mono; [|apply reset_wp].
  intros r e1 t (st' & -> & (Hd & _ & Hr & Hf & Ha & Hb) & Hg & Hp & Hq). apply wp_bind.
  eapply wp_mono; [|apply release_all_wp]. intros r e2 u (-> & Hr2 & Hf2 & Hp2 & Hq2 & Ha2 & Hb2).
  rewrite Hd, Hg in *. rewrite Hq in Hr. destruct (_driver_handler st) as [d|].
  - apply wp_obs. intros [] e3 _. observe. rewrite Hr, Hf, Hp, Hq, Ha, Hb, Hr2, Hf2, Hp2, Hq2, Ha2, Hb2.
    by rewrite !app_nil_l, !app_nil_r.
  - apply wp_ret. observe. rewrite Hr, Hf, Hp, Hq, Ha, Hb, Hr2, Hf2, Hp2, Hq2, Ha2, Hb2.
    by rewrite !app_nil_l, !app_nil_r.
Qed.

Lemma new_client_wp (e : Env) :
  wp new (fun r _ t => exists st, r = Ret (mkClient (Some st)) /\ _gamepads st = [] /\
    bus_allocated t = option_list (_driver_handler st) /\ plugged t = [] /\ refused t = [] /\
    removed t = [] /\ freed t = [] /\ bus_freed t = []) e.
Proof.
  unfold new, impl_new. apply wp_bind, wp_bind, wp_obs. intros [d|] e1 _.
  - apply wp_bind, wp_obs. intros r e2 _. apply wp_ret, wp_ret. by eexists.
  - apply wp_ret, wp_ret. by eexists.
Qed.

(** C30: a client of the gamepads, from its making to its end, whatever it is asked
    to do: every controller that was plugged in is removed and freed exactly once,
    by the end of the client; the one that was refused is removed at once and
    never freed; the bus is freed exactly when there was one. Controllers are
    numbered from 0 in the order they were plugged, clearing one always answers
    that it failed, and a report is never sent: with the index of a controller it
    writes past the end of the state on the stack, before anything is freed. *)
Theorem gamepads_life ops (e : Env) :
  wp (life ops) (fun r _ t =>
    match r with
    | Ret l => freed t = plugged t /\ removed t = refused t ++ plugged t /\
        bus_freed t = bus_allocated t /\
        answers_ok (bool_decide (bus_allocated t <> [])) 0 ops l (Z.of_nat (length (plugged t)))
    | Panic why => why = UB_OVERWRITE /\ freed t = [] /\ bus_freed t = [] /\
        exists junk i x, SendXbox360 junk i x ∈ ops /\ i < Z.of_nat (length (plugged t))
    | NoFuel => False
    end) e.
Proof.
  unfold life. apply wp_bind. eapply wp_mono; [|apply new_client_wp].
  intros r e1 t (st & -> & Hg & Ha & Hp & Hq & Hr & Hf & Hb). apply wp_bind.
  eapply wp_mono; [|apply perform_all_wp]. intros [[l c]|why|] e2 u; [| |done].
  - intros (st' & -> & (Hd' & Hg' & Hr' & Hf' & Ha' & Hb') & Hl). apply wp_bind.
    eapply wp_mono; [|apply drop_wp]. intros r e3 v (-> & Hr2 & Hf2 & Hp2 & Hq2 & Ha2 & Hb2). apply wp_ret.
    rewrite Hd' in Hb2. unfold number in Hl. rewrite Hg', Hg in *. observe.
    rewrite Hr, Hf, Hp, Hq, Ha, Hb, Hr', Hf', Ha', Hb', Hr2, Hf2, Hp2, Hq2, Ha2, Hb2.
    rewrite ?app_nil_l, ?app_nil_r in *. split_and!; [done..|].
    unfold has_bus in Hl. destruct (_driver_handler st); exact Hl.
  - intros (-> & st' & junk & i & x & (Hd' & Hg' & Hr' & Hf' & Ha' & Hb') & Hin & Hi).
    unfold number in Hi. rewrite Hg', Hg in Hi. observe. rewrite Hf, Hf', Hb, Hb', Hp.
    split_and!; [done..|]. by exists junk, i, x.
Qed.
End histories.

(** ** A bus with two free slots *)
Module Runs.
Record bus := mkBus { taken : Z; next : positive }.
#[local] Instance bus_vigem : Vigem bus := {|
  vigem_alloc := fun b => (Some (next b), mkBus (taken b) (Pos.succ (next b)));
  vigem_connect := fun _ b => (VIGEM_ERROR_NONE, b);
  vigem_disconnect := fun _ b => mkBus 0 (next b);
  vigem_free := fun _ b => b;
  vigem_target_alloc := fun _ b => (Some (next b), mkBus (taken b) (Pos.succ (next b)));
  vigem_target_add := fun _ _ b =>
    if taken b <? 2 then (VIGEM_ERROR_NONE, mkBus (taken b + 1) (next b)) else (0xE0000002, b);
  vigem_target_remove := fun _ _ b => b;
  vigem_target_free := fun _ b => b;
  vigem_target_x360_update := fun _ _ _ b => b;
|}.

(** The third controller is refused, and its target (4) is never freed. *)
Example three_controllers :
  let '(r, _, t) := life [AddGamepad XBox360; AddGamepad PS4; AddGamepad XBox360; Number; ClearState 1] (mkBus 0 1) in
  r = Ret [AInt 0; AInt 1; AInt (-1); AInt 2; ABool false] /\
  plugged t = [2; 3]%positive /\ refused t = [4]%positive /\
  removed t = [4; 2; 3]%positive /\ freed t = [2; 3]%positive /\ bus_freed t = [1]%positive.
Proof. vm_compute. done. Qed.

Definition held : XINPUT_STATE_SHARED := mkState 0x0102 (mkGamepad 0x1000 255 0 (-1) 0 32767 (-32768)).
Example report_overruns :
  fst (fst (life [AddGamepad XBox360; SendXbox360 (Vector.const Byte.x00 12) 0 held] (mkBus 0 1))) =
    Panic UB_OVERWRITE.
Proof. reflexivity. Qed.

(** Were the report cut to its 12 bytes, the packet number would be its buttons
    and triggers, and the buttons its left stick. *)
Example report_shifted :
  take 12 (state_bytes held) = le_bytes 4 (dwPacketNumber held) ++ take 8 (gamepad_bytes (gamepad held)).
Proof. reflexivity. Qed.

Example refused_text : "code: " +:+ hex 0xE0000002 = "code: -1ffffffe".
Proof. reflexivity. Qed.
End Runs.
