(* ===== verification/Render.v ===== *)
(** The graphics device ([wolf/src/render/graphics_device.rs]): its creation,
    with a window or off screen, and the configuration of its surface. *)
From S2P Require Import Prelude Common.
Local Open Scope Z_scope.
#[local] Set Default Goal Selector "!".

(** ** The graphics library

    Adapters, devices and surfaces are its own; a request may find no adapter
    and a device may be refused. [create_surface] takes the window's handle. *)
Class Wgpu (Env : Type) := {
  RawWindowHandle : Type;
  Surface : Type;
  Adapter : Type;
  AdapterInfo : Type;
  get_info : Adapter -> AdapterInfo;
  Device : Type;
  Queue : Type;
  TextureFormat : Type;
  Rgba32Sint : TextureFormat;
  RequestDeviceError : Type;
  create_surface : RawWindowHandle -> Env -> Surface * Env;
  request_adapter : option Surface -> Env -> option Adapter * Env;
  request_device : Adapter -> Env -> result (Device * Queue) RequestDeviceError * Env;
  get_supported_formats : Surface -> Adapter -> list TextureFormat;
  surface_configure : Surface -> Device -> Z -> Z -> Env -> Env;
}.

Record WindowInfo {Env : Type} `{!Wgpu Env} := mkWindowInfo { handle : RawWindowHandle; width : Z; height : Z }.

(** [wgpu::SurfaceConfiguration]: the usage is always [RENDER_ATTACHMENT] and the
    present mode [Fifo]. *)
Record SurfaceConfiguration {Env : Type} `{!Wgpu Env} := mkConfig { format : TextureFormat; c_width : Z; c_height : Z }.
Arguments WindowInfo Env {_}.
Arguments SurfaceConfiguration Env {_}.

Record GraphicsDevice {Env : Type} `{!Wgpu Env} := mkDevice {
  adaptor : Adapter;
  config : SurfaceConfiguration Env;
  device : Device;
  queue : Queue;
  size : Z * Z;
  surface : option Surface;
}.
Arguments GraphicsDevice Env {_}.

Arguments mkWindowInfo {Env _} _ _ _.
Arguments mkConfig {Env _} _ _ _.
Arguments mkDevice {Env _} _ _ _ _ _ _.

(** A surface is configured. *)
Inductive event {Env : Type} `{!Wgpu Env} := Configure (c : SurfaceConfiguration Env).
Arguments event Env {_}.
Arguments Configure {Env _} _.

Section device.
Context `{!Errors} {Env : Type} `{!Wgpu Env}.
Abbreviation IO := (M Env (event Env)).

(** [surface.configure(&device, &config)]. *)
Definition configure (s : Surface) (d : Device) (c : SurfaceConfiguration Env) : IO unit :=
  obs (fun e => (tt, surface_configure s d (c_width c) (c_height c) e)) (fun _ => Configure c).

(** The [match adapter_res] of [new]. *)
Definition create_device (size : Z * Z) (surface : option Surface) (adapter_res : option Adapter)
    : IO (result (GraphicsDevice Env) anyhow) :=
  match adapter_res with
  | Some adapter =>
    r ← act (request_device adapter);
    match r with
    | Err _ => panic "called `Result::unwrap()` on an `Err` value"
    | Ok (device, queue) =>
      match surface with
      | Some g_surface =>
        match get_supported_formats g_surface adapter with
        | [] => mret (Err (anyhow_msg "get_supported_formats returns nothing"))
        | f :: _ =>
          let config := mkConfig f (fst size) (snd size) in
          _ ← configure g_surface device config;
          mret (Ok (mkDevice adapter config device queue size (Some g_surface)))
        end
      | None =>
        let config := mkConfig Rgba32Sint (fst size) (snd size) in
        mret (Ok (mkDevice adapter config device queue size None))
      end
    end
  | None => mret (Err (anyhow_msg "couldn't create graphics device adaptor"))
  end.

Definition new (p_window_info : option (WindowInfo Env)) : IO (result (GraphicsDevice Env) anyhow) :=
  match p_window_info with
  | Some win_info =>
    s ← act (create_surface (handle win_info));
    adapter_res ← act (request_adapter (Some s));
    create_device (width win_info, height win_info) (Some s) adapter_res
  | None =>
    adapter_res ← act (request_adapter None);
    create_device (800, 600) None adapter_res
  end.

Definition resize (p_size : Z * Z) (self : GraphicsDevice Env) : IO (GraphicsDevice Env) :=
  if (fst p_size >? 0) && (snd p_size >? 0) then
    let config := mkConfig (format (config self)) (fst p_size) (snd p_size) in
    let self := mkDevice (adaptor self) config (device self) (queue self) p_size (surface self) in
    _ ← (match surface self with
         | Some surf => configure surf (device self) config
         | None => mret tt
         end);
    mret self
  else mret self.

Definition get_adapter_info (self : GraphicsDevice Env) : AdapterInfo := get_info (adaptor self).
Definition get_size (self : GraphicsDevice Env) : Z * Z := size self.

(** ** The surface is configured for the device's size *)

Definition device_wf (g : GraphicsDevice Env) : Prop :=
  c_width (config g) = fst (size g) /\ c_height (config g) = snd (size g).

(** A sequence of resizes. *)
Fixpoint resizes (l : list (Z * Z)) (g : GraphicsDevice Env) : IO (GraphicsDevice Env) :=
  match l with [] => mret g | s :: l => g ← resize s g; resizes l g end.

(** The size the last valid resize asked for. *)
Definition last_valid (s0 : Z * Z) (l : list (Z * Z)) : Z * Z :=
  List.fold_left (fun s p => if (fst p >? 0) && (snd p >? 0) then p else s) l s0.

Lemma resize_wp p g (e : Env) (Q : res (GraphicsDevice Env) -> Env -> list (event Env) -> Prop) :
  device_wf g ->
  (forall g' e' t, device_wf g' -> size g' = last_valid (size g) [p] ->
     format (config g') = format (config g) -> surface g' = surface g ->
     (surface g = None -> t = []) ->
     (is_Some (surface g) -> t = [] /\ config g' = config g \/ t = [Configure (config g')]) ->
     Q (Ret g') e' t) ->
  wp (resize p g) Q e.
Proof.
  intros Hg HQ. unfold resize, last_valid in *. simpl in *.
  destruct (_ && _); [|apply wp_ret, HQ; auto].
  apply wp_bind. destruct (surface g) eqn:Hs; simpl.
  - apply wp_obs. intros [] e' _. apply wp_ret. apply HQ; simpl; rewrite ?Hs; auto; done.
  - apply wp_ret, wp_ret. apply HQ; simpl; rewrite ?Hs; auto; (done || by intros [? ?]).
Qed.

(** The surface of [g], when it has one, was last given the configuration of
    [g] in [t]; without one nothing was configured. *)
Definition applied (g : GraphicsDevice Env) (t : list (event Env)) : Prop :=
  match surface g with Some _ => last t = Some (Configure (config g)) | None => t = [] end.

(** The outcome of a creation. *)
Definition created (size0 : Z * Z) (windowed : bool) (r : res (result (GraphicsDevice Env) anyhow))
    (t : list (event Env)) : Prop :=
  match r with
  | Ret (Ok g) => device_wf g /\ size g = size0 /\ bool_decide (is_Some (surface g)) = windowed /\ applied g t
  | Ret (Err _) => True
  | Panic _ => exists a e1 e2 x, request_device a e1 = (Err x, e2)
  | NoFuel => False
  end.

Lemma create_device_wp sz s a (e : Env) :
  wp (create_device sz s a) (fun r _ t => created sz (bool_decide (is_Some s)) r t) e.
Proof.
  unfold create_device. destruct a as [adapter|]; [|by apply wp_ret].
  apply wp_bind, wp_act. intros [[d q]|x] e2 E; [|apply wp_panic; unfold created; eauto].
  destruct s as [s|]; [|by apply wp_ret].
  destruct (get_supported_formats s adapter); [by apply wp_ret|].
  apply wp_bind, wp_obs. intros [] e3 _. by apply wp_ret.
Qed.

Definition window_size (w : option (WindowInfo Env)) : Z * Z :=
  match w with Some w => (width w, height w) | None => (800, 600) end.

Lemma new_wp w (e : Env) :
  wp (new w) (fun r _ t => created (window_size w) (bool_decide (is_Some w)) r t) e.
Proof.
  unfold new. destruct w as [w|].
  - apply wp_bind, wp_act. intros s e1 _. apply wp_bind, wp_act. intros a e2 _.
    eapply wp_mono; [|apply create_device_wp]. done.
  - apply wp_bind, wp_act. intros a e1 _. eapply wp_mono; [|apply create_device_wp]. done.
Qed.

Lemma resizes_wp l g (e : Env) t0 :
  device_wf g -> applied g t0 ->
  wp (resizes l g) (fun r _ t => exists g', r = Ret g' /\ device_wf g' /\
    size g' = last_valid (size g) l /\ surface g' = surface g /\ applied g' (t0 ++ t)) e.
Proof.
  revert g e t0. induction l as [|p l IH]; intros g e t0 Hg Ht.
  - apply wp_ret. exists g. by rewrite app_nil_r.
  - simpl. apply wp_bind, resize_wp; [done|]. intros g' e' t Hg' Hsz _ Hs Hno Hyes.
    eapply wp_mono; [|apply (IH g' e' (t0 ++ t) Hg')].
    + intros r e2 t2 (g2 & -> & Hg2 & Hsz2 & Hs2 & Hlast). exists g2. rewrite app_assoc.
      split_and!; try done; [|congruence]. rewrite Hsz2, Hsz. done.
    + unfold applied in *. rewrite Hs. destruct (surface g) eqn:E.
      * destruct Hyes as [[-> ->]| ->]; [by eexists|by rewrite app_nil_r|by rewrite last_snoc].
      * by rewrite Hno, Ht by done.
Qed.

(** C33: the surface follows the size. A device that is created has the size of
    its window (800 by 600 off screen), a configuration of that size and, with a
    window, a surface it was applied to; after any sequence of resizes the device
    has the size of the last one with both dimensions positive, and the
    configuration last applied to the surface is the device's. Only a refused
    device makes the creation panic. *)
Theorem surface_follows_size w l (e : Env) :
  wp (g ←? new w; g ← resizes l g; mret (Ok g))
     (fun r _ t => created (last_valid (window_size w) l) (bool_decide (is_Some w)) r t) e.
Proof.
  apply wp_try. eapply wp_mono; [|apply new_wp].
  intros [[g|x]|why|] e1 t; try done. intros (Hg & Hsz & Hs & Ht). unfold id.
  apply wp_bind. eapply wp_mono; [|by apply (resizes_wp l g e1 t)].
  intros r e2 t2 (g' & -> & Hg' & Hsz' & Hs' & Ht'). apply wp_ret.
  rewrite app_nil_r. simpl. rewrite Hs', Hsz', Hsz. done.
Qed.
End device.

(** ** A run: a window of a library with one format, resized to nothing and back *)
Module Runs.
Import Concrete.
#[export] Instance screen : Wgpu (list (Z * Z)) := {|
  RawWindowHandle := unit; Surface := unit; Adapter := unit; AdapterInfo := string; get_info := fun _ => "software"%string; Device := unit; Queue := unit;
  TextureFormat := string; Rgba32Sint := "Rgba32Sint"%string; RequestDeviceError := string;
  create_surface := fun h e => (h, e);
  request_adapter := fun _ e => (Some tt, e);
  request_device := fun _ e => (Ok (tt, tt), e);
  get_supported_formats := fun _ _ => ["Bgra8UnormSrgb"%string];
  surface_configure := fun _ _ w h e => e ++ [(w, h)];
|}.
Example resized_run :
  snd (fst ((g ←? new (Some (mkWindowInfo tt 640 480)); g ← resizes [(0, 480); (800, 600)] g; mret (Ok g)) []))
    = [(640, 480); (800, 600)].
Proof. reflexivity. Qed.
End Runs.
