(* ===== verification/Demo.v ===== *)
(** The demo application ([wolf-demo/src/main.rs]): a window, a graphics device
    and a game clock driven by the event loop of the window library; its scene
    starts the scripted test of [Signals]. *)
From S2P Require Import Prelude F64 Os Signals GameTime Common Render.
Local Open Scope Z_scope.
#[local] Set Default Goal Selector "!".

(** ** What the window system sends *)
Inductive VirtualKeyCode := Escape | OtherKey.
Inductive ElementState := Pressed | Released.
Inductive WindowEvent :=
| CloseRequested
| KeyboardInput (state : ElementState) (virtual_keycode : option VirtualKeyCode)
| OtherWindowEvent.
Inductive Event (WindowId : Type) :=
| EventWindow (e : WindowEvent) (window_id : WindowId)
| RedrawRequested (window_id : WindowId)
| RedrawEventsCleared
| OtherEvent.
Arguments EventWindow {WindowId} _ _.
Arguments RedrawRequested {WindowId} _.
Arguments RedrawEventsCleared {WindowId}.
Arguments OtherEvent {WindowId}.

(** [wgpu::SurfaceError]. *)
Inductive SurfaceError := Timeout | Outdated | Lost | OutOfMemory.
Definition surface_error_debug (e : SurfaceError) : string :=
  match e with
  | Timeout => "Timeout" | Outdated => "Outdated" | Lost => "Lost" | OutOfMemory => "OutOfMemory"
  end.

(** The window library: building a window, its size and handle, the events it
    delivers until it has stopped (it is told whether [ControlFlow::Exit] was
    set, which is sticky), the request of a redraw. And what drawing a frame
    needs of the graphics library: the surface's texture, the submission of a
    pass that clears it, its presentation. *)
Class Winit `{!Errors} (Env : Type) `{!Wgpu Env} := {
  WindowId : Type;
  window_id_eq :: EqDecision WindowId;
  OsError : Type;
  os_error_debug : OsError -> string;
  build_window : Env -> result WindowId OsError * Env;
  inner_size : WindowId -> Env -> Z * Z;
  raw_window_handle : WindowId -> RawWindowHandle;
  next_event : bool -> Env -> option (Event WindowId) * Env;
  request_redraw : WindowId -> Env -> Env;
  SurfaceTexture : Type;
  get_current_texture : Surface -> Env -> result SurfaceTexture SurfaceError * Env;
  submit_clear : Device -> Queue -> SurfaceTexture -> Env -> Env;
  present : SurfaceTexture -> Env -> Env;
}.

(** The event loop runs until it is told to exit. *)
Class WinitLaws `{!Errors} (Env : Type) `{!Wgpu Env} `{!Winit Env} : Prop := {
  runs_until_exit e : fst (next_event false e) <> None;
}.

(** ** Observations *)
Inductive event `{!Errors} {Env : Type} `{!Wgpu Env} `{!Winit Env} `{!Engine Env} :=
| Got (e : Event WindowId)
| Ticked
| OnDevice (e : Render.event Env)
| Texture (r : result unit SurfaceError)
| Submitted
| Presented
| RedrawAsked
| Tested (e : test_event Env)
| LogTotal (secs : f64)
| Log (msg : string).
Arguments event {_} Env {_ _ _}.

Section demo.
Context `{!Errors} {Env : Type} `{!Clock Env} `{!Wgpu Env} `{!Winit Env}.
Context `{!Engine Env} `{!Signals2 Env slot} `{!Runtimes Env} (oc : overflow).
Abbreviation IO := (M Env (event Env)).

(** ** Scenes

    A scene is called with the device and the clock by mutable reference. *)
Record IScene := mkScene {
  scene_load : GraphicsDevice Env -> IO (GraphicsDevice Env * result unit anyhow);
  scene_render : GraphicsDevice Env -> GameTime ->
    IO (GraphicsDevice Env * GameTime * result unit SurfaceError);
}.

(** The demo's scene. *)
Definition wscene_load (g : GraphicsDevice Env) : IO (GraphicsDevice Env * result unit anyhow) :=
  _ ← emit (Log "scene is going to loaded");
  _ ← spawn_local (retrace Tested test);
  _ ← emit (Log "scene just loaded");
  mret (g, Ok tt).

Definition wscene_render (g : GraphicsDevice Env) (gt : GameTime)
    : IO (GraphicsDevice Env * GameTime * result unit SurfaceError) :=
  _ ← emit (LogTotal (get_total_elapsed_seconds gt));
  output_res ←
    (match surface g with
     | None =>
       _ ← emit (Log "surface is None, make sure use render_to_texture function for offscreen rendering mode");
       mret (Err Outdated)
     | Some s =>
       obs (get_current_texture s)
         (fun r => Texture (match r with Ok _ => Ok tt | Err e => Err e end))
     end);
  match output_res with
  | Err e => mret (g, gt, Err e)
  | Ok output =>
    _ ← obs (fun e => (tt, submit_clear (device g) (queue g) output e)) (fun _ => Submitted);
    _ ← obs (fun e => (tt, present output e)) (fun _ => Presented);
    mret (g, gt, Ok tt)
  end.

Definition WScene : IScene := mkScene wscene_load wscene_render.

(** ** The event loop *)

Record app := mkApp { g_device : GraphicsDevice Env; game_time : GameTime; exit : bool }.

Definition redraw (fuel : nat) (p_scene : IScene) (st : app) : IO app :=
  gt ← retrace (fun _ => Ticked) (tick oc fuel (game_time st));
  '(g, gt, render_res) ← scene_render p_scene (g_device st) gt;
  match render_res with
  | Ok _ => mret (mkApp g gt (exit st))
  | Err Lost => g ← retrace OnDevice (Render.resize (get_size g) g); mret (mkApp g gt (exit st))
  | Err OutOfMemory => mret (mkApp g gt true)
  | Err e =>
    _ ← emit (Log ("render failed because of " +:+ surface_error_debug e));
    mret (mkApp g gt (exit st))
  end.

(** The closure given to [event_loop.run]. *)
Definition on_event (fuel : nat) (p_scene : IScene) (window : WindowId) (ev : Event WindowId) (st : app)
    : IO app :=
  match ev with
  | EventWindow event window_id =>
    if decide (window_id = window) then
      match event with
      | CloseRequested | KeyboardInput Pressed (Some Escape) =>
        mret (mkApp (g_device st) (game_time st) true)
      | _ => mret st
      end
    else mret st
  | RedrawRequested window_id =>
    if decide (window_id = window) then redraw fuel p_scene st else mret st
  | RedrawEventsCleared => _ ← obs (fun e => (tt, request_redraw window e)) (fun _ => RedrawAsked); mret st
  | OtherEvent => mret st
  end.

(** One delivery of the event loop. *)
Definition deliver (fuel : nat) (p_scene : IScene) (window : WindowId) (st : app) : IO (flow app app) :=
  ev ← act (next_event (exit st));
  match ev with
  | Some ev => _ ← emit (Got ev); st ← on_event fuel p_scene window ev st; mret (Continue st)
  | None => mret (Break st)
  end.

Definition event_loop (fuel : nat) (p_scene : IScene) (window : WindowId) (st : app) : IO app :=
  loop fuel (deliver fuel p_scene window) st.

Definition run (fuel : nat) (p_scene : IScene) : IO (result app anyhow) :=
  window ←?[fun e => anyhow_msg ("could not create window " +:+ os_error_debug e)] act build_window;
  size ← act (fun e => (inner_size window e, e));
  g_device ←? retrace OnDevice
    (Render.new (Some (mkWindowInfo (raw_window_handle window) (fst size) (snd size))));
  game_time ← retrace (fun _ => Ticked) GameTime.new;
  '(g_device, load_res) ← scene_load p_scene g_device;
  _ ← (match load_res with
       | Ok _ => mret tt
       | Err e => emit (Log ("could not load scene because " +:+ anyhow_debug e
                             +:+ " trace info: WSceneManager::run"))
       end);
  st ← event_loop fuel p_scene window (mkApp g_device game_time false);
  mret (Ok st).

Definition main (fuel : nat) : IO (result app anyhow) :=
  _ ← emit (Log "starting wolf-demo in native mode");
  run fuel WScene.
End demo.

(** ** What the demo is *)

Section proofs.
Context `{!Errors} {Env : Type} `{!Clock Env} `{!Wgpu Env} `{!Winit Env}.
Context `{!Engine Env} `{!Signals2 Env slot} `{!Runtimes Env}.

(** The events that close the window, and the redraws of it. *)
Definition leaves (win : WindowId) (ev : Event WindowId) : bool :=
  match ev with
  | EventWindow CloseRequested w | EventWindow (KeyboardInput Pressed (Some Escape)) w => bool_decide (w = win)
  | _ => false
  end.
Definition redraws (win : WindowId) (ev : Event WindowId) : bool :=
  match ev with RedrawRequested w => bool_decide (w = win) | _ => false end.

(** What the surface was told when it was lost: the configuration it had,
    unless the window has no area. *)
Definition reconfigured (g : GraphicsDevice Env) : list (event Env) :=
  if (fst (size g) >? 0) && (snd (size g) >? 0) then [OnDevice (Configure (config g))] else [].

(** The reaction to an event, and whether it asks to exit. *)
Inductive reaction (win : WindowId) (g : GraphicsDevice Env) : Event WindowId -> list (event Env) -> bool -> Prop :=
| react_leave ev : leaves win ev = true -> reaction win g ev [] true
| react_cleared : reaction win g RedrawEventsCleared [RedrawAsked] false
| react_drawn secs :
    reaction win g (RedrawRequested win) [Ticked; LogTotal secs; Texture (Ok tt); Submitted; Presented] false
| react_lost secs :
    reaction win g (RedrawRequested win)
      ([Ticked; LogTotal secs; Texture (Err Lost)] ++ reconfigured g) false
| react_out_of_memory secs :
    reaction win g (RedrawRequested win) [Ticked; LogTotal secs; Texture (Err OutOfMemory)] true
| react_failed secs x :
    x = Timeout \/ x = Outdated ->
    reaction win g (RedrawRequested win)
      [Ticked; LogTotal secs; Texture (Err x); Log ("render failed because of " +:+ surface_error_debug x)] false
| react_ignored ev :
    leaves win ev = false -> redraws win ev = false -> ev <> RedrawEventsCleared ->
    reaction win g ev [] false.

(** A session, from a frame count and whether an exit was asked: it stops only
    once it was, and its panics are those of the frame counters. *)
Inductive session (win : WindowId) (g : GraphicsDevice Env) :
  Z -> bool -> list (event Env) -> res Z -> Prop :=
| session_open n x : session win g n x [] NoFuel
| session_stopped n : session win g n true [] (Ret n)
| session_overflow n x t why :
    t = [] \/ t = [Ticked] ->
    session win g n x (Got (RedrawRequested win) :: t) (Panic why)
| session_turn n x ev t1 y t2 o :
    reaction win g ev t1 y ->
    session win g (if redraws win ev then n + 1 else n) (x || y) t2 o ->
    session win g n x (Got ev :: t1 ++ t2) o.

(** Resizing a device to its own size reconfigures its surface and changes
    nothing else. *)
Lemma resize_own g (e : Env) (Q : res (GraphicsDevice Env) -> Env -> list (Render.event Env) -> Prop) :
  device_wf g -> is_Some (surface g) ->
  (forall e' t, map OnDevice t = reconfigured g -> Q (Ret g) e' t) ->
  wp (Render.resize (get_size g) g) Q e.
Proof.
  destruct g as [ad [f w h] d q [a b] s]. intros [Hw Hh] [s0 Hs] HQ. simpl in *. subst.
  unfold Render.resize, get_size, reconfigured in *. simpl in *.
  destruct (_ && _); [|by apply wp_ret, HQ].
  apply wp_bind, wp_obs. intros [] e' _. by apply wp_ret, HQ.
Qed.

(** A tick of the demo's clock: one frame; in the release profile it cannot fail. *)
Lemma tick_wp oc fuel gt (e : Env) (Q : res GameTime -> Env -> list (event Env) -> Prop) :
  fixed_time_step gt = false ->
  (forall gt' e', fixed_time_step gt' = false ->
     frame_count gt' = wrap_u 32 (frame_count gt + 1) -> Q (Ret gt') e' [Ticked]) ->
  (forall why e' t, t = [] \/ t = [Ticked] -> oc = Checked -> Q (Panic why) e' t) ->
  wp (retrace (fun _ => Ticked) (tick oc fuel gt)) Q e.
Proof.
  intros Hvar HRet HPanic. apply wp_retrace. unfold tick.
  pose proof (tick_variable_wp oc (fun e => (Ret tt, e)) fuel gt e Hvar ltac:(done)) as Hwp.
  assert (wp (tick_fn oc (fun e => (Ret tt, e)) fuel gt) (fun r _ t =>
    match r with Panic _ => (t = [] \/ t = [OnTick]) /\ oc = Checked | _ => True end) e) as Hp.
  { unfold tick_fn. apply wp_bind, wp_act. intros t e1 _. cbv zeta. cbn [fixed_time_step set_clock].
    rewrite Hvar. apply wp_bind, wp_bind, wp_lift. cbn [frame_count set_clock].
    unfold arith_u at 1. destruct (_ && _); [|destruct oc; [by split; [left|]|]].
    all: apply wp_bind; unfold wp at 1, call_on_tick; apply wp_ret, wp_lift.
    all: unfold track_rate, mbind, res_mbind, res_bind, arith_u.
    all: repeat case_match; simplify_eq; try done; by split; [right|]. }
  revert Hwp Hp. unfold wp. destruct (tick_fn _ _ _ _ e) as [[[gt'|why|] e'] t]; intros [Hnf Hwp] Hp.
  - destruct (Hwp gt' eq_refl) as [-> ->]. set (g1 := count_frame _ _ _ _).
    destruct (track_fields 1 g1) as (_ & _ & _ & _ & Hf & _ & Hs).
    apply HRet; [by rewrite Hs|by rewrite Hf].
  - destruct Hp as [[->| ->] ->]; apply HPanic; simpl; auto.
  - done.
Qed.
(** A redraw of the demo's scene. *)
Lemma redraw_wp oc fuel win st (e : Env)
    (Q : res app -> Env -> list (event Env) -> Prop) :
  device_wf (g_device st) -> is_Some (surface (g_device st)) -> fixed_time_step (game_time st) = false ->
  (forall gt y e' t, reaction win (g_device st) (RedrawRequested win) t y ->
     fixed_time_step gt = false -> frame_count gt = wrap_u 32 (frame_count (game_time st) + 1) ->
     Q (Ret (mkApp (g_device st) gt (exit st || y))) e' t) ->
  (forall why e' t, t = [] \/ t = [Ticked] -> oc = Checked -> Q (Panic why) e' t) ->
  wp (redraw oc fuel WScene st) Q e.
Proof.
  intros Hg Hs Hvar HRet HPanic. unfold redraw. apply wp_bind, tick_wp; [done| |done].
  intros gt e1 Hvar' Hfc. apply wp_bind. simpl. unfold wscene_render.
  apply wp_bind, wp_emit. apply wp_bind. destruct (surface (g_device st)) as [s|] eqn:Es; [|by destruct Hs].
  apply wp_obs. intros [tex|x] e2 _.
  - apply wp_bind, wp_obs. intros [] e3 _. apply wp_bind, wp_obs. intros [] e4 _. apply wp_ret, wp_ret.
    rewrite <-(orb_false_r (exit st)) at 1. apply HRet; [constructor|done|done].
  - apply wp_ret. destruct x.
    + apply wp_bind, wp_emit, wp_ret. rewrite <-(orb_false_r (exit st)) at 1.
      apply HRet; [apply react_failed; by left|done|done].
    + apply wp_bind, wp_emit, wp_ret. rewrite <-(orb_false_r (exit st)) at 1.
      apply HRet; [apply react_failed; by right|done|done].
    + apply wp_bind, wp_retrace, resize_own; [done|by rewrite Es|]. intros e3 t Ht. apply wp_ret.
      rewrite Ht, app_nil_r. rewrite <-(orb_false_r (exit st)) at 1. apply HRet; [|done|done].
      rewrite ?app_nil_r. exact (react_lost _ _ (get_total_elapsed_seconds gt)).
    + apply wp_ret. rewrite <-(orb_true_r (exit st)). apply HRet; [constructor|done|done].
Qed.

(** The reaction of the closure to an event. *)
Lemma on_event_wp oc fuel win ev st (e : Env) (Q : res app -> Env -> list (event Env) -> Prop) :
  device_wf (g_device st) -> is_Some (surface (g_device st)) -> fixed_time_step (game_time st) = false ->
  (forall gt y e' t, reaction win (g_device st) ev t y -> fixed_time_step gt = false ->
     frame_count gt = (if redraws win ev then wrap_u 32 (frame_count (game_time st) + 1)
                       else frame_count (game_time st)) ->
     Q (Ret (mkApp (g_device st) gt (exit st || y))) e' t) ->
  (forall why e' t, ev = RedrawRequested win -> t = [] \/ t = [Ticked] -> oc = Checked -> Q (Panic why) e' t) ->
  wp (on_event oc fuel WScene win ev st) Q e.
Proof.
  intros Hg Hs Hvar HRet HPanic.
  assert (forall e', leaves win ev = false -> redraws win ev = false -> ev <> RedrawEventsCleared ->
            wp (mret st) Q e') as Hidle.
  { intros e' H1 H2 H3. apply wp_ret. specialize (HRet (game_time st) false e' []).
    rewrite orb_false_r, H2 in HRet. destruct st. by apply HRet; [apply react_ignored|..]. }
  assert (leaves win ev = true -> redraws win ev = false ->
            wp (mret (mkApp (g_device st) (game_time st) true)) Q e) as Hleave.
  { intros H1 H2. apply wp_ret. specialize (HRet (game_time st) true e []).
    rewrite orb_true_r, H2 in HRet. by apply HRet; [apply react_leave|..]. }
  destruct ev as [we w|w| |]; unfold on_event.
  - destruct (decide (w = win)) as [->|Hw].
    + destruct we as [|[] [[]|]|]; (by apply Hidle) || (apply Hleave; simpl; by rewrite ?bool_decide_eq_true_2).
    + apply Hidle; [|done|done]. simpl. repeat case_match; try done; by apply bool_decide_eq_false_2.
  - destruct (decide (w = win)) as [->|Hw].
    + apply (redraw_wp oc fuel win); [done..| |by eauto]. intros gt y e' t Hr Hv Hfc.
      apply HRet; [done..|]. simpl. by rewrite bool_decide_eq_true_2.
    + apply Hidle; [done| |done]. by apply bool_decide_eq_false_2.
  - apply wp_bind, wp_obs. intros [] e' _. apply wp_ret.
    specialize (HRet (game_time st) false e' [RedrawAsked]). rewrite orb_false_r in HRet. destruct st.
    by apply HRet; [constructor|..].
  - by apply Hidle.
Qed.

(** How an event loop ends: with the device it started with, the frames of the
    session on the clock, and an exit that was asked for. *)
Definition loop_outcome (oc : overflow) (win : WindowId) (g : GraphicsDevice Env) (n : Z) (x : bool)
    (r : res app) (t : list (event Env)) : Prop :=
  match r with
  | Ret st => exists k, session win g n x t (Ret k) /\
      frame_count (game_time st) = wrap_u 32 k /\ g_device st = g /\ exit st = true
  | Panic why => session win g n x t (Panic why) /\ oc = Checked
  | NoFuel => session win g n x t NoFuel
  end.

Lemma loop_outcome_turn oc win g n x ev t y r t' :
  reaction win g ev t y ->
  loop_outcome oc win g (if redraws win ev then n + 1 else n) (x || y) r t' ->
  loop_outcome oc win g n x r (Got ev :: t ++ t').
Proof.
  intros Hr. destruct r as [st|why|]; simpl.
  - intros (k & Hk & ?). exists k. split; [|done]. by eapply session_turn.
  - intros [Hk ?]. split; [|done]. by eapply session_turn.
  - intros Hk. by eapply session_turn.
Qed.

Lemma deliver_loop_session `{!WinitLaws Env} oc fuel k win st (e : Env) n :
  device_wf (g_device st) -> is_Some (surface (g_device st)) -> fixed_time_step (game_time st) = false ->
  frame_count (game_time st) = wrap_u 32 n ->
  wp (loop k (deliver oc fuel WScene win) st) (fun r _ t => loop_outcome oc win (g_device st) n (exit st) r t) e.
Proof.
  revert st e n. induction k as [|k IH]; intros st e n Hg Hs Hvar Hn; [constructor|].
  rewrite loop_S. apply wp_bind. unfold deliver at 1.
  apply wp_bind, wp_act. intros [ev|] e1 Hev.
  2:{ apply wp_ret, wp_ret. pose proof (runs_until_exit e) as Hrun.
      assert (exit st = true) as Hx by (destruct (exit st); [done|by rewrite Hev in Hrun]).
      exists n. rewrite Hx. split_and!; try done. constructor. }
  apply wp_bind, wp_emit, wp_bind, on_event_wp; [done..| |].
  - intros gt y e2 t Hr Hv Hfc. apply wp_ret.
    eapply wp_mono; [|apply (IH (mkApp _ gt (exit st || y)) e2 (if redraws win ev then n + 1 else n)); try done].
    + intros r e3 t' Ho. rewrite !app_nil_r. by eapply loop_outcome_turn.
    + simpl. rewrite Hfc, Hn. destruct (redraws win ev); [|done]. by rewrite wrap_u_add_l.
  - intros why e2 t -> Ht ->. split; [|done]. by apply session_overflow.
Qed.
(** C29: the demo. Nothing is drawn before the window and its device are there, and
    a failure of either is the result. Then the scene is loaded, which runs the
    scripted test to its end (a sum or the error of the script, a task, one
    greeting of the slot that is still connected), and a session
    of the event loop runs from frame 0: every redraw of the window is one tick
    of the clock followed by one frame; a lost surface gets the configuration it
    had; the loop is left only after the window was closed, Escape pressed or
    memory ran out. When it is left, the device is the one that was created, of
    the window's size, and the clock counted the redraws (modulo 2^32, which the
    debug profile turns into a panic). *)
Theorem demo_session `{!WinitLaws Env} `{!SignalsLaws Env slot} `{!RuntimesLaws Env slot} oc fuel (e : Env) :
  wp (main oc fuel) (fun r _ t =>
    (((exists x, r = Ret (Err x)) \/ exists why, r = Panic why) /\ (Ticked ∉ t)) \/
    exists win g t1 t2 t3, device_wf g /\ size g = inner_size win (snd (build_window e)) /\
      is_Some (surface g) /\ applied g t1 /\ greeted t3 /\
      t = Log "starting wolf-demo in native mode" :: map OnDevice t1 ++
          [Log "scene is going to loaded"] ++ map Tested t3 ++ [Log "scene just loaded"] ++ t2 /\
      match r with
      | Ret (Ok st) => loop_outcome oc win g 0 false (Ret st) t2
      | Ret (Err _) => False
      | Panic why => loop_outcome oc win g 0 false (Panic why) t2
      | NoFuel => loop_outcome oc win g 0 false NoFuel t2
      end) e.
Proof.
  assert (forall t, Ticked ∉ Log "starting wolf-demo in native mode" :: map OnDevice t) as Hno.
  { intros t [?|(x & ? & _)%list_elem_of_fmap]%elem_of_cons; done. }
  unfold main. apply wp_bind, wp_emit. unfold run. apply wp_try, wp_act. intros [win|x] e1 E1.
  2:{ left. split; [left; by eexists|apply (Hno [])]. }
  apply wp_bind, wp_act. intros sz e2 [= <- <-]. apply wp_try, wp_retrace.
  eapply wp_mono; [|apply new_wp]. simpl.
  assert (inner_size win e1 = inner_size win (snd (build_window e))) as Hsz by (by rewrite E1).
  intros [[g|x]|why|] e3 t1; simpl; [|by left; split; [left; eexists|apply Hno]
    |by left; split; [right; eexists|apply Hno]|done].
  intros (Hg & Hsize & Hs%bool_decide_eq_true_1 & Ht1).
  apply wp_bind, wp_retrace. unfold GameTime.new, GameTime.default. apply wp_bind, wp_act. intros now0 e4 _.
  apply wp_ret, wp_bind. unfold wscene_load. apply wp_bind, wp_emit, wp_bind. unfold spawn_local. apply wp_retrace.
  eapply wp_mono; [|apply scripted_test]. intros r e5 t3 [-> Ht3].
  apply wp_bind, wp_emit, wp_ret, wp_bind, wp_ret, wp_bind. unfold event_loop.
  eapply wp_mono; [|by apply (deliver_loop_session oc fuel fuel win (mkApp g _ false) e5 0)].
  intros [st|why|] e6 t2 Ho; simpl in *; right; exists win, g, t1, t2, t3;
    rewrite <-Hsz, ?app_nil_r; simpl; rewrite <-?app_assoc; by destruct (inner_size win e1).
Qed.
End proofs.

(** ** A run: a frame, a lost surface, another frame, and Escape *)
Module Runs.
Import Concrete Signals.Runs.

Record desk := mkDesk { queue_ : list (Event Z); lost : bool; tock : Z; slots_ : table slot }.

Definition set_slots (x : table slot) (d : desk) : desk :=
  mkDesk (queue_ d) (lost d) (tock d) x.
#[export] Instance desk_clock : Clock desk :=
  {| now := fun d => (tock d, mkDesk (queue_ d) (lost d) (tock d + 16000000) (slots_ d)) |}.
#[export] Instance desk_wgpu : Wgpu desk := {|
  RawWindowHandle := Z; Surface := Z; Adapter := unit; AdapterInfo := string;
  get_info := fun _ => "software"%string; Device := unit; Queue := unit;
  TextureFormat := string; Rgba32Sint := "Rgba32Sint"%string; RequestDeviceError := string;
  create_surface := fun h d => (h, d);
  request_adapter := fun _ d => (Some tt, d);
  request_device := fun _ d => (Ok (tt, tt), d);
  get_supported_formats := fun _ _ => ["Bgra8UnormSrgb"%string];
  surface_configure := fun _ _ _ _ d => d;
|}.
#[export] Instance desk_winit : Winit desk := {|
  WindowId := Z; OsError := string; os_error_debug := id;
  build_window := fun d => (Ok 1, d);
  inner_size := fun _ _ => (1280, 720);
  raw_window_handle := id;
  next_event := fun x d =>
    if x then (None, d)
    else match queue_ d with
         | [] => (Some (EventWindow CloseRequested 1), d)
         | ev :: evs => (Some ev, mkDesk evs (lost d) (tock d) (slots_ d))
         end;
  request_redraw := fun _ d => d;
  SurfaceTexture := unit;
  get_current_texture := fun _ d =>
    (if lost d then Err Lost else Ok tt, mkDesk (queue_ d) (negb (lost d)) (tock d) (slots_ d));
  submit_clear := fun _ _ _ d => d;
  present := fun _ d => d;
|}.
#[export] Instance desk_laws : WinitLaws desk.
Proof. split. intros [[|ev evs] l t x]; discriminate. Qed.

(** The signals of the desk are a table. *)
#[export] Instance desk_engine : Engine desk := adder _.
#[export] Instance desk_signals : Signals2 desk slot := {|
  Signal := Z; Connection := Z;
  signal_new := fun d => let '(x, t) := signal_new (slots_ d) in (x, set_slots t d);
  signal_connect := fun x f d => let '(c, t) := signal_connect x f (slots_ d) in (c, set_slots t d);
  connected := fun c d => connected c (slots_ d);
  signal_disconnect := fun c d => set_slots (signal_disconnect c (slots_ d)) d;
  signal_emit := fun x d => let '(fs, t) := signal_emit x (slots_ d) in (fs, set_slots t d);
|}.
#[export] Program Instance desk_signals_laws : SignalsLaws desk slot := {| slots := fun x d => slots_of x (slots_ d) |}.
Next Obligation. intros d x d' [= <- <-].
  exact (signal_new_slots (Env := table slot) (slots_ d) _ _ eq_refl). Qed.
Next Obligation. intros x f d c d' [= <- <-].
  exact (signal_connect_slots (Env := table slot) x f (slots_ d) _ _ eq_refl). Qed.
Next Obligation. intros x c d. exact (connected_slots (Env := table slot) x c (slots_ d)). Qed.
Next Obligation. intros c d. exact (disconnected_slots (Env := table slot) c (slots_ d)). Qed.
Next Obligation. intros x c f c' d. exact (signal_disconnect_slots (Env := table slot) x c f c' (slots_ d)). Qed.
Next Obligation. intros x c d. exact (signal_disconnect_order (Env := table slot) x c (slots_ d)). Qed.
Next Obligation. by intros x d fs d' [= <- <-]. Qed.
#[export] Instance desk_runtimes : Runtimes desk :=
  {| thread_spawn := id; tokio_spawn := id; thread_sleep := fun _ => id; tokio_sleep := fun _ => id |}.
#[export] Instance desk_runtimes_laws : RuntimesLaws desk slot.
Proof. by split. Qed.

Definition evening : desk :=
  mkDesk [RedrawRequested 1; RedrawEventsCleared; RedrawRequested 1; RedrawRequested 2;
          RedrawRequested 1; EventWindow (KeyboardInput Released (Some Escape)) 1;
          EventWindow (KeyboardInput Pressed (Some Escape)) 1; RedrawRequested 1] false 0
         (mkTable [] []).

(** Three redraws of the window, the second of which finds the surface lost. *)
Example evening_run :
  match fst (fst (main Wrapping 20 evening)) with
  | Ret (Ok st) => (frame_count (game_time st), size (g_device st)) = (3, (1280, 720))
  | _ => False
  end.
Proof. vm_compute. reflexivity. Qed.

Lemma demo_session_witness :
  exists st win k t, fst (fst (main Wrapping 20 evening)) = Ret (Ok st) /\
    session win (g_device st) 0 false t (Ret k) /\ wrap_u 32 k = 3.
Proof.
  pose proof evening_run as Hrun.
  destruct (wp_outcome _ (fun r t => _) _ (demo_session (Env := desk) Wrapping 20 evening))
    as [[[[x Hx]|[why Hx]] _]|(win & g & t1 & t2 & t3 & _ & _ & _ & _ & _ & _ & Ho)].
  - rewrite Hx in Hrun. destruct Hrun.
  - rewrite Hx in Hrun. destruct Hrun.
  - destruct (fst (fst (main Wrapping 20 evening))) as [[st|x]|why|]; [|destruct Hrun..].
    injection Hrun as Hfc _. destruct Ho as (k & Hk & Hfc' & Hg & _).
    exists st, win, k, t2. split; [reflexivity|]. rewrite Hg. split; [exact Hk|]. by rewrite <-Hfc'.
Defined.
End Runs.
