(* ===== verification/Tests.v ===== *)
(** The repository's own tests, run in the model: LZ4
    ([wolf/tests/system_compression.rs]), LZMA (the test of
    [system/compression/lzma.rs]), the capture of the screen and the runtime
    ([wolf/tests/system_os.rs]) and the scripts ([wolf/tests/system_script.rs]).
    Their assertions hold for every library that keeps its laws, or fail in the
    ways stated. The test of the signals is in [Signals]. *)
From S2P Require Import Prelude F64 Common Os Signals Lz4 Lzma.
Local Open Scope Z_scope.
#[local] Set Default Goal Selector "!".

(** [assert!]. *)
Definition assert_ {Env Ev} (b : bool) (msg : string) : M Env Ev unit :=
  if b then mret tt else panic msg.

Definition crlf : string := String (Ascii.ascii_of_nat 13) (String (Ascii.ascii_of_nat 10) EmptyString).

(** ** LZ4 *)
Section lz4.
Context `{!LZ4} `{!Errors} (oc : overflow) {Env : Type}.

Definition mock_compression_data : list u8 :=
  bytes_of_string ("HELLO WOLF" +:+ crlf +:+ "HELLO WOLF!*&%!HELLO WOLF!07*&%!" +:+ crlf +:+
                   "The quick brown fox jumps over the lazy dog!").

(** What is printed. *)
Inductive lz4_line :=
| Content (data : list u8) (size : Z)
| Compressed (buffer : list u8) (size : Z) (mode : LZ4CompressMode)
| Decompressed (text : option (list u8)) (size : Z).
Abbreviation IO := (M Env lz4_line).

Definition lz4_round (mode : LZ4CompressMode) : IO unit :=
  '(compress_buffer, ret) ← lift (Lz4.compress anyhow_msg (mkVec [] 0) mock_compression_data mode 5);
  _ ← assert_ (is_ok ret) "lz4 compress failed";
  _ ← emit (Compressed (elems compress_buffer) (vec_len compress_buffer) mode);
  '(decompress_buffer, ret) ← lift (de_compress anyhow_msg oc (mkVec [] 0) (elems compress_buffer));
  _ ← assert_ (is_ok ret) "lz4 compress failed";
  emit (Decompressed (from_utf8 (elems decompress_buffer)) (vec_len decompress_buffer)).
(** [for i in indices]. *)
Fixpoint lz4_rounds (indices : list Z) (mode : LZ4CompressMode) : IO unit :=
  match indices with
  | [] => mret tt
  | i :: rest => let mode := if i =? 1 then FAST else mode in _ ← lz4_round mode; lz4_rounds rest mode
  end.
Definition test_lz4 : IO unit :=
  _ ← emit (Content mock_compression_data (Z.of_nat (length mock_compression_data)));
  lz4_rounds [0; 1] DEFAULT.

Context `{!LZ4Laws}.

Lemma lz4_round_wp mode (e : Env) :
  wp (lz4_round mode) (fun r _ t => r = Ret tt /\ exists c,
    t = [Compressed c (Z.of_nat (length c)) mode; Decompressed (Some mock_compression_data) 90]) e.
Proof.
  set (s := mock_compression_data).
  assert (s <> [] /\ Z.of_nat (length s) = 90 /\ from_utf8 s = Some s) as (Hs & Hlen & Hutf) by (by vm_compute).
  unfold lz4_round. fold s. apply wp_bind, wp_lift.
  destruct (compress_ok anyhow_msg (mkVec [] 0) s mode 5) as (c & -> & Hc & Hb);
    [done|unfold LZ4_MAX_INPUT_SIZE; lia|].
  calls. rewrite bound_law, Hlen in Hb. change (_ && _) with true in Hb. change (90 + 90 / 255 + 16) with 106 in Hb.
  destruct (decompress_ok anyhow_msg oc (mkVec [] 0) (elems c) s) as (v & Hv & Hvs);
    [done|done|lia|unfold vec_len in Hb; lia|].
  apply wp_bind, wp_ret, wp_bind, wp_emit, wp_bind, wp_lift. rewrite Hv.
  apply wp_bind, wp_ret, wp_emit. split; [done|]. exists (elems c). unfold vec_len. by rewrite Hvs, Hutf, Hlen.
Qed.

(** The test passes: both modes give the data back. *)
Theorem test_lz4_passes (e : Env) :
  wp test_lz4 (fun r _ t => r = Ret tt /\ exists c1 c2,
    t = [Content mock_compression_data 90;
         Compressed c1 (Z.of_nat (length c1)) DEFAULT; Decompressed (Some mock_compression_data) 90;
         Compressed c2 (Z.of_nat (length c2)) FAST; Decompressed (Some mock_compression_data) 90]) e.
Proof.
  unfold test_lz4. apply wp_bind, wp_emit. cbn [lz4_rounds Z.eqb Pos.eqb]. apply wp_bind.
  eapply wp_mono; [|apply lz4_round_wp]. intros r e1 t (-> & c1 & ->). apply wp_bind.
  eapply wp_mono; [|apply lz4_round_wp]. intros r e2 t (-> & c2 & ->). apply wp_ret.
  split; [done|]. by exists c1, c2.
Qed.
End lz4.

(** ** LZMA *)
Section lzma.
Context {Env : Type} `{!Clock Env} `{!Lzma.Lzma Env}.

Definition lzma_content : list u8 :=
  bytes_of_string ("HELLO WOLF" +:+ crlf +:+ "HELLO WOLF!*&%!HELLO WOLF!07*&%!").

Inductive lzma_line :=
| Original (text : option (list u8)) (size : Z)
| Packed (ty : LZMAType) (secs : f64) (buffer : list u8) (size : Z) (trace : string)
| Unpacked (ty : LZMAType) (secs : f64) (text : option (list u8)) (size : Z) (trace : string)
| Coder (ev : Lzma.event).
Abbreviation IO := (M Env lzma_line).

(** One type: the trace is empty, or cleared, before each call. *)
Definition lzma_round (fuel : nat) (ty : LZMAType) : IO unit :=
  start ← act now;
  '(compressed, trace) ← retrace Coder (Lzma.compress lzma_content ty 5);
  stop ← act now;
  _ ← emit (Packed ty (as_secs_f64 (instant_sub stop start)) compressed (Z.of_nat (length compressed))
              (default EmptyString trace));
  start ← act now;
  '(decompressed, trace) ← retrace Coder (Lzma.decompress fuel compressed ty);
  stop ← act now;
  emit (Unpacked ty (as_secs_f64 (instant_sub stop start)) (from_utf8 decompressed)
          (Z.of_nat (length decompressed)) (default EmptyString trace)).
Definition test_lzma (fuel : nat) : IO unit :=
  _ ← emit (Original (from_utf8 lzma_content) (Z.of_nat (length lzma_content)));
  _ ← lzma_round fuel LZMA1;
  lzma_round fuel LZMA2.

(** Enough for the LZMA2 decoder: what 44 bytes are compressed to, and themselves. *)
Definition lzma_fuel : nat := Z.to_nat 8300.

(** What a round prints: nothing packed and nothing unpacked; or everything the
    compression took released, and the content back with everything released, or
    out of memory. *)
Definition lzma_round_ok (ty : LZMAType) (t : list lzma_line) : Prop :=
  exists t1 secs1 v tr1 t2 secs2 text n tr2,
    t = map Coder t1 ++ [Packed ty secs1 v (Z.of_nat (length v)) tr1] ++
        map Coder t2 ++ [Unpacked ty secs2 text n tr2] /\
    (v = [] /\ n = 0 \/
     balanced t1 /\
     (text = Some lzma_content /\ n = 44 /\ tr2 = EmptyString /\ balanced t2 \/ out_of_memory t2 /\ n = 0)).

Context `{!LzmaCaps Env} `{!LzmaLaws Env}.

(** Decompressing nothing fails at once. *)
Lemma decompress_nothing fuel ty (e : Env) :
  wp (Lzma.decompress fuel [] ty) (fun r _ t => t = [] /\ exists tr, r = Ret ([], tr)) e.
Proof. destruct ty; apply wp_ret; by eauto. Qed.

Lemma decompress_content fuel ty v (e : Env) :
  Lzma.compressed ty v lzma_content -> (lzma_fuel <= fuel)%nat ->
  wp (Lzma.decompress fuel v ty) (fun r _ t => given_back lzma_content r t) e.
Proof.
  assert (lzma_content <> [] /\ length lzma_content = 44%nat) as [Hs Hlen] by (by vm_compute).
  intros Hc Hf. destruct ty; [by apply decompress_1_wp; [|rewrite Hlen]|].
  apply decompress_2_wp; [done|done|by rewrite Hlen|]. rewrite Hlen.
  destruct Hc as (p & c & -> & _ & _ & Hp). destruct Hp as [_ Hcl]; [by rewrite Hlen|].
  unfold lzma_fuel in Hf. cbn [length]. rewrite length_app, length_size_bytes. lia.
Qed.

Lemma lzma_round_wp fuel ty (e : Env) :
  (lzma_fuel <= fuel)%nat -> wp (lzma_round fuel ty) (fun r _ t => r = Ret tt /\ lzma_round_ok ty t) e.
Proof.
  intros Hf. unfold lzma_round. apply wp_bind, wp_act. intros start e1 _. apply wp_bind, wp_retrace.
  eapply wp_mono; [|apply Lzma.compress_wp]. intros r e2 t1 (v & tr & -> & Hv).
  apply wp_bind, wp_act. intros stop e3 _. apply wp_bind, wp_emit, wp_bind, wp_act. intros start2 e4 _.
  assert (wp (Lzma.decompress fuel v ty) (fun r _ t => exists out tr2, r = Ret (out, tr2) /\
    (v = [] /\ out = [] \/ balanced t1 /\
     (out = lzma_content /\ tr2 = None /\ balanced t \/ out_of_memory t /\ out = []))) e4) as Hdec.
  { destruct tr as [msg|].
    - subst v. eapply wp_mono; [|apply decompress_nothing]. intros r e5 t (-> & tr2 & ->).
      eexists _, _. split; [done|]. by left.
    - destruct Hv as [Hv Hb]. eapply wp_mono; [|by apply decompress_content].
      intros r e5 t [[-> Ht]|[Ht [tr2 ->]]]; eexists _, _; (split; [done|]); right; split; [done..| |done|];
        [by left|by right]. }
  apply wp_bind, wp_retrace. eapply wp_mono; [|exact Hdec]. intros r e5 t2 (out & tr2 & -> & Hout).
  apply wp_bind, wp_act. intros stop2 e6 _. apply wp_emit. split; [done|].
  eexists t1, _, v, _, t2, _, (from_utf8 out), _, _. split; [done|].
  destruct Hout as [[-> ->]|[Hb [(-> & -> & Ht)|[Ht ->]]]]; [by left|right; split; [done|]..].
  - left. assert (from_utf8 lzma_content = Some lzma_content) as -> by (by vm_compute). done.
  - by right.
Qed.

(** The test runs to its end and prints the content it started from, for both
    types, unless a compression fails or memory runs out. *)
Theorem test_lzma_gives_back fuel (e : Env) :
  (lzma_fuel <= fuel)%nat ->
  wp (test_lzma fuel) (fun r _ t => r = Ret tt /\ exists t1 t2,
    t = Original (Some lzma_content) 44 :: t1 ++ t2 /\ lzma_round_ok LZMA1 t1 /\ lzma_round_ok LZMA2 t2) e.
Proof.
  intros Hf. unfold test_lzma. apply wp_bind, wp_emit, wp_bind.
  eapply wp_mono; [|by apply lzma_round_wp]. intros r e1 t1 [-> H1].
  eapply wp_mono; [|by apply lzma_round_wp]. intros r e2 t2 [-> H2]. split; [done|].
  exists t1, t2. split; [|done].
  by assert (from_utf8 lzma_content = Some lzma_content) as -> by (by vm_compute).
Qed.
End lzma.

(** ** The capture of the screen *)
Section screens.
Context `{!Errors} {Env : Type} `{!Displays Env} `{!Runtimes Env} (oc : overflow).
(** [e.kind() == WouldBlock], and the length of a frame. *)
Context (would_block : io_error -> bool) (frame_len : Frame -> Z).

Inductive screen_line :=
| OnScreen (ev : screen_event)
| FrameLength (i : Z) (len : Z)
| Spin (d : Duration).
Abbreviation IO := (M Env screen_line).

Definition one_frame : Duration := seconds 1 / 60.

Definition capture_round (st : Screen * Z) : IO (flow (Screen * Z) unit) :=
  let '(screen, i) := st in
  '(frame_res, screen) ← retrace OnScreen (capture screen);
  match frame_res with
  | Ok frame =>
    i ← lift (arith_u oc 32 (i + 1));
    _ ← emit (FrameLength i (frame_len frame));
    if i >? 5 then mret (Break tt) else mret (Continue (screen, i))
  | Err e =>
    if would_block e then
      _ ← obs (fun e => (tt, thread_sleep one_frame e)) (fun _ => Spin one_frame);
      mret (Continue (screen, i))
    else panic ("could not capture: " +:+ io_display e)
  end.

Definition test_screen_captures (fuel : nat) : IO unit :=
  r ← retrace OnScreen new_primary;
  match r with
  | Err e => panic ("called `Result::unwrap()` on an `Err` value: " +:+ anyhow_debug e)
  | Ok screen =>
    _ ← assert_ (negb (screen_width screen =? 0)) "assertion failed: screen.width != 0";
    _ ← assert_ (negb (screen_height screen =? 0)) "assertion failed: screen.height != 0";
    loop fuel capture_round (screen, 0)
  end.

(** The numbers of the frames, in the order they are printed. *)
Definition frames : list screen_line -> list Z :=
  omap (fun l => match l with FrameLength i _ => Some i | _ => None end).
(** The error that ends the test: the last capture, other than one that would
    block. *)
Definition stopped_by (t : list screen_line) (why : string) : Prop :=
  exists t' e, t = t' ++ [OnScreen (Frame_of (Err e))] /\ would_block e = false /\
    why = "could not capture: " +:+ io_display e.

Definition captured (i : Z) (r : res unit) (t : list screen_line) : Prop :=
  exists k, frames t = seqZ (i + 1) k /\ 0 <= k /\
    match r with
    | Ret _ => i + k = 6
    | Panic why => i + k <= 5 /\ stopped_by t why
    | NoFuel => i + k <= 5
    end.

Lemma captured_loop fuel screen i (e : Env) :
  0 <= i <= 5 -> wp (loop fuel capture_round (screen, i)) (fun r _ t => captured i r t) e.
Proof.
  revert screen i e. induction fuel as [|fuel IH]; intros screen i e Hi.
  { exists 0. split_and!; [done|lia|lia]. }
  rewrite loop_S. apply wp_bind. unfold capture_round at 1, capture. apply wp_bind, wp_retrace, wp_bind.
  unfold wp at 1. destruct (frame (capturer screen) e) as [[r c] e1]. apply wp_ret. destruct r as [f|x].
  - rewrite arith_u_in by lia. apply wp_bind, wp_lift, wp_bind, wp_emit. destruct (Z.gtb_spec (i + 1) 5).
    + apply wp_ret, wp_ret. exists 1. split_and!; [done|lia|lia].
    + apply wp_ret. eapply wp_mono; [|apply IH; lia].
      intros r e2 t (k & Hk & Hk0 & Hr). exists (k + 1).
      assert (seqZ (i + 1) (k + 1) = (i + 1) :: seqZ (i + 1 + 1) k) as ->.
      { rewrite Z.add_comm, seqZ_cons by lia. f_equal. f_equal; lia. }
      split; [|split; [lia|]].
      * unfold frames in *. cbn. by rewrite Hk.
      * destruct r as [[]|why|]; [lia| |lia]. destruct Hr as (Hr & t' & y & -> & Hy).
        split; [lia|]. eexists (_ :: _ :: t'), y. split; [done|]. exact Hy.
  - destruct (would_block x) eqn:Hx.
    + apply wp_bind, wp_obs. intros [] e2 _. apply wp_ret. eapply wp_mono; [|apply IH; lia].
      intros r e3 t (k & Hk & Hk0 & Hr). exists k. split; [exact Hk|]. split; [done|].
      destruct r as [[]|why|]; [done| |done]. destruct Hr as (Hr & t' & y & -> & Hy).
      split; [done|]. eexists (_ :: _ :: t'), y. split; [done|]. exact Hy.
    + exists 0. split_and!; [done|lia|lia|]. eexists [], x. by split_and!.
Qed.

(** The test ends with six frames, numbered from 1, after any number of captures
    that would block; it panics without a primary display, on one without an area,
    and on the first other error, after at most five frames. *)
Theorem test_captures_six fuel (e : Env) :
  wp (test_screen_captures fuel) (fun r _ t =>
    (frames t = [] /\ exists why, r = Panic why) \/ captured 0 r t) e.
Proof.
  unfold test_screen_captures. apply wp_bind, wp_retrace.
  assert (forall t, frames (map OnScreen t) = []) as Hno by (by induction t).
  eapply (wp_mono _ (fun r _ _ => exists x, r = Ret x)).
  2:{ unfold new_primary. apply wp_try, wp_obs. intros [d|x] e1 _; [|by eexists].
      apply wp_try. eapply wp_mono; [|apply new_capturer_wp]. intros r e2 t (x & _ & Hx).
      destruct x; subst r; [apply wp_ret|]; by eexists. }
  intros r e1 t1 ([screen|x] & ->).
  2:{ left. rewrite app_nil_r. split; [apply Hno|by eexists]. }
  apply wp_bind. unfold assert_. destruct (negb _); [apply wp_ret|left; rewrite app_nil_r; split; [apply Hno|by eexists]].
  apply wp_bind. destruct (negb _); [apply wp_ret|left; rewrite app_nil_r; split; [apply Hno|by eexists]].
  eapply wp_mono; [|by apply captured_loop]. intros r e2 t (k & Hk & Hk0 & Hr). right. exists k.
  unfold frames in *. cbn [app]. rewrite omap_app. split; [by rewrite Hno|]. split; [done|].
  destruct r as [[]|why|]; [done| |done]. destruct Hr as (Hr & t' & y & -> & Hy).
  split; [done|]. exists (map OnScreen t1 ++ t'), y. by rewrite (assoc_L app).
Qed.
End screens.

(** ** The runtime *)
Section runtime.
Context {Env : Type} `{!Runtimes Env}.

(** The function, and the two tasks that run it. *)
Inductive fun_task := OfOsThread | OfGreenThread.
Definition fun_ (p_msg : string) : M Env (Signals.event fun_task) bool :=
  _ ← emit (Log ("hello from " +:+ p_msg)); mret true.
Definition fun_body (t : fun_task) : M Env (Signals.event fun_task) bool :=
  fun_ (match t with OfOsThread => "os thread" | OfGreenThread => "green thread" end).
Definition test_runtime : M Env (Signals.event fun_task) unit :=
  _ ← thread OfOsThread;
  _ ← sleep (seconds 1);
  _ ← green_thread OfGreenThread;
  async_sleep (seconds 5).

(** The test starts each task once and ends after its sleeps; it asserts nothing of
    what the tasks print. *)
Lemma test_runtime_runs (e : Env) :
  wp test_runtime (fun r _ t => r = Ret tt /\
    t = [Spawned OfOsThread; Slept (seconds 1); Spawned OfGreenThread; Slept (seconds 5)]) e /\
  forall task, wp (fun_body task) (fun r _ t => r = Ret true /\
    t = [Log ("hello from " +:+ match task with OfOsThread => "os thread" | OfGreenThread => "green thread" end)]) e.
Proof.
  split; [|done]. unfold test_runtime, thread, sleep, green_thread, async_sleep.
  do 3 (apply wp_bind, wp_obs; intros [] ? _). apply wp_obs. by intros [] ? _.
Qed.
End runtime.

(** ** The script *)
Section script.
Context `{!Errors} {Env : Type} `{!Engine Env} `{!Signals2 Env slot} `{!Runtimes Env}.

Definition test_rhai : M Env (test_event Env) unit :=
  _ ← retrace Script (register_function "add");
  res ← retrace Script (run_return_any "add(10, 7)");
  _ ← retrace Ran (w_log (answer res));
  _ ← retrace Ran (green_thread T1);
  retrace Ran (async_sleep (seconds 2)).

(** The test never fails, whatever the engine answers. *)
Lemma test_rhai_runs (e : Env) :
  wp test_rhai (fun r _ t => r = Ret tt /\ exists x msg,
    t = [Script (Evaluated "add(10, 7)" x); Ran (Log msg); Ran (Spawned T1); Ran (Slept (seconds 2))] /\
    msg = answer (map_err (fun e => anyhow_context "WRhai::run_return_any" (anyhow_msg (eval_debug e))) x)) e.
Proof.
  unfold test_rhai. apply wp_bind, wp_retrace, wp_act. intros [] e1 _. apply wp_bind, wp_retrace.
  unfold run_return_any. apply wp_bind, wp_obs. intros x e2 _. apply wp_ret.
  apply wp_bind, wp_retrace, wp_emit. apply wp_bind, wp_retrace, wp_obs. intros [] e3 _.
  apply wp_retrace, wp_obs. intros [] e4 _. split; [done|]. by eexists _, _.
Qed.

Lemma bind_same {Ev A B} (m : M Env Ev A) (k k' : A -> M Env Ev B) e :
  (forall a e, k a e = k' a e) -> (m ≫= k) e = (m ≫= k') e.
Proof. intros Hk. unfold mbind, M_mbind, M_bind. destruct (m e) as [[[a|why|] e1] t1]; [|done..]. by rewrite Hk. Qed.

(** The scene of the demo runs this test, and then that of the signals. *)
Lemma demo_runs_rhai (e : Env) : test e = (_ ← test_rhai; retrace Ran test_signals) e.
Proof.
  unfold test, test_rhai. rewrite bind_assoc. apply bind_same. intros [] e1.
  rewrite bind_assoc. apply bind_same. intros res e2. rewrite bind_assoc. apply bind_same. intros [] e3.
  rewrite bind_assoc. by apply bind_same.
Qed.
End script.

(** ** Runs of the tests *)
Module Runs.
Import Concrete.

Example test_lz4_run :
  let '(r, _, t) := test_lz4 (H := Lz4.Runs.stored) Wrapping tt in
  r = Ret tt /\ length t = 5%nat.
Proof. vm_compute. done. Qed.

(** A screen whose captures would block every other time. *)
#[local] Instance flicker : Displays Z := {|
  Display := unit; Capturer := unit; Frame := list u8;
  primary := fun e => (Ok tt, e); all := fun e => (Ok [tt], e);
  width := fun _ => 1920; height := fun _ => 1080;
  capturer_new := fun _ e => (Ok tt, e);
  frame := fun c e => ((if Z.even e then Err "WouldBlock"%string else Ok []), c, e + 1);
  io_display := id;
|}.
#[local] Instance still : Runtimes Z :=
  {| thread_spawn := id; tokio_spawn := id; thread_sleep := fun _ => id; tokio_sleep := fun _ => id |}.
Example flicker_run :
  let '(r, _, t) := test_screen_captures Checked (String.eqb "WouldBlock") (fun f => Z.of_nat (length f)) 20 0 in
  r = Ret tt /\ frames t = [1; 2; 3; 4; 5; 6].
Proof. vm_compute. done. Qed.
End Runs.
