(* ===== verification/RaftConverter.v ===== *)
(** The messages of the Raft service ([wolf/proto/raft.proto]) and their
    conversions to and from the consensus library's
    ([wolf/src/system/algorithm/raft/raft_converter.rs]). *)
From Stdlib Require Import Ascii.
From S2P Require Import Prelude Common.
Local Open Scope Z_scope.
#[local] Set Default Goal Selector "!".

(** ** The consensus library's messages

    64-bit unsigned integers are the [Z] they denote. *)
Module raft.
Record ConflictOpt := mkConflictOpt { term : Z; index : Z }.
Record AppendEntriesResponse := mkAppendEntriesResponse {
  ae_term : Z; ae_success : bool; ae_conflict_opt : option ConflictOpt }.
Record InstallSnapshotRequest := mkInstallSnapshotRequest {
  is_term : Z; is_leader_id : Z; is_last_included_index : Z; is_last_included_term : Z;
  is_offset : Z; is_data : list u8; is_done : bool }.
Record InstallSnapshotResponse := mkInstallSnapshotResponse { isr_term : Z }.
Record VoteRequest := mkVoteRequest {
  v_term : Z; v_candidate_id : Z; v_last_log_index : Z; v_last_log_term : Z }.
Record VoteResponse := mkVoteResponse { vr_term : Z; vr_vote_granted : bool }.
End raft.

(** The entries a leader replicates, and their JSON form. *)
Class Entries `{!Errors} := {
  AppendEntriesRequest : Type;
  json_error : Type;
  json_debug : json_error -> string;
  to_json : AppendEntriesRequest -> result string json_error;
  of_json : string -> result AppendEntriesRequest json_error;
}.
(** What is serialized is read back. *)
Class EntriesLaws `{!Errors} `{!Entries} : Prop := {
  json_round_trip r s : to_json r = Ok s -> of_json s = Ok r;
}.

(** ** The messages on the wire ([raft.proto]) *)
Inductive ErrorCode :=
| RaftUndefinedError | RaftBootstrapFailed | RaftAppendEntriesJsonOfReqIsNotValid
| RaftAppendEntriesFailed | RaftInstallSnapshotFailed | RaftVoteFailed | RaftGetMetricsFailed.
Definition error_code_i32 (c : ErrorCode) : Z :=
  match c with
  | RaftUndefinedError => 0 | RaftBootstrapFailed => 1
  | RaftAppendEntriesJsonOfReqIsNotValid => 2 | RaftAppendEntriesFailed => 3
  | RaftInstallSnapshotFailed => 4 | RaftVoteFailed => 5 | RaftGetMetricsFailed => 6
  end.

Record RaftErrorRes := mkRaftErrorRes { er_msg_id : string; er_code : Z; er_msg : string }.
Record RaftBootstrapReq := mkRaftBootstrapReq { br_msg_id : string; br_number_of_nodes : Z }.
Record RaftBootstrapOkRes := mkRaftBootstrapOkRes { bo_msg_id : string }.
Record RaftAppendEntriesReq := mkRaftAppendEntriesReq { ar_msg_id : string; ar_req : string }.
Record ConflictOpt := mkConflictOpt { co_term : Z; co_index : Z }.
Record RaftAppendEntriesOkRes := mkRaftAppendEntriesOkRes {
  ao_msg_id : string; ao_term : Z; ao_success : bool; ao_conflict_opt : option ConflictOpt }.
Record RaftInstallSnapshotReq := mkRaftInstallSnapshotReq {
  sr_msg_id : string; sr_term : Z; sr_leader_id : Z; sr_last_included_index : Z;
  sr_last_included_term : Z; sr_offset : Z; sr_done : bool; sr_data : list u8 }.
Record RaftInstallSnapshotOkRes := mkRaftInstallSnapshotOkRes { so_msg_id : string; so_term : Z }.
Record RaftVoteReq := mkRaftVoteReq {
  vq_msg_id : string; vq_term : Z; vq_candidate_id : Z; vq_last_log_index : Z; vq_last_log_term : Z }.
Record RaftVoteOkRes := mkRaftVoteOkRes { vo_msg_id : string; vo_term : Z; vo_vote_granted : bool }.
Record RaftGetMetricsReq := mkRaftGetMetricsReq { mq_msg_id : string }.
Record RaftGetMetricsOkRes := mkRaftGetMetricsOkRes { mo_msg_id : string; mo_metrics : string }.

(** A response is a [oneof], which may be absent. *)
Inductive Response (A : Type) := OkRes (a : A) | ErrorRes (e : RaftErrorRes).
Arguments OkRes {A} a.
Arguments ErrorRes {A} e.
Definition RaftRes (A : Type) : Type := option (Response A).

Section converter.
Context `{!Errors} `{!Entries}.

Definition raft_append_entries_req_to_grpc_append_entries_req (p_msg_id : string)
    (p_req : AppendEntriesRequest) : result RaftAppendEntriesReq anyhow :=
  map_err (fun e => anyhow_context
      "raft_converter::convert_raft_append_entries_req_to_grpc_append_entries_req"
      (anyhow_msg ("could not serialize and convert async_raft::raft::AppendEntriesRequest<memstore::ClientRequest> to json because: "
                   +:+ json_debug e +:+ ".")))
    (result_map (fun json => mkRaftAppendEntriesReq p_msg_id json) (to_json p_req)).

Definition grpc_append_entries_req_to_raft_append_entries_req (p_req : RaftAppendEntriesReq)
    : result AppendEntriesRequest anyhow :=
  match of_json (ar_req p_req) with
  | Ok aer => Ok aer
  | Err e => Err (anyhow_msg
      ("could not deserialize json to async_raft::raft::AppendEntriesRequest<memstore::ClientRequest> to json because: "
       +:+ json_debug e +:+ ". trace: "
       +:+ "raft_converter::convert_raft_append_entries_req_to_append_entries_req"))
  end.
End converter.

Definition raft_append_entries_response_to_grpc_append_entries_ok_res (p_msg_id : string)
    (p_res : raft.AppendEntriesResponse) : RaftAppendEntriesOkRes :=
  let c_opt := match raft.ae_conflict_opt p_res with
               | Some un_opt => Some (mkConflictOpt (raft.term un_opt) (raft.index un_opt))
               | None => None
               end in
  mkRaftAppendEntriesOkRes p_msg_id (raft.ae_term p_res) (raft.ae_success p_res) c_opt.

Definition grpc_append_entries_ok_res_to_raft_append_entries_res (p_res : RaftAppendEntriesOkRes)
    : raft.AppendEntriesResponse :=
  let c_opt := match ao_conflict_opt p_res with
               | Some un_opt => Some (raft.mkConflictOpt (co_term un_opt) (co_index un_opt))
               | None => None
               end in
  raft.mkAppendEntriesResponse (ao_term p_res) (ao_success p_res) c_opt.

Definition raft_install_snapshot_req_to_grpc_install_snapshot_req (p_msg_id : string)
    (p_req : raft.InstallSnapshotRequest) : RaftInstallSnapshotReq :=
  mkRaftInstallSnapshotReq p_msg_id (raft.is_term p_req) (raft.is_leader_id p_req)
    (raft.is_last_included_index p_req) (raft.is_last_included_term p_req)
    (raft.is_offset p_req) (raft.is_done p_req) (raft.is_data p_req).

Definition grpc_install_snapshot_req_to_raft_install_snapshot_req (p_req : RaftInstallSnapshotReq)
    : raft.InstallSnapshotRequest :=
  raft.mkInstallSnapshotRequest (sr_term p_req) (sr_leader_id p_req)
    (sr_last_included_index p_req) (sr_last_included_term p_req)
    (sr_offset p_req) (sr_data p_req) (sr_done p_req).

Definition raft_install_snapshot_res_to_grpc_install_snapshot_ok_res (p_msg_id : string)
    (p_req : raft.InstallSnapshotResponse) : RaftInstallSnapshotOkRes :=
  mkRaftInstallSnapshotOkRes p_msg_id (raft.isr_term p_req).

Definition grpc_install_snapshot_ok_res_to_raft_install_snapshot_res (p_req : RaftInstallSnapshotOkRes)
    : raft.InstallSnapshotResponse :=
  raft.mkInstallSnapshotResponse (so_term p_req).

Definition raft_vote_req_to_grpc_vote_req (p_msg_id : string) (p_req : raft.VoteRequest) : RaftVoteReq :=
  mkRaftVoteReq p_msg_id (raft.v_term p_req) (raft.v_candidate_id p_req)
    (raft.v_last_log_index p_req) (raft.v_last_log_term p_req).

Definition grpc_vote_req_to_raft_vote_req (p_req : RaftVoteReq) : raft.VoteRequest :=
  raft.mkVoteRequest (vq_term p_req) (vq_candidate_id p_req)
    (vq_last_log_index p_req) (vq_last_log_term p_req).

Definition raft_vote_res_to_grpc_vote_ok_res (p_msg_id : string) (p_req : raft.VoteResponse)
    : RaftVoteOkRes :=
  mkRaftVoteOkRes p_msg_id (raft.vr_term p_req) (raft.vr_vote_granted p_req).

Definition grpc_vote_ok_res_to_raft_vote_res (p_req : RaftVoteOkRes) : raft.VoteResponse :=
  raft.mkVoteResponse (vo_term p_req) (vo_vote_granted p_req).

(** ** Round trips *)

Lemma append_res_round_trip m r :
  grpc_append_entries_ok_res_to_raft_append_entries_res
    (raft_append_entries_response_to_grpc_append_entries_ok_res m r) = r.
Proof. by destruct r as [t s [[ct ci]|]]. Qed.

Lemma snapshot_req_round_trip m r :
  grpc_install_snapshot_req_to_raft_install_snapshot_req
    (raft_install_snapshot_req_to_grpc_install_snapshot_req m r) = r.
Proof. by destruct r. Qed.

Lemma snapshot_res_round_trip m r :
  grpc_install_snapshot_ok_res_to_raft_install_snapshot_res
    (raft_install_snapshot_res_to_grpc_install_snapshot_ok_res m r) = r.
Proof. by destruct r. Qed.

Lemma vote_req_round_trip m r :
  grpc_vote_req_to_raft_vote_req (raft_vote_req_to_grpc_vote_req m r) = r.
Proof. by destruct r. Qed.

Lemma vote_res_round_trip m r :
  grpc_vote_ok_res_to_raft_vote_res (raft_vote_res_to_grpc_vote_ok_res m r) = r.
Proof. by destruct r. Qed.

Lemma append_req_round_trip `{!Errors} `{!Entries} `{!EntriesLaws} m r g :
  raft_append_entries_req_to_grpc_append_entries_req m r = Ok g ->
  ar_msg_id g = m /\ grpc_append_entries_req_to_raft_append_entries_req g = Ok r.
Proof.
  unfold raft_append_entries_req_to_grpc_append_entries_req. intros Hg.
  destruct (to_json r) as [s|x] eqn:Es; [|done]. injection Hg as <-.
  unfold grpc_append_entries_req_to_raft_append_entries_req. simpl.
  by rewrite (json_round_trip r s Es).
Qed.
Create Rewrite HintDb raft.
#[export] Hint Rewrite append_res_round_trip snapshot_req_round_trip snapshot_res_round_trip
  vote_req_round_trip vote_res_round_trip : raft.

(** C21: no conversion loses anything: every consensus message that is converted to
    its wire form, under any message id, is converted back to itself, the
    optional conflict of an append response included, and an append request as
    soon as it could be serialized; and the wire form carries the message id. *)
Theorem converters_round_trip `{!Errors} `{!Entries} `{!EntriesLaws} m :
  (forall r g, raft_append_entries_req_to_grpc_append_entries_req m r = Ok g ->
     ar_msg_id g = m /\ grpc_append_entries_req_to_raft_append_entries_req g = Ok r) /\
  (forall r, let g := raft_append_entries_response_to_grpc_append_entries_ok_res m r in
     ao_msg_id g = m /\ grpc_append_entries_ok_res_to_raft_append_entries_res g = r) /\
  (forall r, let g := raft_install_snapshot_req_to_grpc_install_snapshot_req m r in
     sr_msg_id g = m /\ grpc_install_snapshot_req_to_raft_install_snapshot_req g = r) /\
  (forall r, let g := raft_install_snapshot_res_to_grpc_install_snapshot_ok_res m r in
     so_msg_id g = m /\ grpc_install_snapshot_ok_res_to_raft_install_snapshot_res g = r) /\
  (forall r, let g := raft_vote_req_to_grpc_vote_req m r in
     vq_msg_id g = m /\ grpc_vote_req_to_raft_vote_req g = r) /\
  (forall r, let g := raft_vote_res_to_grpc_vote_ok_res m r in
     vo_msg_id g = m /\ grpc_vote_ok_res_to_raft_vote_res g = r).
Proof.
  split; [apply append_req_round_trip|].
  split_and!; intros r g; subst g; autorewrite with raft; done.
Qed.

(** Entries that are words, and their quoted form. *)
Module Runs.
Import Concrete.
#[export] Instance words : Entries := {|
  AppendEntriesRequest := string; json_error := string; json_debug := id;
  to_json := fun s => if bool_decide (s = "unspeakable"%string) then Err "unspeakable"%string
                      else Ok (String "'"%char s);
  of_json := fun s => match s with
                      | EmptyString => Err "EOF while parsing"%string
                      | String _ s => Ok s
                      end;
|}.
#[export] Instance words_laws : EntriesLaws.
Proof.
  split. intros r s. unfold to_json. simpl. destruct (bool_decide _); [done|]. by intros [= <-].
Qed.

Lemma converters_round_trip_witness :
  exists g, raft_append_entries_req_to_grpc_append_entries_req "id" "entry"%string = Ok g /\
    ar_msg_id g = "id"%string /\
    grpc_append_entries_req_to_raft_append_entries_req g = Ok "entry"%string.
Proof.
  eexists. split; [reflexivity|].
  exact (proj1 (converters_round_trip "id") "entry"%string _ eq_refl).
Defined.
End Runs.
