(* ===== verification/Grpc.v ===== *)
(** gRPC endpoints ([wolf/src/stream/http/grpc.rs]): serving a service with or
    without TLS, and creating channels to one. *)
From stdpp Require Import pretty.
From S2P Require Import Prelude Common.
Local Open Scope Z_scope.
#[local] Set Default Goal Selector "!".

Record GrpcServerConfig := mkGrpcServerConfig {
  address : string;
  port : Z;
  tls : bool;
  tls_certificate_path : option string;
  tls_private_key_path : option string;
  tcp_no_delay : bool;
  tcp_keep_alive : option Z;
  http2_keepalive_interval : option Z;
  http2_keepalive_timeout : option Z;
  accept_http1 : bool;
}.

(** What the server's builder is told: the settings, and the certificate and
    key of a TLS server. *)
Record Builder := mkBuilder {
  b_nodelay : bool;
  b_keepalive : option Z;
  b_interval : option Z;
  b_timeout : option Z;
  b_http1 : bool;
  b_identity : option (list u8 * list u8);
}.

(** The transport library and the file system. [from_shared] checks a URI,
    [tls_config] adds a certificate and a domain name to an endpoint,
    [builder_tls] an identity to a server, [serve] runs a service until the
    shutdown signal. *)
Class Transport `{!Errors} `{!Net} (Env : Type) := {
  Endpoint : Type;
  Channel : Type;
  UriError : Type;
  TransportError : Type;
  uri_debug : UriError -> string;
  transport_debug : TransportError -> string;
  anyhow_of_transport : TransportError -> anyhow;
  from_shared : string -> result Endpoint UriError;
  endpoint_uri : Endpoint -> string;
  tls_config : list u8 -> string -> Endpoint -> result Endpoint TransportError;
  connect : Endpoint -> Env -> result Channel TransportError * Env;
  path_exists : string -> Env -> bool * Env;
  fs_read : string -> Env -> result (list u8) io_error * Env;
  builder_tls : list u8 * list u8 -> Builder -> result Builder TransportError;
  serve : Builder -> SocketAddr -> Env -> result unit TransportError * Env;
}.
(** The builder keeps its settings and takes the identity; nothing is at the
    empty path. *)
Class TransportLaws `{!Errors} `{!Net} (Env : Type) `{!Transport Env} : Prop := {
  builder_tls_law i b b' :
    builder_tls i b = Ok b' ->
    b' = mkBuilder (b_nodelay b) (b_keepalive b) (b_interval b) (b_timeout b) (b_http1 b) (Some i);
  empty_path e : fst (path_exists EmptyString e) = false;
}.

Inductive event `{!Errors} `{!Net} `{!Transport Env} : Type :=
| Serve (b : Builder) (a : SocketAddr) (r : result unit TransportError)
| Connect (ep : Endpoint) (r : result Channel TransportError).
Arguments event {_ _} Env {_}.

Section grpc.
Context `{!Errors} `{!Net} {Env : Type} `{!Transport Env}.
Abbreviation IO := (M Env (event Env)).

Definition builder (p_config : GrpcServerConfig) : Builder :=
  mkBuilder (tcp_no_delay p_config) (tcp_keep_alive p_config) (http2_keepalive_interval p_config)
    (http2_keepalive_timeout p_config) (accept_http1 p_config) None.

Definition serve_with_shutdown (b : Builder) (addr : SocketAddr) : IO (result unit anyhow) :=
  r ← obs (serve b addr) (Serve b addr);
  mret (map_err (fun e => anyhow_context "run_server"
          (anyhow_msg ("could not build grpc tls server because " +:+ transport_debug e))) r).

Definition run_server (p_config : GrpcServerConfig) : IO (result unit anyhow) :=
  addr ←?[anyhow_of_addr] mret (addr_from_str (address p_config +:+ ":" +:+ pretty (port p_config)));
  if tls p_config then
    let cert_path := default EmptyString (tls_certificate_path p_config) in
    let key_path := default EmptyString (tls_private_key_path p_config) in
    cert_exists ← act (path_exists cert_path);
    if negb cert_exists then
      mret (Err (anyhow_msg "path to the tls certificate was not provided. trace run_server"))
    else
      key_exists ← act (path_exists key_path);
      if negb key_exists then
        mret (Err (anyhow_msg "path to the tls private key was not provided. trace run_server"))
      else
        cert ←?[anyhow_of_io] act (fs_read cert_path);
        key ←?[anyhow_of_io] act (fs_read key_path);
        b ←?[anyhow_of_transport] mret (builder_tls (cert, key) (builder p_config));
        serve_with_shutdown b addr
  else serve_with_shutdown (builder p_config) addr.

Definition create_tls_endpoint (p_end_point p_domain_name p_tls_certificate : string)
    : IO (result Endpoint anyhow) :=
  pem_res ← act (fs_read p_tls_certificate);
  match pem_res with
  | Ok pem =>
    match from_shared p_end_point with
    | Ok endpoint =>
      mret (map_err (fun e => anyhow_msg
              ("could not create grpc tls_config for endpoint " +:+ p_end_point +:+ " because: "
               +:+ transport_debug e +:+ ". trace : create_grpc_channel"))
             (tls_config pem p_domain_name endpoint))
    | Err e => mret (Err (anyhow_msg
        ("grpc endpoint uri " +:+ p_end_point +:+ " is invalid because: " +:+ uri_debug e
         +:+ ". trace: create_grpc_channel")))
    end
  | Err e => mret (Err (anyhow_msg
      ("could not load certificate for grpc client because: " +:+ io_debug e
       +:+ ". trace: create_grpc_channel")))
  end.

Definition create_tls_channel (p_tls_endpoint : Endpoint) : IO (result Channel anyhow) :=
  r ← obs (connect p_tls_endpoint) (Connect p_tls_endpoint);
  mret (map_err (fun e => anyhow_msg
          ("could not create channel for grpc on endpoint " +:+ endpoint_uri p_tls_endpoint
           +:+ " because: " +:+ transport_debug e +:+ ". trace: create_tls_channel")) r).

Definition create_channel (p_end_point : string) : IO (result Channel anyhow) :=
  match from_shared p_end_point with
  | Ok endpoint =>
    r ← obs (connect endpoint) (Connect endpoint);
    mret (map_err (fun e => anyhow_msg
            ("could not create channel for grpc client on endpoint " +:+ p_end_point
             +:+ " because: " +:+ transport_debug e +:+ ". trace: create_channel")) r)
  | Err e => mret (Err (anyhow_msg
      ("endpoint uri " +:+ p_end_point +:+ " is invalid because: " +:+ uri_debug e
       +:+ ". trace: create_channel")))
  end.
End grpc.

(** ** Serving *)

Section proofs.
Context `{!Errors} `{!Net} {Env : Type} `{!Transport Env} `{!TransportLaws Env}.

(** What is served is what was configured. *)
Definition configured (c : GrpcServerConfig) (b : Builder) : Prop :=
  b_nodelay b = tcp_no_delay c /\ b_keepalive b = tcp_keep_alive c /\
  b_interval b = http2_keepalive_interval c /\ b_timeout b = http2_keepalive_timeout c /\
  b_http1 b = accept_http1 c.

(** C37: TLS is never silently dropped: a server configured with TLS serves only
    with an identity, and without TLS only without one; the settings are the
    configuration's and the address the one it parses to; a TLS server with no
    certificate or key path returns an error and serves nothing; and nothing is
    served more than once. *)
Theorem grpc_serves_as_configured (c : GrpcServerConfig) (e : Env) :
  wp (run_server c)
     (fun r _ t => exists x, r = Ret x /\
        (t = [] /\ is_err x = true \/
         exists b a v, t = [Serve b a v] /\ is_ok x = is_ok v /\
           addr_from_str (address c +:+ ":" +:+ pretty (port c)) = Ok a /\
           configured c b /\ bool_decide (is_Some (b_identity b)) = tls c /\
           (tls c = true -> is_Some (tls_certificate_path c) /\ is_Some (tls_private_key_path c)))) e.
Proof.
  assert (forall b a e, wp (serve_with_shutdown b a)
            (fun r _ t => exists x v, r = Ret x /\ t = [Serve b a v] /\ is_ok x = is_ok v) e) as Hserve.
  { intros b a e0. apply wp_bind, wp_obs. intros v e1 _. apply wp_ret. do 2 eexists.
    split; [done|]. split; [done|]. by destruct v. }
  unfold run_server. apply wp_try, wp_ret.
  destruct (addr_from_str _) as [a|x] eqn:Ea; [|by eexists; split; [|left]].
  destruct (tls c) eqn:Htls.
  2:{ eapply wp_mono; [|apply Hserve]. intros r e1 t (x & v & -> & -> & Hx).
      exists x. split; [done|]. right. do 3 eexists. split_and!; try done. }
  apply wp_bind, wp_act. intros ce e1 Ece. destruct ce.
  2:{ apply wp_ret. eexists. split; [done|]. by left. }
  cbn [negb]. apply wp_bind, wp_act. intros ke e2 Eke. destruct ke.
  2:{ apply wp_ret. eexists. split; [done|]. by left. }
  assert (is_Some (tls_certificate_path c)) as Hc.
  { destruct (tls_certificate_path c); [done|]. pose proof (empty_path e) as Hf.
    cbn [default] in Ece. change (default "" None) with EmptyString in Ece. by rewrite Ece in Hf. }
  assert (is_Some (tls_private_key_path c)) as Hk.
  { destruct (tls_private_key_path c); [done|]. pose proof (empty_path e1) as Hf.
    change (default "" None) with EmptyString in Eke. by rewrite Eke in Hf. }
  cbn [negb]. apply wp_try, wp_act. intros [cert|x] e3 _; [|by eexists; split; [|left]].
  apply wp_try, wp_act. intros [key|x] e4 _; [|by eexists; split; [|left]].
  apply wp_try, wp_ret. destruct (builder_tls _ _) as [b|x] eqn:Eb; [|by eexists; split; [|left]].
  apply builder_tls_law in Eb. eapply wp_mono; [|apply Hserve].
  intros r e5 t (x & v & -> & -> & Hx). exists x. split; [done|]. right.
  exists b, a, v. subst b. by split_and!.
Qed.
End proofs.

(** ** Concrete runs *)
Module Runs.
Import Concrete.
#[export] Instance plain_transport {Env} : Transport Env := {|
  Endpoint := string; Channel := string; UriError := string; TransportError := string;
  uri_debug := id; transport_debug := id; anyhow_of_transport := id;
  from_shared := fun s => if bool_decide (s = EmptyString) then Err "empty"%string else Ok s;
  endpoint_uri := id;
  tls_config := fun _ _ ep => Ok ep;
  connect := fun ep e => (Ok ep, e);
  path_exists := fun p e => (bool_decide (p <> EmptyString), e);
  fs_read := fun _ e => (Ok [Byte.x41], e);
  builder_tls := fun i b =>
    Ok (mkBuilder (b_nodelay b) (b_keepalive b) (b_interval b) (b_timeout b) (b_http1 b) (Some i));
  serve := fun _ _ e => (Ok tt, e);
|}.
#[export] Instance plain_transport_laws {Env} : TransportLaws Env.
Proof. split; [by intros i b b' [= <-]|done]. Qed.

Definition tls_server : GrpcServerConfig := {|
  address := "0.0.0.0"; port := 7777; tls := true; tls_certificate_path := Some "crt"%string;
  tls_private_key_path := Some "key"%string; tcp_no_delay := true; tcp_keep_alive := None;
  http2_keepalive_interval := None; http2_keepalive_timeout := None; accept_http1 := false |}.

Lemma grpc_serves_as_configured_witness :
  exists b a v, snd (run_server (Env := unit) tls_server tt) = [Serve b a v] /\
    bool_decide (is_Some (b_identity b)) = true.
Proof.
  destruct (wp_outcome _ (fun r t => exists x, r = Ret x /\ (t = [] /\ _ \/ exists b a v, t = [Serve b a v] /\ _)) _
    (grpc_serves_as_configured (Env := unit) tls_server tt))
    as (x & Hx & [[Ht _]|(b & a & v & Ht & _ & _ & _ & Hb & _)]).
  - vm_compute in Ht. discriminate Ht.
  - exists b, a, v. split; [exact Ht|exact Hb].
Defined.
End Runs.
