(* ===== verification/Raft.v ===== *)
(** The Raft service ([wolf/src/system/algorithm/raft/raft_srv.rs]) and the
    network through which a node reaches the others
    ([wolf/src/system/algorithm/raft/raft_imp.rs]). *)
From stdpp Require Import pretty.
From S2P Require Import Prelude Common RaftConverter Grpc.
Local Open Scope Z_scope.
#[local] Set Default Goal Selector "!".

(** ** What the service relies on *)

(** The consensus node, as the library exposes it. *)
Class RaftNode `{!Errors} `{!Entries} (Env : Type) := {
  raft_error : Type;
  raft_debug : raft_error -> string;
  initialize : gset Z -> Env -> result unit raft_error * Env;
  append_entries : AppendEntriesRequest -> Env -> result raft.AppendEntriesResponse raft_error * Env;
  install_snapshot : raft.InstallSnapshotRequest -> Env -> result raft.InstallSnapshotResponse raft_error * Env;
  vote : raft.VoteRequest -> Env -> result raft.VoteResponse raft_error * Env;
  Metrics : Type;
  metrics : Env -> Metrics * Env;
  metrics_to_json : Metrics -> result string json_error;
}.

(** The RPC library: the unary calls of the Raft client over a channel, which
    may fail with a status; and name-based identifiers. *)
Class Rpc `{!Errors} `{!Net} (Env : Type) `{!Transport Env} := {
  Status : Type;
  status_debug : Status -> string;
  error_res_debug : RaftErrorRes -> string;
  call_append_entries : Channel -> RaftAppendEntriesReq -> Env ->
    result (RaftRes RaftAppendEntriesOkRes) Status * Env;
  call_install_snapshot : Channel -> RaftInstallSnapshotReq -> Env ->
    result (RaftRes RaftInstallSnapshotOkRes) Status * Env;
  call_vote : Channel -> RaftVoteReq -> Env -> result (RaftRes RaftVoteOkRes) Status * Env;
  uuid_v5_x500 : string -> string;
}.

(** ** The handlers of the service *)

Definition BASE_ERROR_CODE_RAFT : Z := 7000.
Definition error_code (c : ErrorCode) : Z := BASE_ERROR_CODE_RAFT + error_code_i32 c.

(** [for i in 0..n { members.insert(i) }]. *)
Fixpoint insert_members (n : nat) (i : Z) (members : gset Z) : gset Z :=
  match n with
  | O => members
  | S n => insert_members n (i + 1) ({[ i ]} ∪ members)
  end.

Section srv.
Context `{!Errors} `{!Entries} {Env St : Type} `{!RaftNode Env}.

(** A handler's answer: a response, or a status of type [St]. *)
Abbreviation Answer A := (Env -> result (RaftRes A) St * Env).

Definition srv_bootstrap (inner : RaftBootstrapReq) : Answer RaftBootstrapOkRes := fun e =>
  let members := insert_members (Z.to_nat (br_number_of_nodes inner)) 0 ∅ in
  let '(r, e) := initialize members e in
  (Ok (Some (match r with
             | Ok _ => OkRes (mkRaftBootstrapOkRes (br_msg_id inner))
             | Err x => ErrorRes (mkRaftErrorRes (br_msg_id inner) (error_code RaftBootstrapFailed)
                                    ("could not initialize raft node because " +:+ raft_debug x))
             end)), e).

Definition srv_append_entries (inner_req : RaftAppendEntriesReq) : Answer RaftAppendEntriesOkRes := fun e =>
  match grpc_append_entries_req_to_raft_append_entries_req inner_req with
  | Ok req =>
    let '(res, e) := append_entries req e in
    (Ok (Some (match res with
               | Ok app_res =>
                 OkRes (raft_append_entries_response_to_grpc_append_entries_ok_res
                          (ar_msg_id inner_req) app_res)
               | Err x =>
                 ErrorRes (mkRaftErrorRes (ar_msg_id inner_req) (error_code RaftAppendEntriesFailed)
                   ("could not get response from raft::append_entries because " +:+ raft_debug x))
               end)), e)
  | Err x =>
    (Ok (Some (ErrorRes (mkRaftErrorRes (ar_msg_id inner_req)
       (error_code RaftAppendEntriesJsonOfReqIsNotValid)
       ("could not deserialize append_entries request because " +:+ anyhow_debug x)))), e)
  end.

Definition srv_install_snapshot (inner_req : RaftInstallSnapshotReq) : Answer RaftInstallSnapshotOkRes := fun e =>
  let '(res, e) :=
    install_snapshot (grpc_install_snapshot_req_to_raft_install_snapshot_req inner_req) e in
  (Ok (Some (match res with
             | Ok r => OkRes (raft_install_snapshot_res_to_grpc_install_snapshot_ok_res
                                (sr_msg_id inner_req) r)
             | Err x =>
               ErrorRes (mkRaftErrorRes (sr_msg_id inner_req) (error_code RaftInstallSnapshotFailed)
                 ("could not get response from raft::install_snapshot because " +:+ raft_debug x))
             end)), e).

Definition srv_vote (inner_req : RaftVoteReq) : Answer RaftVoteOkRes := fun e =>
  let '(res, e) := vote (grpc_vote_req_to_raft_vote_req inner_req) e in
  (Ok (Some (match res with
             | Ok r => OkRes (raft_vote_res_to_grpc_vote_ok_res (vq_msg_id inner_req) r)
             | Err x =>
               ErrorRes (mkRaftErrorRes (vq_msg_id inner_req) (error_code RaftVoteFailed)
                 ("could not get response from raft::vote because " +:+ raft_debug x))
             end)), e).

Definition srv_get_metrics (inner_req : RaftGetMetricsReq) : Answer RaftGetMetricsOkRes := fun e =>
  let '(m, e) := metrics e in
  (Ok (Some (match metrics_to_json m with
             | Ok json => OkRes (mkRaftGetMetricsOkRes (mq_msg_id inner_req) json)
             | Err x =>
               ErrorRes (mkRaftErrorRes (mq_msg_id inner_req) (error_code RaftGetMetricsFailed)
                 ("could not get json response from raft::metrics because " +:+ json_debug x))
             end)), e).
End srv.

(** ** The router *)

Definition BASE_PORT : Z := 7777.

Section router.
Context `{!Errors} `{!Net} `{!Entries} {Env : Type} `{!Transport Env} `{!Rpc Env} (oc : overflow).
Abbreviation IO := (M Env (event Env)).

(** [format!("http://localhost:{}", BASE_PORT + p_target_node)]. *)
Definition node_uri (p_target_node : Z) : res string :=
  p ← arith_u oc 64 (BASE_PORT + p_target_node);
  mret ("http://localhost:" +:+ pretty p).

Definition bail {A} (s : string) : IO (result A anyhow) := mret (Err (anyhow_msg s)).

(** The answer to an RPC: the four ways it can be something else than [OkRes].
    [what] names the RPC, [back] converts a successful response. *)
Definition read_answer {A B} (what : string) (trace : string) (p_target_node : Z)
    (back : A -> B) (answer : result (RaftRes A) Status) : IO (result B anyhow) :=
  match answer with
  | Ok (Some (OkRes ok)) => mret (Ok (back ok))
  | Ok (Some (ErrorRes e)) =>
    bail (what +:+ " for node " +:+ pretty p_target_node +:+ " contains Error "
          +:+ error_res_debug e +:+ ". Trace: " +:+ trace)
  | Ok None =>
    bail ("inner message of " +:+ what +:+ " is None for node " +:+ pretty p_target_node
          +:+ ". Trace: " +:+ trace)
  | Err e =>
    bail (what +:+ " for node " +:+ pretty p_target_node +:+ " contains error status "
          +:+ status_debug e +:+ ". Trace: " +:+ trace)
  end.

Definition router_append_entries (p_target_node : Z) (p_rpc : AppendEntriesRequest)
    : IO (result raft.AppendEntriesResponse anyhow) :=
  let TRACE := "raft_imp:append_entries"%string in
  match raft_append_entries_req_to_grpc_append_entries_req (uuid_v5_x500 "wolf_raft_append_entries") p_rpc with
  | Ok raft_req =>
    uri ← lift (node_uri p_target_node);
    c ← create_channel uri;
    match c with
    | Ok c =>
      r ← act (call_append_entries c raft_req);
      read_answer "AppendEntriesResponse" TRACE p_target_node
        grpc_append_entries_ok_res_to_raft_append_entries_res r
    | Err e =>
      bail ("could not create a grpc channel while sending raft::AppendEntriesResponse for node "
            +:+ pretty p_target_node +:+ " because: " +:+ anyhow_debug e +:+ ". Trace: " +:+ TRACE)
    end
  | Err e => bail (anyhow_debug e +:+ ". trace: " +:+ TRACE)
  end.

Definition router_install_snapshot (p_target_node : Z) (p_rpc : raft.InstallSnapshotRequest)
    : IO (result raft.InstallSnapshotResponse anyhow) :=
  let TRACE := "raft_imp::install_snapshot"%string in
  uri ← lift (node_uri p_target_node);
  c ← create_channel uri;
  match c with
  | Ok c =>
    let msg_id := uuid_v5_x500 "wolf_raft_install_snapshot" in
    let rpc_req := raft_install_snapshot_req_to_grpc_install_snapshot_req msg_id p_rpc in
    r ← act (call_install_snapshot c rpc_req);
    read_answer "InstallSnapshotResponse" TRACE p_target_node
      grpc_install_snapshot_ok_res_to_raft_install_snapshot_res r
  | Err e =>
    bail ("could not create grpc channel on sending raft::InstallSnapshotResponse for node "
          +:+ pretty p_target_node +:+ " because: " +:+ anyhow_debug e +:+ ". Trace: " +:+ TRACE)
  end.

Definition router_vote (p_target_node : Z) (p_rpc : raft.VoteRequest)
    : IO (result raft.VoteResponse anyhow) :=
  let TRACE := "raft_imp::vote"%string in
  uri ← lift (node_uri p_target_node);
  c ← create_channel uri;
  match c with
  | Ok c =>
    let msg_id := uuid_v5_x500 "wolf_raft_vote" in
    let rpc_req := raft_vote_req_to_grpc_vote_req msg_id p_rpc in
    r ← act (call_vote c rpc_req);
    read_answer "VoteResponse" TRACE p_target_node grpc_vote_ok_res_to_raft_vote_res r
  | Err e =>
    bail ("could not create grpc channel on sending raft::VoteResponse for node "
          +:+ pretty p_target_node +:+ " because: " +:+ anyhow_debug e +:+ ". Trace: " +:+ TRACE)
  end.
End router.

(** ** Creating a node *)

(** The consensus library's constructors: a configuration is validated under
    the name of its cluster, and a node is made from its id, its configuration
    and a store in memory. *)
Class RaftLib := {
  Config : Type;
  ConfigError : Type;
  config_error_display : ConfigError -> string;
  config_validate : string -> result Config ConfigError;
  MemStore : Type;
  mem_store_new : Z -> MemStore;
  MemRaft : Type;
  raft_new : Z -> Config -> MemStore -> MemRaft;
}.

Section node.
Context `{!RaftLib}.

Definition new (p_cluster_name : string) (p_node_id : Z) : res MemRaft :=
  match config_validate p_cluster_name with
  | Ok config => Ret (raft_new p_node_id config (mem_store_new p_node_id))
  | Err e =>
    Panic ("failed to build Raft config for cluster:" +:+ p_cluster_name +:+ " and node id:"
           +:+ pretty p_node_id +:+ ". error: " +:+ config_error_display e)
  end.

Record Srv := mkSrv { raft_node : MemRaft }.

Definition Srv_default : res Srv := n ← new "wolf" 0; mret (mkSrv n).
Definition Srv_new (p_cluster_name : string) (p_node_id : Z) : res Srv :=
  n ← new p_cluster_name p_node_id; mret (mkSrv n).

(** The service is wrapped as the RPC server of [Srv]. *)
Definition get_service (p_cluster_name : string) (p_node_id : Z) : res Srv :=
  Srv_new p_cluster_name p_node_id.
End node.

(** ** The members of a cluster *)

Lemma insert_members_spec n i m k :
  k ∈ insert_members n i m <-> k ∈ m \/ (i <= k < i + Z.of_nat n).
Proof.
  revert i m. induction n as [|n IH]; intros i m; simpl.
  - split; [by left|]. intros [|?]; [done|lia].
  - rewrite IH, elem_of_union, elem_of_singleton. split.
    + intros [[->|?]|?]; [right; lia|by left|right; lia].
    + intros [?|?]; [by left; right|]. destruct (Z.eq_dec k i) as [->|]; [by left; left|right; lia].
Qed.

Lemma insert_members_size n i m :
  (forall k, k ∈ m -> k < i) ->
  base.size (insert_members n i m) = (n + base.size m)%nat.
Proof.
  revert i m. induction n as [|n IH]; intros i m Hm; simpl; [done|].
  rewrite IH.
  - rewrite size_union, size_singleton; [lia|]. intros k Hk%elem_of_singleton Hk'.
    specialize (Hm k Hk'). lia.
  - intros k [->%elem_of_singleton|Hk]%elem_of_union; [lia|]. specialize (Hm k Hk). lia.
Qed.

(** ** The service answers *)

Section proofs.
Context `{!Errors} `{!Net} `{!Entries} {Env : Type} `{!RaftNode Env} `{!Transport Env} `{!Rpc Env}.

(** The code and the message id of an answer. *)
Definition answered {A} (id_of : A -> string) (id : string) (codes : list ErrorCode)
    (answer : result (RaftRes A) Status) : Prop :=
  (exists ok, answer = Ok (Some (OkRes ok)) /\ id_of ok = id) \/
  (exists c msg, answer = Ok (Some (ErrorRes (mkRaftErrorRes id (error_code c) msg))) /\ c ∈ codes).

(** The service always answers: whatever the request and the state of the node,
    each of the five handlers returns a response, never a status and never an
    empty one; it echoes the message id of its request, and an error carries one
    of the codes of that request, offset by [BASE_ERROR_CODE_RAFT]. An append
    request that is not valid JSON does not reach the node. *)
Theorem raft_service_answers (e : Env) :
  (forall q, answered bo_msg_id (br_msg_id q) [RaftBootstrapFailed] (fst (srv_bootstrap q e))) /\
  (forall q, answered ao_msg_id (ar_msg_id q)
     [RaftAppendEntriesFailed; RaftAppendEntriesJsonOfReqIsNotValid] (fst (srv_append_entries q e)) /\
     (is_err (of_json (ar_req q)) = true -> snd (srv_append_entries (St := Status) q e) = e)) /\
  (forall q, answered so_msg_id (sr_msg_id q) [RaftInstallSnapshotFailed] (fst (srv_install_snapshot q e))) /\
  (forall q, answered vo_msg_id (vq_msg_id q) [RaftVoteFailed] (fst (srv_vote q e))) /\
  (forall q, answered mo_msg_id (mq_msg_id q) [RaftGetMetricsFailed] (fst (srv_get_metrics q e))).
Proof.
  split_and!; intros q.
  - unfold srv_bootstrap. destruct (initialize _ e) as [[u|x] e']; [left|right]; simpl.
    + by eexists.
    + do 2 eexists. split; [done|]. by left.
  - unfold srv_append_entries, grpc_append_entries_req_to_raft_append_entries_req.
    destruct (of_json (ar_req q)) as [r|x]; simpl.
    + split; [|done]. destruct (append_entries r e) as [[u|x] e']; [left|right]; simpl.
      * by eexists.
      * do 2 eexists. split; [done|]. by left.
    + split; [|done]. right. do 2 eexists. split; [done|]. by right; left.
  - unfold srv_install_snapshot. destruct (install_snapshot _ e) as [[u|x] e']; [left|right]; simpl.
    + by eexists.
    + do 2 eexists. split; [done|]. by left.
  - unfold srv_vote. destruct (vote _ e) as [[u|x] e']; [left|right]; simpl.
    + by eexists.
    + do 2 eexists. split; [done|]. by left.
  - unfold srv_get_metrics. destruct (metrics e) as [m e'].
    destruct (metrics_to_json m) as [j|x]; [left|right]; simpl.
    + by eexists.
    + do 2 eexists. split; [done|]. by left.
Qed.

(** The error codes on the wire are none of the codes the protocol declares:
    the field is typed [ErrorCode], whose values are 0 to 6, and the service
    sends 7001 to 7006. *)
Theorem raft_error_codes_undeclared c d : error_code c <> error_code_i32 d.
Proof. by destruct c, d. Qed.

(** A bootstrap request for [n] nodes initializes the node with exactly the
    members [0 .. n-1], [n] of them, and nothing else touches the node. *)
Theorem raft_bootstrap_members q (e : Env) :
  0 <= br_number_of_nodes q ->
  exists members, snd (srv_bootstrap (St := Status) q e) = snd (initialize members e) /\
    (forall k, k ∈ members <-> 0 <= k < br_number_of_nodes q) /\
    Z.of_nat (base.size members) = br_number_of_nodes q.
Proof.
  intros Hn. exists (insert_members (Z.to_nat (br_number_of_nodes q)) 0 ∅). split_and!.
  - unfold srv_bootstrap. by destruct (initialize _ e) as [r e'].
  - intros k. rewrite insert_members_spec. split; [|right; lia]. intros [?%elem_of_empty|?]; [done|lia].
  - rewrite insert_members_size by (by intros k ?%elem_of_empty). rewrite size_empty. lia.
Qed.

(** ** Routing *)

Lemma append_inj s a b : s +:+ a = s +:+ b -> a = b.
Proof.
  induction s as [|c s IH]; [done|]. change (String c (s +:+ a) = String c (s +:+ b) -> a = b).
  intros [= Heq]. by apply IH.
Qed.

(** Routing: the router panics or wraps on no node id that leaves room for the
    base port, gives different nodes different addresses, and overflows exactly
    on the last 7777 ids, where the debug profile panics and the release profile
    reuses the ports from 0 up. *)
Theorem raft_node_uri oc n :
  0 <= n <= u64_max ->
  (n <= u64_max - BASE_PORT ->
     node_uri oc n = Ret ("http://localhost:" +:+ pretty (BASE_PORT + n)) /\
     forall m, 0 <= m <= u64_max - BASE_PORT -> node_uri oc m = node_uri oc n -> m = n) /\
  (u64_max - BASE_PORT < n ->
     (exists why, node_uri Checked n = Panic why) /\
     node_uri Wrapping n = Ret ("http://localhost:" +:+ pretty (n - (u64_max - BASE_PORT) - 1))).
Proof.
  intros Hn. unfold BASE_PORT, u64_max in *.
  assert (forall m, 0 <= m <= 2 ^ 64 - 1 - 7777 ->
            node_uri oc m = Ret ("http://localhost:" +:+ pretty (7777 + m))) as Huri.
  { intros m Hm. unfold node_uri. rewrite arith_u_in by (unfold BASE_PORT; lia). done. }
  split.
  - intros Hle. split; [apply Huri; lia|]. intros m Hm. rewrite !Huri by lia.
    intros [= Heq]. apply append_inj in Heq. apply (inj pretty) in Heq. lia.
  - intros Hgt. unfold node_uri, arith_u, BASE_PORT.
    rewrite (proj2 (Z.ltb_ge (7777 + n) (2 ^ 64))) by lia. rewrite andb_false_r.
    split; [by eexists|]. cbn [mbind res_mbind res_bind].
    assert (wrap_u 64 (7777 + n) = n - (2 ^ 64 - 1 - 7777) - 1) as ->; [|done].
    unfold wrap_u. rewrite <-(Z_mod_plus_full _ (-1)), Z.mod_small by lia. lia.
Qed.

(** ** A router over a faithful network *)

(** The network takes the calls to node [n] to that node's service: the address
    is a valid endpoint, the connection succeeds, and a call over its channel is
    the handler run where the node is. *)
Record delivers (oc : overflow) (n : Z) (ep : Endpoint) (c : Channel) : Prop := {
  delivers_uri : exists uri, node_uri oc n = Ret uri /\ from_shared uri = Ok ep;
  delivers_connect e : fst (connect ep e) = Ok c;
  delivers_append q e : call_append_entries c q e = srv_append_entries q e;
  delivers_snapshot q e : call_install_snapshot c q e = srv_install_snapshot q e;
  delivers_vote q e : call_vote c q e = srv_vote q e;
}.

(** The RPC seen by the caller: the node's own answer, an error otherwise. *)
Definition transparent {A} (run : M Env (event Env) (result A anyhow)) (ep : Endpoint) (c : Channel)
    (local : Env -> result A raft_error * Env) (e : Env) : Prop :=
  exists x, run e = (Ret x, snd (local (snd (connect ep e))), [Connect ep (Ok c)]) /\
    (forall a, x = Ok a <-> fst (local (snd (connect ep e))) = Ok a).

Lemma router_connect {A} oc n ep c (k : Channel -> M Env (event Env) (result A anyhow))
    (bad : anyhow -> M Env (event Env) (result A anyhow)) e :
  delivers oc n ep c ->
  (uri ← lift (node_uri oc n); r ← create_channel uri;
   match r with Ok c => k c | Err x => bad x end) e =
  (let '(r, e2, t) := k c (snd (connect ep e)) in (r, e2, Connect ep (Ok c) :: t)).
Proof.
  intros Hd. destruct (delivers_uri _ _ _ _ Hd) as (uri & -> & Hep).
  pose proof (delivers_connect _ _ _ _ Hd e) as Hc.
  unfold mbind, M_mbind, M_bind, lift, create_channel. rewrite Hep. unfold mbind, M_mbind, M_bind, obs.
  destruct (connect ep e) as [r e1]. simpl in Hc. subst r. simpl.
  by destruct (k c e1) as [[r e2] t].
Qed.

(** C10: the RPCs are transparent: over a network that takes the calls for a node to
    its service, calling a node through the router does to it exactly what the
    call would do locally, and returns exactly the response it gives; an error of
    the node comes back as an error. This holds of append-entries (for entries
    that serialize), install-snapshot and vote. *)
Theorem raft_rpc_transparent `{!EntriesLaws} oc n ep c (e : Env) :
  delivers oc n ep c ->
  (forall r s, to_json r = Ok s ->
     transparent (router_append_entries oc n r) ep c (append_entries r) e) /\
  (forall r, transparent (router_install_snapshot oc n r) ep c (install_snapshot r) e) /\
  (forall r, transparent (router_vote oc n r) ep c (vote r) e).
Proof.
  intros Hd. split_and!.
  - intros r s Hs. unfold transparent, router_append_entries.
    unfold raft_append_entries_req_to_grpc_append_entries_req. rewrite Hs. cbn [result_map map_err].
    rewrite (router_connect _ _ _ _ _ _ _ Hd).
    unfold mbind, M_mbind, M_bind, act. rewrite (delivers_append _ _ _ _ Hd).
    unfold srv_append_entries, grpc_append_entries_req_to_raft_append_entries_req. cbn [ar_req ar_msg_id].
    rewrite (json_round_trip _ _ Hs).
    destruct (append_entries r (snd (connect ep e))) as [[a|x] e2]; simpl; eexists; split; try done.
    rewrite append_res_round_trip. split; congruence.
  - intros r. unfold transparent, router_install_snapshot. rewrite (router_connect _ _ _ _ _ _ _ Hd).
    unfold mbind, M_mbind, M_bind, act. rewrite (delivers_snapshot _ _ _ _ Hd).
    unfold srv_install_snapshot. rewrite snapshot_req_round_trip.
    destruct (install_snapshot r (snd (connect ep e))) as [[a|x] e2]; simpl; eexists; split; try done.
    cbn [sr_msg_id]. rewrite snapshot_res_round_trip. split; congruence.
  - intros r. unfold transparent, router_vote. rewrite (router_connect _ _ _ _ _ _ _ Hd).
    unfold mbind, M_mbind, M_bind, act. rewrite (delivers_vote _ _ _ _ Hd).
    unfold srv_vote. rewrite vote_req_round_trip.
    destruct (vote r (snd (connect ep e))) as [[a|x] e2]; simpl; eexists; split; try done.
    rewrite vote_res_round_trip. split; congruence.
Qed.
End proofs.

(** ** A run: one node behind a network that delivers *)
Module Runs.
Import Concrete RaftConverter.Runs Grpc.Runs.

(** The members the node knows, and the term it last voted in. *)
Definition node : Type := gset Z * Z.

#[export] Instance voter : RaftNode node := {|
  raft_error := string; raft_debug := id;
  initialize := fun members e =>
    if bool_decide (fst e = ∅) then (Ok tt, (members, e.2)) else (Err "not allowed"%string, e);
  append_entries := fun _ e => (Ok (raft.mkAppendEntriesResponse (e.2) true None), e);
  install_snapshot := fun q e => (Ok (raft.mkInstallSnapshotResponse (raft.is_term q)), e);
  vote := fun q e =>
    if (snd e <? raft.v_term q) then (Ok (raft.mkVoteResponse (raft.v_term q) true), (e.1, raft.v_term q))
    else (Ok (raft.mkVoteResponse (e.2) false), e);
  Metrics := Z;
  metrics := fun e => (e.2, e);
  metrics_to_json := fun t => Ok (pretty t);
|}.
#[export] Instance delivering : Rpc node := {|
  Status := string; status_debug := id; error_res_debug := er_msg;
  call_append_entries := fun _ => srv_append_entries;
  call_install_snapshot := fun _ => srv_install_snapshot;
  call_vote := fun _ => srv_vote;
  uuid_v5_x500 := id;
|}.

Definition blank : node := (∅, 0).

Lemma raft_bootstrap_members_witness :
  exists members, (snd (srv_bootstrap (St := string) (mkRaftBootstrapReq "id" 3) blank) = (members, 0)) /\
    2 ∈ members /\ (3 ∉ members) /\ base.size members = 3%nat.
Proof.
  destruct (raft_bootstrap_members (Env := node) (mkRaftBootstrapReq "id" 3) blank)
    as (members & Hrun & Hin & Hsize); [by vm_compute|].
  exists members. split_and!.
  - exact Hrun.
  - apply Hin. split; [done|reflexivity].
  - intros ?%Hin. cbn in *. lia.
  - cbn in Hsize. lia.
Defined.

Lemma raft_node_uri_witness :
  node_uri Checked 3 = Ret "http://localhost:7780"%string /\
  node_uri Wrapping u64_max = Ret "http://localhost:7776"%string.
Proof.
  split.
  - destruct (raft_node_uri Checked 3) as [H3 _]; [unfold u64_max; lia|].
    apply H3. unfold u64_max, BASE_PORT. lia.
  - destruct (raft_node_uri Checked u64_max) as [_ Hm]; [unfold u64_max; lia|].
    apply Hm. unfold u64_max, BASE_PORT. lia.
Defined.

Lemma delivering_delivers n :
  0 <= n <= u64_max - BASE_PORT ->
  delivers (Env := node) Checked n ("http://localhost:" +:+ pretty (BASE_PORT + n)) ("http://localhost:" +:+ pretty (BASE_PORT + n)).
Proof.
  intros Hn. split; try done. eexists. split.
  - unfold node_uri. rewrite arith_u_in; [done|]. unfold BASE_PORT, u64_max in *. lia.
  - cbn [from_shared plain_transport]. by rewrite bool_decide_eq_false_2.
Qed.

Lemma raft_rpc_transparent_witness :
  exists x t, router_vote (Env := node) Checked 3 (raft.mkVoteRequest 5 1 0 0) blank = (Ret x, (∅, 5), t) /\
    x = Ok (raft.mkVoteResponse 5 true).
Proof.
  destruct (proj2 (proj2 (raft_rpc_transparent (Env := node) Checked 3 _ _ blank
      (delivering_delivers 3 ltac:(unfold u64_max, BASE_PORT; lia))))
    (raft.mkVoteRequest 5 1 0 0)) as (x & Hx & Hok).
  exists x. eexists. split; [exact Hx|]. apply Hok. reflexivity.
Defined.
End Runs.
