(* ===== verification/Build.v ===== *)
(** The build script ([wolf/build.rs]): the CMake build of the native library,
    the instructions it gives rustc and cargo to link it, and the bindings it
    generates. What the script asks of the machine (variables, commands, files,
    bindgen, tonic) is the environment. *)
From Stdlib Require Import Ascii.
From stdpp Require Import pretty.
From S2P Require Import Prelude F64 Common.
Local Open Scope string_scope.
#[local] Set Default Goal Selector "!".

(** ** The machine

    The systems the script is compiled on, and the features it is compiled with. *)
Inductive os := Windows | Macos | Ios | Linux.
#[export] Instance os_eq_dec : EqDecision os.
Proof. solve_decision. Defined.

Record features := mkFeatures {
  system_raft : bool;
  system_lz4 : bool;
  stream_rist : bool;
  ffmpeg : bool;
  media_av1 : bool;
}.

(** [std::env::VarError], with the text of the variable when it is not unicode. *)
Inductive VarError := NotPresent | NotUnicode (debug : string).
Definition var_error_debug (e : VarError) : string :=
  match e with NotPresent => "NotPresent" | NotUnicode d => "NotUnicode(" +:+ d +:+ ")" end.

(** [std::process::Output]. *)
Record Output := mkOutput { success : bool; stdout : list u8; stderr : list u8 }.

Class Machine `{!Errors} (Env : Type) := {
  current_dir : Env -> result string io_error * Env;
  env_var : string -> Env -> result string VarError * Env;
  set_var : string -> string -> Env -> Env;
  path_exists : string -> Env -> bool * Env;
  output : string -> string -> list string -> Env -> result Output io_error * Env;
  copy : string -> string -> Env -> result Z io_error * Env;
  compile_protos : list string -> list string -> bool -> bool -> Env -> result unit io_error * Env;
  Bindings : Type;
  BindgenError : Type;
  bindgen_debug : BindgenError -> string;
  generate : string -> list string -> Env -> result Bindings BindgenError * Env;
  write_to_file : Bindings -> string -> Env -> result unit io_error * Env;
  (** [{:?}] of [std::str::from_utf8] of some output. *)
  utf8_debug : list u8 -> string;
}.

Inductive event `{!Errors} `{!Machine Env} : Type :=
| CurrentDir (r : result string io_error)
| Var (name : string) (r : result string VarError)
| SetVar (name value : string)
| Protos (paths includes : list string) (client server : bool) (r : result unit io_error)
| Exists_ (path : string) (b : bool)
| Command (prog dir : string) (args : list string) (r : result Output io_error)
| Println (line : string)
| Copy (from to : string) (r : result Z io_error)
| Generate (header : string) (args : list string) (r : result Bindings BindgenError)
| WriteFile (path : string) (r : result unit io_error).
Arguments event {_} Env {_}.

(** ** Paths

    [Path::join]: the component replaces an absolute one, and follows a relative
    one after a separator. [Path::to_str] gives the text of a path that is
    unicode. *)
Definition ends_with_separator (host : os) (p : string) : bool :=
  match last (String.list_ascii_of_string p) with
  | Some c => bool_decide (c = "/"%char) || (bool_decide (host = Windows) && bool_decide (c = "\"%char))
  | None => true
  end.
Definition is_absolute (host : os) (p : string) : bool :=
  match p with
  | String c p' =>
    bool_decide (c = "/"%char) ||
    (bool_decide (host = Windows) &&
      (bool_decide (c = "\"%char) || match p' with String d _ => bool_decide (d = ":"%char) | _ => false end))
  | EmptyString => false
  end.
Definition separator (host : os) : string := match host with Windows => "\" | _ => "/" end.
Definition join (host : os) (p q : string) : string :=
  if is_absolute host q then q
  else if ends_with_separator host p then p +:+ q
  else p +:+ separator host +:+ q.

Definition to_str (p : string) : option string :=
  let bytes := String.list_byte_of_string p in
  if utf8_valid (S (length bytes)) bytes then Some p else None.

(** ** Constants *)
Definition OSX_DEPLOYMENT_TARGET : string := "12.0".
Definition ANDROID_API_LEVEL : Z := 21.
Definition ANDROID_ARCH_API : string := "armeabi-v7a".
Definition CMAKE_C_COMPILER (host : os) : string :=
  match host with
  | Windows => "C:/Program Files/Microsoft Visual Studio/2022/Community/VC/Tools/MSVC/14.32.31326/bin/Hostx64/x64/cl.exe"
  | Macos | Ios => "/Library/Developer/CommandLineTools/usr/bin/clang"
  | Linux => "/usr/bin/clang"
  end.

(** The CMake profile of an optimisation level and a cargo profile. *)
Definition build_profile (opt_level profile : string) : string :=
  if bool_decide (opt_level = "0") then "Debug"
  else if bool_decide (opt_level ∈ ["1"; "2"; "3"]) then
    if bool_decide (profile = "debug") then "RelWithDebInfo" else "Release"
  else if bool_decide (opt_level ∈ ["s"; "z"]) then "MinSizeRel"
  else if bool_decide (profile = "debug") then "Debug" else "Release".

(** ** The script *)
Section script.
Context `{!Errors} {Env : Type} `{!Machine Env} (host : os) (cfg : features).
Abbreviation IO := (M Env (event Env)).

Definition crlf : string := String (ascii_of_nat 13) (String (ascii_of_nat 10) EmptyString).

(** [expect] on a [Result] and on an [Option], and [println!]. *)
Definition expect {T E} (msg : string) (debug : E -> string) (r : result T E) : IO T :=
  match r with Ok t => mret t | Err e => panic (msg +:+ ": " +:+ debug e) end.
Definition expect_some {T} (msg : string) (o : option T) : IO T :=
  match o with Some t => mret t | None => panic msg end.
Definition println (line : string) : IO unit := emit (Println line).
Definition read_var (name : string) : IO (result string VarError) := obs (env_var name) (Var name).

(** [protos], and [build_protos] which panics where it fails. *)
Definition protos (p_proto_paths p_proto_includes : list string) (p_build_client p_build_server : bool)
    : IO (result unit io_error) :=
  obs (compile_protos p_proto_paths p_proto_includes p_build_client p_build_server)
    (Protos p_proto_paths p_proto_includes p_build_client p_build_server).

Definition build_protos (p_current_dir_path p_target_os : string) : IO unit :=
  let build_server_proto :=
    negb (bool_decide (p_target_os = "android") || bool_decide (p_target_os = "ios")) in
  let build_client_proto := true in
  let proto_path_include := join host p_current_dir_path "proto" in
  proto_path_include_src ← expect_some "could not convert include proto path to &str" (to_str proto_path_include);
  let proto_path := join host proto_path_include "raft.proto" in
  proto_path_str ← expect_some "could not convert source proto path to &str" (to_str proto_path);
  r ← protos [proto_path_str] [proto_path_include_src] build_client_proto build_server_proto;
  expect "couldn't read the protos directory" io_debug r.

(** The text of the assertions on a command's status. *)
Definition failed_status (what : string) (out : Output) : string :=
  what +:+ crlf +:+ "stdout:" +:+ utf8_debug (stdout out) +:+ crlf
       +:+ "stderr:" +:+ utf8_debug (stderr out).
Definition assert_success (what : string) (out : Output) : IO unit :=
  if success out then mret tt else panic (failed_status what out).

(** Where [cmake] expects the library of a finished build. *)
Definition wolf_sys_path (cmake_build_path p_build_profile p_target_os : string) : string :=
  if bool_decide (p_target_os = "windows") then
    join host (join host cmake_build_path p_build_profile) "wolf_sys.dll"
  else if bool_decide (p_target_os = "macos") || bool_decide (p_target_os = "ios") then
    join host cmake_build_path "libwolf_sys.dylib"
  else join host cmake_build_path "libwolf_sys.so".

Definition cmake_args (cmake_build_path_str cmake_current_path_str p_build_profile : string) : list string :=
  ([".";
   "--no-warn-unused-cli";
   "-Wdev";
   "--debug-output";
   "-DCMAKE_EXPORT_COMPILE_COMMANDS:BOOL=TRUE";
   "-DCMAKE_C_COMPILER=" +:+ CMAKE_C_COMPILER host;
   "-DCMAKE_BUILD_TYPE:STRING=" +:+ p_build_profile;
   "-B" +:+ cmake_build_path_str;
   "-S" +:+ cmake_current_path_str;
   (if bool_decide (host = Windows) then "" else "-GNinja")] ++
  ["-DWOLF_ENABLE_TESTS=OFF"] ++
  (if system_lz4 cfg then ["-DWOLF_SYSTEM_LZ4=ON"] else []) ++
  (if stream_rist cfg then ["-DWOLF_STREAM_RIST=ON"] else []) ++
  (if ffmpeg cfg then ["-DWOLF_MEDIA_FFMPEG=ON"] else []))%list.

Definition android_args (android_ndk_home_env : string) : list string :=
  ["-DCMAKE_TOOLCHAIN_FILE=" +:+ android_ndk_home_env +:+ "/build/cmake/android.toolchain.cmake";
   "-DANDROID_ABI=" +:+ ANDROID_ARCH_API;
   "-DANDROID_NDK=" +:+ android_ndk_home_env;
   "-DANDROID_PLATFORM=android-" +:+ pretty ANDROID_API_LEVEL;
   "-DCMAKE_ANDROID_ARCH_ABI=" +:+ ANDROID_ARCH_API;
   "-DCMAKE_ANDROID_NDK=" +:+ android_ndk_home_env;
   "-DCMAKE_EXPORT_COMPILE_COMMANDS=ON";
   "-DCMAKE_SYSTEM_NAME=Android";
   "-DCMAKE_SYSTEM_VERSION=" +:+ pretty ANDROID_API_LEVEL].

Definition run (prog dir : string) (args : list string) : IO (result Output io_error) :=
  obs (output prog dir args) (Command prog dir args).

Definition cmake (p_current_dir_path p_build_profile p_target_os : string) : IO unit :=
  let cmake_current_path := join host p_current_dir_path "sys/" in
  cmake_current_path_str ← expect_some "could not convert cmake current path to &str" (to_str cmake_current_path);
  let install_folder := "build/" +:+ p_build_profile in
  let cmake_build_path := join host cmake_current_path install_folder in
  cmake_build_path_str ← expect_some "could not convert cmake build path to &str" (to_str cmake_build_path);
  let lib := wolf_sys_path cmake_build_path p_build_profile p_target_os in
  found ← obs (path_exists lib) (Exists_ lib);
  if found : bool then mret tt
  else
    let args := cmake_args cmake_build_path_str cmake_current_path_str p_build_profile in
    args ←
      (if bool_decide (p_target_os = "android") then
         r ← read_var "ANDROID_NDK_HOME";
         android_ndk_home_env ← expect "could not get ANDROID_NDK_HOME" var_error_debug r;
         mret (args ++ android_args android_ndk_home_env)%list
       else mret args);
    r ← run "cmake" cmake_current_path args;
    out ← expect "could not configure cmake of wolf/sys" io_debug r;
    _ ← assert_success "CMake project was not configured successfully" out;
    r ← (if bool_decide (host = Windows) then
           run "cmake" cmake_build_path ["--build"; "."; "--parallel 8"]
         else run "ninja" cmake_build_path []);
    out ← expect "could not build cmake of wolf/sys" io_debug r;
    assert_success ("CMake Build failed for " +:+ cmake_current_path_str +:+ "CMakeLists.txt") out.

(** Copies that fail are ignored. *)
Fixpoint copy_each (p_lib_path : string) (names : list string) (deps_path out_path : string) : IO unit :=
  match names with
  | [] => mret tt
  | name :: names =>
    let file := p_lib_path +:+ "/" +:+ name in
    let to_deps := join host deps_path name in
    let to_out := join host out_path name in
    _ ← obs (copy file to_deps) (Copy file to_deps);
    _ ← obs (copy file to_out) (Copy file to_out);
    copy_each p_lib_path names deps_path out_path
  end.

Definition copy_shared_libs (p_lib_path : string) (p_lib_names : list string) : IO unit :=
  r ← read_var "OUT_DIR";
  out_dir ← expect "called `Result::unwrap()` on an `Err` value" var_error_debug r;
  let out_path := join host out_dir "../../.." in
  let deps_path := join host out_path "deps" in
  copy_each p_lib_path p_lib_names deps_path out_path.

(** A directory of third-party libraries: searched, and its files copied. *)
Definition search_and_copy (path : string) (names : list string) : IO unit :=
  _ ← println ("cargo:rustc-link-search=native=" +:+ path);
  copy_shared_libs path names.

Definition copy_ffmpeg (p_current_dir_path_str p_target_os : string) : IO unit :=
  _ ← search_and_copy (p_current_dir_path_str +:+ "/sys/third_party/FFMPEG/bin")
        ["avcodec-59.dll"; "avdevice-59.dll"; "avfilter-8.dll"; "avformat-59.dll"; "avutil-57.dll";
         "swresample-4.dll"; "swscale-6.dll"];
  search_and_copy (p_current_dir_path_str +:+ "/sys/third_party/FFMPEG/lib/" +:+ p_target_os)
    ["avcodec.lib"; "avdevice.lib"; "avfilter.lib"; "avformat.lib"; "avutil.lib"; "swresample.lib";
     "swscale.lib"].

Definition copy_dav1d (p_current_dir_path_str p_build_profile : string) : IO unit :=
  _ ← search_and_copy (p_current_dir_path_str +:+ "/sys/third_party/DAV1D/lib/" +:+ p_build_profile)
        ["dav1d.lib"];
  search_and_copy (p_current_dir_path_str +:+ "/sys/third_party/DAV1D/bin/" +:+ p_build_profile)
    ["dav1d.dll"].

Definition copy_svt (p_current_dir_path_str p_build_profile : string) : IO unit :=
  _ ← search_and_copy (p_current_dir_path_str +:+ "/sys/third_party/SVT-AV1/lib/" +:+ p_build_profile)
        ["SvtAv1Dec.lib"; "SvtAv1Enc.lib"];
  search_and_copy (p_current_dir_path_str +:+ "/sys/third_party/SVT-AV1/bin/" +:+ p_build_profile)
    ["SvtAv1Dec.dll"; "SvtAv1Enc.dll"].

Definition when (b : bool) (m : IO unit) : IO unit := if b then m else mret tt.

(** Where [link] tells rustc to look, and the files it copies from there. *)
Definition link_lib_path (p_current_dir_path_str p_build_profile p_target_os : string) : string :=
  let sys_build_dir := p_current_dir_path_str +:+ "/sys/build/" +:+ p_build_profile in
  if bool_decide (p_target_os = "windows") then sys_build_dir +:+ "/" +:+ p_build_profile
  else sys_build_dir.
Definition lib_names (p_target_os : string) : list string :=
  if bool_decide (p_target_os = "windows") then ["wolf_sys.dll"; "wolf_sys.exp"; "wolf_sys.lib"; "wolf_sys.pdb"]
  else if bool_decide (p_target_os = "macos") || bool_decide (p_target_os = "ios") then ["libwolf_sys.dylib"]
  else ["libwolf_sys.so"].

Definition link (p_current_dir_path_str p_build_profile p_target_os : string) : IO unit :=
  _ ← when (bool_decide (p_target_os = "windows"))
        (_ ← println (if bool_decide (p_build_profile = "Debug") then "cargo:rustc-link-lib=msvcrtd"
                      else "cargo:rustc-link-lib=msvcrt");
         _ ← println "cargo:rustc-link-lib=dylib=Shell32";
         _ ← println "cargo:rustc-link-lib=dylib=Rpcrt4";
         println "cargo:rustc-link-lib=dylib=Mswsock");
  _ ← when (bool_decide (host = Macos) || bool_decide (host = Ios))
        (_ ← println "cargo:rustc-link-search=native=/usr/lib";
         println "cargo:rustc-link-lib=dylib=c++");
  let lib_path := link_lib_path p_current_dir_path_str p_build_profile p_target_os in
  _ ← println ("cargo:rustc-link-search=native=" +:+ lib_path);
  _ ← println "cargo:rustc-link-lib=dylib=wolf_sys";
  let names := lib_names p_target_os in
  _ ← copy_shared_libs lib_path names;
  _ ← when (bool_decide (host = Linux)) (copy_shared_libs "/usr/lib" names);
  _ ← when (ffmpeg cfg) (copy_ffmpeg p_current_dir_path_str p_target_os);
  _ ← when (media_av1 cfg) (copy_dav1d p_current_dir_path_str p_build_profile);
  when (media_av1 cfg) (copy_svt p_current_dir_path_str p_build_profile).

Record Binding := mkBinding { src : string; dst : string }.

Definition headers : list Binding :=
  ([mkBinding "sys/wolf/version.h" "src/system/ffi/version.rs"] ++
  (if system_lz4 cfg then [mkBinding "sys/system/lz4.h" "src/system/ffi/lz4.rs"] else []) ++
  (if stream_rist cfg then [mkBinding "sys/stream/rist.h" "src/stream/ffi/rist.rs"] else []) ++
  (if ffmpeg cfg then [mkBinding "sys/media/ffmpeg.h" "src/media/ffi/ffmpeg.rs"] else []))%list.

Definition clang_args (p_current_dir_path_str : string) : list string :=
  ["-I" +:+ p_current_dir_path_str +:+ "/sys";
   "-I" +:+ p_current_dir_path_str +:+ "/sys/wolf";
   "-I" +:+ p_current_dir_path_str +:+ "/sys/media"].

(** The iteration of [bindgens] for one header. *)
Definition bindgen_header (p_current_dir_path_str : string) (header : Binding) : IO unit :=
  _ ← println ("cargo:rerun-if-changed=sys/" +:+ src header);
  r ← obs (generate (src header) (clang_args p_current_dir_path_str))
        (Generate (src header) (clang_args p_current_dir_path_str));
  match r with
  | Err e => panic ("couldn't create bindings for header " +:+ src header +:+ " because " +:+ bindgen_debug e)
  | Ok bindings =>
    let out_path := join host p_current_dir_path_str (dst header) in
    w ← obs (write_to_file bindings out_path) (WriteFile out_path);
    match w with
    | Err e => panic ("couldn't write bindings for " +:+ src header +:+ " because " +:+ io_debug e)
    | Ok _ => mret tt
    end
  end.

Fixpoint bindgen_each (p_current_dir_path_str : string) (hs : list Binding) : IO unit :=
  match hs with
  | [] => mret tt
  | h :: hs => _ ← bindgen_header p_current_dir_path_str h; bindgen_each p_current_dir_path_str hs
  end.
Definition bindgens (p_current_dir_path_str : string) : IO unit :=
  bindgen_each p_current_dir_path_str headers.

Definition main : IO unit :=
  r ← obs current_dir CurrentDir;
  current_dir_path ← expect "could not get current directory" io_debug r;
  current_dir_path_str ← expect_some "could not convert current dir path to &str" (to_str current_dir_path);
  r ← read_var "CARGO_CFG_TARGET_ARCH";
  target_arch ← expect "Build failed: could not get target arch" var_error_debug r;
  r ← read_var "CARGO_CFG_TARGET_OS";
  target_os ← expect "Build failed: could not get target OS" var_error_debug r;
  _ ← when (bool_decide (target_os = "macos"))
        (obs (fun e => (tt, set_var "MACOSX_DEPLOYMENT_TARGET" OSX_DEPLOYMENT_TARGET e))
           (fun _ => SetVar "MACOSX_DEPLOYMENT_TARGET" OSX_DEPLOYMENT_TARGET));
  _ ← when (system_raft cfg) (build_protos current_dir_path target_os);
  if bool_decide (target_arch = "wasm32") then mret tt
  else
    r ← read_var "OPT_LEVEL";
    opt_level_str ← expect "could not get OPT_LEVEL profile" var_error_debug r;
    r ← read_var "PROFILE";
    profile_str ← expect "could not get PROFILE" var_error_debug r;
    let build_profile := build_profile opt_level_str profile_str in
    _ ← cmake current_dir_path build_profile target_os;
    _ ← link current_dir_path_str build_profile target_os;
    bindgens current_dir_path_str.
End script.

(** ** Paths up to their separators

    Two paths name the same file when they have the same components. *)
Definition is_separator (host : os) (c : ascii) : bool :=
  bool_decide (c = "/"%char) || (bool_decide (host = Windows) && bool_decide (c = "\"%char)).
Fixpoint split_on (f : ascii -> bool) (l : list ascii) : list (list ascii) :=
  match l with
  | [] => [[]]
  | c :: l =>
    if f c then [] :: split_on f l
    else match split_on f l with [] => [[c]] | w :: ws => (c :: w) :: ws end
  end.
Definition nonempty (w : list ascii) : bool := match w with [] => false | _ => true end.
Definition comps (host : os) (l : list ascii) : list (list ascii) :=
  List.filter nonempty (split_on (is_separator host) l).
Definition components (host : os) (p : string) : list (list ascii) :=
  comps host (String.list_ascii_of_string p).

Lemma list_ascii_app p q :
  String.list_ascii_of_string (p +:+ q) = (String.list_ascii_of_string p ++ String.list_ascii_of_string q)%list.
Proof. induction p as [|c p IH]; [done|]. change (String c p +:+ q) with (String c (p +:+ q)).
  cbn [String.list_ascii_of_string app]. by rewrite IH. Qed.

Lemma split_on_app f a c b :
  f c = true -> split_on f (a ++ c :: b)%list = (split_on f a ++ split_on f b)%list.
Proof.
  intros Hc. induction a as [|x a IH]; cbn; [by rewrite Hc|].
  rewrite IH. destruct (f x); [done|]. destruct (split_on f a) eqn:E; [|done].
  exfalso. destruct a as [|y a]; cbn in E; [done|]. destruct (f y); [done|]. by destruct (split_on f a).
Qed.

Section components.
Context (host : os).

Lemma comp_app a c b :
  is_separator host c = true -> comps host (a ++ c :: b)%list = (comps host a ++ comps host b)%list.
Proof. intros Hc. unfold comps. by rewrite split_on_app, List.filter_app. Qed.

Lemma components_slash p q : components host (p +:+ "/" +:+ q) = (components host p ++ components host q)%list.
Proof. unfold components. rewrite !list_ascii_app. by apply comp_app. Qed.

(** Joining a relative path adds its components. *)
Lemma components_join p q :
  is_absolute host q = false -> components host (join host p q) = (components host p ++ components host q)%list.
Proof.
  intros Hq. unfold join. rewrite Hq. unfold ends_with_separator, components.
  destruct (last (String.list_ascii_of_string p)) as [c|] eqn:Hlast.
  - destruct (_ || _) eqn:Hc.
    + apply last_Some in Hlast as [l Hl]. rewrite list_ascii_app, Hl, <-(assoc_L app).
      cbn [app]. rewrite !(comp_app l c) by exact Hc. by rewrite app_nil_r.
    + assert (exists d, separator host = String d EmptyString /\ is_separator host d = true) as (d & -> & Hd)
        by (destruct host; by eexists).
      rewrite !list_ascii_app. by apply comp_app.
  - apply last_None in Hlast. rewrite list_ascii_app, Hlast. done.
Qed.
End components.

(** The script's own path components are relative on every host. *)
Lemma profile_relative host opt_level profile :
  is_absolute host (build_profile opt_level profile) = false /\
  is_absolute host ("build/" +:+ build_profile opt_level profile) = false.
Proof. unfold build_profile. repeat case_bool_decide; by destruct host. Qed.

(** C36: the script looks for the library in one place: for every host, target and
    profile, the file whose existence makes [cmake] skip the build is the first of
    the library's files in the directory [link] tells rustc to search and copies
    from (the two paths may differ in their separators only). So a build is
    skipped for a file that is where rustc looks; where CMake puts the library of a
    build that is run is not part of the script. *)
Theorem link_finds_library host cur opt_level profile target_os :
  let build_profile := build_profile opt_level profile in
  let cmake_build_path := join host (join host cur "sys/") ("build/" +:+ build_profile) in
  exists name, head (lib_names target_os) = Some name /\
    components host (wolf_sys_path host cmake_build_path build_profile target_os) =
    components host (link_lib_path cur build_profile target_os +:+ "/" +:+ name).
Proof.
  intros bp path. destruct (profile_relative host opt_level profile) as [Hrel Hrel2]. fold bp in Hrel, Hrel2.
  assert (components host path = components host (cur +:+ "/sys/build/" +:+ bp)) as Hpath.
  { unfold path. rewrite !components_join; [|by destruct host|done].
    change (cur +:+ "/sys/build/" +:+ bp) with (cur +:+ "/" +:+ ("sys/build/" +:+ bp)).
    rewrite components_slash. rewrite <-(assoc_L app). f_equal.
    change ("sys/build/" +:+ bp) with ("sys" +:+ "/" +:+ ("build" +:+ "/" +:+ bp)).
    change ("build/" +:+ bp) with ("build" +:+ "/" +:+ bp). rewrite !components_slash.
    by destruct host. }
  unfold wolf_sys_path, lib_names, link_lib_path.
  destruct (bool_decide_reflect (target_os = "windows")).
  - eexists. split; [done|]. rewrite !components_join by (done || by destruct host).
    rewrite !components_slash, Hpath. done.
  - destruct (_ || _); eexists; (split; [done|]); rewrite components_join by (by destruct host);
      by rewrite components_slash, Hpath.
Qed.

(** ** Unicode paths *)

Lemma utf8_fuel n m l : (n <= m)%nat -> utf8_valid n l = true -> utf8_valid m l = true.
Proof.
  revert m l. induction n as [|n IH]; intros [|m] l Hle; [done..|lia|]. cbn [utf8_valid].
  assert (forall k, utf8_valid n k = true -> utf8_valid m k = true) as Hk by (intros k; apply IH; lia).
  destruct l as [|a l1]; [done|]. destruct (in_range 0 127 a); [apply Hk|].
  destruct l1 as [|b l2]; [done|]. destruct (in_range 194 223 a).
  { rewrite !andb_true_iff. intros [? ?]. auto. }
  destruct l2 as [|c l3]; [done|]. destruct (in_range 224 239 a).
  { rewrite !andb_true_iff. intros [? ?]. auto. }
  destruct l3 as [|d l4]; [done|]. rewrite !andb_true_iff. intros [? ?]. auto.
Qed.

Lemma utf8_app n l m k :
  utf8_valid n l = true -> utf8_valid m k = true -> utf8_valid (n + m) (l ++ k) = true.
Proof.
  intros Hl Hk. revert l Hl. induction n as [|n IH]; intros l; [done|]. cbn [utf8_valid Nat.add].
  destruct l as [|a l1]; cbn [app].
  { intros _. apply (utf8_fuel m (S (n + m))); [lia|done]. }
  destruct (in_range 0 127 a); [apply IH|].
  destruct l1 as [|b l2]; [done|]. cbn [app]. destruct (in_range 194 223 a).
  { rewrite !andb_true_iff. intros [? ?]. auto. }
  destruct l2 as [|c l3]; [done|]. cbn [app]. destruct (in_range 224 239 a).
  { rewrite !andb_true_iff. intros [? ?]. auto. }
  destruct l3 as [|d l4]; [done|]. cbn [app]. rewrite !andb_true_iff. intros [? ?]. auto.
Qed.

Lemma utf8_enough n l : utf8_valid n l = true -> utf8_valid (S (length l)) l = true.
Proof.
  revert l. induction n as [|n IH]; intros l; [done|].
  assert (forall k m, (length k < m)%nat -> utf8_valid n k = true -> utf8_valid m k = true) as Hk.
  { intros k m Hm Hv. apply (utf8_fuel (S (length k))); [lia|by apply IH]. }
  cbn [utf8_valid].
  destruct l as [|a l1]; [done|]. cbn [length]. destruct (in_range 0 127 a); [apply Hk; lia|].
  destruct l1 as [|b l2]; [done|]. cbn [length]. destruct (in_range 194 223 a).
  { rewrite !andb_true_iff. intros [? ?]. split; [done|]. apply Hk; [lia|done]. }
  destruct l2 as [|c l3]; [done|]. cbn [length]. destruct (in_range 224 239 a).
  { rewrite !andb_true_iff. intros [? ?]. split; [done|]. apply Hk; [lia|done]. }
  destruct l3 as [|d l4]; [done|]. cbn [length].
  rewrite !andb_true_iff. intros [? ?]. split; [done|]. apply Hk; [lia|done].
Qed.

Definition unicode (p : string) : Prop := to_str p = Some p.

Lemma to_str_Some p q : to_str p = Some q -> q = p /\ unicode p.
Proof. unfold unicode, to_str. destruct (utf8_valid _ _); [|done]. by intros [= <-]. Qed.

Lemma unicode_app p q : unicode p -> unicode q -> unicode (p +:+ q).
Proof.
  unfold unicode, to_str. cbn zeta. intros Hp Hq.
  destruct (utf8_valid _ (String.list_byte_of_string p)) eqn:Ep in Hp; [|done].
  destruct (utf8_valid _ (String.list_byte_of_string q)) eqn:Eq in Hq; [|done].
  replace (String.list_byte_of_string (p +:+ q))
    with (String.list_byte_of_string p ++ String.list_byte_of_string q)%list.
  - by rewrite (utf8_enough _ _ (utf8_app _ _ _ _ Ep Eq)).
  - unfold String.list_byte_of_string. by rewrite list_ascii_app, List.map_app.
Qed.

Lemma unicode_join host p q : unicode p -> unicode q -> unicode (join host p q).
Proof.
  intros Hp Hq. unfold join. repeat case_match; [done|by apply unicode_app|].
  apply unicode_app; [done|]. apply unicode_app; [by destruct host|done].
Qed.

(** ** What the script does *)
Section runs.
Context `{!Errors} {Env : Type} `{!Machine Env} (host : os) (cfg : features).

Lemma wp_expect {T E} msg debug (r : result T E) Q (e : Env) :
  (forall t, r = Ok t -> Q (Ret t) e []) ->
  (forall x, r = Err x -> Q (Panic (msg +:+ ": " +:+ debug x)) e []) ->
  wp (expect msg debug r) Q e.
Proof. intros Ht Hx. destruct r; [by apply Ht|by apply Hx]. Qed.

Lemma wp_unicode msg p Q (e : Env) :
  unicode p -> Q (Ret p) e [] -> wp (expect_some msg (to_str p)) Q e.
Proof. by intros ->. Qed.

(** The paths [cmake] works with. *)
Definition sys_dir (cur : string) : string := join host cur "sys/".
Definition build_dir (cur bp : string) : string := join host (sys_dir cur) ("build/" +:+ bp).
Definition build_command (r : result Output io_error) (cur bp : string) : event Env :=
  if bool_decide (host = Windows) then Command "cmake" (build_dir cur bp) ["--build"; "."; "--parallel 8"] r
  else Command "ninja" (build_dir cur bp) [] r.
Definition configure_args (cur bp : string) : list string :=
  cmake_args host cfg (build_dir cur bp) (sys_dir cur) bp.

(** The configuration step: the arguments, with those of the Android toolchain
    when the target asks for it. *)
Inductive configures (cur bp target : string) : list (event Env) -> list string -> Prop :=
| configures_native : target <> "android" -> configures cur bp target [] (configure_args cur bp)
| configures_android ndk :
    target = "android" ->
    configures cur bp target [Var "ANDROID_NDK_HOME" (Ok ndk)]
      (configure_args cur bp ++ android_args ndk)%list.

(** The two commands: the first configures, and the second is run when it succeeds. *)
Inductive cmake_commands (cur bp : string) : list string -> list (event Env) -> res unit -> Prop :=
| configure_not_run args x :
    cmake_commands cur bp args [Command "cmake" (sys_dir cur) args (Err x)]
      (Panic ("could not configure cmake of wolf/sys: " +:+ io_debug x))
| configure_failed args out :
    success out = false ->
    cmake_commands cur bp args [Command "cmake" (sys_dir cur) args (Ok out)]
      (Panic (failed_status "CMake project was not configured successfully" out))
| build_not_run args out x :
    success out = true ->
    cmake_commands cur bp args
      [Command "cmake" (sys_dir cur) args (Ok out); build_command (Err x) cur bp]
      (Panic ("could not build cmake of wolf/sys: " +:+ io_debug x))
| build_failed args out out' :
    success out = true -> success out' = false ->
    cmake_commands cur bp args
      [Command "cmake" (sys_dir cur) args (Ok out); build_command (Ok out') cur bp]
      (Panic (failed_status ("CMake Build failed for " +:+ sys_dir cur +:+ "CMakeLists.txt") out'))
| build_done args out out' :
    success out = true -> success out' = true ->
    cmake_commands cur bp args
      [Command "cmake" (sys_dir cur) args (Ok out); build_command (Ok out') cur bp] (Ret tt).

(** Every way [cmake] can go: one for each cause, with what it leaves. *)
Inductive cmake_run (cur bp target : string) : list (event Env) -> res unit -> Prop :=
| cmake_found :
    cmake_run cur bp target [Exists_ (wolf_sys_path host (build_dir cur bp) bp target) true] (Ret tt)
| cmake_no_ndk x :
    target = "android" ->
    cmake_run cur bp target
      [Exists_ (wolf_sys_path host (build_dir cur bp) bp target) false; Var "ANDROID_NDK_HOME" (Err x)]
      (Panic ("could not get ANDROID_NDK_HOME: " +:+ var_error_debug x))
| cmake_configured t args c r :
    configures cur bp target t args -> cmake_commands cur bp args c r ->
    cmake_run cur bp target
      (Exists_ (wolf_sys_path host (build_dir cur bp) bp target) false :: t ++ c)%list r.

Lemma assert_success_wp what out Q (e : Env) :
  (success out = true -> Q (Ret tt) e []) ->
  (success out = false -> Q (Panic (failed_status what out)) e []) -> wp (assert_success what out) Q e.
Proof. intros Ht Hf. unfold assert_success. destruct (success out); [by apply Ht|by apply Hf]. Qed.

Lemma cmake_wp cur bp target (e : Env) :
  unicode cur -> unicode bp ->
  wp (cmake host cfg cur bp target) (fun r _ t => cmake_run cur bp target t r) e.
Proof.
  intros Hcur Hbp. unfold cmake. fold (sys_dir cur). cbn zeta. fold (build_dir cur bp).
  assert (unicode (sys_dir cur)) as Hsys by (by apply unicode_join).
  assert (unicode (build_dir cur bp)) as Hdir by (apply unicode_join; [done|by apply unicode_app]).
  apply wp_bind, wp_unicode; [done|]. apply wp_bind, wp_unicode; [done|].
  apply wp_bind, wp_obs. intros [] e1 _; [apply wp_ret; constructor|].
  apply wp_bind. fold (configure_args cur bp).
  apply (wp_mono _ (fun r _ t => match r with
     | Ret args => configures cur bp target t args
     | Panic why => target = "android" /\ exists x, t = [Var "ANDROID_NDK_HOME" (Err x)] /\
                    why = "could not get ANDROID_NDK_HOME: " +:+ var_error_debug x
     | NoFuel => False
     end)).
  2:{ destruct (bool_decide_reflect (target = "android")) as [->|Hn].
      - apply wp_bind, wp_obs. intros r e2 _. apply wp_bind, wp_expect.
        + intros ndk ->. apply wp_ret. by constructor.
        + intros x ->. split; [done|]. by exists x.
      - apply wp_ret. by constructor. }
  intros [args|why|] e2 t; [|intros (Ht & x & -> & ->)|done]; [|by apply cmake_no_ndk].
  intros Hconf.
  match goal with |- wp ?m _ _ => enough (wp m (fun r _ c => cmake_commands cur bp args c r) e2) as Hc end.
  { eapply wp_mono; [|exact Hc]. intros r e3 c H3. cbn [app]. by eapply cmake_configured. }
  apply wp_bind, wp_obs. intros r e3 _. apply wp_bind, wp_expect; [|intros x ->; constructor].
  intros out ->. apply wp_bind, assert_success_wp; [|intros Hf; by constructor].
  intros Hout. apply wp_bind.
  apply (wp_mono _ (fun r _ t => exists x, r = Ret x /\ t = [build_command x cur bp])).
  2:{ unfold build_command. destruct (bool_decide (host = Windows)); apply wp_obs; intros x e4 _; by exists x. }
  intros r e4 t' (x & -> & ->). apply wp_bind, wp_expect; [|intros y ->; by constructor].
  intros out' ->. apply assert_success_wp; intros Hs; by constructor.
Qed.

(** What [link] is to do, in order: the instructions it prints, and the files it
    copies from a directory. *)
Inductive step := Line (s : string) | Copies (path : string) (names : list string).
Definition searched (path : string) (names : list string) : list step :=
  [Line ("cargo:rustc-link-search=native=" +:+ path); Copies path names].
Definition link_plan (cur bp target : string) : list step :=
  ((if bool_decide (target = "windows") then
      [Line (if bool_decide (bp = "Debug") then "cargo:rustc-link-lib=msvcrtd" else "cargo:rustc-link-lib=msvcrt");
       Line "cargo:rustc-link-lib=dylib=Shell32"; Line "cargo:rustc-link-lib=dylib=Rpcrt4";
       Line "cargo:rustc-link-lib=dylib=Mswsock"] else []) ++
   (if bool_decide (host = Macos) || bool_decide (host = Ios) then
      [Line "cargo:rustc-link-search=native=/usr/lib"; Line "cargo:rustc-link-lib=dylib=c++"] else []) ++
   [Line ("cargo:rustc-link-search=native=" +:+ link_lib_path cur bp target)] ++
   [Line "cargo:rustc-link-lib=dylib=wolf_sys"] ++
   [Copies (link_lib_path cur bp target) (lib_names target)] ++
   (if bool_decide (host = Linux) then [Copies "/usr/lib" (lib_names target)] else []) ++
   (if ffmpeg cfg then
      searched (cur +:+ "/sys/third_party/FFMPEG/bin")
        ["avcodec-59.dll"; "avdevice-59.dll"; "avfilter-8.dll"; "avformat-59.dll"; "avutil-57.dll";
         "swresample-4.dll"; "swscale-6.dll"] ++
      searched (cur +:+ "/sys/third_party/FFMPEG/lib/" +:+ target)
        ["avcodec.lib"; "avdevice.lib"; "avfilter.lib"; "avformat.lib"; "avutil.lib"; "swresample.lib";
         "swscale.lib"] else []) ++
   (if media_av1 cfg then
      searched (cur +:+ "/sys/third_party/DAV1D/lib/" +:+ bp) ["dav1d.lib"] ++
      searched (cur +:+ "/sys/third_party/DAV1D/bin/" +:+ bp) ["dav1d.dll"] else []) ++
   (if media_av1 cfg then
      searched (cur +:+ "/sys/third_party/SVT-AV1/lib/" +:+ bp) ["SvtAv1Dec.lib"; "SvtAv1Enc.lib"] ++
      searched (cur +:+ "/sys/third_party/SVT-AV1/bin/" +:+ bp) ["SvtAv1Dec.dll"; "SvtAv1Enc.dll"] else []))%list.

(** Each file goes to the dependencies, then to the output; a copy may fail. *)
Inductive copied (path out : string) : list string -> list (event Env) -> Prop :=
| copied_none : copied path out [] []
| copied_one name names r1 r2 t :
    copied path out names t ->
    copied path out (name :: names)
      (Copy (path +:+ "/" +:+ name) (join host (join host out "deps") name) r1 ::
       Copy (path +:+ "/" +:+ name) (join host out name) r2 :: t).

(** A plan is carried out to its end, or up to the first copies that are not told
    where to go. *)
Inductive plan_run : list step -> list (event Env) -> res unit -> Prop :=
| plan_done : plan_run [] [] (Ret tt)
| plan_line s p t r : plan_run p t r -> plan_run (Line s :: p) (Println s :: t) r
| plan_no_out_dir path names p x :
    plan_run (Copies path names :: p) [Var "OUT_DIR" (Err x)]
      (Panic ("called `Result::unwrap()` on an `Err` value: " +:+ var_error_debug x))
| plan_copies path names p out c t r :
    copied path (join host out "../../..") names c -> plan_run p t r ->
    plan_run (Copies path names :: p) (Var "OUT_DIR" (Ok out) :: c ++ t)%list r.

Definition carries_out (m : M Env (event Env) unit) (p : list step) : Prop :=
  forall e, wp m (fun r _ t => plan_run p t r) e.

Lemma plan_app p1 p2 t1 r1 :
  plan_run p1 t1 r1 ->
  match r1 with
  | Ret _ => forall t2 r2, plan_run p2 t2 r2 -> plan_run (p1 ++ p2)%list (t1 ++ t2)%list r2
  | _ => plan_run (p1 ++ p2)%list t1 r1
  end.
Proof.
  induction 1 as [|s p t r Hp IH|path names p x|path names p out c t r Hc Hp IH]; cbn [app].
  - done.
  - destruct r; [intros t2 r2 H2; constructor; by apply IH|by constructor..].
  - constructor.
  - destruct r; [intros t2 r2 H2; rewrite <-(assoc_L app); constructor; [done|by apply IH]|by constructor..].
Qed.

Lemma carries_bind m k p1 p2 :
  carries_out m p1 -> carries_out k p2 -> carries_out (_ ← m; k) (p1 ++ p2)%list.
Proof.
  intros Hm Hk e. apply wp_bind. eapply wp_mono; [|apply Hm].
  intros r e1 t1 H1%(plan_app _ p2). destruct r as [[]|why|]; [|done..].
  eapply wp_mono; [|apply Hk]. intros r e2 t2 H2. by apply H1.
Qed.

Lemma carries_println s : carries_out (println s) [Line s].
Proof. intros e. apply wp_emit. by repeat constructor. Qed.

Lemma carries_when b m p : carries_out m p -> carries_out (when b m) (if b then p else []).
Proof. intros Hm. destruct b; [exact Hm|]. intros e. apply wp_ret. constructor. Qed.

Lemma copy_each_wp path names out (e : Env) :
  wp (copy_each host path names (join host out "deps") out) (fun r _ t => r = Ret tt /\ copied path out names t) e.
Proof.
  revert e. induction names as [|name names IH]; intros e; [apply wp_ret; by repeat constructor|].
  cbn [copy_each]. apply wp_bind, wp_obs. intros r1 e2 _. apply wp_bind, wp_obs. intros r2 e3 _.
  eapply wp_mono; [|apply IH]. intros r e4 t (-> & Ht). split; [done|]. by constructor.
Qed.

Lemma carries_copies path names : carries_out (copy_shared_libs host path names) [Copies path names].
Proof.
  intros e. unfold copy_shared_libs. apply wp_bind, wp_obs. intros r e1 _. apply wp_bind, wp_expect.
  2:{ intros x ->. constructor. }
  intros out ->. eapply wp_mono; [|apply copy_each_wp]. intros r e2 t (-> & Ht).
  cbn [app]. rewrite <-(app_nil_r t). by repeat constructor.
Qed.

Lemma carries_search path names : carries_out (search_and_copy host path names) (searched path names).
Proof. apply (carries_bind _ _ [_] [_]); [apply carries_println|apply carries_copies]. Qed.

Lemma link_carries_out cur bp target : carries_out (link host cfg cur bp target) (link_plan cur bp target).
Proof.
  unfold link, link_plan.
  apply carries_bind.
  { apply carries_when. change [?a; ?b; ?c; ?d] with ([a] ++ [b] ++ [c] ++ [d])%list.
    repeat apply carries_bind; apply carries_println. }
  apply carries_bind.
  { apply carries_when, (carries_bind _ _ [_] [_]); apply carries_println. }
  apply carries_bind; [apply carries_println|]. apply carries_bind; [apply carries_println|].
  apply carries_bind; [apply carries_copies|]. apply carries_bind; [apply carries_when, carries_copies|].
  apply carries_bind; [apply carries_when, carries_bind; apply carries_search|].
  apply carries_bind; apply carries_when, carries_bind; apply carries_search.
Qed.

(** The bindings: the headers in order, up to the first that fails. *)
Definition rerun (h : Binding) : event Env := Println ("cargo:rerun-if-changed=sys/" +:+ src h).
Inductive bindings_run (cur : string) : list Binding -> list (event Env) -> res unit -> Prop :=
| bindings_all : bindings_run cur [] [] (Ret tt)
| bindings_not_created h hs x :
    bindings_run cur (h :: hs) [rerun h; Generate (src h) (clang_args cur) (Err x)]
      (Panic ("couldn't create bindings for header " +:+ src h +:+ " because " +:+ bindgen_debug x))
| bindings_not_written h hs b x :
    bindings_run cur (h :: hs)
      [rerun h; Generate (src h) (clang_args cur) (Ok b); WriteFile (join host cur (dst h)) (Err x)]
      (Panic ("couldn't write bindings for " +:+ src h +:+ " because " +:+ io_debug x))
| bindings_next h hs b t r :
    bindings_run cur hs t r ->
    bindings_run cur (h :: hs)
      (rerun h :: Generate (src h) (clang_args cur) (Ok b) :: WriteFile (join host cur (dst h)) (Ok tt) :: t) r.

Lemma bindgen_each_wp cur hs (e : Env) :
  wp (bindgen_each host cur hs) (fun r _ t => bindings_run cur hs t r) e.
Proof.
  revert e. induction hs as [|h hs IH]; intros e; [apply wp_ret; constructor|].
  apply wp_bind. unfold bindgen_header. apply wp_bind, wp_emit, wp_bind, wp_obs.
  intros [b|x] e1 _; [|by apply wp_panic; constructor].
  apply wp_bind, wp_obs. intros [[]|x] e2 _; [|by apply wp_panic; constructor].
  apply wp_ret. eapply wp_mono; [|apply IH]. intros r e3 t Ht. by constructor.
Qed.

Lemma bindings_reruns cur hs t r p :
  bindings_run cur hs t r -> Println ("cargo:rerun-if-changed=" +:+ p) ∈ t -> exists h, h ∈ hs /\ p = "sys/" +:+ src h.
Proof.
  assert (forall h, @Println _ Env _ ("cargo:rerun-if-changed=" +:+ p) = rerun h -> p = "sys/" +:+ src h) as Heq.
  { intros h [= Hp]. exact Hp. }
  induction 1 as [|h hs x|h hs b x|h hs b t r _ IH]; rewrite ?elem_of_cons, ?elem_of_nil;
    intros Hin; destruct_or?; try done; try (exists h; split; [left|by apply Heq]).
  destruct IH as (h' & ? & ?); [done|]. exists h'. by split; [right|].
Qed.

(** The bindings: the headers of the enabled features are processed in order,
    each generated from its header and written to its file, and the script panics
    at the first that fails, leaving those before it written and those after it
    untouched. The path given to cargo for the re-run is never the header that was
    read: it has [sys/] twice, so the change of a header is not what is watched. *)
Theorem bindgens_run cur (e : Env) :
  wp (bindgens host cfg cur)
     (fun r _ t => bindings_run cur (headers cfg) t r /\
        forall p, Println ("cargo:rerun-if-changed=" +:+ p) ∈ t ->
          (exists h, h ∈ headers cfg /\ p = "sys/" +:+ src h) /\ p ∉ map src (headers cfg)) e.
Proof.
  eapply wp_mono; [|apply bindgen_each_wp]. intros r e1 t Ht. split; [done|]. intros p Hp.
  destruct (bindings_reruns _ _ _ _ _ Ht Hp) as (h & Hh & ->). split; [by exists h|].
  clear -Hh. revert h Hh. apply Forall_forall. unfold headers.
  destruct (system_lz4 cfg), (stream_rist cfg), (ffmpeg cfg); by apply (bool_decide_unpack _); vm_compute.
Qed.

(** *** The whole script *)

(** The deployment target of macOS, and the protocol files. *)
Definition mac_events (target : string) : list (event Env) :=
  if bool_decide (target = "macos") then [SetVar "MACOSX_DEPLOYMENT_TARGET" OSX_DEPLOYMENT_TARGET] else [].
Definition protos_event (cur target : string) (r : result unit io_error) : event Env :=
  Protos [join host (join host cur "proto") "raft.proto"] [join host cur "proto"] true
    (negb (bool_decide (target = "android") || bool_decide (target = "ios"))) r.
Definition protos_events (cur target : string) : list (event Env) :=
  if system_raft cfg then [protos_event cur target (Ok tt)] else [].

(** The current directory and the target are known, and the protocol files done. *)
Definition targeted (cur arch target : string) : list (event Env) :=
  [CurrentDir (Ok cur); Var "CARGO_CFG_TARGET_ARCH" (Ok arch); Var "CARGO_CFG_TARGET_OS" (Ok target)].
Definition started (cur arch target : string) : list (event Env) :=
  (targeted cur arch target ++ mac_events target ++ protos_events cur target)%list.

(** A native build of the target [target] with the CMake profile [bp], in [cur]. *)
Definition prepared (cur bp target : string) (t : list (event Env)) : Prop :=
  exists arch opt prof,
    arch <> "wasm32" /\ bp = build_profile opt prof /\ unicode cur /\
    t = (started cur arch target ++ [Var "OPT_LEVEL" (Ok opt); Var "PROFILE" (Ok prof)])%list.

(** Every way the script can go: one for each cause. *)
Inductive main_run : list (event Env) -> res unit -> Prop :=
| main_no_directory x :
    main_run [CurrentDir (Err x)] (Panic ("could not get current directory: " +:+ io_debug x))
| main_not_unicode cur :
    ~ unicode cur ->
    main_run [CurrentDir (Ok cur)] (Panic "could not convert current dir path to &str")
| main_no_arch cur x :
    unicode cur ->
    main_run [CurrentDir (Ok cur); Var "CARGO_CFG_TARGET_ARCH" (Err x)]
      (Panic ("Build failed: could not get target arch: " +:+ var_error_debug x))
| main_no_os cur arch x :
    unicode cur ->
    main_run [CurrentDir (Ok cur); Var "CARGO_CFG_TARGET_ARCH" (Ok arch); Var "CARGO_CFG_TARGET_OS" (Err x)]
      (Panic ("Build failed: could not get target OS: " +:+ var_error_debug x))
| main_no_protos cur arch target x :
    unicode cur -> system_raft cfg = true ->
    main_run (targeted cur arch target ++ mac_events target ++ [protos_event cur target (Err x)])%list
      (Panic ("couldn't read the protos directory: " +:+ io_debug x))
| main_wasm cur target : unicode cur -> main_run (started cur "wasm32" target) (Ret tt)
| main_no_level cur arch target x :
    unicode cur -> arch <> "wasm32" ->
    main_run (started cur arch target ++ [Var "OPT_LEVEL" (Err x)])%list
      (Panic ("could not get OPT_LEVEL profile: " +:+ var_error_debug x))
| main_no_profile cur arch target opt x :
    unicode cur -> arch <> "wasm32" ->
    main_run (started cur arch target ++ [Var "OPT_LEVEL" (Ok opt); Var "PROFILE" (Err x)])%list
      (Panic ("could not get PROFILE: " +:+ var_error_debug x))
| main_not_built cur bp target t t1 why :
    prepared cur bp target t -> cmake_run cur bp target t1 (Panic why) -> main_run (t ++ t1)%list (Panic why)
| main_not_linked cur bp target t t1 t2 why :
    prepared cur bp target t -> cmake_run cur bp target t1 (Ret tt) ->
    plan_run (link_plan cur bp target) t2 (Panic why) ->
    main_run (t ++ t1 ++ t2)%list (Panic why)
| main_linked cur bp target t t1 t2 t3 r :
    prepared cur bp target t -> cmake_run cur bp target t1 (Ret tt) ->
    plan_run (link_plan cur bp target) t2 (Ret tt) -> bindings_run cur (headers cfg) t3 r ->
    main_run (t ++ t1 ++ t2 ++ t3)%list r.

Lemma unicode_profile opt prof : unicode (build_profile opt prof).
Proof. unfold build_profile. repeat case_bool_decide; by vm_compute. Qed.

(** What the protocol files come to. *)
Lemma build_protos_wp cur target (e : Env) :
  unicode cur ->
  wp (when (system_raft cfg) (build_protos host cur target))
     (fun r _ t =>
        match r with
        | Ret _ => t = protos_events cur target
        | Panic why => system_raft cfg = true /\ exists x, t = [protos_event cur target (Err x)] /\
                       why = "couldn't read the protos directory: " +:+ io_debug x
        | NoFuel => False
        end) e.
Proof.
  intros Hcur. unfold when, protos_events. destruct (system_raft cfg) eqn:Hraft; [|by apply wp_ret].
  unfold build_protos. cbn zeta.
  assert (unicode (join host cur "proto")) as H1 by (by apply unicode_join).
  apply wp_bind, wp_unicode; [done|]. apply wp_bind, wp_unicode; [by apply unicode_join|].
  apply wp_bind, wp_obs. intros r e1 _. apply wp_expect; [by intros [] ->|].
  intros x ->. split; [done|]. by exists x.
Qed.

Lemma mac_wp target (e : Env) :
  wp (when (bool_decide (target = "macos"))
        (obs (fun e => (tt, set_var "MACOSX_DEPLOYMENT_TARGET" OSX_DEPLOYMENT_TARGET e))
           (fun _ => SetVar "MACOSX_DEPLOYMENT_TARGET" OSX_DEPLOYMENT_TARGET)))
     (fun r _ t => r = Ret tt /\ t = mac_events target) e.
Proof.
  unfold when, mac_events. destruct (bool_decide _); [|by apply wp_ret].
  apply wp_obs. by intros [] e1 _.
Qed.

(** From the profile on. *)
Lemma main_rest_wp cur bp target t0 (e : Env) :
  unicode cur -> unicode bp -> prepared cur bp target t0 ->
  wp (_ ← cmake host cfg cur bp target; _ ← link host cfg cur bp target; bindgens host cfg cur)
     (fun r _ t => main_run (t0 ++ t)%list r) e.
Proof.
  intros Hcur Hbp Hprep. apply wp_bind. eapply wp_mono; [|by apply cmake_wp].
  intros [[]|why|] e1 t1 H1; [| |inversion H1 as [| |? ? ? ? ? Hc]; inversion Hc];
    [|by eapply main_not_built].
  apply wp_bind. eapply wp_mono; [|apply link_carries_out].
  intros [[]|why|] e2 t2 H2; [|by eapply main_not_linked|].
  2:{ exfalso. clear -H2. remember NoFuel as r eqn:Hr. by induction H2. }
  eapply wp_mono; [|apply bindgen_each_wp]. intros r e3 t3 H3.
  by eapply main_linked.
Qed.

(** C18: what the build script does, step by step: it panics where the current
    directory, a variable or the protocol files fail, with the message of that
    cause and nothing done after it; for wasm32 it stops there, with no native
    code; otherwise it builds the library in the profile of the optimisation level
    with the two commands of the host, or runs no command at all where the file of
    the library exists, whatever the features; only when that succeeds does it
    carry out [link_plan], printing and copying nothing else, in that order, a
    failed copy stopping nothing and a missing output directory stopping all; and
    only then does it generate the bindings. Once the current directory is unicode
    no path of the build fails to be. *)
Theorem main_runs (e : Env) : wp (main host cfg) (fun r _ t => main_run t r) e.
Proof.
  unfold main. apply wp_bind, wp_obs. intros r e1 _. apply wp_bind, wp_expect; [|intros x ->; constructor].
  intros cur ->. apply wp_bind. unfold expect_some.
  destruct (to_str cur) as [cur'|] eqn:Hcur.
  2:{ apply wp_panic, main_not_unicode. unfold unicode. by rewrite Hcur. }
  apply to_str_Some in Hcur as [-> Hcur]. apply wp_ret.
  apply wp_bind, wp_obs. intros rarch e2 _. apply wp_bind, wp_expect; [|intros x ->; by constructor].
  intros arch ->. apply wp_bind, wp_obs. intros ros e3 _.
  apply wp_bind, wp_expect; [|intros x ->; by constructor].
  intros target ->. apply wp_bind. eapply wp_mono; [|apply mac_wp]. intros ? e4 ? [-> ->].
  apply wp_bind. eapply wp_mono; [|by apply build_protos_wp].
  intros [[]|why|] e5 tp Htp; [subst tp| |done].
  2:{ destruct Htp as (Hraft & x & -> & ->). by apply main_no_protos. }
  destruct (bool_decide_reflect (arch = "wasm32")) as [->|Harch].
  { apply wp_ret. rewrite app_nil_r. by apply main_wasm. }
  assert (forall t, ([CurrentDir (Ok cur)] ++ [] ++ [Var "CARGO_CFG_TARGET_ARCH" (Ok arch)] ++ [] ++
     [Var "CARGO_CFG_TARGET_OS" (Ok target)] ++ [] ++ mac_events target ++ protos_events cur target ++ t)%list =
     (started cur arch target ++ t)%list) as Hst by (intros t; unfold started; by rewrite <-!(assoc_L app)).
  apply wp_bind, wp_obs. intros ropt e6 _. apply wp_bind, wp_expect.
  2:{ intros x ->. cbn [app] in *. rewrite Hst. by apply main_no_level. }
  intros opt ->. apply wp_bind, wp_obs. intros rprof e7 _. apply wp_bind, wp_expect.
  2:{ intros x ->. cbn [app] in *. rewrite Hst. by apply main_no_profile. }
  intros prof ->.
  pose proof (main_rest_wp cur (build_profile opt prof) target
    (started cur arch target ++ [Var "OPT_LEVEL" (Ok opt); Var "PROFILE" (Ok prof)])%list
    e7 Hcur (unicode_profile _ _)) as Hrest.
  eapply wp_mono; [|apply Hrest; by exists arch, opt, prof].
  intros o e8 t Ht. cbn [app] in *. rewrite Hst. by rewrite <-!(assoc_L app) in Ht.
Qed.
End runs.

(** ** A concrete run *)
Module Runs.
Import Concrete.

(** A machine where a debug build for Linux finds the library already built, and
    may have no directory to copy to. *)
Definition variables (out_dir : result string VarError) (name : string) : result string VarError :=
  if bool_decide (name = "CARGO_CFG_TARGET_ARCH") then Ok "x86_64"
  else if bool_decide (name = "CARGO_CFG_TARGET_OS") then Ok "linux"
  else if bool_decide (name = "OPT_LEVEL") then Ok "0"
  else if bool_decide (name = "PROFILE") then Ok "debug"
  else if bool_decide (name = "OUT_DIR") then out_dir
  else Err NotPresent.

#[local] Instance built_machine : Machine (result string VarError) := {|
  current_dir := fun e => (Ok "/w", e);
  env_var := fun name e => (variables e name, e);
  set_var := fun _ _ e => e;
  path_exists := fun p e => (bool_decide (p = "/w/sys/build/Debug/libwolf_sys.so"), e);
  output := fun _ _ _ e => (Err "no such command", e);
  copy := fun _ _ e => (Ok 1%Z, e);
  compile_protos := fun _ _ _ _ e => (Ok tt, e);
  Bindings := string; BindgenError := string; bindgen_debug := id;
  generate := fun h _ e => (Ok h, e);
  write_to_file := fun _ _ e => (Ok tt, e);
  utf8_debug := fun _ => "";
|}.

Definition plain : features := mkFeatures false true false false false.

(** With LZ4 enabled after the library was built without it, CMake is not run. *)
Example found_run :
  let printed := omap (fun ev => match ev with Println s => Some s | _ => None end) in
  let '(r, _, t) := main (Env := result string VarError) Linux plain (Ok "/o/a/b/c") in
  r = Ret tt /\ printed t =
    ["cargo:rustc-link-search=native=/w/sys/build/Debug"; "cargo:rustc-link-lib=dylib=wolf_sys";
     "cargo:rerun-if-changed=sys/sys/wolf/version.h"; "cargo:rerun-if-changed=sys/sys/system/lz4.h"] /\
  Forall (fun ev => match ev with Command _ _ _ _ => False | _ => True end) t.
Proof. vm_compute. split; [done|]. split; [done|]. by repeat constructor. Qed.

Example no_out_dir_run :
  fst (fst (main (Env := result string VarError) Linux plain (Err NotPresent))) =
    Panic "called `Result::unwrap()` on an `Err` value: NotPresent".
Proof. by vm_compute. Qed.
End Runs.
