(* ===== verification/Media.v ===== *)
(** The FFmpeg wrapper ([wolf/src/media/ffmpeg.rs], over [wolf/sys/media/ffmpeg.cpp]
    and [conversion.cpp]): the contexts, frames, packets and buffers that cross
    the C boundary, who frees them and when. *)
From S2P Require Import Prelude Common.
Local Open Scope Z_scope.
#[local] Set Default Goal Selector "!".

(** ** The C heap

    A pointer is an address or null. What the wrapper and libav allocate, with
    the first data pointer of a frame, and the size of raw memory and where it
    came from: [calloc], or [av_malloc]. *)
Abbreviation ptr := (option positive).
Inductive allocator := Libc | AvMalloc.

Inductive block :=
| Packet | Context | Parser
| Frame (data0 : ptr)
| Data (from : allocator) (len : Z).

(** [w_ffmpeg_ctx_t] and [w_ffmpeg_opt_t]. *)
Record w_ffmpeg_ctx_t := mkCtx {
  context : ptr;
  packet : ptr;
  rgb_frame : ptr;
  yuv_frame : ptr;
  codec : bool;
  parser : ptr;
}.
Record w_ffmpeg_opt_t := mkOpt {
  width : Z;
  height : Z;
  codec_id : Z;
  type_ : Z;
  ctx : ptr;
}.
Definition W_ENCODE : Z := 0.
Definition W_DECODE : Z := 1.
Definition AV_CODEC_ID_H264 : Z := 27.

(** The state: the structure the caller's pointer leads to (none for a null
    pointer), the caller's [CBuffer] (its pointer and length), the size of the
    error buffer, the contexts and blocks that are live, and libav. *)
Record world (L : Type) := mkWorld {
  opt : option w_ffmpeg_opt_t;
  out : ptr;
  out_len : Z;
  error_size : Z;
  ctxs : gmap positive w_ffmpeg_ctx_t;
  live : gmap positive block;
  lib : L;
}.
Arguments mkWorld {L} _ _ _ _ _ _ _.
Arguments opt {L} _.
Arguments out {L} _.
Arguments out_len {L} _.
Arguments error_size {L} _.
Arguments ctxs {L} _.
Arguments live {L} _.
Arguments lib {L} _.

Definition set_opt {L} (o : option w_ffmpeg_opt_t) (w : world L) : world L :=
  mkWorld o (out w) (out_len w) (error_size w) (ctxs w) (live w) (lib w).
Definition set_out {L} (p : ptr) (w : world L) : world L :=
  mkWorld (opt w) p (out_len w) (error_size w) (ctxs w) (live w) (lib w).
Definition set_out_len {L} (n : Z) (w : world L) : world L :=
  mkWorld (opt w) (out w) n (error_size w) (ctxs w) (live w) (lib w).
Definition set_ctxs {L} (c : gmap positive w_ffmpeg_ctx_t) (w : world L) : world L :=
  mkWorld (opt w) (out w) (out_len w) (error_size w) c (live w) (lib w).
Definition set_live {L} (b : gmap positive block) (w : world L) : world L :=
  mkWorld (opt w) (out w) (out_len w) (error_size w) (ctxs w) b (lib w).
Definition set_lib {L} (l : L) (w : world L) : world L :=
  mkWorld (opt w) (out w) (out_len w) (error_size w) (ctxs w) (live w) l.

(** The allocators and libav: whether an allocation succeeds, and the status of
    the calls (with the size of what was received or parsed). *)
Class Libav (L : Type) := {
  alloc_ok : L -> bool * L;
  find_encoder : Z -> L -> bool * L;
  find_decoder : Z -> L -> bool * L;
  av_opt_set : L -> Z * L;
  avcodec_open2 : L -> Z * L;
  fill_arrays : L -> Z * L;
  sws_getContext : L -> bool * L;
  sws_scale : L -> Z * L;
  send_frame : ptr -> L -> Z * L;
  receive_packet : L -> (Z * Z) * L;
  send_packet : ptr -> L -> Z * L;
  receive_frame : L -> (Z * (Z * Z)) * L;
  parse2 : Z -> L -> (Z * Z) * L;
  buffer_size : L -> Z * L;
  error_string : Z -> string;
  (** Whether [free] and [av_free] may each take the other's memory, as where
      [av_malloc] is the C library's; not where it is [_aligned_malloc]. *)
  one_allocator : bool;
  AGAIN : Z;
  EOF : Z;
}.

Definition UB_NULL : string := "undefined behaviour: null pointer dereference".
Definition UB_FREED : string := "undefined behaviour: use after free".
Definition UB_FREE : string := "undefined behaviour: invalid free".
Definition UB_MISMATCH : string := "undefined behaviour: freed by another allocator's function".
Definition UB_OVERREAD : string := "undefined behaviour: read past the end of an object".
Definition UB_OVERWRITE : string := "undefined behaviour: write past the end of an object".

(** The fields of a context that point to what it owns, and what they point to. *)
Inductive field := FContext | FPacket | FRgb | FYuv | FParser.
Definition get (f : field) (c : w_ffmpeg_ctx_t) : ptr :=
  match f with
  | FContext => context c | FPacket => packet c | FRgb => rgb_frame c
  | FYuv => yuv_frame c | FParser => parser c
  end.
Definition put (f : field) (p : ptr) (c : w_ffmpeg_ctx_t) : w_ffmpeg_ctx_t :=
  match f with
  | FContext => mkCtx p (packet c) (rgb_frame c) (yuv_frame c) (codec c) (parser c)
  | FPacket => mkCtx (context c) p (rgb_frame c) (yuv_frame c) (codec c) (parser c)
  | FRgb => mkCtx (context c) (packet c) p (yuv_frame c) (codec c) (parser c)
  | FYuv => mkCtx (context c) (packet c) (rgb_frame c) p (codec c) (parser c)
  | FParser => mkCtx (context c) (packet c) (rgb_frame c) (yuv_frame c) (codec c) p
  end.

(** The addresses registered for the clean-up: the local copy of the caller's
    pointer, its [ctx], a field of the context that was there when it was
    registered, the caller's output pointer, a local variable. *)
Inductive cell :=
| COpt
| CCtx
| CField (a : ptr) (f : field)
| COut
| CLocal (p : ptr).

Inductive w_ffmpeg_type := W_PACKET | W_CONTEXT | W_FRAME | W_PARSER | W_DATA.

Inductive event := Freed (a : positive).

Section ffmpeg.
Context `{!Errors} {L : Type} `{!Libav L}.
Abbreviation IO := (M (world L) event).

Definition on_lib {A} (f : L -> A * L) : IO A :=
  act (fun w => let '(a, l) := f (lib w) in (a, set_lib l w)).
Definition look {A} (f : world L -> res A) : IO A := fun w => (f w, w, []).
Definition upd (f : world L -> world L) : IO unit := act (fun w => (tt, f w)).

(** Following the caller's pointer, and that of a context. *)
Definition the_opt (w : world L) : res w_ffmpeg_opt_t :=
  match opt w with Some o => Ret o | None => Panic UB_NULL end.
Definition the_ctx (p : ptr) (w : world L) : res w_ffmpeg_ctx_t :=
  match p with
  | None => Panic UB_NULL
  | Some a => match ctxs w !! a with Some c => Ret c | None => Panic UB_FREED end
  end.
(** [p_ffmpeg_opt->ctx] and what it leads to. *)
Definition my_ctx (w : world L) : res (ptr * w_ffmpeg_ctx_t) :=
  o ← the_opt w; c ← the_ctx (ctx o) w; mret (ctx o, c).
Definition put_ctx (p : ptr) (c : w_ffmpeg_ctx_t) (w : world L) : world L :=
  match p with Some a => set_ctxs (<[a := c]> (ctxs w)) w | None => w end.
(** [p_ffmpeg_opt->ctx->f = p]. *)
Definition assign (f : field) (p : ptr) : IO unit :=
  '(a, c) ← look my_ctx; upd (put_ctx a (put f p c)).
Definition field_of (f : field) : IO ptr := '(_, c) ← look my_ctx; mret (get f c).

(** An allocation: a new address, or null. *)
Definition fresh_address (w : world L) : positive := fresh (dom (live w) ∪ dom (ctxs w)).
Definition alloc (b : block) : IO ptr :=
  ok ← on_lib alloc_ok;
  if ok : bool then act (fun w => let a := fresh_address w in (Some a, set_live (<[a := b]> (live w)) w))
  else mret None.

(** [make_error]: [sprintf] into the caller's buffer, whose size it does not know. *)
Definition make_error (p_trace p_error_msg : string) (p_error_code : Z) : IO unit :=
  let text := p_error_msg +:+ ", because " +:+ error_string p_error_code +:+ ". trace info: " +:+ p_trace in
  look (fun w => if Z.of_nat (String.length text) + 1 <=? error_size w then Ret tt else Panic UB_OVERWRITE).

(** ** Cleaning up *)

Definition read_cell (c : cell) (w : world L) : res ptr :=
  match c with
  | COpt => Ret (match opt w with Some _ => Some 1%positive | None => None end)
  | CCtx => o ← the_opt w; mret (ctx o)
  | CField a f => x ← the_ctx a w; mret (get f x)
  | COut => Ret (out w)
  | CLocal p => Ret p
  end.
Definition clear_cell (c : cell) (w : world L) : world L :=
  match c with
  | COpt => w
  | CCtx => match opt w with
            | Some o => set_opt (Some (mkOpt (width o) (height o) (codec_id o) (type_ o) None)) w
            | None => w
            end
  | CField a f => match the_ctx a w with Ret x => put_ctx a (put f None x) w | _ => w end
  | COut => set_out None w
  | CLocal _ => w
  end.

(** Whether the releasing function fits what the address leads to. *)
Definition fits (t : w_ffmpeg_type) (b : block) : bool :=
  match t, b with
  | W_PACKET, Packet | W_CONTEXT, Context | W_FRAME, Frame _ | W_PARSER, Parser | W_DATA, Data _ _ => true
  | _, _ => false
  end.
(** Raw memory goes to the function of its allocator: [free] here, whatever the
    memory is. *)
Definition mismatch (f : allocator) (b : block) : bool :=
  match f, b with
  | Libc, Data AvMalloc _ | AvMalloc, Data Libc _ => negb one_allocator
  | _, _ => false
  end.
Definition release (t : w_ffmpeg_type) (a : positive) : IO unit := fun w =>
  match live w !! a with
  | Some b =>
    if negb (fits t b) then (Panic UB_FREE, w, [])
    else if mismatch Libc b then (Panic UB_MISMATCH, w, [])
    else (Ret tt, set_live (delete a (live w)) w, [Freed a])
  | None =>
    match t, ctxs w !! a with
    | W_DATA, Some _ => (Ret tt, set_ctxs (delete a (ctxs w)) w, [Freed a])
    | _, _ => (Panic UB_FREE, w, [])
    end
  end.

Definition av_free (a : positive) : IO unit := fun w =>
  match live w !! a with
  | Some b =>
    if negb (fits W_DATA b) then (Panic UB_FREE, w, [])
    else if mismatch AvMalloc b then (Panic UB_MISMATCH, w, [])
    else (Ret tt, set_live (delete a (live w)) w, [Freed a])
  | None => (Panic UB_FREE, w, [])
  end.

(** One list of the clean-up: it is walked up to a null; when there is none, what
    the last address leads to is released and the address cleared. *)
Fixpoint cleanup_list (i : list (w_ffmpeg_type * cell)) : IO unit :=
  match i with
  | [] => mret tt
  | (t, c) :: i' =>
    p ← look (read_cell c);
    match p with
    | None => mret tt
    | Some a =>
      match i' with
      | [] => _ ← release t a; upd (clear_cell c)
      | _ => cleanup_list i'
      end
    end
  end.
Fixpoint cleanup (p_arg : list (list (w_ffmpeg_type * cell))) : IO unit :=
  match p_arg with
  | [] => mret tt
  | i :: p_arg => _ ← cleanup_list i; cleanup p_arg
  end.

(** [final_action]: the clean-up runs at the end of a function that returns -1. *)
Definition finally (lists : list (list (w_ffmpeg_type * cell))) (ret : Z) : IO Z :=
  if ret =? -1 then _ ← cleanup lists; mret ret else mret ret.

Definition owned (a : ptr) (t : w_ffmpeg_type) (f : field) : list (w_ffmpeg_type * cell) :=
  [(W_DATA, COpt); (W_DATA, CCtx); (t, CField a f)].
Definition to_cleanup (a : ptr) : list (list (w_ffmpeg_type * cell)) :=
  [owned a W_PACKET FPacket; owned a W_CONTEXT FContext; owned a W_FRAME FYuv; owned a W_FRAME FRgb].
Definition free_ctx : list (w_ffmpeg_type * cell) := [(W_DATA, COpt); (W_DATA, CCtx)].

(** Failing: the message, then -1 through the clean-up. *)
Definition fail (lists : list (list (w_ffmpeg_type * cell))) (trace msg : string) (code : Z) : IO Z :=
  _ ← make_error trace msg code; finally lists (-1).

(** ** Initialisation *)

Definition init_encoder (p_ffmpeg_opt : w_ffmpeg_opt_t) : IO Z :=
  let a := ctx p_ffmpeg_opt in
  let trace := "ffmpeg::w_ffmpeg_init_encoder"%string in
  found ← on_lib (find_encoder (codec_id p_ffmpeg_opt));
  '(_, c) ← look my_ctx;
  _ ← upd (put_ctx a (mkCtx (context c) (packet c) (rgb_frame c) (yuv_frame c) found (parser c)));
  if negb found then fail [] trace "failed to find the specified coded" 0
  else
    p ← alloc Context;
    _ ← assign FContext p;
    let lists := [owned a W_CONTEXT FContext] in
    if bool_decide (p = None) then fail lists trace "failed to allocate video codec context" 0
    else
      ret ← (if codec_id p_ffmpeg_opt =? AV_CODEC_ID_H264 then on_lib av_opt_set else mret 0);
      if ret <? 0 then fail lists trace "failed to set the options" ret
      else
        ret ← on_lib avcodec_open2;
        if ret <? 0 then fail lists trace "failed to open the codec" ret
        else mret ret.

Definition init_decoder (p_ffmpeg_opt : w_ffmpeg_opt_t) : IO Z :=
  let a := ctx p_ffmpeg_opt in
  let trace := "ffmpeg::w_ffmpeg_init_decoder"%string in
  found ← on_lib (find_decoder (codec_id p_ffmpeg_opt));
  '(_, c) ← look my_ctx;
  _ ← upd (put_ctx a (mkCtx (context c) (packet c) (rgb_frame c) (yuv_frame c) found (parser c)));
  if negb found then fail [] trace "failed to find the specified coded" 0
  else
    p ← alloc Context;
    _ ← assign FContext p;
    let lists := [owned a W_CONTEXT FContext] in
    if bool_decide (p = None) then fail lists trace "failed to allocate video codec context" 0
    else
      p ← alloc (Frame None);
      _ ← assign FRgb p;
      let lists := lists ++ [owned a W_FRAME FRgb] in
      if bool_decide (p = None) then fail lists trace "failed to allocate the frame" 0
      else
        n ← on_lib buffer_size;
        frame_buffer_out ← alloc (Data AvMalloc n);
        let lists := lists ++ [[(W_DATA, CLocal frame_buffer_out)]] in
        if bool_decide (frame_buffer_out = None) then
          fail lists trace "failed to allocate the buffer for frame" 0
        else
          result ← on_lib fill_arrays;
          if result <? 0 then fail lists trace "failed to find fill the image" 0
          else
            _ ← upd (fun w => match p with
                              | Some r => set_live (<[r := Frame frame_buffer_out]> (live w)) w
                              | None => w
                              end);
            q ← alloc Parser;
            _ ← assign FParser q;
            let lists := lists ++ [owned a W_PARSER FParser] in
            if bool_decide (q = None) then fail lists trace "failed to find the parser" 0
            else
              ret ← on_lib avcodec_open2;
              if ret <? 0 then fail lists trace "failed to open the codec" ret
              else mret ret.

(** [calloc] of the context: its pointers are null. *)
Definition alloc_ctx : IO ptr :=
  ok ← on_lib alloc_ok;
  if ok : bool then
    act (fun w => let a := fresh_address w in
                  (Some a, set_ctxs (<[a := mkCtx None None None None false None]> (ctxs w)) w))
  else mret None.

Definition w_ffmpeg_init : IO Z :=
  let trace := "ffmpeg::w_ffmpeg_init"%string in
  p ← look (fun w => Ret (opt w));
  match p with
  | None => mret (-1)
  | Some o =>
    a ← alloc_ctx;
    let o := mkOpt (width o) (height o) (codec_id o) (type_ o) a in
    _ ← upd (set_opt (Some o));
    let lists := [free_ctx] in
    if bool_decide (a = None) then fail lists trace "failed to allocate the context" 0
    else
      p ← alloc Packet;
      _ ← assign FPacket p;
      let lists := lists ++ [[(W_DATA, CCtx); (W_PACKET, CField a FPacket)]] in
      if bool_decide (p = None) then fail lists trace "failed to allocate the packet" 0
      else
        p ← alloc (Frame None);
        _ ← assign FYuv p;
        let lists := lists ++ [[(W_DATA, CCtx); (W_FRAME, CField a FYuv)]] in
        if bool_decide (p = None) then fail lists trace "failed to allocate the frame" 0
        else
          if type_ o =? W_ENCODE then
            r ← init_encoder o;
            finally lists (if r <? 0 then -1 else 0)
          else if type_ o =? W_DECODE then
            r ← init_decoder o;
            finally lists (if r <? 0 then -1 else 0)
          else
            fail lists trace "ffmpeg action not found. please provide ffmpeg action (e.g W_ENCODE or W_DECODE)" 0
  end.

(** ** Encoding *)

(** A pointer to an object of libav that is followed. *)
Definition follow (t : w_ffmpeg_type) (p : ptr) : IO unit :=
  look (fun w => match p with
                 | None => Panic UB_NULL
                 | Some a => match live w !! a with
                             | Some b => if fits t b then Ret tt else Panic UB_FREED
                             | None => Panic UB_FREED
                             end
                 end).

Definition frame_at (p : ptr) : IO positive :=
  look (fun w => match p with
                 | None => Panic UB_NULL
                 | Some f => match live w !! f with Some (Frame _) => Ret f | _ => Panic UB_FREED end
                 end).

(** [rgb2yuv]: its own buffer is freed on failure, and is the frame's on success.
    The conversion reads a whole image from the input. *)
Definition rgb2yuv (data_len : Z) : IO Z :=
  '(_, c) ← look my_ctx;
  o ← look the_opt;
  if (width o =? 0) || (height o =? 0) || bool_decide (yuv_frame c = None) then mret (-1)
  else
    ok ← on_lib sws_getContext;
    if negb ok then mret (-1)
    else
      n ← on_lib buffer_size;
      b ← alloc (Data AvMalloc n);
      match b with
      | None => mret (-1)
      | Some a =>
        f ← frame_at (yuv_frame c);
        size ← on_lib fill_arrays;
        if size <? 0 then _ ← av_free a; mret (-1)
        else
          _ ← upd (fun w => set_live (<[f := Frame (Some a)]> (live w)) w);
          _ ← look (fun _ => if wrap_s 32 (width o) * wrap_s 32 (height o) * 3 <=? data_len then Ret tt
                             else Panic UB_OVERREAD);
          h ← on_lib sws_scale;
          if h <? 0 then _ ← av_free a; mret (-1) else mret 0
      end.

(** The size of the output, an [int64_t] product, as the [size_t] of [calloc]. *)
Definition calloc_size (o : w_ffmpeg_opt_t) : Z := wrap_u 64 (width o * height o * 3).

(** Copying [n] bytes to [*p_data_out + p_index]. *)
Definition write_out (p_index n : Z) : IO unit :=
  look (fun w => match out w with
                 | None => Panic UB_NULL
                 | Some a => match live w !! a with
                             | Some (Data _ len) => if (0 <=? n) && (p_index + n <=? len) then Ret tt
                                                  else Panic UB_OVERWRITE
                             | _ => Panic UB_FREED
                             end
                 end).

(** One packet the encoder gives; [ret] is the status of the frame sent to it. *)
Definition packets_round (ret p_index : Z) : IO (flow Z (option Z)) :=
  '(tmp_res, n) ← on_lib receive_packet;
  if (tmp_res =? AGAIN) || (tmp_res =? EOF) then mret (Break (Some p_index))
  else if tmp_res <? 0 then
    _ ← make_error "ffmpeg::w_ffmpeg_encode_frame" "error during the encoding" ret; mret (Break None)
  else
    _ ← write_out p_index n;
    _ ← upd (fun w => set_out_len (out_len w + n) w);
    mret (Continue (p_index + n)).

(** The status, and the index it leaves. *)
Definition w_ffmpeg_encode_frame (fuel : nat) (p_index : Z) : IO (Z * Z) :=
  '(_, c) ← look my_ctx;
  _ ← follow W_PACKET (packet c);
  ret ← on_lib (send_frame (yuv_frame c));
  if ret <? 0 then
    _ ← make_error "ffmpeg::w_ffmpeg_encode_frame" "failed to send the frame for encoding" ret;
    mret (-1, p_index)
  else
    r ← loop fuel (packets_round ret) p_index;
    mret (match r with Some i => (ret, i) | None => (-1, p_index) end).

Definition w_ffmpeg_encode (fuel : nat) (data_len : Z) : IO Z :=
  o ← look the_opt;
  if bool_decide (ctx o = None) then mret (-1)
  else
    _ ← upd (set_out_len 0);
    let lists := to_cleanup (ctx o) ++ [[(W_DATA, COut)]; free_ctx] in
    r ← rgb2yuv data_len;
    if r <? 0 then finally lists (-1)
    else
      p ← alloc (Data Libc (calloc_size o));
      _ ← upd (set_out p);
      if bool_decide (p = None) then
        fail lists "ffmpeg::w_ffmpeg_encode" "failed to allocate the output buffer" 0
      else
        '(r, write_index) ← w_ffmpeg_encode_frame fuel 0;
        if r <? 0 then finally lists (-1)
        else
          _ ← assign FYuv None;
          '(r, _) ← w_ffmpeg_encode_frame fuel write_index;
          if r <? 0 then finally lists (-1) else mret 0.

(** ** Decoding *)

(** An image of [w] by [h] written into the buffer of a frame, at the stride of
    the width in the options. *)
Definition scale_into (p : ptr) (w h : Z) : IO unit :=
  f ← frame_at p;
  look (fun s => o ← the_opt s;
                 match live s !! f with
                 | Some (Frame (Some d)) =>
                   match live s !! d with
                   | Some (Data _ len) => if (h - 1) * 3 * wrap_s 32 (width o) + 3 * w <=? len then Ret tt
                                        else Panic UB_OVERWRITE
                   | _ => Panic UB_FREED
                   end
                 | _ => Panic UB_NULL
                 end).

(** One frame the decoder gives: converted into the context's RGB frame, which
    was made for the size in the options. *)
Definition frames_round (p : unit) : IO (flow unit Z) :=
  let trace := "ffmpeg::w_ffmpeg_decode_frame"%string in
  '(tmp_res, (w, h)) ← on_lib receive_frame;
  if (tmp_res =? AGAIN) || (tmp_res =? EOF) then mret (Break 0)
  else if tmp_res <? 0 then _ ← make_error trace "error during decoding" tmp_res; mret (Break (-1))
  else
    '(_, c) ← look my_ctx;
    _ ← frame_at (yuv_frame c);
    tmp_res ← (if (w =? 0) || (h =? 0) || bool_decide (rgb_frame c = None) then mret (-1)
               else ok ← on_lib sws_getContext;
                    if negb ok then mret (-1)
                    else _ ← scale_into (rgb_frame c) w h;
                         r ← on_lib sws_scale; mret (if r <? 0 then -1 else r));
    if tmp_res <? 0 then _ ← make_error trace "failed in converting yuv to rgb" tmp_res; mret (Break (-1))
    else
      f ← frame_at (rgb_frame c);
      _ ← upd (fun w => match live w !! f with Some (Frame d) => set_out d w | _ => w end);
      n ← on_lib buffer_size;
      if n <? 0 then _ ← make_error trace "failed in get the size of the frame buffer" 0; mret (Break (-1))
      else _ ← upd (set_out_len n); mret (Continue tt).

Definition w_ffmpeg_decode_frame (fuel : nat) : IO Z :=
  '(_, c) ← look my_ctx;
  ret ← on_lib (send_packet (packet c));
  if ret <? 0 then
    _ ← make_error "ffmpeg::w_ffmpeg_decode_frame" "failed to send the packet" 0; mret (-1)
  else
    r ← loop fuel frames_round tt;
    mret (if r <? 0 then -1 else ret).

(** Parsing what is left of the input: [None] for a failure. *)
Definition parse_round (fuel : nat) (size : Z) : IO (flow Z (option unit)) :=
  '(_, c) ← look my_ctx;
  _ ← follow W_PACKET (packet c);
  _ ← follow W_PARSER (parser c);
  '(tmp_res, packet_size) ← on_lib (parse2 size);
  if tmp_res <? 0 then
    _ ← make_error "ffmpeg::w_ffmpeg_decode" "failed in parsing during decoding" 0; mret (Break None)
  else
    let size := size - tmp_res in
    _ ← (if packet_size >? 0 then w_ffmpeg_decode_frame fuel else mret 0);
    if size <=? 0 then mret (Break (Some tt)) else mret (Continue size).

Definition w_ffmpeg_decode (fuel : nat) (data_len p_data_size : Z) : IO Z :=
  o ← look the_opt;
  if bool_decide (ctx o = None) then mret (-1)
  else
    let lists := to_cleanup (ctx o) ++ [[(W_DATA, COut)]; free_ctx] in
    p ← alloc (Data Libc (calloc_size o));
    _ ← upd (set_out p);
    if bool_decide (p = None) then
      fail lists "ffmpeg::w_ffmpeg_decode" "failed to allocate the output buffer" 0
    else
      _ ← look (fun _ => if p_data_size <=? data_len then Ret tt else Panic UB_OVERREAD);
      r ← loop fuel (parse_round fuel) p_data_size;
      match r with
      | None => finally lists (-1)
      | Some _ =>
        _ ← assign FPacket None;
        ret ← w_ffmpeg_decode_frame fuel;
        finally lists ret
      end.

Definition w_ffmpeg_fini : IO unit :=
  o ← look the_opt;
  let a := ctx o in
  cleanup (to_cleanup a ++ [owned a W_PARSER FParser; free_ctx]).

(** ** [ffmpeg.rs]: a status other than 0 is an error. *)
Definition status (what : string) (ret : Z) : result unit anyhow :=
  if ret =? 0 then Ok tt else Err (anyhow_msg what).

Definition ffmpeg_init : IO (result unit anyhow) :=
  ret ← w_ffmpeg_init; mret (status "could not initialize ffmpeg" ret).
Definition ffmpeg_encode (fuel : nat) (p_data_in_len : Z) : IO (result unit anyhow) :=
  ret ← w_ffmpeg_encode fuel p_data_in_len; mret (status "could not encode the buffer" ret).
Definition ffmpeg_decode (fuel : nat) (p_data_in_len p_data_size : Z) : IO (result unit anyhow) :=
  ret ← w_ffmpeg_decode fuel p_data_in_len p_data_size; mret (status "could not decode the buffer" ret).
Definition ffmpeg_fini : IO unit := w_ffmpeg_fini.
End ffmpeg.

(** ** Ownership

    What the wrapper owns is live and of its kind: the fields of the caller's
    context, the two frames being different, and the output buffer; the image of
    the RGB frame is raw memory. [decoding] stands for a reason to decode: what
    decodes gives out memory of [av_malloc], and only that can be freed with the
    wrong function. *)
Section ownership.
Context `{!Errors} {L : Type} `{!Libav L}.
Variable decoding : Prop.
Implicit Types (w : world L).

Definition type_of (f : field) : w_ffmpeg_type :=
  match f with
  | FContext => W_CONTEXT | FPacket => W_PACKET | FRgb | FYuv => W_FRAME | FParser => W_PARSER
  end.
Definition is_data (m : gmap positive block) (a : positive) : Prop :=
  exists from len, m !! a = Some (Data from len).
Definition of_av_malloc (m : gmap positive block) (a : positive) : Prop :=
  exists len, m !! a = Some (Data AvMalloc len).
Definition out_ok (m : gmap positive block) (a : positive) : Prop :=
  is_data m a /\ (of_av_malloc m a -> decoding).

Record fields_ok (m : gmap positive block) (c : w_ffmpeg_ctx_t) : Prop := {
  field_live f x : get f c = Some x -> exists b, m !! x = Some b /\ fits (type_of f) b = true;
  frames_differ x : rgb_frame c = Some x -> yuv_frame c <> Some x;
  rgb_image x d : rgb_frame c = Some x -> m !! x = Some (Frame (Some d)) -> is_data m d;
}.

Record well w : Prop := {
  good_ctx o a : opt w = Some o -> ctx o = Some a -> exists c, ctxs w !! a = Some c /\ fields_ok (live w) c;
  good_disjoint a : is_Some (ctxs w !! a) -> live w !! a = None;
  good_out a : out w = Some a -> out_ok (live w) a;
  good_action o : opt w = Some o -> type_ o = W_DECODE -> decoding;
}.

(** A world whose caller's context is at [a], with the fields [c]. *)
Definition at_ctx (a : positive) (c : w_ffmpeg_ctx_t) w : Prop :=
  (exists o, opt w = Some o /\ ctx o = Some a) /\ ctxs w !! a = Some c.

Lemma my_ctx_at a c w : at_ctx a c w -> my_ctx w = Ret (Some a, c).
Proof.
  intros [(o & Ho & Ha) Hc]. unfold my_ctx, the_opt, mbind, res_mbind, res_bind. rewrite Ho, Ha.
  unfold the_ctx. by rewrite Hc.
Qed.

Lemma good_fields a c w : well w -> at_ctx a c w -> fields_ok (live w) c.
Proof.
  intros Hg [(o & Ho & Ha) Hc]. destruct (good_ctx _ Hg o a Ho Ha) as (c' & Hc' & Hf). congruence.
Qed.

Lemma good_lib l w : well w -> well (set_lib l w).
Proof. intros [H1 H2 H3 H4]. by split. Qed.
Lemma good_out_len n w : well w -> well (set_out_len n w).
Proof. intros [H1 H2 H3 H4]. by split. Qed.

(** A step of the heap that leaves the raw memory there is. *)
Definition keeps (m m' : gmap positive block) : Prop :=
  forall d from len, m !! d = Some (Data from len) -> m' !! d = Some (Data from len).

Lemma is_data_keeps m m' d : keeps m m' -> is_data m d -> is_data m' d.
Proof. intros Hk (from & len & Hd). exists from, len. by apply Hk. Qed.
Lemma out_keeps m m' d : keeps m m' -> out_ok m d -> out_ok m' d.
Proof.
  intros Hk [Hd Hav]. split; [by eapply is_data_keeps|]. intros [len Hlen]. apply Hav.
  destruct Hd as (from & len' & Hd). pose proof (Hk _ _ _ Hd) as Hd'. rewrite Hd' in Hlen.
  injection Hlen as -> ->. by exists len.
Qed.

Lemma keeps_refl m : keeps m m.
Proof. by intros d from len. Qed.
Lemma keeps_trans m1 m2 m3 : keeps m1 m2 -> keeps m2 m3 -> keeps m1 m3.
Proof. intros H12 H23 d from len Hd. by apply H23, H12. Qed.
(** A block at a new address, one that is not raw memory removed, a frame's image set. *)
Lemma keeps_insert m a b : m !! a = None -> keeps m (<[a := b]> m).
Proof. intros Ha d from len Hd. rewrite lookup_insert_ne; [done|]. intros ->. congruence. Qed.
Lemma keeps_delete m f x b : m !! x = Some b -> fits (type_of f) b = true -> keeps m (delete x m).
Proof.
  intros Hx Hb d from len Hd. rewrite lookup_delete_ne; [done|]. intros ->.
  rewrite Hx in Hd. injection Hd as ->. by destruct f.
Qed.
Lemma keeps_frame m x d d' : m !! x = Some (Frame d) -> keeps m (<[x := Frame d']> m).
Proof. intros Hx y from len Hy. rewrite lookup_insert_ne; [done|]. intros ->. congruence. Qed.

Lemma fields_insert m a b c :
  m !! a = None -> fields_ok m c -> fields_ok (<[a := b]> m) c.
Proof.
  intros Ha [H1 H2 H3]. split; [|done|].
  - intros f x Hx. destruct (H1 f x Hx) as (b' & Hb & Hf). exists b'. split; [|done].
    rewrite lookup_insert_ne; [done|]. intros ->. congruence.
  - intros x d Hx Hd. eapply is_data_keeps; [by apply keeps_insert|]. apply (H3 x d Hx).
    rewrite lookup_insert_ne in Hd; [done|]. intros ->.
    destruct (H1 FRgb x Hx) as (b' & Hb & _). congruence.
Qed.

Lemma good_insert a b w :
  live w !! a = None -> ctxs w !! a = None -> well w -> well (set_live (<[a := b]> (live w)) w).
Proof.
  intros Ha Hca [H1 H2 H3 H4]. split; cbn; [..|exact H4].
  - intros o x Ho Hx. destruct (H1 o x Ho Hx) as (c & Hc & Hf). exists c. split; [done|].
    by apply fields_insert.
  - intros x Hx. rewrite lookup_insert_ne; [by apply H2|]. intros ->. rewrite Hca in Hx. by destruct Hx.
  - intros x Hx. eapply out_keeps; [by apply keeps_insert|]. by apply H3.
Qed.

Lemma fresh_ok w : live w !! fresh_address w = None /\ ctxs w !! fresh_address w = None.
Proof.
  unfold fresh_address. pose proof (is_fresh (dom (live w) ∪ dom (ctxs w))) as Hf.
  rewrite not_elem_of_union, !not_elem_of_dom in Hf. exact Hf.
Qed.

(** Removing what a field owns. *)
Lemma kinds_apart f g : type_of f = type_of g -> f = g \/ (f = FRgb /\ g = FYuv) \/ (f = FYuv /\ g = FRgb).
Proof. destruct f, g; auto; discriminate. Qed.

Lemma fits_mismatch f b : fits (type_of f) b = true -> mismatch Libc b = false.
Proof. by destruct f, b. Qed.
#[local] Arguments mismatch : simpl never.

Lemma fits_type t t' b : fits t b = true -> fits t' b = true -> t = t'.
Proof. by destruct t, t', b. Qed.

Lemma fields_delete m f x c :
  fields_ok m c -> get f c = Some x -> fields_ok (delete x m) (put f None c).
Proof.
  intros [H1 H2 H3] Hx. destruct (H1 f x Hx) as (b & Hb & Hfit). split.
  - intros g y Hy.
    assert (get g c = Some y /\ g <> f) as [Hg Hne] by (destruct f, g; cbn in *; done).
    destruct (H1 g y Hg) as (b' & Hb' & Hfit'). exists b'. split; [|done].
    rewrite lookup_delete_ne; [done|]. intros ->. rewrite Hb in Hb'. injection Hb' as <-.
    destruct (kinds_apart f g (fits_type _ _ _ Hfit Hfit')) as [->|[[-> ->]|[-> ->]]]; [done|..];
      cbn in *; by eapply H2.
  - intros y Hy. destruct f; cbn in *; try done; by apply H2.
  - intros y d Hy Hd. eapply is_data_keeps; [by eapply keeps_delete|]. apply (H3 y d).
    + by destruct f.
    + destruct (decide (x = y)) as [->|Hne]; [by rewrite lookup_delete_eq in Hd|].
      by rewrite lookup_delete_ne in Hd.
Qed.

Lemma fields_clear m f c : fields_ok m c -> fields_ok m (put f None c).
Proof.
  intros [H1 H2 H3]. split.
  - intros g y Hy. apply (H1 g y). by destruct f, g.
  - intros y Hy. destruct f; cbn in *; try done; by apply H2.
  - intros y d Hy. apply (H3 y d). by destruct f.
Qed.

Lemma good_put a c c' w :
  well w -> at_ctx a c w -> fields_ok (live w) c' ->
  well (put_ctx (Some a) c' w) /\ at_ctx a c' (put_ctx (Some a) c' w).
Proof.
  intros [H1 H2 H3 H4] [(o & Ho & Ha) Hc] Hf. split; [split|split]; cbn; [..|exact H4| |].
  - intros o' x Ho' Hx. rewrite Ho in Ho'. injection Ho' as <-. rewrite Ha in Hx. injection Hx as <-.
    exists c'. by rewrite lookup_insert_eq.
  - intros x Hx. apply H2. destruct (decide (x = a)) as [->|Hne]; [by rewrite Hc|].
    by rewrite lookup_insert_ne in Hx.
  - exact H3.
  - by exists o.
  - by rewrite lookup_insert_eq.
Qed.

(** *** What each step leaves *)

(** The steps that can only stop on a null pointer, a bound, the fuel or, when
    something decodes, memory of the other allocator; never on a pointer to
    something released. *)
Definition bounds_or_null (why : string) : Prop :=
  (why = UB_NULL \/ why = UB_OVERREAD \/ why = UB_OVERWRITE) \/
  (why = UB_MISMATCH /\ decoding /\ one_allocator = false).
Definition ends {A} (Q : A -> world L -> list event -> Prop) (r : res A) w (t : list event) : Prop :=
  match r with Ret a => Q a w t | Panic why => bounds_or_null why | NoFuel => True end.

Lemma ends_bind {A B} (m : M (world L) event A) (k : A -> M (world L) event B) P Q w :
  wp m (ends P) w ->
  (forall a w1 t1, P a w1 t1 -> wp (k a) (ends (fun b w2 t2 => Q b w2 (t1 ++ t2))) w1) ->
  wp (m ≫= k) (ends Q) w.
Proof.
  intros Hm Hk. apply wp_bind. eapply wp_mono; [|exact Hm].
  intros [a|why|] w1 t1 Ha; [|done..]. eapply wp_mono; [|by apply Hk]. by intros [].
Qed.

Lemma ends_mono {A} (m : M (world L) event A) (P Q : A -> world L -> list event -> Prop) w :
  wp m (ends P) w -> (forall a w1 t1, P a w1 t1 -> Q a w1 t1) -> wp m (ends Q) w.
Proof. intros Hm HPQ. eapply wp_mono; [|exact Hm]. intros [] ??; cbn; auto. Qed.

Lemma ends_look {A} (f : world L -> res A) (Q : A -> world L -> list event -> Prop) w :
  ends Q (f w) w [] -> wp (look f) (ends Q) w.
Proof. done. Qed.

(** A call of the library. *)
Lemma lib_step {A} (f : L -> A * L) (Q : A -> world L -> list event -> Prop) w :
  (forall x l, Q x (set_lib l w) []) -> wp (on_lib f) (ends Q) w.
Proof.
  intros HQ. unfold on_lib. apply wp_act. intros x w' Hx. destruct (f (lib w)) as [y l].
  injection Hx as <- <-. apply HQ.
Qed.

Lemma alloc_step b (Q : ptr -> world L -> list event -> Prop) w :
  (forall l, Q None (set_lib l w) []) ->
  (forall x l, live w !! x = None -> ctxs w !! x = None ->
     Q (Some x) (set_live (<[x := b]> (live w)) (set_lib l w)) []) ->
  wp (alloc b) (ends Q) w.
Proof.
  intros HN HS. unfold alloc.
  apply (ends_bind _ _ (fun _ w' t => t = [] /\ exists l, w' = set_lib l w)).
  { apply lib_step. intros x l. split; [done|]. by exists l. }
  intros ok w1 t1 [-> (l & ->)]. destruct ok; [|apply HN].
  apply wp_act. intros x w' [= <- <-]. destruct (fresh_ok (set_lib l w)) as [H1 H2].
  by apply (HS _ l).
Qed.

Lemma assign_step a c f p w (Q : unit -> world L -> list event -> Prop) :
  at_ctx a c w -> Q tt (put_ctx (Some a) (put f p c) w) [] -> wp (assign f p) (ends Q) w.
Proof.
  intros Ha HQ. unfold assign. apply wp_bind. unfold look at 1, wp at 1.
  rewrite (my_ctx_at _ _ _ Ha). exact HQ.
Qed.

Lemma error_step trace msg code w (Q : unit -> world L -> list event -> Prop) :
  Q tt w [] -> wp (make_error trace msg code) (ends Q) w.
Proof.
  intros HQ. unfold make_error. apply ends_look. destruct (_ <=? _); [exact HQ|]. by left; right; right.
Qed.

(** The same steps, with what follows. *)
Lemma lib_bind {A B} (f : L -> A * L) (k : A -> M (world L) event B) Q w :
  (forall x l, wp (k x) (ends Q) (set_lib l w)) -> wp (on_lib f ≫= k) (ends Q) w.
Proof.
  intros Hk. apply (ends_bind _ _ (fun x w1 t1 => t1 = [] /\ exists l, w1 = set_lib l w)).
  - apply lib_step. intros x l. split; [done|]. by exists l.
  - by intros x w1 t1 [-> (l & ->)].
Qed.

Lemma alloc_bind {B} b (k : ptr -> M (world L) event B) Q w :
  (forall l, wp (k None) (ends Q) (set_lib l w)) ->
  (forall x l w1, w1 = set_lib l w -> live w1 !! x = None -> ctxs w1 !! x = None ->
     wp (k (Some x)) (ends Q) (set_live (<[x := b]> (live w1)) w1)) ->
  wp (alloc b ≫= k) (ends Q) w.
Proof.
  intros HN HS.
  apply (ends_bind _ _ (fun p w1 t1 => t1 = [] /\ wp (k p) (ends Q) w1)).
  - apply alloc_step; [by auto|]. intros x l Hx Hc. split; [done|]. by apply (HS x l (set_lib l w)).
  - by intros p w1 t1 [-> Hp].
Qed.

Lemma assign_bind {B} a c f p (k : unit -> M (world L) event B) Q w :
  at_ctx a c w -> wp (k tt) (ends Q) (put_ctx (Some a) (put f p c) w) -> wp (assign f p ≫= k) (ends Q) w.
Proof.
  intros Ha Hk. eapply (ends_bind _ _ (fun _ w1 t1 => t1 = [] /\ w1 = put_ctx (Some a) (put f p c) w)).
  - by eapply assign_step.
  - by intros [] w1 t1 [-> ->].
Qed.

Lemma upd_bind {B} f (k : unit -> M (world L) event B) Q w :
  wp (k tt) (ends Q) (f w) -> wp (upd f ≫= k) (ends Q) w.
Proof. intros Hk. apply (ends_bind _ _ (fun _ w1 t1 => t1 = [] /\ w1 = f w)); [done|]. by intros [] w1 t1 [-> ->]. Qed.

Lemma error_bind {B} trace msg code (k : unit -> M (world L) event B) Q w :
  wp (k tt) (ends Q) w -> wp (make_error trace msg code ≫= k) (ends Q) w.
Proof.
  intros Hk. apply (ends_bind _ _ (fun _ w1 t1 => t1 = [] /\ w1 = w)); [by apply error_step|].
  by intros [] w1 t1 [-> ->].
Qed.

(** *** The clean-up *)

(** One field: released when it points to something, and cleared. *)
Definition after_field (a : positive) (f : field) (c : w_ffmpeg_ctx_t) w : world L :=
  match get f c with
  | Some x => put_ctx (Some a) (put f None c) (set_live (delete x (live w)) w)
  | None => w
  end.

Lemma cleanup_field a c f w :
  well w -> at_ctx a c w ->
  cleanup_list (owned (Some a) (type_of f) f) w =
    (Ret tt, after_field a f c w, match get f c with Some x => [Freed x] | None => [] end) /\
  well (after_field a f c w) /\ at_ctx a (put f None c) (after_field a f c w).
Proof.
  intros Hg Hat. pose proof (good_fields _ _ _ Hg Hat) as Hf. pose proof Hat as [(o & Ho & Ha) Hc].
  unfold after_field. destruct (get f c) as [x|] eqn:Hx.
  - destruct (field_live _ _ Hf f x Hx) as (b & Hb & Hfit). split.
    + unfold owned, cleanup_list, mbind, M_mbind, M_bind, look, read_cell, the_opt, the_ctx,
        mbind, res_mbind, res_bind, mret, res_mret, upd, act, release.
      rewrite Ho. cbn. rewrite Ho. cbn. rewrite Ha. cbn. rewrite Hc. cbn. rewrite Hx. cbn.
      rewrite Hb, Hfit. cbn. rewrite (fits_mismatch _ _ Hfit). cbn. rewrite Hc. done.
    + destruct Hg as [H1 H2 H3 H4]. split; [split|split]; cbn; [..|exact H4| |].
      * intros o' y Ho' Hy. rewrite Ho in Ho'. injection Ho' as <-. rewrite Ha in Hy. injection Hy as <-.
        exists (put f None c). rewrite lookup_insert_eq. split; [done|]. by apply fields_delete.
      * intros y Hy. apply lookup_delete_None. right. apply H2.
        destruct (decide (y = a)) as [->|Hne]; [by rewrite Hc|]. by rewrite lookup_insert_ne in Hy.
      * intros y Hy. eapply out_keeps; [by eapply keeps_delete|]. by apply H3.
      * by exists o.
      * by rewrite lookup_insert_eq.
  - split; [|split; [done|]].
    + unfold owned, cleanup_list, mbind, M_mbind, M_bind, look, read_cell, the_opt, the_ctx,
        mbind, res_mbind, res_bind, mret, res_mret.
      rewrite Ho. cbn. rewrite Ho. cbn. rewrite Ha. cbn. rewrite Hc. cbn. by rewrite Hx.
    + split; [by exists o|]. rewrite Hc. f_equal. destruct c, f; cbn in *; by subst.
Qed.

Lemma after_field_out a f c w : out (after_field a f c w) = out w.
Proof. unfold after_field. by destruct (get f c). Qed.

(** Several fields, in order. *)
Definition clear_fields (fs : list field) (c : w_ffmpeg_ctx_t) : w_ffmpeg_ctx_t :=
  fold_left (fun c f => put f None c) fs c.
Fixpoint freed_fields (fs : list field) (c : w_ffmpeg_ctx_t) : list event :=
  match fs with
  | [] => []
  | f :: fs => match get f c with Some x => [Freed x] | None => [] end ++ freed_fields fs (put f None c)
  end.
Definition field_lists (a : positive) (fs : list field) : list (list (w_ffmpeg_type * cell)) :=
  map (fun f => owned (Some a) (type_of f) f) fs.

Lemma cleanup_fields a fs c w :
  well w -> at_ctx a c w ->
  wp (cleanup (field_lists a fs))
     (fun r w' t => r = Ret tt /\ well w' /\ at_ctx a (clear_fields fs c) w' /\ out w' = out w /\
                    t = freed_fields fs c /\ keeps (live w) (live w')) w.
Proof.
  revert c w. induction fs as [|f fs IH]; intros c w Hg Hat.
  { apply wp_ret. split_and!; [done..|]. apply keeps_refl. }
  cbn [field_lists map cleanup]. apply wp_bind.
  destruct (cleanup_field a c f w Hg Hat) as (Hrun & Hg' & Hat').
  apply (wp_run _ _ _ _ _ _ Hrun). eapply wp_mono; [|by apply IH].
  intros r w' t (-> & Hg2 & Hat2 & Hout & -> & Hd). rewrite after_field_out in Hout. split_and!; [done..|].
  eapply keeps_trans; [|exact Hd]. unfold after_field.
  destruct (get f c) as [x|] eqn:Hx; [|apply keeps_refl]. cbn.
  destruct (field_live _ _ (good_fields _ _ _ Hg Hat) f x Hx) as (b & Hb & Hfit).
  by eapply keeps_delete.
Qed.

Lemma cleanup_app l1 l2 w Q :
  wp (cleanup l1) (fun r w1 t1 => match r with
     | Ret _ => wp (cleanup l2) (fun r w2 t2 => Q r w2 (t1 ++ t2)) w1
     | o => Q o w1 t1
     end) w -> wp (cleanup (l1 ++ l2)) Q w.
Proof.
  revert w Q. induction l1 as [|i l1 IH]; intros w Q H0.
  { cbn in H0. unfold wp in H0 |- *. cbn in H0. cbn [app]. by destruct (cleanup l2 w) as [[r w'] t]. }
  cbn [cleanup app] in *. apply wp_bind.
  unfold wp in H0 at 1. unfold mbind, M_mbind, M_bind in H0. unfold wp at 1.
  destruct (cleanup_list i w) as [[[[]|why|] w1] t1]; [|done..].
  apply IH. unfold wp at 1. destruct (cleanup l1 w1) as [[[[]|why|] w2] t2]; [|done..].
  eapply wp_mono; [|exact H0]. intros r w3 t3. by rewrite (assoc_L app).
Qed.

Lemma cleanup_one i w Q : wp (cleanup_list i) Q w -> wp (cleanup [i]) Q w.
Proof.
  intros Hi. cbn [cleanup]. apply wp_bind. eapply wp_mono; [|exact Hi].
  intros [[]|why|] w1 t1 HQ; [|done..]. apply wp_ret. by rewrite app_nil_r.
Qed.

(** Memory of [av_malloc] that is passed to [free]. *)
Definition mismatched {A} (m : gmap positive block) (p : ptr) (r : res A) : Prop :=
  r = Panic UB_MISMATCH /\ one_allocator = false /\ exists x, p = Some x /\ of_av_malloc m x.

Lemma release_raw x from len w :
  live w !! x = Some (Data from len) ->
  wp (release W_DATA x) (fun r w' t => mismatched (live w) (Some x) r \/
    (r = Ret tt /\ w' = set_live (delete x (live w)) w /\ t = [Freed x])) w.
Proof.
  intros Hx. unfold wp, release. rewrite Hx. cbn [fits negb]. destruct from; [by right|].
  unfold mismatch. destruct (@one_allocator L _) eqn:Hone; [by right|]. left. cbn. split_and!; [done..|].
  exists x. split; [done|]. by exists len.
Qed.

(** Raw memory that nothing points to any more. *)
Lemma well_delete a c x from len p w :
  well w -> at_ctx a c w -> rgb_frame c = None -> live w !! x = Some (Data from len) ->
  (forall y, p = Some y -> out w = Some y /\ y <> x) ->
  well (set_out p (set_live (delete x (live w)) w)) /\ at_ctx a c (set_out p (set_live (delete x (live w)) w)).
Proof.
  intros Hg Hat Hrgb Hx Hp. pose proof (good_fields _ _ _ Hg Hat) as [F1 F2 F3].
  pose proof Hat as [(o & Ho & Ha) Hc]. destruct Hg as [H1 H2 H3 H4]. split; [|exact Hat].
  split; cbn; [|intros y Hy; apply lookup_delete_None; right; by apply H2| |exact H4].
  - intros o' y Ho' Hy. rewrite Ho in Ho'. injection Ho' as <-. rewrite Ha in Hy. injection Hy as <-.
    exists c. split; [done|]. split; [|done|].
    + intros f y Hy. destruct (F1 f y Hy) as (b & Hb & Hfit). exists b. split; [|done].
      rewrite lookup_delete_ne; [done|]. intros ->. rewrite Hx in Hb. injection Hb as <-. by destruct f.
    + intros y d Hy. by rewrite Hrgb in Hy.
  - intros y Hy. destruct (Hp y Hy) as [Hout Hne]. destruct (H3 y Hout) as [(f & n & Hd) Hav].
    unfold out_ok, is_data, of_av_malloc. rewrite lookup_delete_ne by done. split; [by exists f, n|exact Hav].
Qed.

(** The output buffer, once no frame has its image there. *)
Lemma cleanup_out a c w :
  well w -> at_ctx a c w -> rgb_frame c = None ->
  wp (cleanup_list [(W_DATA, COut)])
     (fun r w' t => mismatched (live w) (out w) r \/
        (r = Ret tt /\ well w' /\ at_ctx a c w' /\ out w' = None /\
         t = match out w with Some x => [Freed x] | None => [] end)) w.
Proof.
  intros Hg Hat Hrgb. cbn [cleanup_list]. apply wp_bind. unfold wp at 1, look. cbn [read_cell].
  destruct (out w) as [x|] eqn:Hout; [|apply wp_ret; right; by split_and!].
  destruct (good_out _ Hg x Hout) as [(from & len & Hx) _].
  apply wp_bind. eapply wp_mono; [|by apply (release_raw x from len)].
  intros r w1 t1 [Hm|(-> & -> & ->)]; [destruct Hm as (-> & Hm); by left|].
  unfold upd. apply wp_act. intros [] w2 [= <-]. right.
  destruct (well_delete a c x from len None w Hg Hat Hrgb Hx) as [Hw' Hat']; [done|].
  by split_and!.
Qed.

Definition no_ctx w : Prop := exists o, opt w = Some o /\ ctx o = None.

Lemma cleanup_ctx a c w :
  well w -> at_ctx a c w ->
  wp (cleanup_list free_ctx)
     (fun r w' t => r = Ret tt /\ well w' /\ no_ctx w' /\ out w' = out w /\ t = [Freed a]) w.
Proof.
  intros Hg [(o & Ho & Ha) Hc].
  assert (live w !! a = None) as Hl by (apply (good_disjoint _ Hg); by rewrite Hc).
  unfold wp, free_ctx, cleanup_list, mbind, M_mbind, M_bind, look, read_cell, the_opt,
    mbind, res_mbind, res_bind, mret, res_mret, upd, act, release.
  rewrite Ho. cbn. rewrite Ho. cbn. rewrite Ha. cbn. rewrite Hl, Hc. cbn. rewrite Ho.
  destruct Hg as [H1 H2 H3 H4]. split_and!; [done| | |done|done].
  - split; cbn.
    + intros o' x [= <-]. done.
    + intros x Hx. apply H2. destruct (decide (x = a)) as [->|Hne]; [by rewrite Hc|by rewrite lookup_delete_ne in Hx].
    + exact H3.
    + intros o' [= <-] Ht. by apply (H4 o Ho).
  - by eexists.
Qed.

(** The clean-up of a failed encoding or decoding, and of [w_ffmpeg_fini]. *)
Definition FAILED : list field := [FPacket; FContext; FYuv; FRgb].
Lemma failed_cleanup a c w :
  well w -> at_ctx a c w ->
  wp (cleanup (to_cleanup (Some a) ++ [[(W_DATA, COut)]; free_ctx]))
     (fun r w' t => mismatched (live w) (out w) r \/
        (r = Ret tt /\ well w' /\ no_ctx w' /\ out w' = None /\
         t = freed_fields FAILED c ++ match out w with Some x => [Freed x] | None => [] end ++ [Freed a])) w.
Proof.
  intros Hg Hat. change (to_cleanup (Some a)) with (field_lists a FAILED).
  apply cleanup_app. eapply wp_mono; [|by apply cleanup_fields].
  intros r w1 t1 (-> & Hg1 & Hat1 & Hout1 & -> & Hkeep).
  change [?x; ?y] with ([x] ++ [y]). apply cleanup_app, cleanup_one.
  eapply wp_mono; [|by apply (cleanup_out _ _ _ Hg1 Hat1)].
  intros r w2 t2 [(-> & Hone & x & Hx & Hav)|(-> & Hg2 & Hat2 & Hout2 & ->)].
  { left. split_and!; [done..|]. rewrite Hout1 in Hx. exists x. split; [done|].
    destruct (good_out _ Hg x Hx) as [(from & len & Hd) _]. destruct Hav as [len' Hav].
    rewrite (Hkeep _ _ _ Hd) in Hav. injection Hav as -> ->. by exists len'. }
  apply cleanup_one. eapply wp_mono; [|by apply (cleanup_ctx _ _ _ Hg2 Hat2)].
  intros r w3 t3 (-> & Hg3 & Hno & Hout3 & ->). rewrite Hout1. right. by split_and!; [..|congruence|].
Qed.

Lemma fini_cleanup a c w :
  well w -> at_ctx a c w ->
  wp (cleanup (to_cleanup (Some a) ++ [owned (Some a) W_PARSER FParser; free_ctx]))
     (fun r w' t => r = Ret tt /\ well w' /\ no_ctx w' /\ out w' = out w /\
        t = freed_fields (FAILED ++ [FParser]) c ++ [Freed a]) w.
Proof.
  intros Hg Hat.
  change (to_cleanup (Some a) ++ [owned (Some a) W_PARSER FParser; free_ctx])
    with (field_lists a (FAILED ++ [FParser]) ++ [free_ctx]).
  apply cleanup_app. eapply wp_mono; [|by apply cleanup_fields].
  intros r w1 t1 (-> & Hg1 & Hat1 & Hout1 & -> & _). apply cleanup_one.
  eapply wp_mono; [|by apply (cleanup_ctx _ _ _ Hg1 Hat1)].
  intros r w3 t3 (-> & Hg3 & Hno & Hout3 & ->). by split_and!; [..|congruence|].
Qed.

(** *** Encoding *)

Lemma ends_loop {St B} (I : St -> world L -> Prop) (Q : B -> world L -> Prop)
    (body : St -> M (world L) event (flow St B)) n s w :
  (forall s w, I s w -> wp (body s) (ends (fun f w' _ => match f with
      | Continue s' => I s' w' | Break b => Q b w' end)) w) ->
  I s w -> wp (loop n body s) (ends (fun b w' _ => Q b w')) w.
Proof.
  intros Hb. revert s w. induction n as [|n IH]; intros s w Hs; [done|].
  rewrite loop_S. eapply ends_bind; [by apply Hb|].
  intros [s'|b] w1 t1 HI; [by apply IH|by apply wp_ret].
Qed.

(** The frames of the context. *)
Lemma frame_live a c w f x :
  well w -> at_ctx a c w -> get f c = Some x -> type_of f = W_FRAME -> exists d, live w !! x = Some (Frame d).
Proof.
  intros Hg Hat Hx Ht. destruct (field_live _ _ (good_fields _ _ _ Hg Hat) f x Hx) as (b & Hb & Hfit).
  rewrite Ht in Hfit. destruct b; try done. by eexists.
Qed.

Lemma good_yuv a c w x d :
  well w -> at_ctx a c w -> yuv_frame c = Some x -> well (set_live (<[x := Frame d]> (live w)) w).
Proof.
  intros Hg Hat Hx. destruct (frame_live a c w FYuv x Hg Hat Hx eq_refl) as [d0 Hd0].
  pose proof (good_fields _ _ _ Hg Hat) as [F1 F2 F3]. pose proof Hat as [(o & Ho & Ha) Hc].
  destruct Hg as [H1 H2 H3 H4]. split; cbn; [..|exact H4].
  - intros o' y Ho' Hy. rewrite Ho in Ho'. injection Ho' as <-. rewrite Ha in Hy. injection Hy as <-.
    exists c. split; [done|]. split; [|done|].
    + intros f y Hy. destruct (decide (y = x)) as [->|Hne].
      * rewrite lookup_insert_eq. destruct (F1 f x Hy) as (b & Hb & Hfit). rewrite Hd0 in Hb.
        injection Hb as <-. by eexists.
      * rewrite lookup_insert_ne by done. by apply F1.
    + intros y e Hy He. rewrite lookup_insert_ne in He by (intros ->; by eapply F2).
      eapply is_data_keeps; [by eapply keeps_frame|]. by eapply F3.
  - intros y Hy. rewrite lookup_insert_ne; [by apply H2|]. intros ->. rewrite H2 in Hd0; [done|exact Hy].
  - intros y Hy. eapply out_keeps; [by eapply keeps_frame|]. by apply H3.
Qed.

(** A call that keeps the caller's context, its fields and the output pointer. *)
Definition kept (a : positive) (c : w_ffmpeg_ctx_t) w w' : Prop :=
  well w' /\ at_ctx a c w' /\ out w' = out w.

Lemma kept_lib a c w l w0 : kept a c w0 w -> kept a c w0 (set_lib l w).
Proof. intros (Hg & Hat & Ho). split_and!; [by apply good_lib|exact Hat|exact Ho]. Qed.

Lemma my_ctx_step {B} a c w (k : ptr * w_ffmpeg_ctx_t -> M (world L) event B) Q :
  at_ctx a c w -> wp (k (Some a, c)) Q w -> wp (look my_ctx ≫= k) Q w.
Proof.
  intros Hat Hk. apply wp_bind. unfold look, wp at 1. rewrite (my_ctx_at _ _ _ Hat).
  eapply wp_mono; [|exact Hk]. done.
Qed.

Lemma opt_step {B} w (k : w_ffmpeg_opt_t -> M (world L) event B) Q :
  (forall o, opt w = Some o -> wp (k o) (ends Q) w) -> wp (look the_opt ≫= k) (ends Q) w.
Proof.
  intros Hk. apply wp_bind. unfold look, wp at 1, the_opt. destruct (opt w) as [o|] eqn:Ho; [|by left; left].
  eapply wp_mono; [|by apply Hk]. by intros [].
Qed.

Lemma frame_at_step {B} a c w f (k : positive -> M (world L) event B) Q :
  well w -> at_ctx a c w -> type_of f = W_FRAME ->
  (forall x, get f c = Some x -> wp (k x) (ends Q) w) -> wp (frame_at (get f c) ≫= k) (ends Q) w.
Proof.
  intros Hg Hat Ht Hk. apply wp_bind. unfold frame_at, look, wp at 1.
  destruct (get f c) as [x|] eqn:Hx; [|by left; left].
  destruct (frame_live a c w f x Hg Hat Hx Ht) as [d Hd]. rewrite Hd.
  eapply wp_mono; [|by apply Hk]. by intros [].
Qed.

Lemma free_image x n w (Q : Z -> world L -> list event -> Prop) :
  live w !! x = Some (Data AvMalloc n) -> Q (-1) (set_live (delete x (live w)) w) [Freed x] ->
  wp (_ ← av_free x; mret (-1)) (ends Q) w.
Proof. intros Hx HQ. apply wp_bind. unfold av_free, wp. rewrite Hx. exact HQ. Qed.

Lemma rgb2yuv_step a c w n :
  well w -> at_ctx a c w ->
  wp (rgb2yuv n) (ends (fun r w' t => (r = 0 \/ r = -1) /\ kept a c w w' /\
      (yuv_frame c = None -> r = -1 /\ w' = w /\ t = []))) w.
Proof.
  intros Hg Hat. assert (kept a c w w) as Hk by done. unfold rgb2yuv.
  apply (my_ctx_step _ _ _ _ _ Hat). apply opt_step. intros o Ho.
  destruct (_ || _ || _) eqn:Hnull.
  { apply wp_ret. split_and!; [by right|done|]. by intros _. }
  assert (yuv_frame c <> None) as Hy.
  { intros Hn. rewrite Hn, orb_true_r in Hnull. done. }
  apply (ends_mono _ (fun r w' _ => (r = 0 \/ r = -1) /\ kept a c w w')).
  2:{ intros r w' t [Hr Hk']. split_and!; [done..|]. by intros. }
  apply lib_bind. intros ok l1. pose proof (kept_lib _ _ _ l1 _ Hk) as Hk1.
  destruct ok; cbn [negb]; [|apply wp_ret; by split; [right|]].
  apply lib_bind. intros m l2. pose proof (kept_lib _ _ _ l2 _ Hk1) as Hk2.
  apply alloc_bind; [intros l; apply wp_ret; split; [by right|by apply kept_lib]|].
  intros x l3 w3 Hw3 Hx Hcx.
  assert (kept a c w w3) as (Hg3 & Hat3 & Hout3) by (subst w3; by apply kept_lib).
  clear Hk1 Hk2 Hw3. set (w4 := set_live (<[x := Data AvMalloc m]> (live w3)) w3).
  assert (well w4) as Hg4 by (by apply good_insert). assert (at_ctx a c w4) as Hat4 by exact Hat3.
  change (yuv_frame c) with (get FYuv c).
  apply (frame_at_step a c); [done..|]. intros f Hf.
  destruct (frame_live a c w3 FYuv f Hg3 Hat3 Hf eq_refl) as [d Hd].
  assert (f <> x) as Hfx by (intros ->; congruence).
  apply lib_bind. intros size l5. destruct (size <? 0).
  { eapply free_image; [cbn; apply lookup_insert_eq|]. split; [by right|].
    cbn. rewrite delete_insert_id by done. split_and!; [|exact Hat3|exact Hout3].
    destruct Hg3 as [G1 G2 G3 G4]. by split. }
  apply upd_bind. set (w5 := set_live (<[f := Frame (Some x)]> (live (set_lib l5 w4))) (set_lib l5 w4)).
  assert (well w5) as Hg5 by (eapply good_yuv; [by apply good_lib|exact Hat4|exact Hf]).
  apply (ends_bind _ _ (fun _ w1 t1 => t1 = [] /\ w1 = w5)).
  { apply ends_look. destruct (_ <=? _); [done|by left; right; left]. }
  intros [] w1 t1 [-> ->]. apply lib_bind. intros h l6. destruct (h <? 0).
  - eapply free_image; [cbn; rewrite lookup_insert_ne by done; apply lookup_insert_eq|]. split; [by right|].
    cbn. rewrite delete_insert_ne by done. rewrite delete_insert_id by done.
    assert (well (set_lib l6 (set_live (<[f := Frame (Some x)]> (live w3)) w3))) as Hg6
      by (apply good_lib; by eapply good_yuv).
    split_and!; [|exact Hat3|exact Hout3]. destruct Hg6 as [G1 G2 G3 G4]. by split.
  - apply wp_ret. split; [by left|]. split_and!; [by apply good_lib|exact Hat3|exact Hout3].
Qed.

Lemma look_bind {A B} (f : world L -> res A) (k : A -> M (world L) event B) Q w :
  match f w with
  | Ret a => wp (k a) (ends Q) w
  | Panic why => bounds_or_null why
  | NoFuel => True
  end -> wp (look f ≫= k) (ends Q) w.
Proof.
  intros Hk. apply wp_bind. unfold look, wp at 1. destruct (f w); [|done..].
  eapply wp_mono; [|exact Hk]. by intros [].
Qed.

(** What a field of the context points to is live, when there is something. *)
Lemma follow_bind {B} a c f w (k : unit -> M (world L) event B) Q :
  well w -> at_ctx a c w -> (get f c <> None -> wp (k tt) (ends Q) w) ->
  wp (follow (type_of f) (get f c) ≫= k) (ends Q) w.
Proof.
  intros Hg Hat Hk. apply look_bind. destruct (get f c) as [x|] eqn:Hx; [|by left; left].
  destruct (field_live _ _ (good_fields _ _ _ Hg Hat) f x Hx) as (b & -> & ->). by apply Hk.
Qed.

Lemma packets_step a c s i w0 w :
  kept a c w0 w ->
  wp (packets_round s i) (ends (fun f w' _ => kept a c w0 w' /\ live w' = live w)) w.
Proof.
  intros Hk. unfold packets_round. apply lib_bind. intros [r n] l.
  pose proof (kept_lib _ _ _ l _ Hk) as Hk1. destruct (_ || _); [by apply wp_ret|].
  destruct (r <? 0); [by apply error_bind, wp_ret|].
  destruct Hk1 as (Hg & Hat & Hout).
  unfold write_out. apply look_bind. destruct (out (set_lib l w)) as [x|] eqn:Hx; [|by left; left].
  destruct (good_out _ Hg x Hx) as [(from & len & Hlen) _]. rewrite Hlen. destruct (_ && _); [|by left; right; right].
  apply upd_bind, wp_ret. split; [|done]. split_and!; [by apply good_out_len|exact Hat|].
  rewrite <-Hout. exact Hx.
Qed.

Lemma encode_frame_step a c fuel i w :
  well w -> at_ctx a c w ->
  wp (w_ffmpeg_encode_frame fuel i) (ends (fun r w' _ => kept a c w w' /\ live w' = live w)) w.
Proof.
  intros Hg Hat. assert (kept a c w w) as Hk by done. unfold w_ffmpeg_encode_frame.
  apply (my_ctx_step _ _ _ _ _ Hat). apply (follow_bind a c FPacket); [done..|]. intros _.
  apply lib_bind. intros r l. pose proof (kept_lib _ _ _ l _ Hk) as Hk1.
  destruct (r <? 0); [by apply error_bind, wp_ret|].
  apply (ends_bind _ _ (fun _ w' _ => kept a c w w' /\ live w' = live w)); [|by intros; apply wp_ret].
  apply (ends_loop (fun _ w' => kept a c w w' /\ live w' = live w)
                   (fun _ w' => kept a c w w' /\ live w' = live w)); [|done].
  intros i' w' [Hk' Hl]. eapply ends_mono; [by apply packets_step|].
  intros [] w1 _ [? Hl1]; (split; [done|by rewrite Hl1]).
Qed.

(** The end of a function that failed. *)
Definition dropped w : Prop := well w /\ no_ctx w /\ out w = None.

Lemma mismatched_ends {A} (r : res A) w :
  well w -> mismatched (live w) (out w) r -> r = Panic UB_MISMATCH /\ bounds_or_null UB_MISMATCH.
Proof.
  intros Hg (-> & Hone & x & Hx & Hav). split; [done|]. right. split_and!; [done| |done].
  by apply (proj2 (good_out _ Hg x Hx)).
Qed.

Lemma finally_failed a c w :
  well w -> at_ctx a c w ->
  wp (finally (to_cleanup (Some a) ++ [[(W_DATA, COut)]; free_ctx]) (-1))
     (ends (fun r w' t => r = -1 /\ dropped w' /\
        t = freed_fields FAILED c ++ match out w with Some x => [Freed x] | None => [] end ++ [Freed a])) w.
Proof.
  intros Hg Hat. unfold finally. change (-1 =? -1) with true. cbv iota.
  apply wp_bind. eapply wp_mono; [|by apply (failed_cleanup _ _ _ Hg Hat)].
  intros r w' t [Hm|(-> & Hg' & Hno & Hout & ->)]; [|apply wp_ret; by rewrite app_nil_r].
  by destruct (mismatched_ends _ _ Hg Hm) as [-> ?].
Qed.

Lemma fail_failed a c w trace msg code :
  well w -> at_ctx a c w ->
  wp (fail (to_cleanup (Some a) ++ [[(W_DATA, COut)]; free_ctx]) trace msg code)
     (ends (fun r w' _ => r = -1 /\ dropped w')) w.
Proof.
  intros Hg Hat. unfold fail. apply error_bind. eapply ends_mono; [by apply (finally_failed _ _ _ Hg Hat)|].
  by intros r w' t (? & ? & _).
Qed.

(** The output is not memory of [av_malloc]. *)
Definition calloced w : Prop := forall x, out w = Some x -> ~ of_av_malloc (live w) x.

(** What [w_ffmpeg_encode] leaves: a context without a frame to encode, with an
    output that can be freed, or nothing. *)
Definition encoded (r : Z) w : Prop :=
  (r = 0 /\ well w /\ calloced w /\ exists a c, at_ctx a c w /\ yuv_frame c = None) \/
  (r = -1 /\ well w /\ no_ctx w).

Lemma good_set_out a c p w :
  well w -> at_ctx a c w -> (forall x, p = Some x -> out_ok (live w) x) ->
  well (set_out p w) /\ at_ctx a c (set_out p w).
Proof. intros [G1 G2 G3 G4] Hat Hp. split; [by split|exact Hat]. Qed.

(** The output buffer is allocated. *)
Lemma out_buffer_step {B} a c n w (k : ptr -> M (world L) event B) Q :
  well w -> at_ctx a c w ->
  (forall p w', well w' -> at_ctx a c w' -> calloced w' -> wp (k p) (ends Q) w') ->
  wp (p ← alloc (Data Libc n); _ ← upd (set_out p); k p) (ends Q) w.
Proof.
  intros Hg Hat Hk. apply alloc_bind.
  - intros l. apply upd_bind. destruct (good_set_out a c None (set_lib l w)) as [Hg' Hat'];
      [by apply good_lib|exact Hat|done|]. by apply Hk.
  - intros x l w1 -> Hx Hcx. apply upd_bind.
    set (w1 := set_live (<[x := Data Libc n]> (live (set_lib l w))) (set_lib l w)).
    assert (live w1 !! x = Some (Data Libc n)) as Hn by apply lookup_insert_eq.
    assert (~ of_av_malloc (live w1) x) as Hna by (intros [len Hlen]; by rewrite Hn in Hlen).
    destruct (good_set_out a c (Some x) w1) as [Hg' Hat'].
    + apply good_insert; [done..|by apply good_lib].
    + exact Hat.
    + intros y [= <-]. split; [by exists Libc, n|done].
    + apply Hk; [done..|]. by intros y [= <-].
Qed.

Lemma encode_step fuel n w :
  well w -> wp (w_ffmpeg_encode fuel n) (ends (fun r w' _ => encoded r w')) w.
Proof.
  intros Hg. unfold w_ffmpeg_encode. apply opt_step. intros o Ho.
  destruct (ctx o) as [a|] eqn:Ha; cbn [bool_decide].
  2:{ rewrite bool_decide_true by done. apply wp_ret. right. split_and!; [done..|]. by exists o. }
  rewrite bool_decide_false by done. apply upd_bind.
  destruct (good_ctx _ Hg o a Ho Ha) as (c & Hc & _).
  assert (at_ctx a c (set_out_len 0 w)) as Hat by (split; [by exists o|done]).
  apply (good_out_len 0) in Hg.
  apply (ends_bind _ _ (fun r w' _ => (r = 0 \/ r = -1) /\ well w' /\ at_ctx a c w')).
  { eapply ends_mono; [by apply (rgb2yuv_step a c)|]. by intros r w' t (? & (? & ? & _) & _). }
  intros r w1 _ (_ & Hg1 & Hat1).
  assert (forall w', well w' -> forall c', at_ctx a c' w' ->
     wp (finally (to_cleanup (Some a) ++ [[(W_DATA, COut)]; free_ctx]) (-1)) (ends (fun r w' _ => encoded r w')) w')
     as Hfail.
  { intros w' Hg' c' Hat'. eapply ends_mono; [by apply (finally_failed a c')|].
    intros r' w2 t (-> & (? & ? & _) & _). by right. }
  destruct (r <? 0); [by eapply Hfail|].
  apply (out_buffer_step a c); [done..|]. intros p w2 Hg2 Hat2 Hca2.
  case_bool_decide.
  { eapply ends_mono; [by apply (fail_failed a c)|]. intros r' w' _ (-> & ? & ? & _). by right. }
  apply (ends_bind _ _ (fun _ w' _ => (well w' /\ at_ctx a c w') /\ calloced w')).
  { eapply ends_mono; [by apply (encode_frame_step a c)|]. intros r' w' _ [(? & ? & Hout) Hl].
    split; [done|]. unfold calloced. by rewrite Hout, Hl. }
  intros [r1 i] w3 _ [[Hg3 Hat3] Hca3]. destruct (r1 <? 0); [by eapply Hfail|].
  apply (assign_bind a c); [done|].
  destruct (good_put a c (put FYuv None c) w3 Hg3 Hat3) as [Hg4 Hat4].
  { apply fields_clear. by eapply good_fields. }
  apply (ends_bind _ _ (fun _ w' _ => (well w' /\ at_ctx a (put FYuv None c) w') /\ calloced w')).
  { eapply ends_mono; [by apply (encode_frame_step a (put FYuv None c))|].
    intros r' w' _ [(? & ? & Hout) Hl]. split; [done|]. unfold calloced. rewrite Hout, Hl. exact Hca3. }
  intros [r2 i2] w5 _ [[Hg5 Hat5] Hca5]. destruct (r2 <? 0); [by eapply Hfail|].
  apply wp_ret. left. split_and!; [done..|]. by exists a, (put FYuv None c).
Qed.

(** *** Decoding *)

Definition held (a : positive) (c : w_ffmpeg_ctx_t) w : Prop := well w /\ at_ctx a c w.

Lemma held_lib a c l w : held a c w -> held a c (set_lib l w).
Proof. intros [Hg Hat]. split; [by apply good_lib|exact Hat]. Qed.

Lemma scale_step {B} a c (fw fh : Z) w (k : unit -> M (world L) event B) Q :
  held a c w -> wp (k tt) (ends Q) w -> wp (scale_into (rgb_frame c) fw fh ≫= k) (ends Q) w.
Proof.
  intros [Hg Hat] Hk. apply (ends_bind _ _ (fun _ w1 t1 => t1 = [] /\ w1 = w)); [|by intros [] w1 t1 [-> ->]].
  unfold scale_into. change (rgb_frame c) with (get FRgb c).
  apply (frame_at_step a c); [done..|]. intros x Hx. apply ends_look.
  destruct (frame_live a c w FRgb x Hg Hat Hx eq_refl) as [d Hd].
  destruct Hat as [(o & Ho & Ha) Hc]. unfold the_opt. rewrite Ho. cbn. rewrite Hd.
  destruct d as [d|]; [|by left; left].
  destruct (rgb_image _ _ (good_fields _ _ _ Hg (conj (ex_intro _ o (conj Ho Ha)) Hc)) x d Hx Hd)
    as (from & len & ->).
  destruct (_ <=? _); [done|by left; right; right].
Qed.

Lemma frames_step a c w :
  decoding -> held a c w -> wp (frames_round tt) (ends (fun _ w' _ => held a c w')) w.
Proof.
  intros Hdec Hh. unfold frames_round. apply lib_bind. intros [r [fw fh]] l.
  apply (held_lib _ _ l) in Hh. destruct (_ || _); [by apply wp_ret|].
  destruct (r <? 0); [by apply error_bind, wp_ret|].
  apply (my_ctx_step _ _ _ _ _ (proj2 Hh)). change (yuv_frame c) with (get FYuv c).
  apply (frame_at_step a c); [apply Hh|apply Hh|done|]. intros y _.
  apply (ends_bind _ _ (fun _ w' _ => held a c w')).
  { destruct (_ || _ || _); [by apply wp_ret|]. apply lib_bind. intros ok l1. apply (held_lib _ _ l1) in Hh.
    destruct ok; cbn [negb]; [|by apply wp_ret]. apply (scale_step a c); [done|].
    apply lib_bind. intros z l2. apply wp_ret. by apply held_lib. }
  clear Hh. intros z w1 _ Hh. destruct (z <? 0); [by apply error_bind, wp_ret|].
  change (rgb_frame c) with (get FRgb c).
  apply (frame_at_step a c); [apply Hh|apply Hh|done|]. intros x Hx. apply upd_bind.
  destruct Hh as [Hg Hat]. destruct (frame_live a c w1 FRgb x Hg Hat Hx eq_refl) as [d Hd].
  rewrite Hd. destruct (good_set_out a c d w1 Hg Hat) as [Hg' Hat'].
  { intros e ->. split; [|done]. by eapply (rgb_image _ _ (good_fields _ _ _ Hg Hat) x). }
  apply lib_bind. intros n l3. destruct (n <? 0).
  - apply error_bind, wp_ret. split; [by apply good_lib|exact Hat'].
  - apply upd_bind, wp_ret. split; [by apply good_out_len, good_lib|exact Hat'].
Qed.

Lemma decode_frame_step a c fuel w :
  decoding -> held a c w -> wp (w_ffmpeg_decode_frame fuel) (ends (fun _ w' _ => held a c w')) w.
Proof.
  intros Hdec Hh. unfold w_ffmpeg_decode_frame. apply (my_ctx_step _ _ _ _ _ (proj2 Hh)).
  apply lib_bind. intros r l. apply (held_lib _ _ l) in Hh.
  destruct (r <? 0); [by apply error_bind, wp_ret|].
  apply (ends_bind _ _ (fun _ w' _ => held a c w')); [|by intros; apply wp_ret].
  apply (ends_loop (fun _ w' => held a c w') (fun _ w' => held a c w')); [|done].
  intros [] w' Hh'. eapply ends_mono; [by apply frames_step|]. by intros [] w1 _ ?.
Qed.

(** Parsing needs the packet: with none, it is a null pointer that is followed. *)
Lemma parse_step a c fuel size w :
  decoding -> held a c w ->
  wp (parse_round fuel size) (ends (fun _ w' _ => held a c w' /\ packet c <> None)) w.
Proof.
  intros Hdec Hh. unfold parse_round. apply (my_ctx_step _ _ _ _ _ (proj2 Hh)).
  apply (follow_bind a c FPacket); [apply Hh|apply Hh|]. intros Hp.
  apply (follow_bind a c FParser); [apply Hh|apply Hh|]. intros _. apply lib_bind. intros [r n] l.
  apply (held_lib _ _ l) in Hh. destruct (r <? 0); [by apply error_bind, wp_ret|].
  apply (ends_bind _ _ (fun _ w' _ => held a c w')).
  { destruct (n >? 0); [by apply decode_frame_step|by apply wp_ret]. }
  intros z w1 _ Hh1. destruct (_ <=? 0); by apply wp_ret.
Qed.

(** What [w_ffmpeg_decode] leaves: a context without a packet, or nothing. *)
Definition decoded (r : Z) w : Prop :=
  well w /\ ((exists a c, at_ctx a c w /\ packet c = None) \/ (r = -1 /\ no_ctx w)).

Lemma decode_step fuel n m w :
  decoding -> well w ->
  wp (w_ffmpeg_decode fuel n m)
     (ends (fun r w' _ => decoded r w' /\
        forall a c, at_ctx a c w -> packet c = None -> r = -1 /\ no_ctx w')) w.
Proof.
  intros Hdec Hg. unfold w_ffmpeg_decode. apply opt_step. intros o Ho.
  destruct (ctx o) as [a|] eqn:Ha; cbn [bool_decide].
  2:{ rewrite bool_decide_true by done. apply wp_ret.
      assert (no_ctx w) as Hno by (by exists o). split; [split; [done|by right]|].
      intros a c [(o' & Ho' & Ha') _] _. congruence. }
  rewrite bool_decide_false by done.
  destruct (good_ctx _ Hg o a Ho Ha) as (c & Hc & _).
  assert (at_ctx a c w) as Hat by (split; [by exists o|done]).
  assert (forall a' c', at_ctx a' c' w -> a' = a /\ c' = c) as Huniq.
  { intros a' c' [(o' & Ho' & Ha') Hc']. split; congruence. }
  assert (forall w' c', held a c' w' ->
     wp (finally (to_cleanup (Some a) ++ [[(W_DATA, COut)]; free_ctx]) (-1))
        (ends (fun r w' _ => decoded r w' /\
           forall a c, at_ctx a c w -> packet c = None -> r = -1 /\ no_ctx w')) w') as Hfail.
  { intros w' c' [Hg' Hat']. eapply ends_mono; [by apply (finally_failed a c')|].
    intros r' w2 t (-> & (? & ? & _) & _). split; [split; [done|by right]|by intros]. }
  apply (out_buffer_step a c); [done..|]. intros p w2 Hg2 Hat2 _.
  case_bool_decide.
  { unfold fail. apply error_bind. by eapply Hfail. }
  apply look_bind. destruct (m <=? n); [|by left; right; left].
  apply (ends_bind _ _ (fun _ w' _ => held a c w' /\ packet c <> None)).
  { destruct fuel as [|fuel]; [done|]. rewrite loop_S.
    apply (ends_bind _ _ (fun _ w' _ => held a c w' /\ packet c <> None)); [by apply parse_step|].
    intros [size|b] w3 _ Hh; [|by apply wp_ret].
    apply (ends_loop (fun _ w' => held a c w' /\ packet c <> None)
                     (fun _ w' => held a c w' /\ packet c <> None)); [|done].
    intros s' w' [Hh' _]. eapply ends_mono; [by apply parse_step|]. by intros [] w4 _ ?. }
  intros [[]|] w3 _ [Hh Hp]; [|by eapply Hfail].
  apply (assign_bind a c); [apply Hh|].
  destruct (good_put a c (put FPacket None c) w3 (proj1 Hh) (proj2 Hh)) as [Hg4 Hat4].
  { apply fields_clear. by destruct Hh; eapply good_fields. }
  apply (ends_bind _ _ (fun _ w' _ => held a (put FPacket None c) w')); [by apply decode_frame_step|].
  intros r w5 _ Hh5. unfold finally. destruct (Z.eqb_spec r (-1)) as [->|Hr].
  - pose proof (Hfail w5 _ Hh5) as Hf. unfold finally in Hf. exact Hf.
  - apply wp_ret. split.
    + split; [apply Hh5|]. left. exists a, (put FPacket None c). split; [apply Hh5|done].
    + intros a' c' Hat' Hnone. destruct (Huniq _ _ Hat') as [-> ->]. done.
Qed.

(** *** Initialisation *)

Lemma alloc_field {B} a c f b w (k : ptr -> M (world L) event B) Q :
  held a c w -> fits (type_of f) b = true -> (forall d, b <> Frame (Some d)) ->
  (forall p w', held a (put f p c) w' -> out w' = out w ->
     keeps (live w) (live w') -> wp (k p) (ends Q) w') ->
  wp (p ← alloc b; _ ← assign f p; k p) (ends Q) w.
Proof.
  intros [Hg Hat] Hfit Hnd Hk. apply alloc_bind.
  - intros l. assert (at_ctx a c (set_lib l w)) as Hat' by exact Hat. apply (good_lib l) in Hg.
    eapply assign_bind; [exact Hat'|]. apply Hk; [|done|apply keeps_refl].
    apply good_put with (c := c); [done..|]. apply fields_clear. by eapply good_fields.
  - intros x l w1 -> Hx Hcx. set (w2 := set_live _ _).
    assert (well w2) as Hg2 by (apply good_insert; [done..|by apply good_lib]).
    assert (at_ctx a c w2) as Hat2 by exact Hat.
    eapply assign_bind; [exact Hat2|]. apply Hk; [|done|].
    + apply good_put with (c := c); [done..|].
      pose proof (good_fields _ _ _ Hg Hat) as [F1 F2 F3].
      pose proof (good_fields _ _ _ Hg2 Hat2) as [E1 E2 E3].
      assert (forall g, get g c <> Some x) as Hnew.
      { intros g Hgx. destruct (F1 g x Hgx) as (b' & Hb' & _). cbn in Hx. congruence. }
      split.
      * intros g y Hy. destruct (decide (y = x)) as [->|Hne].
        { exists b. split; [cbn; apply lookup_insert_eq|]. destruct f, g; cbn in *; try done;
            exfalso; first [by apply (Hnew FContext) | by apply (Hnew FPacket) | by apply (Hnew FRgb)
                           | by apply (Hnew FYuv) | by apply (Hnew FParser)]. }
        apply (E1 g y). destruct f, g; cbn in *; congruence.
      * intros y Hy Hy'. destruct f; cbn in *; try (by eapply E2).
        -- injection Hy as <-. by apply (Hnew FYuv).
        -- injection Hy' as <-. by apply (Hnew FRgb).
      * intros y d Hy Hd. destruct f; cbn in Hy; try (by eapply E3).
        injection Hy as <-. cbn in Hd. rewrite lookup_insert_eq in Hd. injection Hd as ->.
        by destruct (Hnd d).
    + cbn. by apply keeps_insert.
Qed.

Lemma fail_fields a c fs w trace msg code :
  held a c w ->
  wp (fail (field_lists a fs) trace msg code)
     (ends (fun r w' _ => r = -1 /\ held a (clear_fields fs c) w')) w.
Proof.
  intros [Hg Hat]. unfold fail. apply error_bind. unfold finally. change (-1 =? -1) with true. cbv iota.
  apply wp_bind. eapply wp_mono; [|by apply (cleanup_fields a fs c)].
  intros r w' t (-> & Hg' & Hat' & _). by apply wp_ret.
Qed.

(** The codec that was found, or not, is noted. *)
Definition noted (c : w_ffmpeg_ctx_t) (found : bool) : w_ffmpeg_ctx_t :=
  mkCtx (context c) (packet c) (rgb_frame c) (yuv_frame c) found (parser c).

Lemma codec_bind {B} a c (p_opt : w_ffmpeg_opt_t) (find : L -> bool * L)
    (k : bool -> M (world L) event B) Q w :
  held a c w -> ctx p_opt = Some a ->
  (forall found w', held a (noted c found) w' ->
     out w' = out w -> wp (k found) (ends Q) w') ->
  wp (found ← on_lib find;
      '(_, c) ← look my_ctx;
      _ ← upd (put_ctx (ctx p_opt) (noted c found));
      k found) (ends Q) w.
Proof.
  intros Hh Ha Hk. apply lib_bind. intros found l. apply (held_lib _ _ l) in Hh. destruct Hh as [Hg Hat].
  apply (my_ctx_step _ _ _ _ _ Hat). rewrite Ha. apply upd_bind. apply Hk; [|done].
  apply good_put with (c := c); [done..|]. pose proof (good_fields _ _ _ Hg Hat) as [F1 F2 F3].
  split; [|done..]. intros f x Hx. apply (F1 f x). by destruct f.
Qed.

(** What the encoder's and the decoder's initialisation keep. *)
Definition prepared (a : positive) (c : w_ffmpeg_ctx_t) (r : Z) w : Prop :=
  exists c', held a c' w /\ packet c' = packet c /\ yuv_frame c' = yuv_frame c /\
             (0 <= r -> context c' <> None).

Lemma init_encoder_step a c p_opt w :
  held a c w -> ctx p_opt = Some a ->
  wp (init_encoder p_opt) (ends (fun r w' _ => prepared a c r w')) w.
Proof.
  intros Hh Ha. unfold init_encoder. apply (codec_bind a c); [done..|].
  intros found w1 Hh1 _. destruct found; cbn [negb].
  2:{ eapply ends_mono; [by apply (fail_fields a (noted c false) [])|].
      intros r w' _ [-> Hh']. exists (noted c false). by split_and!. }
  apply (alloc_field a (noted c true));
    [done..|]. intros p w2 Hh2 _ _. rewrite Ha.
  change [owned (Some a) W_CONTEXT FContext] with (field_lists a [FContext]).
  assert (forall w' trace msg code, held a (put FContext p (noted c true)) w' ->
    wp (fail (field_lists a [FContext]) trace msg code) (ends (fun r w' _ => prepared a c r w')) w') as Hfail.
  { intros w' trace msg code Hh'. eapply ends_mono; [by eapply (fail_fields a _ [FContext])|].
    intros r w3 _ [-> Hh3]. eexists. by split_and!. }
  case_bool_decide as Hp; [by apply Hfail|].
  apply (ends_bind _ _ (fun _ w' _ => held a (put FContext p (noted c true)) w')).
  { destruct (_ =? _); [apply lib_step; intros; by apply held_lib|by apply wp_ret]. }
  intros r w3 _ Hh3. destruct (r <? 0); [by apply Hfail|].
  apply lib_bind. intros r2 l2. apply (held_lib _ _ l2) in Hh3. destruct (r2 <? 0); [by apply Hfail|].
  apply wp_ret. eexists. by split_and!.
Qed.

(** The image of the RGB frame is the buffer that was allocated for it. *)
Lemma held_rgb a c x d w :
  held a c w -> rgb_frame c = Some x -> is_data (live w) d ->
  held a c (set_live (<[x := Frame (Some d)]> (live w)) w).
Proof.
  intros [Hg Hat] Hx Hdata. destruct (frame_live a c w FRgb x Hg Hat Hx eq_refl) as [d0 Hd0].
  pose proof (good_fields _ _ _ Hg Hat) as [F1 F2 F3]. pose proof Hat as [(o & Ho & Ha) Hc].
  split; [|exact Hat]. destruct Hg as [H1 H2 H3 H4]. split; cbn; [..|exact H4].
  - intros o' y Ho' Hy. rewrite Ho in Ho'. injection Ho' as <-. rewrite Ha in Hy. injection Hy as <-.
    exists c. split; [done|]. split; [|done|].
    + intros f y Hy. destruct (decide (y = x)) as [->|Hne].
      * rewrite lookup_insert_eq. destruct (F1 f x Hy) as (b & Hb & Hfit). rewrite Hd0 in Hb.
        injection Hb as <-. by eexists.
      * rewrite lookup_insert_ne by done. by apply F1.
    + intros y e Hy He. assert (y = x) as -> by congruence. rewrite lookup_insert_eq in He.
      injection He as <-. by eapply is_data_keeps; [eapply keeps_frame|].
  - intros y Hy. rewrite lookup_insert_ne; [by apply H2|]. intros ->. rewrite H2 in Hd0; [done|exact Hy].
  - intros y Hy. eapply out_keeps; [by eapply keeps_frame|]. by apply H3.
Qed.

(** A buffer of the function's own, which nothing else points to. *)
Definition own_buffer (fb : ptr) w : Prop :=
  forall x, fb = Some x -> is_data (live w) x /\ out w <> Some x.

Lemma cleanup_local a c fb w :
  held a c w -> rgb_frame c = None -> own_buffer fb w ->
  wp (cleanup_list [(W_DATA, CLocal fb)])
     (fun r w' _ => mismatched (live w) fb r \/ (r = Ret tt /\ held a c w')) w.
Proof.
  intros [Hg Hat] Hrgb Hfb. cbn [cleanup_list]. apply wp_bind. unfold wp at 1, look. cbn [read_cell].
  destruct fb as [x|]; [|apply wp_ret; by right]. destruct (Hfb x eq_refl) as [(from & len & Hx) Hout].
  apply wp_bind. eapply wp_mono; [|by apply (release_raw x from len)].
  intros r w1 t1 [Hm|(-> & -> & ->)]; [destruct Hm as (-> & Hm); by left|].
  unfold upd. apply wp_act. intros [] w2 [= <-]. right. split; [done|].
  destruct (well_delete a c x from len (out w) w Hg Hat Hrgb Hx) as [Hw' Hat']; [|by destruct w].
  intros y Hy. split; [done|]. intros ->. by apply Hout.
Qed.

Lemma fail_decoder a c fb fs w trace msg code :
  decoding -> held a c w -> own_buffer fb w ->
  wp (fail (field_lists a [FContext; FRgb] ++ [[(W_DATA, CLocal fb)]] ++ field_lists a fs) trace msg code)
     (ends (fun r w' _ => r = -1 /\ held a (clear_fields fs (clear_fields [FContext; FRgb] c)) w')) w.
Proof.
  intros Hdec [Hg Hat] Hfb. unfold fail. apply error_bind. unfold finally.
  change (-1 =? -1) with true. cbv iota. apply wp_bind. apply cleanup_app. eapply wp_mono; [|by apply (cleanup_fields a [FContext; FRgb] c)].
  intros r w1 t1 (-> & Hg1 & Hat1 & Hout1 & _ & Hd1).
  apply cleanup_app, cleanup_one. eapply wp_mono.
  2:{ apply (cleanup_local a _ fb w1 (conj Hg1 Hat1)); [done|].
      intros x Hx. destruct (Hfb x Hx) as [Hdx Hox]. split; [by eapply is_data_keeps|by rewrite Hout1]. }
  intros r w2 t2 [(-> & Hone & _)|(-> & Hg2 & Hat2)]; [by right|].
  eapply wp_mono; [|by apply (cleanup_fields a fs)].
  intros r w3 t3 (-> & Hg3 & Hat3 & _). by apply wp_ret.
Qed.

Lemma own_lib fb l w : own_buffer fb w -> own_buffer fb (set_lib l w).
Proof. done. Qed.

Lemma init_decoder_step a c p_opt w :
  decoding -> held a c w -> ctx p_opt = Some a ->
  wp (init_decoder p_opt) (ends (fun r w' _ => prepared a c r w')) w.
Proof.
  intros Hdec Hh Ha. unfold init_decoder. apply (codec_bind a c); [done..|].
  intros found w1 Hh1 _. destruct found; cbn [negb].
  2:{ eapply ends_mono; [by apply (fail_fields a (noted c false) [])|].
      intros r w' _ [-> Hh']. exists (noted c false). by split_and!. }
  apply (alloc_field a (noted c true)); [done..|]. intros p w2 Hh2 _ _. rewrite Ha.
  change [owned (Some a) W_CONTEXT FContext] with (field_lists a [FContext]).
  case_bool_decide as Hp.
  { eapply ends_mono; [by eapply (fail_fields a _ [FContext])|].
    intros r w3 _ [-> Hh3]. eexists. by split_and!. }
  apply (alloc_field a (put FContext p (noted c true))); [done..|]. intros q w3 Hh3 _ _.
  change (field_lists a [FContext] ++ [owned (Some a) W_FRAME FRgb]) with (field_lists a [FContext; FRgb]).
  case_bool_decide as Hq.
  { eapply ends_mono; [by eapply (fail_fields a _ [FContext; FRgb])|].
    intros r w4 _ [-> Hh4]. eexists. by split_and!. }
  set (c3 := put FRgb q (put FContext p (noted c true))) in *.
  apply lib_bind. intros n l4. apply (held_lib _ _ l4) in Hh3.
  apply (ends_bind _ _ (fun fb w' _ => held a c3 w' /\ own_buffer fb w')).
  { apply alloc_step.
    - intros l. split; [by apply held_lib|done].
    - intros x l Hx Hcx. apply (held_lib _ _ l) in Hh3. destruct Hh3 as [Hg3 Hat3]. split.
      + split; [|exact Hat3]. by apply (good_insert x (Data AvMalloc n) (set_lib l (set_lib l4 w3))).
      + intros y [= <-]. split; [exists AvMalloc, n; cbn; apply lookup_insert_eq|].
        intros Hout. destruct (good_out _ Hg3 x Hout) as [(f & len & Hlen) _]. cbn in Hx, Hlen. congruence. }
  intros fb w5 _ [Hh5 Hfb]. cbv zeta.
  assert (forall w' c' trace msg code fs, fs = [] \/ fs = [FParser] ->
    packet c' = packet c -> yuv_frame c' = yuv_frame c -> held a c' w' -> own_buffer fb w' ->
    wp (fail ((field_lists a [FContext; FRgb] ++ [[(W_DATA, CLocal fb)]]) ++ field_lists a fs) trace msg code)
       (ends (fun r w' _ => prepared a c r w')) w') as Hfail.
  { intros w' c' trace msg code fs Hfs Hp' Hy' Hh' Hfb'. rewrite <-(assoc_L app).
    eapply ends_mono; [by apply (fail_decoder a c')|]. intros r w6 _ [-> Hh6].
    eexists. split; [exact Hh6|]. destruct Hfs as [-> | ->]; by split_and!. }
  pose proof (fun w' trace msg code => Hfail w' c3 trace msg code [] (or_introl eq_refl) eq_refl eq_refl) as Hfail3.
  cbn [field_lists map] in Hfail3. setoid_rewrite app_nil_r in Hfail3.
  case_bool_decide as Hfbn; [by apply Hfail3|].
  apply lib_bind. intros res l6. apply (held_lib _ _ l6) in Hh5.
  destruct (res <? 0); [by apply Hfail3|].
  destruct q as [x|]; [|done]. destruct fb as [d|]; [|done].
  destruct (Hfb d eq_refl) as [Hdata Hout]. apply upd_bind.
  assert (held a c3 (set_live (<[x := Frame (Some d)]> (live (set_lib l6 w5))) (set_lib l6 w5))) as Hh7
    by (by apply held_rgb).
  assert (own_buffer (Some d) (set_live (<[x := Frame (Some d)]> (live (set_lib l6 w5))) (set_lib l6 w5))) as Hfb7.
  { intros y [= <-]. split; [|exact Hout]. destruct Hh5 as [Hg5 Hat5].
    destruct (frame_live a c3 _ FRgb x Hg5 Hat5 eq_refl eq_refl) as [d0 Hd0].
    by eapply is_data_keeps; [eapply keeps_frame|]. }
  apply (alloc_field a c3); [exact Hh7|done|done|].
  intros pp w8 Hh8 Hout8 Hd8.
  assert (own_buffer (Some d) w8) as Hfb8.
  { intros y Hy. destruct (Hfb7 y Hy) as [Hy1 Hy2]. split; [by eapply is_data_keeps|]. rewrite Hout8. exact Hy2. }
  pose proof (fun w' trace msg code => Hfail w' (put FParser pp c3) trace msg code [FParser]
    (or_intror eq_refl) eq_refl eq_refl) as Hfail4.
  case_bool_decide as Hpp; [by apply Hfail4|].
  apply lib_bind. intros r9 l9. apply (held_lib _ _ l9) in Hh8.
  destruct (r9 <? 0); [by apply Hfail4|].
  apply wp_ret. eexists. split; [exact Hh8|]. by split_and!.
Qed.

(** Once the context is released, the lists that start at it are skipped. *)
Lemma cleanup_skipped w ls :
  no_ctx w -> Forall (fun l => head l = Some (W_DATA, CCtx)) ls -> cleanup ls w = (Ret tt, w, []).
Proof.
  intros (o & Ho & Ha) Hls. induction Hls as [|l ls Hl _ IH]; [done|].
  destruct l as [|tc l]; [done|]. injection Hl as ->. cbn [cleanup].
  assert (cleanup_list ((W_DATA, CCtx) :: l) w = (Ret tt, w, [])) as Hrun.
  { cbn [cleanup_list]. unfold mbind, M_mbind, M_bind, look, read_cell, the_opt. rewrite Ho. cbn. by rewrite Ha. }
  rewrite (bind_Ret _ _ _ _ _ _ Hrun), IH. done.
Qed.

Lemma finally_init a c ls w :
  held a c w -> Forall (fun l => head l = Some (W_DATA, CCtx)) ls ->
  wp (finally (free_ctx :: ls) (-1)) (ends (fun r w' _ => r = -1 /\ well w' /\ no_ctx w')) w.
Proof.
  intros [Hg Hat] Hls. unfold finally. change (-1 =? -1) with true. cbv iota. apply wp_bind.
  change (free_ctx :: ls) with ([free_ctx] ++ ls). apply cleanup_app, cleanup_one.
  eapply wp_mono; [|by apply (cleanup_ctx a c)].
  intros r w1 t1 (-> & Hg1 & Hno & _). apply (wp_run _ _ _ _ _ _ (cleanup_skipped w1 ls Hno Hls)).
  by apply wp_ret.
Qed.

Lemma finally_no_ctx w :
  no_ctx w -> well w -> wp (finally [free_ctx] (-1)) (ends (fun r w' _ => r = -1 /\ well w' /\ no_ctx w')) w.
Proof.
  intros (o & Ho & Ha) Hg. unfold finally. change (-1 =? -1) with true. cbv iota. apply wp_bind, cleanup_one.
  unfold wp, free_ctx, cleanup_list, mbind, M_mbind, M_bind, look, read_cell, the_opt. rewrite Ho. cbn.
  rewrite Ho. cbn. rewrite Ha. cbn. split_and!; [done..|]. by exists o.
Qed.

(** What [w_ffmpeg_init] leaves: a context with its packet, frame and codec
    context, or none. *)
Definition initialised (r : Z) w : Prop :=
  well w /\
  ((r = 0 /\ exists a c, at_ctx a c w /\ packet c <> None /\ yuv_frame c <> None /\ context c <> None) \/
   (r = -1 /\ (no_ctx w \/ opt w = None))).

Lemma init_step w :
  well w -> wp w_ffmpeg_init (ends (fun r w' _ => initialised r w')) w.
Proof.
  intros Hg. unfold w_ffmpeg_init. apply look_bind. destruct (opt w) as [o|] eqn:Ho.
  2:{ apply wp_ret. split; [done|]. right. split; [done|by right]. }
  set (empty := mkCtx None None None None false None).
  set (opt_at := fun a => mkOpt (width o) (height o) (codec_id o) (type_ o) a).
  apply (ends_bind _ _ (fun a w' _ =>
    well (set_opt (Some (opt_at a)) w') /\ forall x, a = Some x -> held x empty (set_opt (Some (opt_at a)) w'))).
  { unfold alloc_ctx. apply lib_bind. intros ok l. apply (good_lib l) in Hg.
    destruct ok.
    2:{ apply wp_ret. split; [|done]. destruct Hg as [G1 G2 G3 G4].
        split; [by intros o' a [= <-]|done..|]. intros o' [= <-] Ht. by apply (G4 o Ho). }
    apply wp_act. intros a w' [= <- <-]. set (x := fresh_address _).
    destruct (fresh_ok (set_lib l w)) as [Hx Hcx]. fold x in Hx, Hcx.
    assert (fields_ok (live w) empty) as Hempty by (split; [by intros []|done..]).
    assert (held x empty (set_opt (Some (opt_at (Some x)))
      (set_ctxs (<[x:=empty]> (ctxs (set_lib l w))) (set_lib l w)))) as Hh.
    { destruct Hg as [G1 G2 G3 G4]. split; [split|split]; cbn.
      - intros o' a [= <-] [= <-]. exists empty. by rewrite lookup_insert_eq.
      - intros y Hy. destruct (decide (y = x)) as [->|Hne]; [exact Hx|].
        apply G2. by rewrite lookup_insert_ne in Hy.
      - exact G3.
      - intros o' [= <-] Ht. by apply (G4 o Ho).
      - by eexists.
      - by rewrite lookup_insert_eq. }
    split; [apply Hh|]. by intros y [= <-]. }
  intros a w1 _ [Hg1 Hh1]. apply upd_bind. cbv zeta. fold (opt_at a).
  destruct a as [a|].
  2:{ rewrite bool_decide_true by done. unfold fail. apply error_bind.
      eapply ends_mono; [apply finally_no_ctx; [by eexists|done]|].
      intros r w' _ (-> & ? & ?). split; [done|]. right. split; [done|by left]. }
  rewrite bool_decide_false by done. specialize (Hh1 a eq_refl).
  assert (forall w' c ls r, held a c w' -> Forall (fun l => head l = Some (W_DATA, CCtx)) ls -> r = -1 ->
    wp (finally ([free_ctx] ++ ls) r) (ends (fun r w' _ => initialised r w')) w') as Hfail.
  { intros w' c ls r Hh' Hls ->. eapply ends_mono; [by apply (finally_init a c)|].
    intros r w2 _ (-> & ? & ?). split; [done|]. right. split; [done|by left]. }
  apply (alloc_field a empty); [exact Hh1|done|done|]. intros p w2 Hh2 _ _.
  case_bool_decide as Hp; [by apply error_bind; eapply Hfail; [|repeat constructor|]|].
  apply (alloc_field a (put FPacket p empty)); [exact Hh2|done|done|]. intros q w3 Hh3 _ _.
  rewrite <-(assoc_L app).
  case_bool_decide as Hq; [by apply error_bind; eapply Hfail; [|repeat constructor|]|].
  set (c3 := put FYuv q (put FPacket p empty)) in *.
  assert (forall init : M (world L) event Z,
    wp init (ends (fun r w' _ => prepared a c3 r w')) w3 ->
    wp (r ← init; finally ([free_ctx] ++ [[(W_DATA, CCtx); (W_PACKET, CField (Some a) FPacket)]] ++
                           [[(W_DATA, CCtx); (W_FRAME, CField (Some a) FYuv)]]) (if r <? 0 then -1 else 0))
       (ends (fun r w' _ => initialised r w')) w3) as Hinit.
  { intros init Hi. apply (ends_bind _ _ (fun r w' _ => prepared a c3 r w')); [exact Hi|].
    intros r w4 _ (c' & Hh4 & Hp4 & Hy4 & Hc4). destruct (Z.ltb_spec r 0).
    - by eapply Hfail; [|repeat constructor|].
    - apply wp_ret. split; [apply Hh4|]. left. split; [done|]. exists a, c'. split; [apply Hh4|].
      rewrite Hp4, Hy4. split_and!; [done..|by apply Hc4]. }
  destruct (_ =? _); [apply Hinit; by apply init_encoder_step|].
  destruct (Z.eqb_spec (type_ (opt_at (Some a))) W_DECODE) as [Ht|].
  { apply Hinit, init_decoder_step; [|done|done]. by apply (good_action _ Hg o Ho). }
  by apply error_bind; eapply Hfail; [|repeat constructor|].
Qed.

Lemma fini_no_ctx w : no_ctx w -> w_ffmpeg_fini w = (Ret tt, w, []).
Proof.
  intros (o & Ho & Ha).
  assert (forall f t, cleanup_list (owned None t f) w = (Ret tt, w, [])) as Hskip.
  { intros f t. unfold owned, cleanup_list, mbind, M_mbind, M_bind, look, read_cell, the_opt.
    rewrite Ho. cbn. rewrite Ho. cbn. by rewrite Ha. }
  assert (cleanup_list free_ctx w = (Ret tt, w, [])) as Hskip2.
  { unfold free_ctx, cleanup_list, mbind, M_mbind, M_bind, look, read_cell, the_opt.
    rewrite Ho. cbn. rewrite Ho. cbn. by rewrite Ha. }
  assert (cleanup (to_cleanup None ++ [owned None W_PARSER FParser; free_ctx]) w = (Ret tt, w, [])) as Hrun.
  { cbn [to_cleanup cleanup app].
    rewrite !(bind_Ret _ _ _ _ _ _ (Hskip _ _)). rewrite (bind_Ret _ _ _ _ _ _ Hskip2). done. }
  unfold w_ffmpeg_fini. assert (look the_opt w = (Ret o, w, [])) as Hlook
    by (unfold look, the_opt; by rewrite Ho).
  rewrite (bind_Ret _ _ _ _ _ _ Hlook). rewrite Ha, Hrun. done.
Qed.

Lemma fini_wp o w :
  well w -> opt w = Some o ->
  wp w_ffmpeg_fini (fun r w' t => r = Ret tt /\ well w' /\ no_ctx w' /\ out w' = out w /\
    forall a c, at_ctx a c w -> t = freed_fields (FAILED ++ [FParser]) c ++ [Freed a]) w.
Proof.
  intros Hg Ho. destruct (ctx o) as [a|] eqn:Ha.
  - destruct (good_ctx _ Hg o a Ho Ha) as (c & Hc & _).
    assert (at_ctx a c w) as Hat by (split; [by exists o|done]).
    unfold w_ffmpeg_fini. assert (look the_opt w = (Ret o, w, [])) as Hlook
      by (unfold look, the_opt; by rewrite Ho).
    apply wp_bind, (wp_run _ _ _ _ _ _ Hlook). cbv zeta. rewrite Ha.
    eapply wp_mono; [|by apply (fini_cleanup a c)].
    intros r w' t (-> & Hg' & Hno & Hout & ->). split_and!; [done..|].
    intros a' c' [(o' & Ho' & Ha') Hc']. cbn [app]. congruence.
  - assert (no_ctx w) as Hno by (by exists o).
    apply (wp_run _ _ _ _ _ _ (fini_no_ctx w Hno)). split_and!; [done..|].
    intros a' c' [(o' & Ho' & Ha') _]. congruence.
Qed.

Lemma fini_null w : opt w = None -> w_ffmpeg_fini w = (Panic UB_NULL, w, []).
Proof. intros Ho. unfold w_ffmpeg_fini, mbind, M_mbind, M_bind, look, the_opt. by rewrite Ho. Qed.
End ownership.

(** ** What the wrapper guarantees *)
Section guarantees.
Context `{!Errors} {L : Type} `{!Libav L}.
Implicit Types (w : world L).

(** A call of the wrapper, and any sequence of them. *)
Inductive call := Init | Encode (fuel : nat) (data_len : Z) | Decode (fuel : nat) (data_len p_data_size : Z) | Fini.
Definition run_call (c : call) : M (world L) event (result unit anyhow) :=
  match c with
  | Init => ffmpeg_init
  | Encode fuel n => ffmpeg_encode fuel n
  | Decode fuel n m => ffmpeg_decode fuel n m
  | Fini => _ ← ffmpeg_fini; mret (Ok tt)
  end.
Fixpoint run_calls (cs : list call) : M (world L) event (list (result unit anyhow)) :=
  match cs with
  | [] => mret []
  | c :: cs => r ← run_call c; rs ← run_calls cs; mret (r :: rs)
  end.

Definition good w : Prop := well True w.
(** Something decodes: a call, the options, or what gave the output there is. *)
Definition decodes (cs : list call) w : Prop :=
  (exists fuel n m, Decode fuel n m ∈ cs) \/
  (exists o, opt w = Some o /\ type_ o = W_DECODE) \/
  (exists x, out w = Some x /\ of_av_malloc (live w) x).

Lemma well_mono (P Q : Prop) w : (P -> Q) -> well P w -> well Q w.
Proof.
  intros HPQ [H1 H2 H3 H4]. split; [done..| |by eauto].
  intros a Ha. destruct (H3 a Ha) as [Hd Hav]. split; [done|]. by eauto.
Qed.

Lemma good_decodes cs w : good w -> well (decodes cs w) w.
Proof.
  intros [H1 H2 H3 _]. split; [done..| |].
  - intros a Ha. split; [by apply H3|]. intros Hav. right; right. by exists a.
  - intros o Ho Ht. right; left. by exists o.
Qed.

Lemma call_good (P : Prop) c w :
  (forall fuel n m, c = Decode fuel n m -> P) ->
  well P w -> wp (run_call c) (ends P (fun _ w' _ => well P w')) w.
Proof.
  intros Hdec Hg. destruct c as [|fuel n|fuel n m|]; cbn [run_call].
  - apply (ends_bind _ _ _ (fun r w' _ => initialised P r w')); [by apply init_step|].
    intros r w' _ [Hg' _]. by apply wp_ret.
  - apply (ends_bind _ _ _ (fun r w' _ => encoded P r w')); [by apply encode_step|].
    intros r w' _ [(_ & Hg' & _)|(_ & Hg' & _)]; by apply wp_ret.
  - specialize (Hdec _ _ _ eq_refl). apply (ends_bind _ _ _ (fun r w' _ => decoded P r w')).
    { eapply ends_mono; [by apply decode_step|]. by intros r w' _ [? _]. }
    intros r w' _ [Hg' _]. by apply wp_ret.
  - apply (ends_bind _ _ _ (fun _ w' _ => well P w')); [|intros r w' _ Hg'; by apply wp_ret].
    destruct (opt w) as [o|] eqn:Ho.
    + eapply wp_mono; [|by apply (fini_wp P o)]. by intros r w' t (-> & ? & _).
    + apply (wp_run _ _ _ _ _ _ (fini_null w Ho)). by left; left.
Qed.

(** C17: any sequence of calls keeps what the wrapper owns live and of its kind, as
    long as the output pointer it is first given is null or the wrapper's own:
    nothing is freed twice, released as an object of another kind, or used after it
    was freed, whichever allocations and calls of libav fail. Memory of [av_malloc]
    can reach [free] (see [failed_decoder_run]), but only where something decodes:
    the options, a call, or the decoder that gave the output; that is undefined
    where the two allocators differ. The only other undefined behaviours left are a null pointer that is
    followed and the bounds of the input, output, image and error buffers, which
    the code does not check. *)
Theorem ffmpeg_no_invalid_free cs w :
  good w ->
  wp (run_calls cs) (fun r w' _ => match r with
     | Ret _ => good w'
     | Panic why =>
       (why = UB_NULL \/ why = UB_OVERREAD \/ why = UB_OVERWRITE) \/
       (why = UB_MISMATCH /\ decodes cs w /\ one_allocator = false)
     | NoFuel => True
     end) w.
Proof.
  intros Hgood. set (P := decodes cs w).
  enough (wp (run_calls cs) (ends P (fun _ w' _ => well P w')) w) as Hw.
  { eapply wp_mono; [|exact Hw]. intros [rs|why|] w' t; [|done..]. by apply well_mono. }
  pose proof (good_decodes cs w Hgood) as Hg. fold P in Hg.
  assert (forall c fuel n m, c ∈ cs -> c = Decode fuel n m -> P) as Hdec.
  { intros c fuel n m Hin ->. left. by exists fuel, n, m. }
  clearbody P. clear Hgood. revert w Hg Hdec.
  induction cs as [|c cs IH]; intros w Hg Hdec; [by apply wp_ret|].
  apply (ends_bind _ _ _ (fun _ w' _ => well P w')).
  { apply call_good; [|done]. intros fuel n m. apply Hdec. by left. }
  intros r w1 _ Hg1. apply (ends_bind _ _ _ (fun _ w' _ => well P w')).
  { apply IH; [done|]. intros c' fuel n m Hin. apply Hdec. by right. }
  intros rs w2 _ Hg2. by apply wp_ret.
Qed.

Lemma status_ok what r : status what r = Ok tt -> r = 0.
Proof. unfold status. destruct (Z.eqb_spec r 0); [done|discriminate]. Qed.

(** With no frame to encode, an encoding fails at once. *)
Lemma encode_without_frame a c fuel n w :
  good w -> at_ctx a c w -> yuv_frame c = None -> calloced w ->
  wp (w_ffmpeg_encode fuel n) (fun r w' t => r = Ret (-1) /\ dropped True w' /\
     forall x, out w = Some x -> Freed x ∈ t) w.
Proof.
  intros Hg Hat Hy Hca. pose proof Hat as [(o & Ho & Ha) Hc].
  set (w0 := set_out_len 0 w). assert (good w0) as Hg0 by (by apply good_out_len).
  assert (at_ctx a c w0) as Hat0 by exact Hat.
  assert (rgb2yuv n w0 = (Ret (-1), w0, [])) as Hrgb.
  { unfold rgb2yuv, mbind, M_mbind, M_bind, look. rewrite (my_ctx_at _ _ _ Hat0). cbn.
    unfold the_opt. cbn. rewrite Ho. rewrite Hy. rewrite bool_decide_true by done. by rewrite orb_true_r. }
  unfold w_ffmpeg_encode. apply wp_bind. unfold look, wp at 1, the_opt. rewrite Ho, Ha.
  rewrite bool_decide_false by done. apply wp_bind. unfold upd. apply wp_act. intros [] w' [= <-].
  fold w0. cbv zeta. unfold wp. rewrite (bind_Ret _ _ _ _ _ _ Hrgb). change (-1 <? 0) with true. cbv iota.
  unfold finally. change (-1 =? -1) with true. cbv iota.
  pose proof (failed_cleanup True a c w0 Hg0 Hat0) as Hcl. unfold wp in Hcl.
  destruct (cleanup _ w0) as [[r w1] t] eqn:Hrun.
  destruct Hcl as [(_ & _ & x & Hx & Hav)|(-> & Hg1 & Hno & Hout & ->)]; [by destruct (Hca x Hx)|].
  rewrite (bind_Ret _ _ _ _ _ _ Hrun). cbn [mret M_mret M_ret]. split_and!; [done|by split_and!|].
  intros x Hx. change (out w0) with (out w). rewrite Hx. cbn [app]. rewrite app_nil_r.
  rewrite !elem_of_app. right. by left.
Qed.

(** C35: a context is good for one frame: after an encoding that succeeded, the next
    on the same context fails whatever its input, releases the context, and frees
    the buffer the first one gave; after a decoding that succeeded, the next one
    does not succeed either (its packet is gone). *)
Theorem ffmpeg_single_use fuel n m fuel' n' m' w :
  good w ->
  wp (ffmpeg_encode fuel n) (fun r w1 _ => r = Ret (Ok tt) ->
     wp (ffmpeg_encode fuel' n') (fun r2 w2 t2 =>
        r2 = Ret (Err (anyhow_msg "could not encode the buffer")) /\ no_ctx w2 /\ out w2 = None /\
        forall x, out w1 = Some x -> Freed x ∈ t2) w1) w /\
  wp (ffmpeg_decode fuel n m) (fun r w1 _ => r = Ret (Ok tt) ->
     wp (ffmpeg_decode fuel' n' m') (fun r2 w2 _ => r2 <> Ret (Ok tt)) w1) w.
Proof.
  intros Hg. split.
  - unfold ffmpeg_encode at 1. apply wp_bind. eapply wp_mono; [|by apply (encode_step True)].
    intros [r|why|] w1 t1 H1; [|done..]. apply wp_ret. intros [= Hok%status_ok].
    destruct H1 as [(_ & Hg1 & Hca & a & c & Hat & Hy)|(-> & _)]; [|done].
    unfold ffmpeg_encode. apply wp_bind. eapply wp_mono; [|by apply (encode_without_frame a c)].
    intros r2 w2 t2 (-> & (_ & Hno & Hout) & Hfree). apply wp_ret. rewrite app_nil_r. by split_and!.
  - unfold ffmpeg_decode at 1. apply wp_bind. eapply wp_mono; [|by apply (decode_step True)].
    intros [r|why|] w1 t1 H1; [|done..]. apply wp_ret. intros [= Hok%status_ok].
    destruct H1 as [[Hg1 [(a & c & Hat & Hp)|[-> _]]] _]; [|done].
    unfold ffmpeg_decode. apply wp_bind. eapply wp_mono; [|by apply (decode_step True _ _ _ w1)].
    intros [r2|why|] w2 t2 H2; [|done..]. apply wp_ret.
    destruct H2 as [_ H2]. destruct (H2 a c Hat Hp) as [-> _]. done.
Qed.

(** [ffmpeg_fini] releases a context completely: the packet, the codec context,
    the two frames and the parser that are there, each once, then the context
    itself; it leaves no context behind, keeps the caller's output, and a second
    call releases nothing. A null options pointer is followed. *)
Theorem ffmpeg_fini_releases w :
  good w ->
  wp ffmpeg_fini (fun r w1 t =>
     match opt w with
     | None => r = Panic UB_NULL
     | Some _ =>
       r = Ret tt /\ no_ctx w1 /\ out w1 = out w /\
       (forall a c, at_ctx a c w -> t = freed_fields (FAILED ++ [FParser]) c ++ [Freed a]) /\
       wp ffmpeg_fini (fun r2 w2 t2 => r2 = Ret tt /\ w2 = w1 /\ t2 = []) w1
     end) w.
Proof.
  intros Hg. destruct (opt w) as [o|] eqn:Ho; [|by apply (wp_run _ _ _ _ _ _ (fini_null w Ho))].
  eapply wp_mono; [|by apply (fini_wp True o)].
  intros r w1 t (-> & Hg1 & Hno & Hout & Ht). split_and!; [done..|].
  by apply (wp_run _ _ _ _ _ _ (fini_no_ctx w1 Hno)).
Qed.
End guarantees.

(** ** Concrete runs *)
Module Runs.
Import Concrete.

(** A library with an allocator of its own, that gives one packet of two bytes, or
    one frame, per call, and refuses to open a codec when told. *)
Record libav := mkLibav { refuses : bool; pending : bool }.
#[local] Instance small_libav : Libav libav := {|
  alloc_ok := fun l => (true, l);
  find_encoder := fun _ l => (true, l);
  find_decoder := fun _ l => (true, l);
  av_opt_set := fun l => (0, l);
  avcodec_open2 := fun l => ((if refuses l then -22 else 0), l);
  fill_arrays := fun l => (0, l);
  sws_getContext := fun l => (true, l);
  sws_scale := fun l => (0, l);
  send_frame := fun p l => (0, mkLibav (refuses l) (bool_decide (p <> None)));
  receive_packet := fun l => if pending l then ((0, 2), mkLibav (refuses l) false) else ((-11, 0), l);
  send_packet := fun p l => (0, mkLibav (refuses l) (bool_decide (p <> None)));
  receive_frame := fun l => if pending l then ((0, (2, 2)), mkLibav (refuses l) false)
                            else ((-11, (0, 0)), l);
  parse2 := fun n l => ((n, 1), l);
  buffer_size := fun l => (12, l);
  error_string := fun _ => "error"%string;
  one_allocator := false;
  AGAIN := -11;
  EOF := -541478725;
|}.

Definition fresh_world (action : Z) (fails : bool) : world libav :=
  mkWorld (Some (mkOpt 2 2 AV_CODEC_ID_H264 action None)) None 0 260 ∅ ∅ (mkLibav fails false).
Lemma fresh_world_good action fails : good (fresh_world action fails).
Proof. split; [by intros o a [= <-]|by intros a [? ?]|done|done]. Qed.

(** An encoder encodes one frame; the second attempt fails and takes the first
    output away; the release that follows finds nothing left. *)
Definition two_frames := run_calls [Init; Encode 3 12; Encode 3 12; Fini] (fresh_world W_ENCODE false).
Example two_frames_run :
  fst (fst two_frames) =
    Ret [Ok tt; Ok tt; Err "could not encode the buffer"%string; Ok tt] /\
  out (snd (fst two_frames)) = None.
Proof. by vm_compute. Qed.

(** A decoder decodes one input; the second attempt follows a null pointer. *)
Example two_inputs_run :
  fst (fst (run_calls [Init; Decode 3 4 4] (fresh_world W_DECODE false))) = Ret [Ok tt; Ok tt] /\
  fst (fst (run_calls [Init; Decode 3 4 4; Decode 3 4 4] (fresh_world W_DECODE false))) = Panic UB_NULL.
Proof. by vm_compute. Qed.

(** A decoder whose codec does not open passes its image, memory of [av_malloc],
    to [free]. *)
Example failed_decoder_run :
  fst (fst (run_calls [Init] (fresh_world W_DECODE true))) = Panic UB_MISMATCH.
Proof. by vm_compute. Qed.

(** A slice shorter than the image is read past its end. *)
Example short_input_run :
  fst (fst (run_calls [Init; Encode 3 11] (fresh_world W_ENCODE false))) = Panic UB_OVERREAD.
Proof. by vm_compute. Qed.

(** An initialisation that fails releases the context, and leaks its packet and
    its frame. *)
Example failed_init_run :
  let '(r, w, _) := run_calls [Init; Fini] (fresh_world W_ENCODE true) in
  r = Ret [Err "could not initialize ffmpeg"%string; Ok tt] /\
  base.size (ctxs w) = 0%nat /\ map snd (map_to_list (live w)) = [Frame None; Packet].
Proof. by vm_compute. Qed.

Lemma ffmpeg_no_invalid_free_witness :
  is_Ret (fst (fst two_frames)) = true /\ good (snd (fst two_frames)).
Proof.
  assert (is_Ret (fst (fst two_frames)) = true) as Hr by (by vm_compute). split; [exact Hr|].
  pose proof (ffmpeg_no_invalid_free [Init; Encode 3 12; Encode 3 12; Fini] _
                (fresh_world_good W_ENCODE false)) as Hw.
  unfold wp in Hw. unfold two_frames in *.
  destruct (run_calls _ _) as [[[rs|why|] w] t]; [exact Hw|discriminate Hr|discriminate Hr].
Defined.

(** An initialised encoder. *)
Definition initialised_world : world libav := snd (fst (run_call Init (fresh_world W_ENCODE false))).
Lemma initialised_world_good : good initialised_world.
Proof.
  assert (forall fuel n m, Init = Decode fuel n m -> True) as Hno by done.
  pose proof (call_good True Init _ Hno (fresh_world_good W_ENCODE false)) as Hw. unfold initialised_world.
  assert (is_Ret (fst (fst (run_call Init (fresh_world W_ENCODE false)))) = true) as Hr by (by vm_compute).
  unfold wp in Hw. destruct (run_call _ _) as [[[rs|why|] w] t]; [exact Hw|discriminate Hr|discriminate Hr].
Qed.

Definition first_frame := ffmpeg_encode 3 12 initialised_world.
Lemma ffmpeg_single_use_witness :
  fst (fst first_frame) = Ret (Ok tt) /\
  wp (ffmpeg_encode 3 12) (fun r2 w2 t2 =>
     r2 = Ret (Err "could not encode the buffer"%string) /\ no_ctx w2 /\ out w2 = None /\
     forall x, out (snd (fst first_frame)) = Some x -> Freed x ∈ t2) (snd (fst first_frame)).
Proof.
  assert (fst (fst first_frame) = Ret (Ok tt)) as Hr by (by vm_compute). split; [exact Hr|].
  pose proof (proj1 (ffmpeg_single_use 3 12 12 3 12 12 _ initialised_world_good)) as Hw.
  unfold wp in Hw at 1. fold first_frame in Hw. destruct first_frame as [[r w1] t1]. exact (Hw Hr).
Defined.

Lemma ffmpeg_fini_releases_witness :
  let s := ffmpeg_fini initialised_world in
  fst (fst s) = Ret tt /\ no_ctx (snd (fst s)) /\ length (snd s) = 4%nat.
Proof.
  intros s. pose proof (ffmpeg_fini_releases _ initialised_world_good) as Hw.
  assert (length (snd s) = 4%nat) as Hlen by (by vm_compute).
  assert (is_Some (opt initialised_world)) as Ho by (eexists; by vm_compute).
  destruct Ho as [o Ho]. rewrite Ho in Hw. unfold wp in Hw at 1. fold s in Hw.
  destruct s as [[r w1] t]. destruct Hw as (-> & Hno & _). by split_and!.
Defined.
End Runs.
