(* ===== verification/TestClock.v ===== *)
(** The repository's test of the game clock ([wolf/tests/system_chrono.rs]): a loop
    that ticks until the clock has passed five seconds. *)
From S2P Require Import Prelude F64 Os GameTime.
Local Open Scope Z_scope.
#[local] Set Default Goal Selector "!".

Section test.
Context {Env : Type} `{!Clock Env} (oc : overflow).

Inductive line :=
| VersionIs (text : list u8)
| Seconds (elapsed total : f64).

Definition quiet : Env -> res unit * Env := fun e => (Ret tt, e).

(** The closure is [move] and [GameTime] is [Copy]: it prints the clock as it was
    before the tick. *)
Definition test_round (fuel : nat) (gtime : GameTime) : M Env line (flow GameTime unit) :=
  let copy := gtime in
  gtime ← retrace (fun _ => Seconds (get_elapsed_seconds copy) (get_total_elapsed_seconds copy))
            (tick_fn oc quiet fuel gtime);
  if f64_gt (get_total_elapsed_seconds gtime) (f64_of_Z 5) then mret (Break tt) else mret (Continue gtime).

Definition test_gametime (tick_fuel fuel : nat) : M Env line unit :=
  v ← lift sys_version;
  _ ← emit (VersionIs v);
  gtime ← retrace (fun _ => VersionIs v) GameTime.new;
  let gtime := set_fixed_time_step true gtime in
  let gtime := set_target_elapsed_seconds (f64_div (f64_of_Z 1) (f64_of_Z 60)) gtime in
  loop fuel (test_round tick_fuel) gtime.
End test.

(** ** The clock after a number of frames *)
Definition sixtieth : f64 := f64_div (f64_of_Z 1) (f64_of_Z 60).
Definition total_after (n : nat) : f64 := Nat.iter n (fun s => f64_add s sixtieth) (f64_of_Z 0).
Definition elapsed_after (n : nat) : f64 := if (n =? 0)%nat then f64_of_Z 0 else sixtieth.

Lemma sixtieth_val : nonneg sixtieth /\ 59 * fval sixtieth < f_unit /\ f_unit < 61 * fval sixtieth.
Proof. split_and!; by vm_compute. Qed.

(** The total grows with the frames, which is not so without end: past [2 ^ 53]
    targets adding one changes nothing. *)
Lemma total_grows n :
  (n < Z.to_nat (2 ^ 40))%nat ->
  nonneg (total_after n) /\ fval (total_after n) <= 2 * Z.of_nat n * fval sixtieth /\
  fval (total_after n) <= fval (total_after (S n)).
Proof.
  destruct sixtieth_val as (HT & HT1 & HT2). pose proof f_unit_pos.
  assert (forall s k, nonneg s -> fval s <= 2 * k * fval sixtieth -> 0 <= k < 2 ^ 41 ->
    nonneg (f64_add s sixtieth) /\ fval s <= fval (f64_add s sixtieth) <= 2 * (k + 1) * fval sixtieth) as Hstep.
  { intros s k Hs Hk Hk1. pose proof (fval_nonneg _ Hs).
    assert (fval s + fval sixtieth < f_top) as Htop.
    { apply f_top_large. assert (2 ^ 43 <= 2 ^ 200) by (by apply Z.pow_le_mono_r). nia. }
    destruct (f64_add_nonneg s sixtieth Hs HT Htop) as [Hn He]. split; [done|].
    change (2 ^ 53) with (2 ^ 43 * 2 ^ 10) in He. change (2 ^ 41) with 2199023255552 in *.
    change (2 ^ 43 * 2 ^ 10) with 9007199254740992 in He. nia. }
  intros Hn. assert (Z.of_nat n < 2 ^ 40) as Hz by lia. clear Hn.
  assert (nonneg (total_after n) /\ fval (total_after n) <= 2 * Z.of_nat n * fval sixtieth) as [H1 H2].
  { induction n as [|n IH]; [split; [done|by vm_compute]|]. destruct IH as [IH1 IH2]; [lia|].
    destruct (Hstep _ (Z.of_nat n) IH1 IH2) as (H1 & H2); [lia|]. split; [done|]. change (total_after (S n)) with
      (f64_add (total_after n) sixtieth). lia. }
  split_and!; [done..|]. by apply (Hstep _ (Z.of_nat n)); [| |lia].
Qed.

Lemma total_mono n m :
  (n <= m < Z.to_nat (2 ^ 40))%nat -> fval (total_after n) <= fval (total_after m).
Proof.
  intros [Hle Hm]. induction Hle as [|m Hle IH]; [lia|].
  etrans; [apply IH; lia|]. apply total_grows. lia.
Qed.

(** Five seconds take 301 frames: the sum of 300 is rounded below five. *)
Lemma five_seconds m :
  (m < Z.to_nat (2 ^ 40))%nat -> f64_gt (total_after m) (f64_of_Z 5) = (301 <=? m)%nat.
Proof.
  intros Hm. destruct (total_grows m Hm) as (Hn & _).
  assert (nonneg (f64_of_Z 5) /\ fval (total_after 300) <= fval (f64_of_Z 5) < fval (total_after 301)) as [H5 H]
    by (split_and!; by vm_compute).
  rewrite f64_gt_fval by done. destruct (Nat.leb_spec 301 m).
  - pose proof (total_mono 301 m ltac:(lia)). apply Z.ltb_lt. lia.
  - pose proof (total_mono m 300 ltac:(lia)). apply Z.ltb_ge. lia.
Qed.

(** ** One tick of the test *)
Section tick.
Context {Env : Type} `{!Clock Env} `{!ClockLaws Env} (oc : overflow).
Implicit Types e : Env.

Lemma wp_both {A Ev} (m : M Env Ev A) (Q Q' : res A -> Env -> list Ev -> Prop) e :
  wp m Q e -> wp m Q' e -> wp m (fun r e' t => Q r e' t /\ Q' r e' t) e.
Proof. unfold wp. by destruct (m e) as [[r e'] t]. Qed.

(** What the frames leave alone, and count, when the counter has room. *)
Definition counted (g : GameTime) (r : res GameTime) (t : list GameTime.event) : Prop :=
  match r with
  | Ret g' => frame_count g' = frame_count g + Z.of_nat (length t) /\ frames_this_sec g' = frames_this_sec g
  | Panic _ => False
  | NoFuel => True
  end.

Lemma quiet_loop fuel g e :
  0 <= frame_count g -> frame_count g + Z.of_nat fuel < 2 ^ 32 ->
  wp (loop fuel (fixed_step oc quiet) g) (fun r e' t => e' = e /\ (length t <= fuel)%nat /\ counted g r t) e.
Proof.
  revert g. induction fuel as [|fuel IH]; intros g H0 Hroom; [by split_and!|].
  rewrite loop_S. apply wp_bind. unfold fixed_step at 1.
  destruct (f64_ge _ _); [|apply wp_ret, wp_ret; cbn; split_and!; try done; lia].
  apply wp_bind, wp_lift. rewrite arith_u_in by lia. apply wp_bind. unfold wp at 1, call_on_tick, quiet.
  apply wp_ret. eapply wp_mono; [|apply IH; cbn; lia].
  intros r e' t (-> & Hlen & Hc). split; [done|]. split; [cbn; lia|].
  destruct r as [g'|why|]; cbn in *; [|done..]. destruct Hc as [-> ->]. split; [lia|done].
Qed.

(** The clock of the test after [m] frames. *)
Record at_frame (m : nat) (g : GameTime) : Prop := {
  at_wf : wf g;
  at_fixed : fixed_time_step g = true;
  at_target : target_elapsed_secs g = sixtieth;
  at_left : fval (left_over_ticks g) < fval sixtieth;
  at_total : total_secs g = total_after m;
  at_elapsed : elapsed_secs g = elapsed_after m;
  at_count : frame_count g = Z.of_nat m;
  at_rate : frames_this_sec g <= Z.of_nat m;
}.

(** A nanosecond. *)
Definition nano : f64 := f64_lit 1 nanos_per_sec.
Definition later (t t' : Instant) : Prop := f64_ge (as_secs_f64 (instant_sub t' t)) nano = true.

(** What is left over grows by half a nanosecond at least when no frame is due. *)
Lemma left_grows t g :
  wf g -> target_elapsed_secs g = sixtieth -> fval (left_over_ticks g) < fval sixtieth ->
  0 <= t < 2 ^ 94 -> later (last_time g) t ->
  2 * fval (left_over_ticks g) + fval nano <= 2 * fval (left_over_ticks (start t g)).
Proof.
  intros Hwf HT Hlt Ht Hlater. unfold later in Hlater. pose proof f_unit_pos.
  assert (nonneg nano /\ fval nano <= f_unit /\ f_unit < 2 ^ 31 * fval nano /\ fval nano <= fval sixtieth)
    as (Hn & Hn1 & Hn2 & Hn3) by (split_and!; by vm_compute).
  destruct sixtieth_val as (HT0 & HT1 & _).
  destruct (as_secs_f64_nonneg (instant_sub t (last_time g))) as [Hd _]; [apply instant_sub_range; [done|apply Hwf]|].
  rewrite f64_ge_fval in Hlater by done. apply Z.leb_le in Hlater.
  destruct (delta_bounds t g) as [Hd1 Hd2]; [apply Hwf|done|].
  destruct max_delta_val as [HM HM1].
  assert (fval nano <= fval (delta t g)) as Hdelta.
  { unfold delta, clamp_delta in *. case_match; [|done]. lia. }
  destruct (snap_bounds t g Hwf Ht) as [Hs1 Hs2].
  assert (fval nano <= fval (snap_delta (target_elapsed_secs g) (delta t g))) as Hsnap.
  { unfold snap_delta. rewrite HT. by case_match. }
  destruct (wf_left g Hwf) as [Hl Hl1]. pose proof (fval_nonneg _ Hl).
  cbn [start left_over_ticks set_left_over_ticks]. set (d := snap_delta _ _) in *. clearbody d.
  destruct (f64_add_nonneg (left_over_ticks g) d Hl Hs1) as [_ He].
  { apply f_top_large. assert (120000 <= 2 ^ 200) by done. nia. }
  change (2 ^ 53) with 9007199254740992 in He. change (2 ^ 31) with 2147483648 in *. lia.
Qed.

(** A tick moves the clock of the test by the frames it shows; without one, the
    time left over has grown. *)
Lemma test_tick fuel m g e :
  at_frame m g -> (m <= 300)%nat -> enough_fuel fuel g -> Z.of_nat fuel <= 2 ^ 31 ->
  wp (tick_fn oc quiet fuel g) (fun r e' t => e' = snd (now e) /\ exists n g',
    r = Ret g' /\ t = replicate n OnTick /\ (n <= fuel)%nat /\ at_frame (m + n) g' /\
    last_time g' = fst (now e) /\
    (n = 0%nat -> later (last_time g) (fst (now e)) ->
     2 * fval (left_over_ticks g) + fval nano <= 2 * fval (left_over_ticks g'))) e.
Proof.
  intros [Hwf Hfix HT Hlt Htot Hel Hcnt Hrate] Hm Hfuel Hroom. pose proof (now_range e) as Hnow.
  assert (wp (tick_fn oc quiet fuel g) (fun r e' t => e' = snd (now e) /\ (length t <= fuel)%nat /\
    (r = NoFuel \/ exists g', r = Ret g')) e) as Hquiet.
  { unfold tick_fn. apply wp_bind, wp_act. intros t e1 Et. rewrite Et. cbn [snd]. cbv zeta. apply wp_bind.
    cbn [fixed_time_step set_clock]. rewrite Hfix. eapply wp_mono; [|apply quiet_loop; cbn; lia].
    intros r e2 tr (-> & Hlen & Hc). destruct r as [g1|why|]; [|done|by split_and!; auto].
    assert (exists g', track_rate oc (frame_count g) g1 = Ret g') as [g' Hg'].
    { destruct Hc as [Hc1 Hc2], (wf_rate g Hwf) as [_ Hr]. cbn in Hc1, Hc2. unfold track_rate.
      rewrite Hc1, Hc2, !arith_u_in by lia. eexists. cbn. rewrite arith_u_in by lia. done. }
    apply wp_lift. rewrite app_nil_r. change (frame_count (set_clock _ _ g)) with (frame_count g).
    rewrite Hg'. split_and!; [done|done|]. right. by eexists. }
  eapply wp_mono; [|exact (wp_both _ _ _ _ Hquiet (tick_fixed_wp oc quiet ltac:(done) fuel g e Hwf Hfix Hfuel))].
  intros r e' t [(-> & Hlen & [->|[g' ->]]) (Hr & n & -> & Hg)]; [done|]. split; [done|].
  destruct (Hg g' eq_refl) as (g1 & Hd & ->). exists n, (track n g1).
  rewrite length_replicate in Hlen. pose proof (wf_frames_done n n _ g g1 Hwf Hnow Hd) as Hwf'.
  destruct Hd as (-> & Hn & Hl & _). set (s := start _ g) in *.
  destruct (iter_frame n s) as (Elast & _ & Erate & _ & Efix & Et & _ & Es & Ec & Ee).
  destruct (track_fields n (Nat.iter n frame s)) as (Fl & Fe & Fs & Fo & Fc & Ft & Ff).
  assert (frame_count (Nat.iter n frame s) = Z.of_nat (m + n)) as Ecount.
  { rewrite <-(wrap_u_small 32 (frame_count _)) by apply iter_frame_range, Hwf.
    rewrite Ec, wrap_u_small; cbn; lia. }
  split; [reflexivity|]. split; [reflexivity|]. split; [exact Hlen|]. split; [|split].
  - split; [done|by rewrite Ff, Efix|by rewrite Ft, Et| | | |by rewrite Fc|].
    + rewrite Fo. by rewrite <-HT.
    + rewrite Fs, Es. cbn. rewrite HT, Htot. unfold total_after. by rewrite (Nat.add_comm m), Nat.iter_add.
    + rewrite Fe, Ee. cbn. rewrite HT, Hel. unfold elapsed_after. by destruct n, m.
    + unfold track. rewrite Erate. destruct (wf_rate g Hwf) as [_ Hr0].
      destruct (f64_ge _ _); cbn [frames_this_sec set_rate]; [lia|].
      change (frames_this_sec s) with (frames_this_sec g). rewrite wrap_u_small; lia.
  - by rewrite Fl, Elast.
  - intros -> Hlater. rewrite Fo. cbn. by apply left_grows.
Qed.

(** ** The whole test *)

(** The lines of the ticks [ks], from the clock after [m] frames: a line for each
    frame, with the seconds the clock showed before the tick. *)
Fixpoint lines (m : nat) (ks : list nat) : list line :=
  match ks with
  | [] => []
  | k :: ks => replicate k (Seconds (elapsed_after m) (total_after m)) ++ lines (m + k) ks
  end.

(** Each of the next readings is a nanosecond after the one before, or more. *)
Fixpoint advances (n : nat) (e : Env) : Prop :=
  match n with
  | O => True
  | S n => later (fst (now e)) (fst (now (snd (now e)))) /\ advances n (snd (now e))
  end.

(** Ticks that make up one frame: each adds half a nanosecond at least to what is
    left over, and less than two targets are. *)
Definition ticks_per_frame : Z := 40000000.

Lemma test_loop tick_fuel fuel m g e :
  15000000 <= Z.of_nat tick_fuel <= 2 ^ 31 -> at_frame m g -> (m <= 300)%nat ->
  later (last_time g) (fst (now e)) -> advances fuel e ->
  (301 - Z.of_nat m) * ticks_per_frame * fval nano <
    Z.of_nat fuel * fval nano + 2 * fval (left_over_ticks g) ->
  wp (loop fuel (test_round oc tick_fuel) g) (fun r _ t => r = Ret tt /\ exists ks k,
    t = lines m (ks ++ [k]) /\ (m + sum_list ks < 301 <= m + sum_list ks + k)%nat) e.
Proof.
  intros Htf. unfold ticks_per_frame.
  assert (0 < fval nano /\ 2 * fval sixtieth + fval nano < 40000000 * fval nano) as [Hn1 Hn2] by (split; by vm_compute).
  destruct sixtieth_val as (_ & _ & HT). revert m g e.
  induction fuel as [|fuel IH]; intros m g e Hg Hm Hlater Hadv Hpot; pose proof (at_left m g Hg).
  { exfalso. nia. }
  rewrite loop_S. destruct Hadv as [Hlater' Hadv]. apply wp_bind. unfold test_round at 1. apply wp_bind, wp_retrace.
  eapply wp_mono; [|apply (test_tick tick_fuel m); [done|done| |lia]].
  2:{ unfold enough_fuel. rewrite (at_target m g Hg). pose proof f_unit_pos.
      apply (Z.lt_le_trans _ (15000000 * fval sixtieth)); [lia|]. apply Z.mul_le_mono_nonneg_r; lia. }
  intros r e1 t (-> & n & g' & -> & -> & Hn & Hg' & Hlast & Hidle).
  unfold get_elapsed_seconds, get_total_elapsed_seconds. rewrite (at_total _ g' Hg').
  rewrite five_seconds by (change (2 ^ 31) with 2147483648 in Htf; change (2 ^ 40) with 1099511627776; lia).
  rewrite fmap_replicate, (at_elapsed _ g Hg), (at_total _ g Hg).
  destruct (Nat.leb_spec 301 (m + n)) as [Hend|Hgo]; apply wp_ret.
  - apply wp_ret. split; [done|]. exists [], n. cbn. rewrite !app_nil_r. split; [done|lia].
  - rewrite app_nil_r. eapply wp_mono; [|apply (IH (m + n)%nat g'); [done|lia|by rewrite Hlast|done|]].
    + intros r e1 t (-> & ks & k & -> & Hks). split; [done|]. exists (n :: ks), k. split; [done|].
      change (sum_list (n :: ks)) with (n + sum_list ks)%nat. lia.
    + destruct (wf_left g' (at_wf _ _ Hg')) as [Hl _]. pose proof (fval_nonneg _ Hl).
      rewrite Nat2Z.inj_add. rewrite Nat2Z.inj_succ in Hpot. destruct n as [|n].
      * specialize (Hidle eq_refl Hlater). lia.
      * assert (0 <= Z.of_nat n * fval nano) by nia. rewrite Nat2Z.inj_succ. lia.
Qed.

(** The clock a test starts with. *)
Lemma at_start t :
  0 <= t < 2 ^ 94 -> at_frame 0 (set_target_elapsed_seconds sixtieth (set_fixed_time_step true
    {| last_time := t; elapsed_secs := f64_of_Z 0; total_secs := f64_of_Z 0; left_over_ticks := f64_of_Z 0;
       frame_count := 0; fps := 0; frames_this_sec := 0; seconds_counter := f64_of_Z 0;
       fixed_time_step := false; target_elapsed_secs := sixtieth |})).
Proof.
  intros [Ht _]. destruct sixtieth_val as (H1 & H2 & H3). pose proof f_unit_pos.
  assert (nonneg (f64_of_Z 0) /\ fval (f64_of_Z 0) = 0) as [Hz Hz0] by (split; by vm_compute).
  split; [|reflexivity|reflexivity| |reflexivity|reflexivity|reflexivity|];
    cbn [left_over_ticks frames_this_sec set_target_elapsed_seconds set_fixed_time_step]; [|rewrite Hz0; lia|lia].
  split; cbn [last_time left_over_ticks target_elapsed_secs seconds_counter frame_count fps frames_this_sec
    set_target_elapsed_seconds set_fixed_time_step]; rewrite ?Hz0.
  - exact Ht.
  - split; [exact Hz|lia].
  - split; [exact H1|]. change (2 ^ 20) with 1048576. lia.
  - split; [exact Hz|lia].
  - lia.
  - split; lia.
Qed.

(** C32: the test of the clock ends, for every clock whose readings advance by a
    nanosecond or more: in rounded arithmetic, with an explicit bound on the ticks,
    however long each takes, and in both overflow profiles. It ends with the tick in
    which the 301st frame is done, 300 sixtieths of a second being rounded below
    five; it prints a line for each frame, and every line shows the seconds of
    before its tick, so that those of the first tick say zero. *)
Theorem test_gametime_ends tick_fuel fuel e :
  15000000 <= Z.of_nat tick_fuel <= 2 ^ 31 -> 301 * ticks_per_frame < Z.of_nat fuel ->
  advances (S fuel) e ->
  wp (test_gametime oc tick_fuel fuel) (fun r _ t => r = Ret tt /\ exists ks k,
    t = VersionIs (bytes_of version_text) :: lines 0 (ks ++ [k]) /\
    (sum_list ks < 301 <= sum_list ks + k)%nat) e.
Proof.
  intros Htf Hfuel [Hlater Hadv]. unfold test_gametime. apply wp_bind, wp_lift.
  assert (sys_version = Ret (bytes_of version_text)) as -> by (by vm_compute).
  apply wp_bind, wp_emit, wp_bind, wp_retrace, wp_bind, wp_act. intros t0 e1 E. rewrite E in Hlater, Hadv.
  cbn [snd fst] in Hlater, Hadv. apply wp_ret. pose proof (now_range e) as Ht. rewrite E in Ht. cbn [fst] in Ht.
  eapply wp_mono; [|apply (test_loop tick_fuel fuel 0); [done|by apply at_start|lia|done|done|]].
  - intros r e2 t (-> & ks & k & -> & Hk). split; [done|]. by exists ks, k.
  - change (fval (left_over_ticks _)) with 0. assert (0 < fval nano) by (by vm_compute). nia.
Qed.
End tick.

(** ** A clock that advances *)
Module Runs.
(** A sixtieth of a second, as nearly as a clock of nanoseconds reads it. *)
Definition step_60 : Z := 16666667.
#[local] Instance steady_clock : Clock Z := {| now := fun e => (Z.max 0 (Z.min e (2 ^ 94 - 1)), e + step_60) |}.
#[local] Instance steady_clock_laws : ClockLaws Z.
Proof. split. intros e. cbn. lia. Qed.

Lemma steady_advances n e : 0 <= e -> e + Z.of_nat n * step_60 < 2 ^ 94 -> advances n e.
Proof.
  revert e. induction n as [|n IH]; intros e He Hn; [done|]. unfold step_60 in *.
  split; [|apply IH; cbn; unfold step_60; lia]. unfold later, instant_sub. cbn [now steady_clock fst snd].
  assert (Z.max 0 (Z.max 0 (Z.min (e + step_60) (2 ^ 94 - 1)) - Z.max 0 (Z.min e (2 ^ 94 - 1))) = step_60) as ->
    by (unfold step_60; lia).
  by vm_compute.
Qed.

(** With a frame to each tick the test prints 301 lines, the first of them zero. *)
Example steady_run :
  let '(r, _, t) := test_gametime Checked 8 400 0 in
  r = Ret tt /\ length t = 302%nat /\ t !! 1%nat = Some (Seconds (f64_of_Z 0) (f64_of_Z 0)).
Proof. by vm_compute. Qed.

Lemma test_gametime_ends_witness :
  advances (S (Z.to_nat 13000000000)) 0 /\
  fst (fst (test_gametime Checked (Z.to_nat 15000000) (Z.to_nat 13000000000) 0)) = Ret tt.
Proof.
  assert (advances (S (Z.to_nat 13000000000)) 0) as Hadv.
  { apply steady_advances; [done|]. rewrite Nat2Z.inj_succ, Z2Nat.id by lia. by vm_compute. }
  split; [exact Hadv|].
  refine (proj1 (wp_outcome _ (fun r t => r = Ret tt /\ _) _
    (test_gametime_ends Checked (Z.to_nat 15000000) (Z.to_nat 13000000000) 0 _ _ Hadv))).
  - rewrite Z2Nat.id by lia. by split.
  - rewrite Z2Nat.id by lia. by vm_compute.
Defined.
End Runs.
