(* ===== verification/TestNet.v ===== *)
(** The repository's tests of the network: the two ends of a RIST stream
    ([wolf/tests/stream_rist.rs]) and Raft over gRPC
    ([wolf/tests/system_algorithm.rs]). *)
From Stdlib Require Import SpecFloat.
From stdpp Require Import pretty.
From S2P Require Import Prelude F64 Common Os Signals RaftConverter Grpc Raft Rist.
Local Open Scope Z_scope.
#[local] Set Default Goal Selector "!".

(** ** Binary32, as far as the tests use it *)
Definition f32_of_Z (z : Z) : spec_float := binary_normalize 24 128 z 0 false.
(** [Duration::as_secs_f32]. *)
Definition as_secs_f32 (d : Duration) : spec_float :=
  SFadd 24 128 (f32_of_Z (d / nanos_per_sec))
    (SFdiv 24 128 (f32_of_Z (d mod nanos_per_sec)) (f32_of_Z nanos_per_sec)).
Definition millis (n : Z) : Duration := n * 1000000.

(** ** The RIST stream *)
Section rist.
Context `{!Errors} {L : Type} `{!Librist L} `{!Clock (heap L)} `{!Runtimes (heap L)}.

Inductive stream_line :=
| StreamVersion (text : list u8)
| OnRist (ev : Rist.event)
| SentBytes (n : Z)
| BreakingSender
| StreamSlept (d : Duration)
| StreamDone (what : string).
Abbreviation IO := (M (heap L) stream_line).

(** [Result::unwrap] in the scope of a context, which the panic drops. *)
Definition unwrap_holding {T} (owner : rist) (r : result T anyhow) : IO T :=
  match r with
  | Ok x => mret x
  | Err e => _ ← retrace OnRist (drop_rist owner);
             panic ("called `Result::unwrap()` on an `Err` value: " +:+ anyhow_debug e)
  end.
Definition unwrapped {T} (owner : rist) (call : M (heap L) Rist.event (result T anyhow)) : IO T :=
  r ← retrace OnRist call; unwrap_holding owner r.
Definition pause (d : Duration) : IO unit := obs (fun h => (tt, thread_sleep d h)) (fun _ => StreamSlept d).
Definition elapsed (t0 : Instant) : IO spec_float := t1 ← act now; mret (as_secs_f32 (instant_sub t1 t0)).

(** The data is a slice: where it is and how long. *)
Definition send_round (sender : rist) (mock_data : positive * Z) (t0 : Instant) (_ : unit) : IO (flow unit unit) :=
  data_block ← unwrapped sender new_data_block;
  _ ← retrace OnRist (set_data_block data_block mock_data);
  sent ← retrace OnRist (send sender data_block);
  _ ← emit (SentBytes sent);
  let sent_size := if sent <? 0 then 0 else sent in
  next ← (if negb (sent_size =? snd mock_data) then _ ← emit BreakingSender; mret (Break tt)
          else
            _ ← pause (millis 1);
            delta ← elapsed t0;
            mret (if SFltb (f32_of_Z 7) delta then Break tt else Continue tt));
  _ ← retrace OnRist (drop_data_block data_block);
  mret next.

Definition open_rist (m : rist_ctx_mode) : IO rist :=
  v ← lift sys_version;
  _ ← emit (StreamVersion v);
  r ← retrace OnRist (Rist.new m RIST_PROFILE_MAIN 0 RIST_LOG_DEBUG);
  match r with
  | Ok x => mret x
  | Err e => panic ("called `Result::unwrap()` on an `Err` value: " +:+ anyhow_debug e)
  end.
Definition connect_to (self : rist) (url : string) : IO rist :=
  '(self, r) ← retrace OnRist (Rist.connect self url);
  _ ← unwrap_holding self r;
  mret self.

Definition test_send_rist (mock_data : positive * Z) (fuel : nat) : IO unit :=
  sender ← open_rist RIST_SENDER_MODE;
  sender ← connect_to sender "rist://127.0.0.1:1234";
  t0 ← act now;
  _ ← loop fuel (send_round sender mock_data t0) tt;
  _ ← emit (StreamDone "test_send_rist done");
  retrace OnRist (drop_rist sender).

Definition receive_round (t0 : Instant) (_ : unit) : IO (flow unit unit) :=
  _ ← pause (millis 10);
  delta ← elapsed t0;
  mret (if SFltb (f32_of_Z 10) delta then Break tt else Continue tt).

Definition test_receive_rist (fuel : nat) : IO unit :=
  receiver ← open_rist RIST_RECEIVER_MODE;
  _ ← unwrapped receiver (set_conn_status_callback receiver);
  _ ← unwrapped receiver (set_out_of_band_callback receiver);
  _ ← unwrapped receiver (set_stats_callback receiver);
  _ ← unwrapped receiver (set_receiver_data_callback receiver);
  receiver ← connect_to receiver "rist://@127.0.0.1:1234";
  t0 ← act now;
  _ ← loop fuel (receive_round t0) tt;
  _ ← emit (StreamDone "test_receive_rist done");
  retrace OnRist (drop_rist receiver).

(** Both tests again, on threads of their own; [join] waits for a thread, and tells
    whether it panicked. *)
Inductive rist_task := SendTask | ReceiveTask.
Definition rist_task_body (mock_data : positive * Z) (fuel : nat) (task : rist_task) : IO unit :=
  match task with
  | SendTask => test_send_rist mock_data fuel
  | ReceiveTask => _ ← pause (Signals.seconds 1); test_receive_rist fuel
  end.
Context (join : rist_task -> heap L -> result unit string * heap L).
Definition unwrap_join (task : rist_task) : IO unit :=
  r ← act (join task);
  match r with
  | Ok _ => mret tt
  | Err why => panic ("called `Result::unwrap()` on an `Err` value: " +:+ why)
  end.
Definition test_send_receive_rist : IO unit :=
  _ ← act (fun h => (tt, thread_spawn h));
  _ ← act (fun h => (tt, thread_spawn h));
  _ ← unwrap_join SendTask;
  _ ← unwrap_join ReceiveTask;
  emit (StreamDone "test_send_receive_rist done").
End rist.

(** ** Raft over gRPC *)
Section raft.
Context `{!Errors} `{!Net} {Env : Type} `{!Transport Env} `{!Runtimes Env} `{!RaftLib}.

Definition raft_config : GrpcServerConfig := {|
  address := "0.0.0.0"; port := 7777; tls := false; tls_certificate_path := None; tls_private_key_path := None;
  tcp_no_delay := true; tcp_keep_alive := None; http2_keepalive_interval := None;
  http2_keepalive_timeout := None; accept_http1 := true |}.

(** The task that asks for the shutdown after three seconds, and the server. *)
Inductive raft_line :=
| ShutdownTask
| OnGrpc (ev : Grpc.event Env).

Definition test_raft_over_grpc : M Env raft_line unit :=
  _ ← obs (fun e => (tt, tokio_spawn e)) (fun _ => ShutdownTask);
  srv ← lift (get_service "wolf" 1);
  ret ← retrace OnGrpc (run_server raft_config);
  match ret with
  | Ok _ => mret tt
  | Err e => panic ("Err(" +:+ anyhow_debug e +:+ ")")
  end.
End raft.

(** ** What the tests of RIST show *)
Section rist_proofs.
Context `{!Errors} {L : Type} `{!Librist L} `{!LibristLaws L} `{!Clock (heap L)} `{!Runtimes (heap L)}.
Implicit Types h : heap L.

(** The sizes sent, and the blocks released. *)
Definition sends : list stream_line -> list Z := omap (fun l => match l with SentBytes n => Some n | _ => None end).
Definition freed : list stream_line -> list positive :=
  omap (fun l => match l with OnRist (FreeBlock a) => Some a | _ => None end).

(** Connecting reads past the end of the URL, which is a [String]. *)
Lemma connect_undefined self url h :
  has_nul url = false -> wp (connect_to self url) (fun r h' t => r = Panic UB_OVERREAD /\ t = []) h.
Proof.
  intros Hu. unfold connect_to, Rist.connect, w_rist_connect. apply wp_bind, wp_retrace, wp_bind, wp_bind, wp_lift.
  by rewrite c_str_unterminated.
Qed.

(** The context of a test, or the panic of its [unwrap]. *)
Lemma open_rist_wp m h (Q : res rist -> heap L -> list stream_line -> Prop) :
  (forall c h' k, ctx c = Some k -> is_Some (ctxs h' !! k) -> Q (Ret c) h' [StreamVersion (bytes_of version_text)]) ->
  (forall why h', Q (Panic why) h' [StreamVersion (bytes_of version_text)]) ->
  wp (open_rist m) Q h.
Proof.
  intros HR HP. unfold open_rist. apply wp_bind, wp_lift.
  assert (sys_version = Ret (bytes_of version_text)) as -> by (by vm_compute).
  apply wp_bind, wp_emit, wp_bind, wp_retrace. unfold Rist.new. apply wp_bind, w_rist_init_wp.
  - intros l _. apply wp_bind, wp_ret, wp_ret, wp_panic, HP.
  - intros l w _. apply wp_bind, wp_ret, wp_ret, wp_panic, HP.
  - intros l w _. apply wp_ret, wp_ret. eapply HR; [done|]. cbn. rewrite lookup_insert_eq. by eexists.
Qed.

(** A context whose registration fails is dropped by the panic. *)
Lemma register_wp (k : registration) what c a h (Q : res unit -> heap L -> list stream_line -> Prop) :
  ctx c = Some a -> is_Some (ctxs h !! a) ->
  (forall l, Q (Ret tt) (set_lib l h) []) -> (forall why h', Q (Panic why) h' [OnRist (FreeCtx a)]) ->
  wp (unwrapped c (set_callback k what c)) Q h.
Proof.
  intros Ha [w Hw] HR HP. unfold unwrapped, set_callback. apply wp_bind, wp_retrace. apply wp_bind.
  assert (wp (w_rist_set k (ctx c)) (fun r h' t => exists z l, r = Ret z /\ h' = set_lib l h /\ t = []) h) as Hset.
  { unfold w_rist_set. rewrite Ha. apply wp_bind. eapply deref_ctx_live; [done|].
    destruct (_ && _); [apply wp_ret; exists (-1), (lib h); split_and!; [done|by destruct h|done]|].
    apply wp_bind, wp_on_lib. intros z l. apply wp_ret. by do 2 eexists. }
  eapply wp_mono; [|exact Hset]. intros r h' t (z & l & -> & -> & ->). apply wp_ret. cbn [map app fmap list_fmap].
  destruct (z =? 0); [apply wp_ret, HR|]. unfold unwrap_holding, drop_rist. rewrite Ha.
  apply wp_bind, wp_retrace. eapply (fini_live a w); [exact Hw|]. intros l'. apply wp_panic, HP.
Qed.

(** Both tests have undefined behaviour, when they connect, whatever the library
    does, unless they panic before; neither sends a block, nor ends. *)
Theorem rist_tests_undefined mock fuel h :
  wp (test_send_rist mock fuel) (fun r _ t => (exists why, r = Panic why) /\
    t = [StreamVersion (bytes_of version_text)]) h /\
  wp (test_receive_rist fuel) (fun r _ t => exists k,
    (exists why, r = Panic why) /\ (t = [StreamVersion (bytes_of version_text)] \/
      t = [StreamVersion (bytes_of version_text); OnRist (FreeCtx k)])) h.
Proof.
  assert (has_nul "rist://127.0.0.1:1234" = false /\ has_nul "rist://@127.0.0.1:1234" = false) as [Hs Hr] by (by vm_compute).
  split.
  - apply wp_bind, open_rist_wp; [|by eauto]. intros c h' k _ _. apply wp_bind.
    eapply wp_mono; [|by apply connect_undefined]. intros r h1 t [-> ->]. by eauto.
  - apply wp_bind, open_rist_wp; [|intros; exists 1%positive; by eauto]. intros c h' k Hk Hlive.
    do 4 (apply wp_bind; eapply register_wp; [exact Hk|exact Hlive|intros ?|intros; exists k; cbn; by eauto]).
    apply wp_bind. eapply wp_mono; [|by apply connect_undefined]. intros r h1 t [-> ->]. exists k. cbn. by eauto.
Qed.

(** The library's calls and the clock leave the blocks and contexts alone. *)
Class QuietSteps : Prop := {
  now_lib h : exists l, snd (now h) = set_lib l h;
  sleep_lib d h : exists l, thread_sleep d h = set_lib l h;
  write_lib a b h : exists l, snd (rist_sender_data_write a b h) = set_lib l h;
}.
Context `{!QuietSteps}.

Lemma wp_now h (Q : res Instant -> heap L -> list stream_line -> Prop) :
  (forall t l, Q (Ret t) (set_lib l h) []) -> wp (act now) Q h.
Proof. intros HQ. apply wp_act. intros t h' Hn. destruct (now_lib h) as [l Hl]. rewrite Hn in Hl. cbn in Hl. subst. apply HQ. Qed.
Lemma wp_pause d h (Q : res unit -> heap L -> list stream_line -> Prop) :
  (forall l, Q (Ret tt) (set_lib l h) [StreamSlept d]) -> wp (pause d) Q h.
Proof. intros HQ. apply wp_obs. intros [] h' [= <-]. destruct (sleep_lib d h) as [l ->]. apply HQ. Qed.

(** One round of a sender that is connected: one block is made, sent and released,
    or there was no memory and the context is released. *)
Definition sent_one (mock : positive * Z) (r : res (flow unit unit)) (t : list stream_line) : Prop :=
  (exists b, freed t = [b]) /\ exists n, sends t = [n] /\
  (r = Ret (Break tt) \/ r = Ret (Continue tt) /\ (0 < snd mock -> n = snd mock)).

Lemma send_round_wp sender mock t0 k h :
  ctx sender = Some k -> is_Some (ctxs h !! k) ->
  wp (send_round sender mock t0 tt) (fun r h' t => blocks h' = blocks h /\
    (ctxs h' = ctxs h /\ sent_one mock r t \/
     ctxs h' = delete k (ctxs h) /\ (exists why, r = Panic why) /\ t = [OnRist (FreeCtx k)])) h.
Proof.
  intros Hk [w Hw]. unfold send_round. apply wp_bind. unfold unwrapped. apply wp_bind, wp_retrace.
  pose proof (is_fresh (dom (blocks h))) as Hfresh%not_elem_of_dom.
  apply init_data_block_wp; cbn zeta.
  2:{ intros l. apply wp_ret. cbn [app fmap list_fmap map]. unfold unwrap_holding, drop_rist. rewrite Hk.
      apply wp_bind, wp_retrace. eapply (fini_live k w); [exact Hw|]. intros l1. apply wp_panic. split; [done|].
      right. split; [done|]. by split; [eexists|]. }
  intros l. apply wp_ret. set (b := fresh (dom (blocks h))) in *. cbn [app fmap list_fmap map].
  apply wp_bind, wp_retrace. unfold set_data_block, w_rist_set_data_block. apply wp_bind.
  eapply deref_block_live; [by apply lookup_insert_eq|]. apply wp_act. intros [] h1 [= <-].
  apply wp_bind, wp_retrace. unfold send, w_rist_write. rewrite Hk. apply wp_bind.
  eapply deref_ctx_live; [exact Hw|]. apply wp_bind. eapply deref_block_live; [by apply lookup_insert_eq|].
  apply wp_act. intros n h2 Hwr. match type of Hwr with rist_sender_data_write ?a ?c ?g = _ =>
    destruct (write_lib a c g) as [l2 Hl2] end. rewrite Hwr in Hl2. cbn [snd] in Hl2. subst h2.
  assert (forall (next : flow unit unit) l3 (Q : res (flow unit unit) -> heap L -> list stream_line -> Prop),
    (forall h', blocks h' = blocks h -> ctxs h' = ctxs h -> Q (Ret next) h' [OnRist (FreeBlock b)]) ->
    wp (_ ← retrace OnRist (drop_data_block (mkDataBlock (Some b))); mret next) Q
      (set_lib l3 (set_blocks (<[b := mkBlock (Some (fst mock)) (snd mock)]> (<[b := mkBlock None 0]> (blocks h))) h)))
    as Hdrop.
  { intros next l3 Q HQ. apply wp_bind, wp_retrace, drop_live; [eexists; apply lookup_insert_eq|].
    intros l4. apply wp_ret, HQ; [|done]. cbn. by rewrite insert_insert_eq, delete_insert_id. }
  apply wp_bind, wp_emit, wp_bind. destruct (negb _) eqn:Hsize.
  - apply wp_bind, wp_emit, wp_ret. apply (Hdrop _ l2). intros h' Hb Hc. split; [done|]. left. split; [done|].
    split; [by exists b|]. exists n. split; [done|by left].
  - apply wp_bind, wp_pause. intros l3. apply wp_bind. unfold elapsed. apply wp_bind, wp_now. intros t1 l4.
    apply wp_ret, wp_ret. apply (Hdrop _ l4). intros h' Hb Hc. split; [done|]. left. split; [done|].
    split; [by exists b|]. exists n. split; [done|]. destruct (SFltb _ _); [by left|right]. split; [done|].
    intros Hpos. apply negb_false_iff, Z.eqb_eq in Hsize. destruct (Z.ltb_spec n 0); lia.
Qed.

(** A sender that is connected, while the library and the clock leave the heap
    alone: every round makes one block, sends it and releases it, so that nothing
    is left of them; all blocks but the last were sent whole; and without memory
    the panic releases the context. *)
Theorem sender_releases sender mock t0 k fuel h :
  ctx sender = Some k -> is_Some (ctxs h !! k) -> 0 < snd mock ->
  wp (loop fuel (send_round sender mock t0) tt) (fun r h' t => blocks h' = blocks h /\
    length (freed t) = length (sends t) /\
    match r with
    | Panic _ => ctxs h' = delete k (ctxs h) /\ Forall (fun n => n = snd mock) (sends t) /\ OnRist (FreeCtx k) ∈ t
    | NoFuel => ctxs h' = ctxs h /\ sends t = replicate fuel (snd mock)
    | Ret _ => ctxs h' = ctxs h /\ exists ns n, sends t = ns ++ [n] /\ Forall (fun n => n = snd mock) ns
    end) h.
Proof.
  intros Hk Hlive Hpos. revert h Hlive. induction fuel as [|fuel IH]; intros h Hlive; [by split_and!|].
  rewrite loop_S. apply wp_bind. eapply wp_mono; [|by apply send_round_wp].
  intros r h1 t (Hb & [(Hc & (b & Hf) & n & Hs & Hnext)|(Hc & [why ->] & ->)]).
  2:{ split_and!; [done..|]. by left. }
  destruct Hnext as [->|[-> Hn]].
  - apply wp_ret. rewrite app_nil_r. split; [done|]. rewrite Hf, Hs. split; [done|]. split; [done|]. by exists [], n.
  - specialize (Hn Hpos) as ->. rewrite <-Hc in Hlive. eapply wp_mono; [|by apply IH].
    intros r h2 u (Hb2 & Hlen & Hr). unfold freed, sends in *. rewrite !omap_app, Hf, Hs, !length_app, Hlen.
    split; [by rewrite Hb2|]. split; [done|]. rewrite <-Hc.
    destruct r as [[]|why|].
    + destruct Hr as (Hc2 & ns & n & -> & Hall). split; [done|]. exists (snd mock :: ns), n. split; [done|]. by constructor.
    + destruct Hr as (Hc2 & Hall & Hin). split; [done|]. split; [by constructor|]. apply elem_of_app. by right.
    + destruct Hr as [Hc2 ->]. by split.
Qed.
End rist_proofs.

(** ** What the test of Raft shows *)
Section raft_proofs.
Context `{!Errors} `{!Net} {Env : Type} `{!Transport Env} `{!Runtimes Env} `{!RaftLib}.

(** The test passes exactly when the library accepts the configuration and the
    server, without TLS, without delays and with HTTP/1, serves on port 7777 until
    it is told to stop; it serves once at most. *)
Theorem raft_test_passes a (e : Env) :
  addr_from_str "0.0.0.0:7777" = Ok a ->
  wp test_raft_over_grpc (fun r _ t =>
    if is_ok (config_validate "wolf") then
      exists v, t = [ShutdownTask; OnGrpc (Serve (mkBuilder true None None None true None) a v)] /\
        (r = Ret tt <-> v = Ok tt)
    else t = [ShutdownTask] /\ exists why, r = Panic why) e.
Proof.
  intros Ha. unfold test_raft_over_grpc. apply wp_bind, wp_obs. intros [] e1 _. apply wp_bind, wp_lift.
  unfold get_service, Srv_new, Raft.new. destruct (config_validate "wolf") as [c|x]; cbn [is_ok]; [|cbn; by eauto].
  apply wp_bind, wp_retrace. unfold run_server. apply wp_try, wp_ret.
  change (address raft_config +:+ ":" +:+ pretty (port raft_config)) with "0.0.0.0:7777"%string. rewrite Ha.
  cbn [tls raft_config]. apply wp_bind, wp_obs. intros v e2 _. apply wp_ret.
  destruct v as [[]|x]; [apply wp_ret|apply wp_panic]; eexists; by split.
Qed.
End raft_proofs.

(** ** Runs *)
Module Runs.
Import Concrete Rist.Runs.

(** A heap that keeps a clock: the pauses are what moves it. *)
#[local] Instance pausing_rist : Librist Z := {|
  calloc_fails := fun l => (false, l);
  rist_logging_set := fun _ _ l => (0, l);
  rist_create := fun _ _ l => (0, l);
  simulate_loss := fun _ _ l => l;
  rist_destroy := fun _ l => l;
  rist_parse_address2 := fun _ l => (0, l);
  rist_peer_create := fun _ l => (0, l);
  rist_start := fun _ l => (0, l);
  rist_register := fun _ _ l => (0, l);
  rist_sender_data_write := fun _ a h =>
    (match blocks h !! a with Some b => payload_len b | None => -1 end, h);
  rist_receiver_data_read2 := fun _ p _ h => ((0, p), h);
  rist_receiver_data_block_free2 := fun a h => (None, set_blocks (delete a (blocks h)) h);
|}.
#[local] Instance pausing_laws : LibristLaws Z.
Proof. split. intros a h _. exists (lib h). left. by destruct h. Qed.
#[local] Instance pausing_clock : Clock (heap Z) := {| now := fun h => (lib h, h) |}.
#[local] Instance pausing_runtimes : Runtimes (heap Z) := {|
  thread_spawn := id; tokio_spawn := id;
  thread_sleep := fun d h => set_lib (lib h + d) h; tokio_sleep := fun d h => set_lib (lib h + d) h |}.
#[local] Instance pausing_quiet : QuietSteps.
Proof. split; intros; [exists (lib h)|eexists|exists (lib h)]; by destruct h. Qed.

(** Seven seconds take 7001 rounds of a millisecond; here the last second. *)
Example last_rounds :
  let '(r, h, t) := loop 10 (send_round sender (9%positive, 11) 0) tt
                      (mkHeap ∅ {[ 5%positive := mkCtx 1 true true ]} {[ 9%positive := hello ]} 6997000000) in
  r = Ret tt /\ length (sends t) = 4%nat /\ blocks h = ∅.
Proof. by vm_compute. Qed.
End Runs.
