(* ===== verification/TestUdp.v ===== *)
(** The test of the UDP endpoint ([test] of [stream/udp.rs]): a server that answers
    every datagram with a greeting for ten seconds. *)
From stdpp Require Import pretty.
From S2P Require Import Prelude F64 Common Udp.
Local Open Scope Z_scope.
#[local] Set Default Goal Selector "!".

Section test.
Context `{!Errors} `{!Net} {Env : Type} `{!Clock Env} `{!Race Env} `{!UdpSocket Env}.
(** The error of a text that is not UTF-8. *)
Context (utf8_error : list u8 -> anyhow).

(** The callbacks; what they print is left out. *)
Definition on_bind_socket : OnSocketCallback Env := {| on_socket := fun _ e => (Ret (Ok tt), e) |}.
Definition on_close_socket_ : OnCloseSocketCallback Env := {| on_close_socket := fun _ _ e => (Ret (Ok tt), e) |}.

Definition greeting : list u8 := bytes_of_string "hello...world!" ++ [Byte.x00].
Definition greet (p_socket_time_in_secs : f64) (p_msg : Buffer) : Buffer * result unit anyhow :=
  let unreadable := (size p_msg >? 0) && bool_decide (from_utf8 (buf p_msg) = None) in
  if unreadable then (p_msg, Err (utf8_error (buf p_msg)))
  else
    let p_msg := set_buf (overwrite greeting (buf p_msg)) p_msg in
    let p_msg := set_size (Z.of_nat (length greeting)) p_msg in
    (p_msg, if f64_gt p_socket_time_in_secs (f64_of_Z 10) then Err (anyhow_msg "closing socket") else Ok tt).

Lemma greet_wf secs b : buffer_wf b -> buffer_wf (fst (greet secs b)).
Proof.
  intros [Hlen Hs]. unfold greet. destruct (_ && _); [by split|]. cbn [fst]. split; cbn [set_size set_buf buf size].
  - rewrite length_overwrite; [done|]. change (length greeting) with 15%nat. unfold MAX_MSG_SIZE in *. lia.
  - by change (Z.of_nat (length greeting)) with 15.
Qed.

Definition on_msg_callback : OnMessageCallback Env.
Proof.
  refine {| on_message := fun secs _ b e => (Ret (greet secs b), e) |}.
  intros s a b e b' r e' Hb [= Hg _]. pose proof (greet_wf s b Hb) as Hw. by rewrite Hg in Hw.
Defined.

Definition test_udp (fuel : nat) : M Env event unit :=
  ret ← connect fuel "0.0.0.0" 8000 UDPServer (f64_of_Z 3) on_bind_socket on_msg_callback on_close_socket_;
  match ret with
  | Ok _ => mret tt
  | Err e => panic ("Err(" +:+ anyhow_debug e +:+ ")")
  end.
End test.

(** ** What the test shows *)
Section proofs.
Context `{!Errors} `{!Net} {Env : Type} `{!Clock Env} `{!Race Env} `{!UdpSocket Env} `{!UdpLaws Env}.
Context (utf8_error : list u8 -> anyhow).
Implicit Types e : Env.

(** A datagram of the test: the greeting in front of what the array held. *)
Definition greets (d : list u8) : Prop :=
  Z.of_nat (length d) = MAX_MSG_SIZE /\ take (length greeting) d = greeting.
Definition greeted (ev : event) : Prop := match ev with Send d _ _ => greets d | _ => True end.

Lemma greet_ok secs b after :
  buffer_wf b -> greet utf8_error secs b = (after, Ok tt) -> greets (buf after).
Proof.
  intros Hb Hg. pose proof (greet_wf utf8_error secs b Hb) as [Hlen _]. rewrite Hg in Hlen. split; [done|].
  unfold greet in Hg. destruct (_ && _); [done|]. destruct (f64_gt _ _); [done|]. injection Hg as <-.
  cbn [set_size set_buf buf]. apply take_overwrite.
Qed.

(** The events of a round: at most one datagram, with a greeting. *)
Ltac shown := repeat first [assumption | apply Forall_cons; split; [first [exact I | assumption]|] | apply Forall_nil; exact I].

Lemma greeting_loop secs start fuel b e :
  timeout_ok secs -> buffer_wf b ->
  wp (loop fuel (server_round secs (on_msg_callback utf8_error) start) b)
    (fun r _ t => (forall why, r <> Panic why) /\ Forall greeted t) e.
Proof.
  intros Hok. revert b e. induction fuel as [|fuel IH]; intros b e Hb; [by split|].
  rewrite loop_S. apply wp_bind. unfold server_round at 1. apply wp_bind, wp_act. intros t1 e1 _. cbn zeta. unfold read.
  apply wp_bind, wp_with_timeout; [done| |].
  { intros d e2 Hd. apply wp_bind, wp_lift. rewrite Hd. by do 3 apply wp_ret. }
  clear e1. intros e1. apply wp_obs. intros [[d a]|x] e2 Hread; [|do 2 apply wp_ret; split; [done|by repeat constructor]].
  apply recv_from_cap in Hread; [|done]. pose proof (received_wf b d Hb Hread) as Hb1.
  apply wp_bind, wp_call. intros r e3 Hcb. destruct r as [[after [[]|x]]|why|]; [| |done|by split; [|repeat constructor]].
  2:{ do 2 apply wp_ret. split; [done|by repeat constructor]. }
  pose proof (on_message_wf (on_msg_callback utf8_error) Hb1 Hcb) as Hwf.
  injection Hcb as Hg _. pose proof (greet_ok _ _ _ Hb1 Hg) as Hgr.
  cbn [is_err is_ok negb].
  destruct (Z.of_nat (length d) >? 0).
  2:{ apply wp_ret. eapply wp_mono; [|by apply IH]. intros r e4 t [Hr Ht]. split; [done|]. by repeat constructor. }
  unfold send. apply wp_bind, wp_with_timeout; [done| |].
  { intros y e4 Hy. apply wp_bind, wp_lift. rewrite Hy. do 3 apply wp_ret. split; [done|shown]. }
  intros e4. apply wp_obs. intros [n|y] e5 _; [|do 2 apply wp_ret; split; [done|shown]].
  apply wp_ret. eapply wp_mono; [|by apply IH]. intros r e6 t [Hr Ht]. split; [done|]. shown.
Qed.

(** The test never fails once it has its socket: the server greets every sender
    with a whole array, the greeting in front, and whatever ends it (the callback
    after ten seconds, a text that is not UTF-8, a timeout, an error of the socket)
    the close callback runs last and the test passes. Without the socket it panics
    before any callback. *)
Theorem test_udp_greets fuel e :
  wp (test_udp utf8_error fuel) (fun r _ t => Forall greeted t /\
    match r with
    | Ret _ => exists a t' msg, t = Bind a (Ok tt) :: OnBind a (Ok tt) :: t' ++ [OnClose a msg (Ok tt)]
    | Panic _ => t = [] \/ exists a x, t = [Bind a (Err x)]
    | NoFuel => exists a t', t = Bind a (Ok tt) :: OnBind a (Ok tt) :: t'
    end) e.
Proof.
  assert (timeout_ok (f64_of_Z 3)) as Hok by (by vm_compute).
  unfold test_udp. apply wp_bind. unfold connect. apply wp_try, wp_ret.
  destruct (addr_from_str _) as [a|x]; [|apply wp_panic; split; [constructor|by left]].
  apply wp_try, wp_obs. intros [[]|x] e1 _; [|apply wp_panic; split; [by repeat constructor|right; by eexists _, _]].
  apply wp_try, wp_call. intros r e2 [= <- _]. apply wp_bind, wp_act. intros start e3 _. apply wp_try, wp_bind.
  eapply wp_mono; [|apply greeting_loop; [exact Hok|apply Buffer_new_wf]].
  intros r e4 t [Hr Ht]. destruct r as [msg|why|]; [|by destruct (Hr why)|].
  - apply wp_ret, wp_call. intros r e5 [= <- _]. apply wp_ret. rewrite !app_nil_r. cbn [app]. split.
    + do 2 (constructor; [done|]). apply Forall_app. by repeat constructor.
    + by exists a, t, msg.
  - cbn [app]. split; [by do 2 (constructor; [done|])|]. by exists a, t.
Qed.
End proofs.

(** ** A run *)
Module Runs.
Import Concrete Udp.Runs.
Example greeting_run :
  let '(r, e, t) := test_udp (Env := peer) (fun _ => "utf8"%string) 3 (mkPeer [[Byte.x41]] [] 0) in
  r = Ret tt /\ take 15 (outbox e) = greeting.
Proof. by vm_compute. Qed.
End Runs.
